(* ===== verification/_CoqProject ===== *)
-Q . S2P
Prelude.v
GoText.v
GoTime.v
Regex.v
GasPrice.v
Limiter.v
FaucetSvc.v
Untrusted.v
Profiles.v
Secret.v
Scope.v
ChainTypes.v
SessionManager.v
GoPath.v
FsUtil.v
Keystore.v
SessionDisk.v
ChainClient.v
ServerCore.v
Handlers.v
WriteTools.v
KeyTools.v
Parked.v
AddPkg.v
TxTools.v
SessionTools.v
Keypair.v
WritePath.v
ProfileAdd.v
FaucetMain.v
FaucetTool.v
KeyLife.v
ReadTools.v
GnoSrc.v
IndexerTools.v
ProfileCmd.v
ClaInfo.v
Registration.v
AuditCmd.v
Startup.v
ServerMain.v
NodeReads.v
ChainFake.v
Playground.v
