(* ===== verification/Prelude.v ===== *)
(** * gnomcp verification library

    A shallow embedding of gno-mcp, the MCP server that lets an agent read and
    write gno.land chains, and of the faucet service that funds its testnet
    keys.  Go functions are Rocq functions; a Go [(T, error)] is [res E T]; a
    function that touches shared state passes that state; the outside world
    (chain node, operating system, clock, third-party libraries) answers
    through parameters of the model.

    ** How the program works

    [cmd/gnomcp/main.go] loads layered profiles ([internal/profiles]), builds a
    tool registry ([internal/server]) and hands every MCP call to a handler.
    Write handlers ([internal/tools/write]) resolve an acting identity: the
    agent's own key, kept encrypted on disk ([internal/keystore],
    [internal/secret], [internal/fsutil]), or a session the user authorized on
    chain ([internal/session]), bounded by a scope the proposal was clamped to.
    They sign and broadcast through [internal/chain], which measures, prices
    ([gasprice]) and spend-checks every transaction first.  Text that came from
    the chain goes back inside an envelope ([internal/untrusted]) and a budget
    ([internal/budget]).  The faucet ([faucet]) is a separate HTTP service with
    a rate limiter in front of a dispenser.

    ** Files

    - [Prelude]: results, machine integers, tactics, list facts.  [GoText],
      [GoTime], [Regex], [GoPath]: what the source uses of Go's standard library
      (strings, quoting, integer text, durations, regular expressions, lexical
      paths).
    - [GasPrice]: [gasprice/gasprice.go], [internal/chain/gasfee.go].
    - [Limiter]: [faucet/limiter.go].  [FaucetSvc]: the faucet service, its
      dispenser, HTTP handlers, client address, access log.
    - [Untrusted]: [internal/untrusted], [internal/budget].
    - [Profiles]: [internal/profiles].  [Secret]: [internal/secret].
    - [Scope]: [internal/session/scope.go], [gnokey.go].  [ChainTypes]: the
      types of [internal/chain] the sessions share.  [SessionManager]:
      [internal/session/manager.go] and [store.go].
    - [FsUtil]: [internal/fsutil], over a file system that records every state
      a crash can leave.  [Keystore]: [internal/keystore].
    - [ChainClient]: [internal/chain/real.go] and its decoders, as a monad over
      the history of requests made to the node.
    - [ServerCore]: [internal/server], the adapter and the instructions of
      [cmd/gnomcp/main.go].
    - [WriteTools]: the dispatch every write goes through
      ([dispatch.go], [identity.go]).  [KeyTools]: gno_key_delete.
    - [Handlers]: what every handler is made of: the effects it asks the world
      for, the audit cell it fills, [args.go]'s readers, and a weakest
      precondition over them.
    - [Parked], [AddPkg]: [internal/tools/parked] and gno_addpkg with its wait
      for approval.  [TxTools]: gno_call, gno_run, gno_key_send, gno_cla_sign.
      [SessionTools]: gno_session_propose, gno_session_revoke, gno_auth_status.
      [KeyLife]: gno_key_generate, gno_key_address, gno_key_list.
    - [ProfileAdd]: gno_profile_add and [internal/gnoweb]'s discovery.
      [ProfileCmd]: gno_connect's command and [gnomcp profile].
    - [FaucetTool]: [internal/clientfaucet] and gno_faucet_fund.
    - [ReadTools], [IndexerTools], [ClaInfo]: the read tools, [internal/indexer]
      and its tools, gno_cla_info.  [GnoSrc]: [internal/gnosrc], outlines,
      symbols and dependencies over syntax trees.
    - [Registration]: every [Register*] function, the profile arguments and
      [cmd/gnomcp/register.go].  [AuditCmd]: [internal/audit] and
      [gnomcp audit].  [Startup]: the client caches and the paths of
      [cmd/gnomcp/main.go].  [ServerMain]: its subcommands, flags and [main],
      which serves the registered tools.  [NodeReads]: what the tools and the
      profile check ask a node, and the profile added to a running server.
    - [SessionDisk]: what a session file's write and removal can leave, as
      [FsUtil] gives it at the store's own paths.
    - [Keypair]: [internal/session/keypair.go], the pair a session signs with.
      [WritePath]: the write tools over the real chain client.
    - [FaucetMain]: [cmd/agentfaucet], the process around the faucet.
    - [ChainFake]: the test doubles [internal/chain/fake.go] and
      [internal/indexer/fake.go], and a handler's run answered by the first.
      [Playground]: [e2e/playground]'s gnoquery and simnet.

    ** What the theorems show

    - Sessions: a signing session was confirmed by the chain for the profile
      and master it signs for, with the scope it is enforced with, through any
      interleaving of operations, disk failures and restarts, a failed write
      that reached the disk included; a pick is the
      best usable session; spending is charged and exhausts a session; the
      store refines the interface the manager assumes; a scope is clean,
      payable and within the ceilings, and the commands a user pastes are
      shell-safe.
    - Keys: generation adds, deletion removes exactly one key, listing is
      complete, the signer is the tier's; deletion strands no funds; files are
      written whole or not at all, and a failed write may still have landed;
      blobs round-trip.
    - Chain: fees are exact and never wrap; a write broadcasts at most one
      transaction, priced from a measurement; a simulation broadcasts nothing;
      a session is inactive only on the chain's word.
    - Server: a call always answers, error text holds no envelope tag, an audit
      record names the call's tool, profile, outcome and redacted arguments, startup profiles cannot be replaced, the
      instructions fit the client's cut.
    - Faucet: the daily cap and the daily outflow hold under every interleaving,
      the sliding windows where a refund undoes the newest grant of its address
      and IP ([Limiter.late_refund_breaks_window] says why no wider); failures
      count nothing; refusals disclose
      little; one log record per request.
    - Deploys and transactions: one dispatch signs at most once, after its
      checks, with the asked identity, and its one audit record is true; a
      deploy is simulated before it is broadcast and its status is the chain's
      word; the wait for approval ends in time and reports a package live when
      its approver enables it; a key send moves funds between own keys only.
    - Session tools: a proposal commits exactly one pending session, consent is
      the chain's, the refresh is pointwise, a seed phrase changes nothing.
    - Profiles: an added profile is vetted by its own node; the command
      gno_connect prints is read back by [gnomcp profile add] word for word.
    - Faucet client: a grant the client reports was made, whatever the network
      does; a failure it calls final paid nothing unless the connection broke
      after the service had the request.
    - Key life: a generated key is what gno_key_address and gno_key_list answer.
    - Read tools: what a text tool shows is one envelope; gno_read answers
      exactly one of its modes; gno_status survives its sources; gno_activity
      is a filtered gno_history; the agreement page reaches the user as a hash, a
      link or a fixed notice; an extraction shows exactly the requested names'
      source in full or as entries, and its dependency header is what the
      declaration's tree references.
    - Registration: no tool reads an argument it does not declare, none
      misreads one of the declared type; through any profile additions a tool is
      published exactly when a configuration so far called for it, and offers
      configured profiles only.
    - Audit: what is logged, of a year JSON can write, is what [audit tail] and [audit grep] read.
    - Wiring: a client is always the one for the profile the call read; the
      process that starts serves every registered tool with its hints, and a
      profile added while it runs is served from the next call.
    - Composition: one write tool call puts at most one transaction on the
      node; what a session signs verifies under the key it was minted with; a
      faucet process pays at most its daily cap for a day's grants, whatever
      its callers do.
    - Doubles: the fake chain counts exactly the deploys a handler broadcasts,
      so a count left unchanged means none was sent; its send refuses what the
      real client's refuses; the fake indexer answers an unfiltered activity
      as the real one, and a time window, which the real one refuses, too.
    - Playground: gnoquery's exit code tells an answer from each failure;
      simnet arms the agreement gate after every deploy of its genesis.

    ** Bounds and fuel

    [int64] values are [Z] with [wrap64] after every operation the source
    performs.  Recursion on text uses the text's length as fuel, and each step
    consumes a character, so the fuel is never exhausted
    ([replace_all], quoting, UTF-8 decoding, rune counting).  [format_int] takes 19 digits, as
    many as an [int64] has; duration parsing takes the text's length;
    [MkdirAll] the path's length, which bounds its depth.
    [wait_fuel] is one poll and one more per interval the timeout spans,
    [poll_fuel] one per interval and two more: both are proved enough, the
    loops end before them ([AddPkg.waitLive_terminates],
    [FaucetTool.pollFunded_terminates]).

    ** Not modelled

    Third-party code is a parameter: scrypt and AES-GCM, BIP-39 and bech32,
    amino and TOML decoding, gnoclient's transport and signing, url.Parse,
    encoding/json.  Where a theorem needs something of it, a class states the
    documented law, with a concrete instance in the witnesses.  Wall-clock time
    is an argument.  Goroutines are modelled as interleavings of the steps their
    locks make atomic.  Text of Go's type names ([%T]) in argument errors is a
    parameter.  Tool and schema descriptions are not modelled.
    Go's parser and printer are parameters of [GnoSrc], which starts from the
    syntax tree; txtar's formatting is a parameter.  So are ed25519, SHA-256,
    bech32 and amino in [Keypair], and gno's in-memory node, its package
    loader and gnoweb in [Playground].  Flag parsing, signals, listeners,
    the OpenTelemetry set-up and the MCP SDK's transport around the two [main]
    functions are calls into libraries.
*)
From stdpp Require Import prelude strings gmap list.
From Stdlib Require Import ZArith Lia Ascii.

(** ** Results

    A Go function returning [(T, error)] returns [res E T] here: [Ok v] is
    [(v, nil)], [Err e] is [(zero, e)] with [e] a value of the component's
    own error type.  The monad is stdpp's, so [x ← c; k] is Go's
    "if err != nil then return err". *)

Inductive res (E A : Type) : Type :=
  | Ok (a : A)
  | Err (e : E).
Arguments Ok {E A} a.
Arguments Err {E A} e.

#[export] Instance res_ret {E} : MRet (res E) := @Ok E.
#[export] Instance res_bind {E} : MBind (res E) := λ A B f r,
  match r with Ok a => f a | Err e => Err e end.
#[export] Instance res_fmap {E} : FMap (res E) := λ A B f r,
  match r with Ok a => Ok (f a) | Err e => Err e end.
#[export] Instance res_eq_dec {E A} `{EqDecision E, EqDecision A} : EqDecision (res E A).
Proof. solve_decision. Defined.

(** Rewrap the error of a result ([fmt.Errorf("...: %w", err)]). *)
Definition map_err {E F A} (f : E → F) (r : res E A) : res F A :=
  match r with Ok a => Ok a | Err e => Err (f e) end.

Definition is_ok {E A} (r : res E A) : bool :=
  match r with Ok _ => true | Err _ => false end.

(** The value of an optional with an error for the missing case. *)
Definition ok_or {E A} (e : E) (o : option A) : res E A :=
  match o with Some a => Ok a | None => Err e end.

(** [guard]-like early return: [check b e; k] is [if !b { return e }]. *)
Definition check {E} (b : bool) (e : E) : res E unit := if b then Ok tt else Err e.

Lemma bind_Ok {E A B} (f : A → res E B) (r : res E A) (b : B) :
  (r ≫= f) = Ok b ↔ ∃ a, r = Ok a ∧ f a = Ok b.
Proof. destruct r; naive_solver. Qed.

Lemma map_err_Ok {E F A} (f : E → F) (r : res E A) (a : A) :
  map_err f r = Ok a ↔ r = Ok a.
Proof. destruct r; naive_solver. Qed.

Lemma check_Ok {E} (b : bool) (e : E) (u : unit) : check b e = Ok u ↔ b = true.
Proof. destruct b, u; simpl; naive_solver. Qed.

(** ** Tactics *)

(** Split every [match] of the context and the goal and clean up. *)
Ltac split_matches := repeat (case_match; simplify_eq/=).

(** Turn boolean comparisons into propositions [lia] understands. *)
Ltac b2p :=
  repeat match goal with
  | H : (_ && _)%bool = true |- _ => apply andb_true_iff in H; destruct H
  | H : (_ || _)%bool = false |- _ => apply orb_false_iff in H; destruct H
  | H : negb _ = true |- _ => apply negb_true_iff in H
  | H : negb _ = false |- _ => apply negb_false_iff in H
  | H : (_ <? _)%Z = true |- _ => apply Z.ltb_lt in H
  | H : (_ <? _)%Z = false |- _ => apply Z.ltb_ge in H
  | H : (_ <=? _)%Z = true |- _ => apply Z.leb_le in H
  | H : (_ <=? _)%Z = false |- _ => apply Z.leb_gt in H
  | H : (_ =? _)%Z = true |- _ => apply Z.eqb_eq in H
  | H : (_ =? _)%Z = false |- _ => apply Z.eqb_neq in H
  | H : (_ <? _)%nat = true |- _ => apply Nat.ltb_lt in H
  | H : (_ <? _)%nat = false |- _ => apply Nat.ltb_ge in H
  | H : (_ <=? _)%nat = true |- _ => apply Nat.leb_le in H
  | H : (_ <=? _)%nat = false |- _ => apply Nat.leb_gt in H
  | H : bool_decide _ = true |- _ => apply bool_decide_eq_true in H
  | H : bool_decide _ = false |- _ => apply bool_decide_eq_false in H
  end.

(** ** Machine integers

    A Go [int64] is a [Z] in [[-2^63, 2^63)]; every arithmetic operation the
    source performs is followed by [wrap64].  Division truncates ([Z.quot]). *)

Definition maxInt64 : Z := 9223372036854775807.
Definition minInt64 : Z := -9223372036854775808.

Definition wrap64 (z : Z) : Z := (z + 2 ^ 63) mod 2 ^ 64 - 2 ^ 63.

Definition int64 (z : Z) : Prop := (minInt64 ≤ z ≤ maxInt64)%Z.

Lemma wrap64_id z : int64 z → wrap64 z = z.
Proof.
  unfold int64, wrap64, minInt64, maxInt64. intros H.
  rewrite Z.mod_small; lia.
Qed.

Lemma wrap64_int64 z : int64 (wrap64 z).
Proof.
  unfold int64, wrap64, minInt64, maxInt64.
  pose proof (Z.mod_pos_bound (z + 2 ^ 63) (2 ^ 64)). lia.
Qed.

(** Intermediate wrap-arounds do not matter: only the last one does. *)
Lemma wrap64_add_l a b : wrap64 (wrap64 a + b) = wrap64 (a + b).
Proof.
  unfold wrap64. f_equal.
  replace ((a + 2 ^ 63) mod 2 ^ 64 - 2 ^ 63 + b + 2 ^ 63)%Z
    with ((a + 2 ^ 63) mod 2 ^ 64 + b)%Z by lia.
  rewrite Zplus_mod_idemp_l. f_equal. lia.
Qed.

Lemma wrap64_sub_l a b : wrap64 (wrap64 a - b) = wrap64 (a - b).
Proof. rewrite <- !Z.add_opp_r. apply wrap64_add_l. Qed.

Create HintDb gno.
#[export] Hint Resolve wrap64_int64 : gno.

(** Invert a successful computation written in the result monad. *)
Ltac inv_ok :=
  repeat match goal with
  | H : (_ ≫= _) = Ok _ |- _ => apply bind_Ok in H; destruct H as (? & ? & ?)
  | H : map_err _ _ = Ok _ |- _ => apply map_err_Ok in H
  | H : check _ _ = Ok _ |- _ => apply check_Ok in H
  | H : Ok _ = Ok _ |- _ => injection H as H; subst
  | H : Err _ = Ok _ |- _ => discriminate H
  end.

Lemma ok_or_Ok {E A} (e : E) (o : option A) a : ok_or e o = Ok a ↔ o = Some a.
Proof. destruct o; simpl; split; congruence. Qed.

(** The same, through [ok_or] and down to the returned value. *)
Ltac inv_res :=
  repeat match goal with
  | H : (_ ≫= _) = Ok _ |- _ => apply bind_Ok in H; destruct H as (? & ? & ?)
  | H : map_err _ _ = Ok _ |- _ => apply map_err_Ok in H
  | H : check _ _ = Ok _ |- _ => apply check_Ok in H
  | H : ok_or _ _ = Ok _ |- _ => apply ok_or_Ok in H
  | H : mret _ = Ok _ |- _ => unfold mret, res_ret in H; injection H as H; subst
  | H : Ok _ = Ok _ |- _ => injection H as H; subst
  | H : Err _ = Ok _ |- _ => discriminate H
  | H : (let '(_, _) := ?x in _) = Ok _ |- _ => destruct x
  end.

(** ** Lists *)

Section filter_facts.
Context {A : Type} (P : A → Prop) `{!∀ x, Decision (P x)}.

Lemma filter_none l : Forall (λ x, ¬ P x) l → filter P l = [].
Proof. induction 1; [done|]. by rewrite filter_cons_False. Qed.

Lemma filter_all l : Forall P l → filter P l = l.
Proof. induction 1; [done|]. rewrite filter_cons_True by done. by f_equal. Qed.

Lemma Forall_filter l : Forall P (filter P l).
Proof. apply Forall_forall. intros x Hx. by apply list_elem_of_filter in Hx as [? _]. Qed.
End filter_facts.

Lemma exists_last_or_nil {A} (l : list A) : l = [] ∨ ∃ l' x, l = l' ++ [x].
Proof. destruct l as [|x l _] using rev_ind; [by left|right; eauto]. Qed.
