(* ===== verification/GoText.v ===== *)
(** * Byte strings as Go has them

    A Go [string] is a [string]: a sequence of bytes.  Here are the parts of
    [strings], [strconv], [unicode/utf8] and [fmt] the modelled code uses. *)
From S2P Require Import Prelude.
From stdpp Require Import prelude strings list sorting.
From Stdlib Require Import ZArith Lia Ascii String.
Local Open Scope Z_scope.
#[global] Arguments Ascii.eqb : simpl never.

(** ** Bytes *)

Definition byte_val (a : ascii) : Z := Z.of_N (N_of_ascii a).
Definition byte_of (z : Z) : ascii := ascii_of_N (Z.to_N z).

Definition byte_in (lo hi : Z) (a : ascii) : bool := (lo <=? byte_val a) && (byte_val a <=? hi).
Definition is_digit (a : ascii) : bool := byte_in 48 57 a.
Definition is_lower (a : ascii) : bool := byte_in 97 122 a.
Definition is_upper (a : ascii) : bool := byte_in 65 90 a.
Definition is_char (c a : ascii) : bool := Ascii.eqb a c.

(** Every byte of [s] satisfies [p]. *)
Fixpoint str_forall (p : ascii → bool) (s : string) : bool :=
  match s with
  | EmptyString => true
  | String a s => p a && str_forall p s
  end.

Definition str_exists (p : ascii → bool) (s : string) : bool :=
  negb (str_forall (λ a, negb (p a)) s).

Definition NL : string := String "010"%char EmptyString.
Definition DQ : ascii := "034"%char.

(** [len(s)], as an [int]. *)
Definition len (s : string) : Z := Z.of_nat (String.length s).

(** [s[:n]] and [s[n:]] for [0 <= n <= len(s)]. *)
Fixpoint str_take (n : nat) (s : string) : string :=
  match n, s with
  | S n, String a s => String a (str_take n s)
  | _, _ => EmptyString
  end.
Fixpoint str_drop (n : nat) (s : string) : string :=
  match n, s with
  | S n, String _ s => str_drop n s
  | _, _ => s
  end.

(** ** [strings] *)

(** [strings.CutPrefix], whose success is [strings.HasPrefix]. *)
Fixpoint cut_prefix (p s : string) : option string :=
  match p, s with
  | EmptyString, _ => Some s
  | String a p, String b s => if Ascii.eqb a b then cut_prefix p s else None
  | String _ _, EmptyString => None
  end.
Definition has_prefix (s p : string) : bool := bool_decide (is_Some (cut_prefix p s)).
Definition trim_prefix (s p : string) : string := default s (cut_prefix p s).

Fixpoint str_rev_app (s acc : string) : string :=
  match s with EmptyString => acc | String a s => str_rev_app s (String a acc) end.
Definition str_rev (s : string) : string := str_rev_app s EmptyString.

Definition cut_suffix (p s : string) : option string :=
  str_rev <$> cut_prefix (str_rev p) (str_rev s).
Definition has_suffix (s p : string) : bool := bool_decide (is_Some (cut_suffix p s)).
Definition trim_suffix (s p : string) : string := default s (cut_suffix p s).

(** [strings.Contains] *)
Fixpoint contains (s sub : string) : bool :=
  has_prefix s sub || match s with EmptyString => false | String _ s => contains s sub end.

(** [strings.Join] *)
Fixpoint join (sep : string) (l : list string) : string :=
  match l with
  | [] => EmptyString
  | [x] => x
  | x :: l => x +:+ sep +:+ join sep l
  end.

(** [strings.Split(s, sep)] for a one-byte separator. *)
Fixpoint split_byte (sep : ascii) (s : string) : list string :=
  match s with
  | EmptyString => [EmptyString]
  | String a s =>
      let rest := split_byte sep s in
      if Ascii.eqb a sep then EmptyString :: rest
      else match rest with
           | x :: r => String a x :: r
           | [] => [String a EmptyString]
           end
  end.

(** [strings.IndexFunc] over bytes, splitting instead of indexing: the longest
    prefix of bytes satisfying [p], and the rest. *)
Fixpoint span (p : ascii → bool) (s : string) : string * string :=
  match s with
  | EmptyString => (EmptyString, EmptyString)
  | String a s' => if p a then (let '(x, y) := span p s' in (String a x, y)) else (EmptyString, s)
  end.

(** [unicode.IsSpace]: the white space [strings.TrimSpace] trims, as encoded.
    A lead byte starts a rune whatever stands before it, so a rune ends a
    string exactly when its encoding does. *)
Definition bytes_str (l : list Z) : string := string_of_list_ascii (byte_of <$> l).
Definition space_runes : list string := bytes_str <$>
  (((λ b, [b]) <$> [9; 10; 11; 12; 13; 32]) ++ [[194; 133]; [194; 160]; [225; 154; 128]] ++
   ((λ b, [226; 128; b]) <$> [128; 129; 130; 131; 132; 133; 134; 135; 136; 137; 138; 168; 169; 175]) ++
   [[226; 129; 159]; [227; 128; 128]]).

(** The first of the runes that starts [s], cut. *)
Definition cut_first (runes : list string) (s : string) : option string :=
  foldr (λ r acc, match cut_prefix r s with Some t => Some t | None => acc end) None runes.
Fixpoint trim_runes (fuel : nat) (runes : list string) (s : string) : string :=
  match fuel, cut_first runes s with
  | S fuel, Some t => trim_runes fuel runes t
  | _, _ => s
  end.
Definition trim_start (runes : list string) (s : string) : string := trim_runes (String.length s) runes s.
Definition trim_space (s : string) : string :=
  str_rev (trim_start (str_rev <$> space_runes) (str_rev (trim_start space_runes s))).

(** ** Decimal integers: [strconv.FormatInt] (the [%d] verb) and
    [strconv.ParseInt(s, 10, 64)] *)

Definition digit_char (d : Z) : ascii := byte_of (48 + d).

Fixpoint format_digits (fuel : nat) (z : Z) (acc : string) : string :=
  match fuel with
  | O => acc
  | S fuel =>
      let acc := String (digit_char (z mod 10)) acc in
      if z / 10 =? 0 then acc else format_digits fuel (z / 10) acc
  end.

(** Nineteen digits hold any [int64]. *)
Definition format_int (z : Z) : string :=
  if z <? 0 then String "-" (format_digits 19 (- z) EmptyString)
  else format_digits 19 z EmptyString.

Fixpoint digits_val (s : string) (acc : Z) : option Z :=
  match s with
  | EmptyString => Some acc
  | String a s => if is_digit a then digits_val s (acc * 10 + (byte_val a - 48)) else None
  end.

(** The non-negative decimal a non-empty digit string denotes. *)
Definition parse_udec (s : string) : option Z :=
  match s with EmptyString => None | _ => digits_val s 0 end.

Definition split_sign (s : string) : bool * string :=
  match s with
  | String "-" s => (true, s)
  | String "+" s => (false, s)
  | _ => (false, s)
  end.

Definition parse_int (s : string) : option Z :=
  let '(neg, body) := split_sign s in
  v ← parse_udec body;
  let z := if neg : bool then - v else v in
  if (minInt64 <=? z) && (z <=? maxInt64) then Some z else None.

(** ** [unicode/utf8] *)

Definition cont (a : ascii) : bool := byte_in 128 191 a.

(** [utf8.DecodeRuneInString] on a non-empty string: the rune and the bytes
    after it, or [None] for an invalid first byte (one byte wide). *)
Definition decode_rune (s : string) : option (Z * string) :=
  match s with
  | EmptyString => None
  | String a r =>
      let x := byte_val a in
      if x <? 128 then Some (x, r)
      else if x <? 194 then None
      else match r with
      | EmptyString => None
      | String b r =>
          let y := byte_val b in
          if x <? 224 then
            if cont b then Some ((x - 192) * 64 + (y - 128), r) else None
          else
            let lo := if x =? 224 then 160 else if x =? 240 then 144 else 128 in
            let hi := if x =? 237 then 159 else if x =? 244 then 143 else 191 in
            if negb (byte_in lo hi b) then None
            else match r with
            | EmptyString => None
            | String c r =>
                let z := byte_val c in
                if negb (cont c) then None
                else if x <? 240 then
                  Some ((x - 224) * 4096 + (y - 128) * 64 + (z - 128), r)
                else if 244 <? x then None
                else match r with
                | EmptyString => None
                | String d r =>
                    if cont d then
                      Some ((x - 240) * 262144 + (y - 128) * 4096 + (z - 128) * 64 + (byte_val d - 128), r)
                    else None
                end
            end
      end
  end.

(** ** [strconv.Quote], the [%q] verb

    Whether a rune above ASCII is printable is the Unicode table behind
    [strconv.IsPrint], an argument here. *)

Definition hex_digit (d : Z) : ascii := if d <? 10 then byte_of (48 + d) else byte_of (87 + d).

Fixpoint hex_go (n : nat) (z : Z) (acc : string) : string :=
  match n with O => acc | S n => hex_go n (z / 16) (String (hex_digit (z mod 16)) acc) end.
Definition hex (n : nat) (z : Z) : string := hex_go n z EmptyString.

Definition escape_rune (is_print : Z → bool) (r : Z) (raw : string) : string :=
  if (r =? 34) || (r =? 92) then String "\" raw
  else if (if r <? 128 then (32 <=? r) && (r <? 127) else is_print r) then raw
  else if r =? 7 then "\a" else if r =? 8 then "\b" else if r =? 12 then "\f"
  else if r =? 10 then "\n" else if r =? 13 then "\r" else if r =? 9 then "\t"
  else if r =? 11 then "\v"
  else if (r <? 32) || (r =? 127) then "\x" +:+ hex 2 r
  else if r <? 65536 then "\u" +:+ hex 4 r
  else "\U" +:+ hex 8 r.

(** [n] bounds the runes left; [String.length s] is enough. *)
Fixpoint quote_go (is_print : Z → bool) (n : nat) (s : string) : string :=
  match n, s with
  | S n, String a s' =>
      match decode_rune s with
      | Some (r, rest) =>
          escape_rune is_print r (str_take (String.length s - String.length rest) s)
            +:+ quote_go is_print n rest
      | None => "\x" +:+ hex 2 (byte_val a) +:+ quote_go is_print n s'
      end
  | _, _ => EmptyString
  end.

Definition quote (is_print : Z → bool) (s : string) : string :=
  String DQ EmptyString +:+ quote_go is_print (String.length s) s +:+ String DQ EmptyString.

(** ** Evaluation *)

Example format_int_ex : format_int (-9223372036854775808) = "-9223372036854775808".
Proof. reflexivity. Qed.
Example parse_int_ex : parse_int "9223372036854775808" = None ∧ parse_int "-12" = Some (-12).
Proof. split; reflexivity. Qed.
Example quote_ex : quote (λ _, true) ("a" +:+ NL +:+ "b") = String DQ ("a\nb" +:+ String DQ EmptyString).
Proof. reflexivity. Qed.
Example trim_ex : trim_space " a b  " = "a b" ∧ trim_suffix "x:443" ":443" = "x".
Proof. split; reflexivity. Qed.
Example split_ex : split_byte "," "a,,b" = ["a"; ""; "b"].
Proof. reflexivity. Qed.

Example trim_unicode : trim_space (bytes_str [194; 160; 226; 128; 168] +:+ "a" +:+ bytes_str [32; 227; 128; 128]) = "a" ∧
  trim_space (bytes_str [128; 97; 194]) = bytes_str [128; 97; 194].
Proof. split; vm_compute; reflexivity. Qed.

(** ** Facts *)

Lemma byte_val_range a : 0 ≤ byte_val a < 256.
Proof. unfold byte_val. pose proof (N_ascii_bounded a). lia. Qed.

Lemma byte_val_of z : 0 ≤ z < 256 → byte_val (byte_of z) = z.
Proof. intros H. unfold byte_val, byte_of. rewrite N_ascii_embedding; lia. Qed.

Lemma digit_char_val d : 0 ≤ d < 10 → is_digit (digit_char d) = true ∧ byte_val (digit_char d) = 48 + d.
Proof.
  intros H. unfold is_digit, byte_in, digit_char. rewrite byte_val_of by lia.
  split; [|done]. apply andb_true_iff. split; apply Z.leb_le; lia.
Qed.

Lemma str_app_nil_l s : EmptyString +:+ s = s.
Proof. done. Qed.
Lemma str_app_cons x a b : String x a +:+ b = String x (a +:+ b).
Proof. done. Qed.
Create Rewrite HintDb str.
#[export] Hint Rewrite str_app_cons str_app_nil_l : str.

Lemma str_app_assoc a b c : (a +:+ b) +:+ c = a +:+ (b +:+ c).
Proof. induction a as [|x a IH]; [done|]. rewrite !str_app_cons. by rewrite IH. Qed.
Lemma str_app_nil_r s : s +:+ "" = s.
Proof. induction s as [|x s IH]; [done|]. by rewrite str_app_cons, IH. Qed.

Lemma str_forall_app p a b : str_forall p (a +:+ b) = str_forall p a && str_forall p b.
Proof. induction a as [|x a IH]; [done|]. rewrite str_app_cons. simpl. by rewrite IH, andb_assoc. Qed.

Lemma str_forall_impl (p q : ascii → bool) s :
  (∀ a, p a = true → q a = true) → str_forall p s = true → str_forall q s = true.
Proof.
  intros H. induction s as [|a s IH]; simpl; [done|].
  intros [? ?]%andb_true_iff. by rewrite H, IH.
Qed.

Lemma cut_prefix_app p s : cut_prefix p (p +:+ s) = Some s.
Proof. induction p as [|a p IH]; [done|]. rewrite str_app_cons. simpl. by rewrite Ascii.eqb_refl. Qed.

Lemma cut_prefix_Some p s r : cut_prefix p s = Some r ↔ s = p +:+ r.
Proof.
  split; [|intros ->; apply cut_prefix_app].
  revert s. induction p as [|a p IH]; intros s.
  { intros [= ->]. done. }
  destruct s as [|b s]; simpl; [done|].
  destruct (Ascii.eqb_spec a b) as [->|]; [|done]. intros H. by rewrite (IH s H).
Qed.

Lemma span_app p s : fst (span p s) +:+ snd (span p s) = s.
Proof.
  induction s as [|a s IH]; simpl; [done|]. destruct (p a); [|done].
  destruct (span p s). simpl in *. rewrite str_app_cons. congruence.
Qed.

Lemma span_forall p s : str_forall p (fst (span p s)) = true.
Proof.
  induction s as [|a s IH]; simpl; [done|]. destruct (p a) eqn:E; [|done].
  destruct (span p s). simpl in *. by rewrite E.
Qed.

(** The split of a string is unique: all of [p] up to a first byte not of [p]. *)
Lemma span_unique p x y :
  str_forall p x = true → match y with String a _ => p a = false | _ => True end →
  span p (x +:+ y) = (x, y).
Proof.
  intros Hx Hy. induction x as [|a x IH]; rewrite ?str_app_nil_l, ?str_app_cons; simpl in *.
  - destruct y as [|b y]; [done|]. simpl. by rewrite Hy.
  - apply andb_true_iff in Hx as [Ha Hx]. by rewrite Ha, IH.
Qed.

(** Printing a number and reading it back. *)
Lemma digits_val_format fuel z acc v :
  0 ≤ z < 10 ^ Z.of_nat fuel → (0 < fuel)%nat →
  ∃ k, 0 ≤ k ∧ digits_val (format_digits fuel z acc) v = digits_val acc (v * 10 ^ k + z).
Proof.
  revert z acc v. induction fuel as [|fuel IH]; intros z acc v Hz Hf; [lia|]. simpl.
  pose proof (Z.mod_pos_bound z 10 ltac:(lia)) as Hm.
  pose proof (Z.div_mod z 10 ltac:(lia)) as Hd.
  destruct (digit_char_val (z mod 10) Hm) as [H1 H2].
  destruct (Z.eqb_spec (z / 10) 0) as [E|E].
  - exists 1. split; [done|]. simpl. rewrite H1, H2. f_equal. lia.
  - destruct fuel as [|fuel].
    { exfalso. apply E. apply Z.div_small. simpl in Hz. lia. }
    destruct (IH (z / 10) (String (digit_char (z mod 10)) acc) v) as (k & Hk & ->); [|lia|].
    + split; [apply Z.div_pos; lia|]. apply Z.div_lt_upper_bound; [lia|].
      rewrite <- Z.pow_succ_r by lia. replace (Z.succ (Z.of_nat (S fuel))) with (Z.of_nat (S (S fuel))) by lia. lia.
    + exists (Z.succ k). split; [lia|]. simpl. rewrite H1, H2. f_equal.
      rewrite Z.pow_succ_r by lia. lia.
Qed.

Lemma format_digits_nonempty fuel z acc :
  (0 < fuel)%nat → ∃ d s, format_digits fuel z acc = String (digit_char d) s ∧ 0 ≤ d < 10.
Proof.
  revert z acc. induction fuel as [|fuel IH]; intros z acc Hf; [lia|]. simpl.
  pose proof (Z.mod_pos_bound z 10 ltac:(lia)).
  destruct (z / 10 =? 0); [eauto|]. destruct fuel as [|fuel]; [simpl; eauto|].
  apply IH. lia.
Qed.

Lemma format_digits_digits fuel z acc :
  str_forall is_digit acc = true → str_forall is_digit (format_digits fuel z acc) = true.
Proof.
  revert z acc. induction fuel as [|fuel IH]; intros z acc Ha; simpl; [done|].
  pose proof (Z.mod_pos_bound z 10 ltac:(lia)) as Hm.
  destruct (digit_char_val _ Hm) as [H _].
  destruct (z / 10 =? 0); [simpl; by rewrite H, Ha|]. apply IH. simpl. by rewrite H, Ha.
Qed.

Lemma format_int_digits z : 0 ≤ z → str_forall is_digit (format_int z) = true.
Proof.
  intros Hz. unfold format_int. rewrite (proj2 (Z.ltb_ge _ _)) by lia.
  by apply format_digits_digits.
Qed.

(** [ParseInt] inverts [FormatInt] on non-negative [int64]s. *)
Lemma parse_int_format z : 0 ≤ z ≤ maxInt64 → parse_int (format_int z) = Some z.
Proof.
  unfold maxInt64. intros Hz. unfold format_int. rewrite (proj2 (Z.ltb_ge _ _)) by lia.
  destruct (digits_val_format 19 z EmptyString 0) as (k & Hk & Hv); [simpl; lia|lia|].
  destruct (format_digits_nonempty 19 z EmptyString ltac:(lia)) as (d & s & Hs & Hd).
  rewrite Hs in *. unfold parse_int.
  assert (Hbody : parse_udec (String (digit_char d) s) = Some z).
  { unfold parse_udec. rewrite Hv. done. }
  assert (Hsign : split_sign (String (digit_char d) s) = (false, String (digit_char d) s)).
  { assert (d = 0 ∨ d = 1 ∨ d = 2 ∨ d = 3 ∨ d = 4 ∨ d = 5 ∨ d = 6 ∨ d = 7 ∨ d = 8 ∨ d = 9)
      as Hcase by lia.
    by destruct_or! Hcase; subst d. }
  rewrite Hsign, Hbody. simpl. unfold minInt64, maxInt64.
  destruct (Z.leb_spec (-9223372036854775808) z), (Z.leb_spec z 9223372036854775807); simpl; done || lia.
Qed.

(** ** Facts on [quote] *)

Lemma str_length_app a b : String.length (a +:+ b) = (String.length a + String.length b)%nat.
Proof. induction a as [|x a IH]; [done|]. rewrite str_app_cons. simpl. by rewrite IH. Qed.

Lemma str_take_app x y : str_take (String.length (x +:+ y) - String.length y) (x +:+ y) = x.
Proof.
  rewrite str_length_app. replace (_ + _ - _)%nat with (String.length x) by lia.
  induction x as [|a x IH]; [by destruct y|]. rewrite str_app_cons. simpl. by rewrite IH.
Qed.

Lemma decode_rune_app s r rest :
  decode_rune s = Some (r, rest) → ∃ x, s = x +:+ rest ∧ (0 < String.length x)%nat.
Proof.
  destruct s as [|a s]; [done|]. cbn [decode_rune]. intros H.
  repeat case_match; simplify_eq;
    first [ by exists (String a ""); split; [|simpl; lia]
          | by eexists (String a (String _ "")); split; [|simpl; lia]
          | by eexists (String a (String _ (String _ ""))); split; [|simpl; lia]
          | by eexists (String a (String _ (String _ (String _ "")))); split; [|simpl; lia] ].
Qed.

(** The characters [quote] writes of its own. *)
Definition quote_alphabet : list ascii :=
  [DQ; "\"; "a"; "b"; "c"; "d"; "e"; "f"; "n"; "r"; "t"; "v"; "x"; "u"; "U";
   "0"; "1"; "2"; "3"; "4"; "5"; "6"; "7"; "8"; "9"]%char.

Section quote_forall.
Context (is_print : Z → bool) (p : ascii → bool).
Context (Hp : ∀ a, a ∈ quote_alphabet → p a = true).

Lemma hex_digit_ok d : 0 ≤ d < 16 → p (hex_digit d) = true.
Proof using Hp.
  intros H. apply Hp.
  assert (d = 0 ∨ d = 1 ∨ d = 2 ∨ d = 3 ∨ d = 4 ∨ d = 5 ∨ d = 6 ∨ d = 7 ∨ d = 8 ∨ d = 9 ∨
          d = 10 ∨ d = 11 ∨ d = 12 ∨ d = 13 ∨ d = 14 ∨ d = 15) as Hc by lia.
  assert (Hin : bool_decide (hex_digit d ∈ quote_alphabet) = true)
    by (by destruct_or! Hc; subst d).
  by apply bool_decide_eq_true in Hin.
Qed.

Lemma hex_ok n z : str_forall p (hex n z) = true.
Proof using Hp.
  unfold hex. assert (Hacc : str_forall p EmptyString = true) by done. revert z Hacc.
  generalize EmptyString. induction n as [|n IH]; intros acc z Hacc; [done|]. simpl. apply IH.
  simpl. rewrite Hacc, hex_digit_ok; [done|]. apply Z.mod_pos_bound. lia.
Qed.

Lemma alphabet_ok s : forallb (λ a, bool_decide (a ∈ quote_alphabet)) (list_ascii_of_string s) = true →
  str_forall p s = true.
Proof using Hp.
  induction s as [|a s IH]; [done|]. simpl. intros [Ha Hs]%andb_true_iff.
  apply bool_decide_eq_true in Ha. by rewrite Hp, IH.
Qed.

Lemma escape_rune_ok r raw : str_forall p raw = true → str_forall p (escape_rune is_print r raw) = true.
Proof using Hp.
  intros Hraw. unfold escape_rune.
  repeat case_match; rewrite ?str_forall_app, ?hex_ok, ?andb_true_r; try done;
    try (by apply alphabet_ok).
  simpl. rewrite Hraw. by rewrite Hp by (unfold quote_alphabet; set_solver).
Qed.

Lemma quote_go_ok n s : str_forall p s = true → str_forall p (quote_go is_print n s) = true.
Proof using Hp.
  revert s. induction n as [|n IH]; intros [|a s] Hs; try done. cbn [quote_go].
  destruct (decode_rune _) as [[r rest]|] eqn:E.
  - apply decode_rune_app in E as (x & E & _). rewrite E in *. rewrite str_take_app, str_forall_app.
    rewrite str_forall_app in Hs. apply andb_true_iff in Hs as [Hx Hr].
    by rewrite escape_rune_ok, IH.
  - simpl in Hs. apply andb_true_iff in Hs as [_ Hs].
    rewrite !str_forall_app, hex_ok, IH by done. by rewrite alphabet_ok by reflexivity.
Qed.

Lemma quote_ok s : str_forall p s = true → str_forall p (quote is_print s) = true.
Proof using Hp.
  intros Hs. unfold quote. rewrite !str_forall_app, quote_go_ok by done.
  by rewrite alphabet_ok by reflexivity.
Qed.
End quote_forall.

(** ** Facts on [split_byte] *)

Lemma split_byte_cons sep s : ∃ x r, split_byte sep s = x :: r.
Proof.
  destruct s as [|a s]; simpl; [eauto|]. destruct (Ascii.eqb a sep); [eauto|].
  destruct (split_byte sep s); eauto.
Qed.

(** A separator splits: what is before it does not affect what is after. *)
Lemma split_byte_app sep x y :
  split_byte sep (x +:+ String sep y) = split_byte sep x ++ split_byte sep y.
Proof.
  induction x as [|a x IH].
  { rewrite str_app_nil_l. simpl. by rewrite Ascii.eqb_refl. }
  rewrite str_app_cons. simpl. rewrite IH. destruct (Ascii.eqb a sep); [done|].
  by destruct (split_byte_cons sep x) as (z & r & ->).
Qed.

Lemma split_byte_none sep x :
  str_forall (λ a, negb (Ascii.eqb a sep)) x = true → split_byte sep x = [x].
Proof.
  induction x as [|a x IH]; [done|]. simpl. intros [Ha Hx]%andb_true_iff.
  apply negb_true_iff in Ha. by rewrite Ha, IH.
Qed.

(** Splitting inverts joining. *)
Lemma split_byte_join sep x l :
  Forall (λ x, str_forall (λ a, negb (Ascii.eqb a sep)) x = true) (x :: l) →
  split_byte sep (join (String sep EmptyString) (x :: l)) = x :: l.
Proof.
  revert x. induction l as [|y l IH]; intros x [Hx Hl]%Forall_cons.
  { by apply split_byte_none. }
  change (join _ (x :: y :: l)) with (x +:+ String sep EmptyString +:+ join (String sep EmptyString) (y :: l)).
  rewrite str_app_cons, str_app_nil_l, split_byte_app, IH, split_byte_none by done. done.
Qed.

(** ** Facts on suffixes *)

Lemma str_rev_app_spec s acc : str_rev_app s acc = str_rev s +:+ acc.
Proof.
  revert acc. induction s as [|a s IH]; intros acc; [done|]. unfold str_rev. simpl.
  rewrite IH, (IH (String a EmptyString)), str_app_assoc. done.
Qed.

Lemma str_rev_append a b : str_rev (a +:+ b) = str_rev b +:+ str_rev a.
Proof.
  induction a as [|x a IH]; [by rewrite str_app_nil_l, str_app_nil_r|].
  rewrite str_app_cons. unfold str_rev at 1 3. simpl.
  rewrite (str_rev_app_spec (a +:+ b)), (str_rev_app_spec a), IH. by rewrite str_app_assoc.
Qed.

Lemma str_rev_involutive s : str_rev (str_rev s) = s.
Proof.
  induction s as [|a s IH]; [done|]. unfold str_rev at 2. simpl.
  rewrite str_rev_app_spec, str_rev_append, IH. done.
Qed.

Lemma cut_suffix_Some p s r : cut_suffix p s = Some r → s = r +:+ p.
Proof.
  unfold cut_suffix. intros H. apply fmap_Some in H as (x & H & ->).
  apply cut_prefix_Some in H. rewrite <- (str_rev_involutive s), H, str_rev_append.
  by rewrite str_rev_involutive.
Qed.

Lemma cut_suffix_app p s : cut_suffix p (s +:+ p) = Some s.
Proof.
  unfold cut_suffix. rewrite str_rev_append, cut_prefix_app. simpl. by rewrite str_rev_involutive.
Qed.

Lemma has_prefix_spec s p : has_prefix s p = true ↔ ∃ r, s = p +:+ r.
Proof.
  unfold has_prefix. rewrite bool_decide_eq_true. split.
  - intros [r Hr]. exists r. by apply cut_prefix_Some.
  - intros [r ->]. exists r. apply cut_prefix_app.
Qed.

Lemma has_suffix_spec s p : has_suffix s p = true ↔ ∃ r, s = r +:+ p.
Proof.
  unfold has_suffix. rewrite bool_decide_eq_true. split.
  - intros [r Hr]. exists r. by apply cut_suffix_Some.
  - intros [r ->]. exists r. apply cut_suffix_app.
Qed.

(** ** Sorting

    [slices.SortFunc] by a string key: some sorted permutation, which is the
    only one when the keys are distinct. *)

Definition by_key {A} (f : A → string) : relation A := λ a b, String.le (f a) (f b).

#[export] Instance by_key_dec {A} (f : A → string) : RelDecision (by_key f).
Proof. intros a b. unfold by_key. apply _. Defined.

#[export] Instance by_key_total {A} (f : A → string) : Total (by_key f).
Proof. intros a b. apply String.le_total. Qed.

#[export] Instance by_key_trans {A} (f : A → string) : Transitive (by_key f).
Proof. intros a b c H1 H2. unfold by_key in *. etrans; eauto. Qed.

Definition sort_by {A} (f : A → string) (l : list A) : list A := merge_sort (by_key f) l.

Lemma sort_by_perm {A} (f : A → string) l : sort_by f l ≡ₚ l.
Proof. apply merge_sort_Permutation. Qed.

Lemma sort_by_sorted {A} (f : A → string) l : StronglySorted (by_key f) (sort_by f l).
Proof. apply (StronglySorted_merge_sort _). Qed.

Lemma elem_of_sort_by {A} (f : A → string) l x : x ∈ sort_by f l ↔ x ∈ l.
Proof. by rewrite (sort_by_perm f l). Qed.
