(* ===== verification/GoTime.v ===== *)
(** * Time and binary64 arithmetic as Go has them

    [time.Time], [time.Duration] and [float64], the standard-library types the
    faucet's limiter and the session scopes compute with.  A [time.Time] is
    the number of nanoseconds since Go's zero time (January 1, year 1, 00:00
    UTC), so [IsZero] is a test for 0 and UTC calendar days are the multiples
    of 24 hours.  A [float64] is a [spec_float] of precision 53, whose
    operations round to nearest even as the hardware does. *)
From S2P Require Import Prelude GoText.
From stdpp Require Import prelude strings.
From Stdlib Require Import ZArith Lia SpecFloat Ascii String.
Local Open Scope Z_scope.

(** ** Durations and times *)

Abbreviation Duration := Z (only parsing).
Abbreviation Time := Z (only parsing).

Definition Nanosecond : Duration := 1.
Definition Microsecond : Duration := 1000 * Nanosecond.
Definition Millisecond : Duration := 1000 * Microsecond.
Definition Second : Duration := 1000 * Millisecond.
Definition Minute : Duration := 60 * Second.
Definition Hour : Duration := 60 * Minute.
Definition Day : Duration := 24 * Hour.

(** [t.IsZero()] *)
Definition time_is_zero (t : Time) : bool := t =? 0.

(** [t.Add(d)]; [t.Before(u)] is [t <? u]. *)
Definition time_add (t : Time) (d : Duration) : Time := t + d.

(** [t.Sub(u)] saturates at the ends of the [Duration] range. *)
Definition time_sub (t u : Time) : Duration :=
  Z.max minInt64 (Z.min maxInt64 (t - u)).

(** The UTC calendar day of [t], counted from the zero time: the injective
    image of the [(year, month, day)] triple of [t.UTC().Date()]. *)
Definition utc_day (t : Time) : Z := t / Day.

(** *** Calendar dates

    The proleptic Gregorian date of a day counted from 1 January of year 1. *)
Definition is_leap (y : Z) : bool := (y mod 4 =? 0) && (negb (y mod 100 =? 0) || (y mod 400 =? 0)).

Fixpoint month_of (m d : Z) (lengths : list Z) : Z * Z :=
  match lengths with
  | n :: rest => if d <? n then (m, d + 1) else month_of (m + 1) (d - n) rest
  | [] => (m, d + 1)
  end.

Definition civil (day : Z) : Z * Z * Z :=
  let n400 := day / 146097 in
  let d := day mod 146097 in
  let n100 := Z.min 3 (d / 36524) in
  let d := d - 36524 * n100 in
  let n4 := d / 1461 in
  let d := d - 1461 * n4 in
  let n1 := Z.min 3 (d / 365) in
  let d := d - 365 * n1 in
  let y := 400 * n400 + 100 * n100 + 4 * n4 + n1 + 1 in
  let '(m, d) := month_of 1 d [31; if is_leap y then 29 else 28; 31; 30; 31; 30; 31; 31; 30; 31; 30; 31] in
  (y, m, d).

(** Decimal digits, padded with zeros to a width. *)
Definition pad0 (w : nat) (z : Z) : string :=
  let s := format_int z in String.concat "" (repeat "0" (w - String.length s)) +:+ s.

Definition format_date (t : Time) : string :=
  let '(y, m, d) := civil (utc_day t) in pad0 4 y +:+ "-" +:+ pad0 2 m +:+ "-" +:+ pad0 2 d.
Definition format_clock (t : Time) : string :=
  let s := (t mod Day) / Second in pad0 2 (s / 3600) +:+ ":" +:+ pad0 2 (s / 60 mod 60) +:+ ":" +:+ pad0 2 (s mod 60).

(** [t.UTC().Format(time.RFC3339)] and [t.UTC().Format("2006-01-02 15:04:05")] *)
Definition RFC3339 (t : Time) : string := format_date t +:+ "T" +:+ format_clock t +:+ "Z".
Definition DateTime (t : Time) : string := format_date t +:+ " " +:+ format_clock t.

Example RFC3339_leap : RFC3339 (63844847999 * Second) = "2024-02-29T23:59:59Z".
Proof. vm_compute. reflexivity. Qed.
Example RFC3339_zero : RFC3339 0 = "0001-01-01T00:00:00Z".
Proof. vm_compute. reflexivity. Qed.

(** ** [float64] *)

Definition float64 := spec_float.

Definition f64_add (x y : float64) : float64 := SFadd 53 1024 x y.
Definition f64_sub (x y : float64) : float64 := SFsub 53 1024 x y.
Definition f64_mul (x y : float64) : float64 := SFmul 53 1024 x y.
Definition f64_div (x y : float64) : float64 := SFdiv 53 1024 x y.

(** [x < y] and [x <= y]; false when either is NaN. *)
Definition f64_lt (x y : float64) : bool := SFltb x y.
Definition f64_le (x y : float64) : bool := SFleb x y.

(** [float64(z)] for an integer [z] *)
Definition f64_of_int (z : Z) : float64 := binary_normalize 53 1024 z 0 false.

Definition f64_zero : float64 := S754_zero false.

(** [d.Seconds()] *)
Definition Seconds (d : Duration) : float64 :=
  f64_add (f64_of_int (Z.quot d Second))
          (f64_div (f64_of_int (Z.rem d Second)) (f64_of_int 1000000000)).

(** Truncation of a finite float toward zero, [int(x)] where the value fits. *)
Definition f64_trunc (x : float64) : Z :=
  match x with
  | S754_finite s m e =>
      let a := if 0 <=? e then Z.pos m * 2 ^ e else Z.pos m / 2 ^ (- e) in
      if s then - a else a
  | _ => 0
  end.

(** ** Facts *)

Lemma utc_day_mono a b : a ≤ b → utc_day a ≤ utc_day b.
Proof. intros. apply Z.div_le_mono; [reflexivity|done]. Qed.

Example Seconds_half : Seconds 1500000000 = S754_finite false 6755399441055744 (-52).
Proof. reflexivity. Qed.

Example Seconds_window : f64_trunc (Seconds Day) = 86400.
Proof. reflexivity. Qed.

(** ** Signs of rounded results

    [signed s x]: [x] is a number, and carries sign [s] unless it is zero.
    Every rounding of a mantissa yields such a number, so an operation on
    operands of known sign cannot produce NaN. *)

Definition signed (s : bool) (x : float64) : Prop :=
  match x with
  | S754_zero _ => True
  | S754_infinity s' | S754_finite s' _ _ => s' = s
  | S754_nan => False
  end.

Lemma shr_1_nonneg r : 0 ≤ shr_m r → 0 ≤ shr_m (shr_1 r).
Proof. destruct r as [[|[p|p|]|p] ? ?]; simpl; lia. Qed.

Lemma iter_shr_nonneg p r : 0 ≤ shr_m r → 0 ≤ shr_m (iter_pos shr_1 p r).
Proof. revert r. induction p; simpl; intros; auto using shr_1_nonneg. Qed.

Lemma shr_fexp_nonneg m e l : 0 ≤ m → 0 ≤ shr_m (fst (shr_fexp 53 1024 m e l)).
Proof.
  intros Hm. unfold shr_fexp, shr.
  assert (0 ≤ shr_m (shr_record_of_loc m l)) by (destruct l as [|[]]; done).
  case_match; simpl; auto using iter_shr_nonneg.
Qed.

Lemma binary_round_aux_signed s m e l :
  0 ≤ m → signed s (binary_round_aux 53 1024 s m e l).
Proof.
  intros Hm. unfold binary_round_aux.
  pose proof (shr_fexp_nonneg m e l Hm) as H1.
  destruct (shr_fexp 53 1024 m e l) as [r1 e1]. simpl in H1.
  assert (H2 : 0 ≤ round_nearest_even (shr_m r1) (loc_of_shr_record r1)).
  { unfold round_nearest_even. repeat case_match; lia. }
  pose proof (shr_fexp_nonneg _ e1 loc_Exact H2) as H3.
  destruct (shr_fexp 53 1024 _ e1 loc_Exact) as [r2 e2]. simpl in H3.
  destruct (shr_m r2); simpl; [done| |lia]. by case_match.
Qed.

Lemma binary_normalize_signed z e b :
  signed (z <? 0) (binary_normalize 53 1024 z e b).
Proof.
  destruct z as [|p|p]; simpl; [done|..]; unfold binary_round;
    destruct (shl_align p e _); apply binary_round_aux_signed; lia.
Qed.

Lemma f64_of_int_signed z : signed (z <? 0) (f64_of_int z).
Proof. apply binary_normalize_signed. Qed.

Lemma SFdiv_core_nonneg m1 e1 m2 e2 :
  0 ≤ m1 → 0 < m2 → 0 ≤ (SFdiv_core_binary 53 1024 m1 e1 m2 e2).1.1.
Proof.
  intros H1 H2. unfold SFdiv_core_binary.
  match goal with |- context [Z.div_eucl ?a ?b] => set (a' := a) end.
  assert (0 ≤ a').
  { unfold a'. case_match; try lia. apply Z.shiftl_nonneg. lia. }
  pose proof (Z.div_pos a' m2 ltac:(done) H2) as Hd. unfold Z.div in Hd.
  by destruct (Z.div_eucl a' m2).
Qed.

Lemma f64_div_signed s x m e :
  signed s x → signed s (f64_div x (S754_finite false m e)).
Proof.
  destruct x as [s'|s'| |s' mx ex]; simpl; try done; [by intros ->; destruct s|].
  intros ->. unfold f64_div. cbn [SFdiv].
  pose proof (SFdiv_core_nonneg (Z.pos mx) ex (Z.pos m) e ltac:(lia) ltac:(lia)) as Hd.
  destruct (SFdiv_core_binary 53 1024 (Z.pos mx) ex (Z.pos m) e) as [[q e'] l].
  replace (xorb s false) with s by (by destruct s).
  by apply binary_round_aux_signed.
Qed.

(** Two numbers of one sign add up to a number of that sign. *)
Lemma f64_add_signed s x y : signed s x → signed s y → signed s (f64_add x y).
Proof.
  unfold f64_add. destruct x as [s1|s1| |s1 m1 e1], y as [s2|s2| |s2 m2 e2]; simpl; try done.
  - intros _ _. by destruct s1, s2.
  - intros -> ->. by destruct s.
  - intros -> ->. set (a := fst (shl_align m1 _ _)). set (b := fst (shl_align m2 _ _)).
    set (z := (cond_Zopp s (Z.pos a) + cond_Zopp s (Z.pos b))%Z).
    pose proof (binary_normalize_signed z (Z.min e1 e2) false) as H.
    replace (z <? 0) with s in H; [exact H|].
    unfold z. destruct s; simpl; symmetry; [apply Z.ltb_lt|apply Z.ltb_ge]; lia.
Qed.

(** [d.Seconds()] is never NaN. *)
Lemma Seconds_signed d : signed (d <? 0) (Seconds d).
Proof.
  assert (Hs : ∀ z, (0 ≤ d → 0 ≤ z) → (d < 0 → z ≤ 0) → signed (d <? 0) (f64_of_int z)).
  { intros z H1 H2. pose proof (f64_of_int_signed z) as H.
    destruct (decide (z = 0)) as [->|]; [done|].
    replace (d <? 0) with (z <? 0); [done|].
    destruct (Z.ltb_spec z 0), (Z.ltb_spec d 0); lia. }
  assert (Hsec : 0 < Second) by reflexivity.
  apply f64_add_signed; [apply Hs|].
  - intros. by apply Z.quot_pos.
  - intros. rewrite <- (Z.opp_involutive d), Z.quot_opp_l by lia.
    pose proof (Z.quot_pos (- d) Second). lia.
  - change (f64_of_int 1000000000) with (S754_finite false 8388608000000000 (-23)).
    apply f64_div_signed, Hs.
    + intros. by apply Z.rem_nonneg; [lia|].
    + intros. pose proof (Z.rem_nonpos d Second). lia.
Qed.

(** [<=] and [>] are complementary away from NaN. *)
Lemma f64_le_zero_negb s x : signed s x → f64_le x f64_zero = negb (f64_lt f64_zero x).
Proof. by destruct x as [[]|[]| |[]]. Qed.

(** ** [time.ParseDuration] *)

(** A run of digits, [None] on overflow past [1<<63]. *)
Fixpoint leadingInt (x : Z) (s : string) : option (Z * string) :=
  match s with
  | EmptyString => Some (x, s)
  | String c t =>
      if is_digit c then
        if 2 ^ 63 / 10 <? x then None
        else let x := x * 10 + (byte_val c - 48) in
             if 2 ^ 63 <? x then None else leadingInt x t
      else Some (x, s)
  end.

(** The digits after a point: value, [10^digits] kept, and the rest; digits
    past the precision are skipped. *)
Fixpoint leadingFraction (x : Z) (scale : float64) (overflow : bool) (s : string) : Z * float64 * string :=
  match s with
  | EmptyString => (x, scale, s)
  | String c t =>
      if is_digit c then
        if overflow then leadingFraction x scale true t
        else if (2 ^ 63 - 1) / 10 <? x then leadingFraction x scale true t
        else let y := x * 10 + (byte_val c - 48) in
             if 2 ^ 63 <? y then leadingFraction x scale true t
             else leadingFraction y (f64_mul scale (f64_of_int 10)) false t
      else (x, scale, s)
  end.

Definition unitMap (u : string) : option Z :=
  if bool_decide (u = "ns") then Some Nanosecond
  else if bool_decide (u = "us") then Some Microsecond
  else if bool_decide (u = "µs") then Some Microsecond
  else if bool_decide (u = "μs") then Some Microsecond
  else if bool_decide (u = "ms") then Some Millisecond
  else if bool_decide (u = "s") then Some Second
  else if bool_decide (u = "m") then Some Minute
  else if bool_decide (u = "h") then Some Hour
  else None.

Definition point_or_digit (c : ascii) : bool := Ascii.eqb c "." || is_digit c.

(** One number-with-unit group: its value in nanoseconds, and the rest. *)
Definition duration_group (s : string) : option (Z * string) :=
  match s with
  | EmptyString => None
  | String c _ =>
      if negb (point_or_digit c) then None else
      '(v, s1) ← leadingInt 0 s;
      let pre := negb (bool_decide (s1 = s)) in
      let '(f, scale, s2, post) :=
        match cut_prefix "." s1 with
        | Some t => let '(f, scale, t') := leadingFraction 0 (f64_of_int 1) false t in
                    (f, scale, t', negb (bool_decide (t' = t)))
        | None => (0, f64_of_int 1, s1, false)
        end in
      if negb pre && negb post then None else
      let '(u, rest) := span (λ c, negb (point_or_digit c)) s2 in
      unit ← unitMap u;
      if 2 ^ 63 / unit <? v then None else
      let v := v * unit in
      let v := if 0 <? f
               then v + f64_trunc (f64_mul (f64_of_int f) (f64_div (f64_of_int unit) scale))
               else v in
      if (0 <? f) && (2 ^ 63 <? v) then None else Some (v, rest)
  end.

(** Each group consumes a byte at least; [n] bounds their number. *)
Fixpoint duration_groups (n : nat) (d : Z) (s : string) : option Z :=
  match s, n with
  | EmptyString, _ => Some d
  | _, O => None
  | _, S n =>
      '(v, rest) ← duration_group s;
      if 2 ^ 63 <? d + v then None else duration_groups n (d + v) rest
  end.

Definition ParseDuration (s : string) : option Duration :=
  let '(neg, s) :=
    match s with
    | String c t => if Ascii.eqb c "-" then (true, t) else if Ascii.eqb c "+" then (false, t) else (false, s)
    | EmptyString => (false, s)
    end in
  if bool_decide (s = "0") then Some 0
  else if bool_decide (s = "") then None
  else
    d ← duration_groups (String.length s) 0 s;
    if neg : bool then Some (wrap64 (- d)) else if maxInt64 <? d then None else Some d.

Example ParseDuration_ex :
  ParseDuration "1h30m" = Some (90 * Minute) ∧ ParseDuration "-1.5s" = Some (-1500000000) ∧
  ParseDuration "7d" = None ∧ ParseDuration "" = None ∧ ParseDuration "0" = Some 0 ∧
  ParseDuration "9223372036854775807ns" = Some maxInt64 ∧ ParseDuration "2562048h" = None.
Proof. repeat split. Qed.

(** ** [Duration.String], the [%s] of a duration *)

Fixpoint fmtFrac (prec : nat) (v : Z) (print : bool) (acc : string) : string * Z :=
  match prec with
  | O => (if print then String "." acc else acc, v)
  | S prec =>
      let digit := v mod 10 in
      let print := print || negb (digit =? 0) in
      fmtFrac prec (v / 10) print (if print then String (digit_char digit) acc else acc)
  end.

Definition format_duration (d : Duration) : string :=
  let u := Z.abs d in
  let body :=
    if u <? Second then
      if u =? 0 then "0s"
      else if u <? Microsecond then format_int u +:+ "ns"
      else if u <? Millisecond then
        let '(frac, u) := fmtFrac 3 u false "µs" in format_int u +:+ frac
      else let '(frac, u) := fmtFrac 6 u false "ms" in format_int u +:+ frac
    else
      let '(frac, u) := fmtFrac 9 u false "s" in
      let secs := format_int (u mod 60) +:+ frac in
      let u := u / 60 in
      if 0 <? u then
        let mins := format_int (u mod 60) +:+ "m" +:+ secs in
        let u := u / 60 in
        if 0 <? u then format_int u +:+ "h" +:+ mins else mins
      else secs in
  if d <? 0 then String "-" body else body.

Example format_duration_ex :
  format_duration (7 * 24 * Hour) = "168h0m0s" ∧ format_duration 1500000 = "1.5ms" ∧
  format_duration (-90 * Second) = "-1m30s".
Proof. repeat split. Qed.
