(* ===== verification/Regex.v ===== *)
(** * Regular expressions

    The anchored patterns the source compiles with [regexp.MustCompile],
    matched by derivatives.  [matches r s] is [MatchString] of the pattern
    [^r$]; [matches_lang] ties it to the language of the expression. *)
From S2P Require Import Prelude GoText.
From stdpp Require Import prelude strings list.
From Stdlib Require Import ZArith Lia Ascii String.

Inductive re :=
  | RNone
  | REps
  | RClass (p : ascii → bool)
  | RSeq (a b : re)
  | RAlt (a b : re)
  | RStar (a : re).

(** [a+], [a?], a literal *)
Definition RPlus (a : re) : re := RSeq a (RStar a).
Definition ROpt (a : re) : re := RAlt a REps.
Fixpoint RLit (s : string) : re :=
  match s with
  | EmptyString => REps
  | String a s => RSeq (RClass (is_char a)) (RLit s)
  end.

(** [a{0,n}] *)
Fixpoint RUpTo (n : nat) (r : re) : re :=
  match n with O => REps | S n => ROpt (RSeq r (RUpTo n r)) end.

Fixpoint nullable (r : re) : bool :=
  match r with
  | RNone | RClass _ => false
  | REps | RStar _ => true
  | RSeq a b => nullable a && nullable b
  | RAlt a b => nullable a || nullable b
  end.

Fixpoint deriv (c : ascii) (r : re) : re :=
  match r with
  | RNone | REps => RNone
  | RClass p => if p c then REps else RNone
  | RSeq a b => if nullable a then RAlt (RSeq (deriv c a) b) (deriv c b) else RSeq (deriv c a) b
  | RAlt a b => RAlt (deriv c a) (deriv c b)
  | RStar a => RSeq (deriv c a) (RStar a)
  end.

Fixpoint matches (r : re) (s : string) : bool :=
  match s with
  | EmptyString => nullable r
  | String c s => matches (deriv c r) s
  end.

(** ** The language *)

Inductive lang : re → string → Prop :=
  | l_eps : lang REps EmptyString
  | l_class p c : p c = true → lang (RClass p) (String c EmptyString)
  | l_seq a b x y : lang a x → lang b y → lang (RSeq a b) (x +:+ y)
  | l_alt_l a b x : lang a x → lang (RAlt a b) x
  | l_alt_r a b x : lang b x → lang (RAlt a b) x
  | l_star_nil a : lang (RStar a) EmptyString
  | l_star_cons a x y : lang a x → lang (RStar a) y → lang (RStar a) (x +:+ y).

Lemma nullable_lang r : nullable r = true ↔ lang r EmptyString.
Proof.
  split.
  - induction r as [| |p|a IHa b IHb|a IHa b IHb|a IHa]; simpl; try done; [constructor| | |constructor].
    + intros [Ha Hb]%andb_true_iff. apply (l_seq a b EmptyString EmptyString); auto.
    + intros [Ha|Hb]%orb_true_iff; [apply l_alt_l|apply l_alt_r]; auto.
  - remember EmptyString as e eqn:He. intros H.
    induction H as [|p c Hp|a b x y H1 IH1 H2 IH2|a b x H IH|a b x H IH|a|a x y H1 IH1 H2 IH2]; simpl; try done.
    + destruct x; [|done]. rewrite str_app_nil_l in He. by rewrite IH1, IH2.
    + by rewrite IH.
    + by rewrite IH, orb_true_r.
Qed.

(** A nonempty match of a star begins with a nonempty match of its body. *)
Lemma lang_star_cons a c t :
  lang (RStar a) (String c t) → ∃ x y, t = x +:+ y ∧ lang a (String c x) ∧ lang (RStar a) y.
Proof.
  remember (RStar a) as r eqn:Hr. remember (String c t) as s eqn:Hs. intros H. revert Hr Hs.
  induction H as [| | | | | |a' x y H1 _ H2 IH2]; intros [= ->] Hs; [done|].
  destruct x as [|d x].
  - rewrite str_app_nil_l in Hs. by apply IH2.
  - rewrite str_app_cons in Hs. simplify_eq. eauto.
Qed.

Lemma deriv_lang c r s : lang (deriv c r) s ↔ lang r (String c s).
Proof.
  revert s. induction r as [| |p|a IHa b IHb|a IHa b IHb|a IHa]; intros s; simpl.
  - split; intros H; inversion H.
  - split; intros H; inversion H.
  - destruct (p c) eqn:E; split; intros H; inversion H; subst; try congruence; by constructor.
  - split.
    + intros H. assert (Hseq : lang (RSeq (deriv c a) b) s → lang (RSeq a b) (String c s)).
      { inversion 1; subst. rewrite <- str_app_cons. constructor; [by apply IHa|done]. }
      destruct (nullable a) eqn:E; [|by apply Hseq].
      inversion H; subst; [by apply Hseq|].
      apply (l_seq a b EmptyString); [by apply nullable_lang|by apply IHb].
    + inversion 1 as [| |? ? x y H1 H2| | | |]; subst. destruct x as [|d x].
      * rewrite str_app_nil_l in *; subst. rewrite (proj2 (nullable_lang a)) by done.
        apply l_alt_r. by apply IHb.
      * match goal with E : _ = String c s |- _ => rewrite str_app_cons in E; injection E as -> <- end.
        destruct (nullable a); [apply l_alt_l|]; (constructor; [by apply IHa|done]).
  - split; inversion 1; subst; [apply l_alt_l|apply l_alt_r|apply l_alt_l|apply l_alt_r]; by firstorder.
  - split.
    + inversion 1; subst. rewrite <- str_app_cons. apply l_star_cons; [by apply IHa|done].
    + intros (x & y & -> & ? & ?)%lang_star_cons. constructor; [by apply IHa|done].
Qed.

(** The matcher decides the language. *)
Lemma matches_lang r s : matches r s = true ↔ lang r s.
Proof.
  revert r. induction s as [|c s IH]; intros r; simpl; [apply nullable_lang|].
  by rewrite IH, deriv_lang.
Qed.

(** ** Alphabets *)

Definition all_bytes : list ascii := ascii_of_nat <$> seq 0 256.

Lemma elem_of_all_bytes a : a ∈ all_bytes.
Proof.
  unfold all_bytes. apply list_elem_of_fmap. exists (nat_of_ascii a). split; [by rewrite ascii_nat_embedding|].
  apply elem_of_seq. pose proof (nat_ascii_bounded a). lia.
Qed.

(** Every byte of class [q] is of class [p]. *)
Definition class_sub (q p : ascii → bool) : bool := forallb (λ a, implb (q a) (p a)) all_bytes.

Lemma class_sub_spec q p a : class_sub q p = true → q a = true → p a = true.
Proof.
  unfold class_sub. rewrite forallb_forall. intros H Hq.
  specialize (H a (proj1 (list_elem_of_In _ _) (elem_of_all_bytes a))). by rewrite Hq in H.
Qed.

(** Every byte an expression can match is of class [p]. *)
Fixpoint re_over (p : ascii → bool) (r : re) : bool :=
  match r with
  | RNone | REps => true
  | RClass q => class_sub q p
  | RSeq a b | RAlt a b => re_over p a && re_over p b
  | RStar a => re_over p a
  end.

Lemma lang_over p r s : re_over p r = true → lang r s → str_forall p s = true.
Proof.
  intros Ho H. induction H as [|q c Hq|a b x y H1 IH1 H2 IH2|a b x H IH|a b x H IH|a|a x y H1 IH1 H2 IH2];
    simpl in *; rewrite ?andb_true_iff in *; try done; rewrite ?str_forall_app, ?andb_true_iff;
    try (by destruct_and?; auto).
  by rewrite (class_sub_spec _ _ _ Ho Hq).
Qed.

Lemma matches_over p r s : re_over p r = true → matches r s = true → str_forall p s = true.
Proof. intros Ho Hm. eapply lang_over; [done|]. by apply matches_lang. Qed.

(** The classes a match can begin with: [first_over p r] when [r] matches no
    empty string and every match starts with a byte of class [p]. *)
Fixpoint first_over (p : ascii → bool) (r : re) : bool :=
  match r with
  | RNone => true
  | REps | RStar _ => false
  | RClass q => class_sub q p
  | RSeq a b => first_over p a
  | RAlt a b => first_over p a && first_over p b
  end.

Lemma lang_first p r s :
  first_over p r = true → lang r s → ∃ c t, s = String c t ∧ p c = true.
Proof.
  intros Ho H. induction H as [|q c Hq|a b x y H1 IH1 H2 IH2|a b x H IH|a b x H IH|a|a x y H1 IH1 H2 IH2];
    simpl in *; rewrite ?andb_true_iff in *; destruct_and?; try done; eauto using class_sub_spec.
  destruct IH1 as (c & t & -> & ?); [done|]. rewrite str_app_cons. eauto.
Qed.
