(* ===== verification/GasPrice.v ===== *)
(** * Transaction pricing

    [gasprice/gasprice.go] (the fee formula shared by the server and the
    faucet) and [internal/chain/gasfee.go] (gas-limit sizing and the fee the
    server offers).  The chain query and the amino decoder behind [Fetch] are
    outside the repository and are arguments here. *)
From S2P Require Import Prelude.
From stdpp Require Import prelude strings.
From Stdlib Require Import ZArith Lia.
Local Open Scope Z_scope.

(** ** Data *)

(** [std.GasPrice]: [Price.Amount] of [Price.Denom] per [Gas] gas. *)
Record GasPrice := {
  gp_gas : Z;
  gp_amount : Z;
  gp_denom : string;
}.

Definition zeroGasPrice : GasPrice := {| gp_gas := 0; gp_amount := 0; gp_denom := "" |}.

(** The numbers of a price are Go [int64] values. *)
Definition price_ok (p : GasPrice) : Prop := int64 (gp_gas p) ∧ int64 (gp_amount p).

Inductive price_error :=
  | EGasWanted (g : Z)
  | EMargin (n d : Z)
  | EDenom (d : string)
  | EQuery
  | EDecode.

#[export] Instance price_error_eq_dec : EqDecision price_error.
Proof. solve_decision. Defined.

Definition ugnot : string := "ugnot".

(** ** [gasprice.Fetch]

    [query] is the ABCI answer ([None] for a transport failure), [decode] the
    amino-JSON decoder. *)
Definition Fetch (query : option string) (decode : string → option GasPrice) : res price_error GasPrice :=
  match query with
  | None => Err EQuery
  | Some data =>
      if bool_decide (data = "") || bool_decide (data = "null") then Ok zeroGasPrice
      else ok_or EDecode (decode data)
  end.

(** ** [gasprice.Compute] *)
Definition Compute (price : GasPrice) (gasWanted floor marginNum marginDen : Z) : res price_error Z :=
  if gasWanted <=? 0 then Err (EGasWanted gasWanted)
  else if (marginNum <=? 0) || (marginDen <=? 0) then Err (EMargin marginNum marginDen)
  else if (gp_gas price <=? 0) || (gp_amount price <=? 0) then Ok floor
  else if negb (bool_decide (gp_denom price = ugnot)) then Err (EDenom (gp_denom price))
  else if Z.quot (wrap64 (maxInt64 - wrap64 (gp_gas price - 1))) gasWanted <? gp_amount price then Ok floor
  else
    let minFee :=
      Z.quot (wrap64 (wrap64 (wrap64 (gasWanted * gp_amount price) + gp_gas price) - 1)) (gp_gas price) in
    if Z.quot maxInt64 marginNum <? minFee then Ok floor
    else
      let withMargin := Z.quot (wrap64 (minFee * marginNum)) marginDen in
      if withMargin <? floor then Ok floor else Ok withMargin.

(** ** Gas limits and the offered fee ([internal/chain/gasfee.go]) *)

Definition DefaultGasWanted : Z := 10000000.
Definition minGasPriceDivisor : Z := 1000.
Definition DefaultGasFeeUgnot : Z := Z.quot DefaultGasWanted minGasPriceDivisor.
Definition gasFeeMarginNum : Z := 2.
Definition gasFeeMarginDen : Z := 1.
Definition gasEstimateCeiling : Z := 1000000000.
Definition gasWantedMarginNum : Z := 3.
Definition gasWantedMarginDen : Z := 2.

Definition gasWantedFor (measured : Z) : Z :=
  let want := Z.quot (wrap64 (measured * gasWantedMarginNum)) gasWantedMarginDen in
  if want <? DefaultGasWanted then DefaultGasWanted
  else if gasEstimateCeiling <? want then gasEstimateCeiling
  else want.

Definition currentGasFee (price : res price_error GasPrice) (gasWanted : Z) : res price_error Z :=
  p ← price;
  Compute p gasWanted DefaultGasFeeUgnot gasFeeMarginNum gasFeeMarginDen.

Definition GasFeeUgnot (price : res price_error GasPrice) : res price_error Z :=
  currentGasFee price DefaultGasWanted.

(** ** Exact arithmetic *)

(** The smallest fee the ante accepts: [ceil (gasWanted * amount / gas)]. *)
Definition exact_min_fee (price : GasPrice) (gasWanted : Z) : Z :=
  (gasWanted * gp_amount price + gp_gas price - 1) / gp_gas price.

(** The two overflow guards, read over the integers. *)
Definition priceable (price : GasPrice) (gasWanted marginNum : Z) : Prop :=
  gp_amount price * gasWanted ≤ maxInt64 - (gp_gas price - 1) ∧
  exact_min_fee price gasWanted * marginNum ≤ maxInt64.

#[export] Instance priceable_dec p g n : Decision (priceable p g n).
Proof. unfold priceable. apply _. Defined.

Lemma quot_lt_iff a b c : 0 ≤ a → 0 < b → Z.quot a b < c ↔ a < c * b.
Proof.
  intros Ha Hb. rewrite Z.quot_div_nonneg by lia.
  pose proof (Z.div_mod a b) as Hd. pose proof (Z.mod_pos_bound a b).
  split; intros; nia.
Qed.

Lemma exact_min_fee_pos price g :
  0 < g → 0 < gp_gas price → 0 < gp_amount price → 0 < exact_min_fee price g.
Proof.
  intros. unfold exact_min_fee. apply Z.div_str_pos. nia.
Qed.

(** [exact_min_fee] is the least fee meeting the chain's gas price. *)
Lemma exact_min_fee_least price g fee :
  0 < gp_gas price →
  exact_min_fee price g ≤ fee ↔ g * gp_amount price ≤ fee * gp_gas price.
Proof.
  intros Hg. unfold exact_min_fee.
  pose proof (Z.div_mod (g * gp_amount price + gp_gas price - 1) (gp_gas price)) as Hd.
  pose proof (Z.mod_pos_bound (g * gp_amount price + gp_gas price - 1) (gp_gas price)).
  split; intros; nia.
Qed.

Section compute.
Context (price : GasPrice) (g floor num den : Z).
Hypotheses (Hp : price_ok price) (Hg : 0 < g) (Hg' : int64 g)
           (Hn : 0 < num) (Hn' : int64 num) (Hd : 0 < den)
           (Hgas : 0 < gp_gas price) (Hamt : 0 < gp_amount price).

Lemma guard1_exact :
  Z.quot (wrap64 (maxInt64 - wrap64 (gp_gas price - 1))) g < gp_amount price ↔
  maxInt64 - (gp_gas price - 1) < gp_amount price * g.
Proof.
  destruct Hp as [H1 H2]. unfold int64, minInt64, maxInt64 in *.
  rewrite !wrap64_id by (rewrite ?wrap64_id by (unfold int64, minInt64, maxInt64; lia);
                         unfold int64, minInt64, maxInt64; lia).
  apply quot_lt_iff; lia.
Qed.

(** [gasWanted*amount + gas - 1] may pass through an overflowed partial
    sum; the subtraction brings it back. *)
Lemma minFee_exact :
  gp_amount price * g ≤ maxInt64 - (gp_gas price - 1) →
  Z.quot (wrap64 (wrap64 (wrap64 (g * gp_amount price) + gp_gas price) - 1)) (gp_gas price)
  = exact_min_fee price g.
Proof.
  intros Hb. destruct Hp as [H1 H2]. unfold int64, minInt64, maxInt64 in *.
  rewrite wrap64_sub_l, <- Z.add_sub_assoc, wrap64_add_l, Z.add_sub_assoc.
  assert (0 < g * gp_amount price) by nia.
  rewrite wrap64_id by (unfold int64, minInt64, maxInt64; lia).
  rewrite Z.quot_div_nonneg by lia. reflexivity.
Qed.

(** With an active ugnot price, [Compute] is the exact margin-scaled
    minimum floored at [floor], or [floor] when the price is implausible. *)
Lemma Compute_active :
  gp_denom price = ugnot →
  Compute price g floor num den = Ok
    (if decide (priceable price g num)
     then Z.max floor (Z.quot (exact_min_fee price g * num) den) else floor).
Proof.
  intros Hden. unfold Compute.
  rewrite !(proj2 (Z.leb_gt _ _)) by lia. cbn [orb negb].
  rewrite bool_decide_true by done. cbn [orb negb].
  pose proof guard1_exact as Hg1. pose proof minFee_exact as Hmf.
  pose proof (exact_min_fee_pos price g Hg Hgas Hamt) as Hpos.
  unfold priceable.
  destruct (_ <? gp_amount price) eqn:E; b2p.
  { rewrite Hg1 in E. case_decide; [lia|done]. }
  rewrite Hmf by lia.
  assert (Hq : Z.quot maxInt64 num < exact_min_fee price g
               ↔ maxInt64 < exact_min_fee price g * num)
    by (apply quot_lt_iff; unfold maxInt64; lia).
  destruct (_ <? exact_min_fee price g) eqn:E2; b2p.
  { case_decide; [lia|done]. }
  rewrite decide_True by lia.
  rewrite wrap64_id by (unfold int64, minInt64; nia).
  destruct (_ <? floor) eqn:E3; b2p; f_equal; lia.
Qed.
End compute.

(** Every branch of [Compute], over the integers. *)
Lemma Compute_cases price g floor num den :
  price_ok price → int64 g → int64 num →
  Compute price g floor num den =
    if decide (g ≤ 0) then Err (EGasWanted g)
    else if decide (num ≤ 0 ∨ den ≤ 0) then Err (EMargin num den)
    else if decide (gp_gas price ≤ 0 ∨ gp_amount price ≤ 0) then Ok floor
    else if decide (gp_denom price ≠ ugnot) then Err (EDenom (gp_denom price))
    else if decide (priceable price g num)
    then Ok (Z.max floor (Z.quot (exact_min_fee price g * num) den))
    else Ok floor.
Proof.
  intros Hp Hg Hn.
  destruct (decide (g ≤ 0)).
  { unfold Compute. by rewrite (proj2 (Z.leb_le _ _)). }
  destruct (decide (num ≤ 0 ∨ den ≤ 0)).
  { unfold Compute. rewrite (proj2 (Z.leb_gt g _)) by lia.
    destruct (num <=? 0) eqn:?, (den <=? 0) eqn:?; b2p; done || lia. }
  destruct (decide (gp_gas price ≤ 0 ∨ gp_amount price ≤ 0)).
  { unfold Compute. rewrite (proj2 (Z.leb_gt g _)), (proj2 (Z.leb_gt num _)),
      (proj2 (Z.leb_gt den _)) by lia. cbn [orb negb].
    destruct (gp_gas price <=? 0) eqn:?, (gp_amount price <=? 0) eqn:?; b2p; done || lia. }
  destruct (decide (gp_denom price ≠ ugnot)).
  { unfold Compute. rewrite !(proj2 (Z.leb_gt _ _)) by lia. cbn [orb negb].
    by rewrite bool_decide_false. }
  rewrite Compute_active by (done || lia || by apply dec_stable).
  by case_decide.
Qed.

(** A chain's price, for the witnesses. *)
Definition example_price : GasPrice := {| gp_gas := 1000; gp_amount := 7; gp_denom := ugnot |}.

(** ** Theorems *)

(** C11: [gasprice.Compute] never wraps around: for every [int64] price and
    positive [int64] gas limit and margin, its answer is the one computed over
    the integers, namely the caller's error, the floor (inactive or implausible
    price), or the larger of the floor and the margin-scaled minimum fee. *)
Theorem Compute_exact price g floor num den :
  price_ok price → int64 g → int64 num →
  Compute price g floor num den =
    if decide (g ≤ 0) then Err (EGasWanted g)
    else if decide (num ≤ 0 ∨ den ≤ 0) then Err (EMargin num den)
    else if decide (gp_gas price ≤ 0 ∨ gp_amount price ≤ 0) then Ok floor
    else if decide (gp_denom price ≠ ugnot) then Err (EDenom (gp_denom price))
    else if decide (priceable price g num)
    then Ok (Z.max floor (Z.quot (exact_min_fee price g * num) den))
    else Ok floor.
Proof. apply Compute_cases. Qed.

Lemma Compute_exact_witness :
  Compute example_price 10000000 10000 2 1 = Ok 140000 ∧
  Compute example_price 10000000 10000 2 1 =
    if decide (priceable example_price 10000000 2) then Ok 140000 else Ok 10000.
Proof.
  split; [reflexivity|].
  rewrite (Compute_exact example_price 10000000 10000 2 1); [reflexivity| | |];
    repeat split; vm_compute; discriminate.
Defined.

(** the offered fee passes the chain's gas-price gate: when the price is
    active, denominated in ugnot and within the overflow guards and the margin
    is at least one, the fee [Compute] returns satisfies
    [fee * gas >= gasWanted * amount], and it is never below the floor. *)
Theorem Compute_adequate price g floor num den fee :
  price_ok price → int64 g → int64 num → 0 < den ≤ num →
  0 < gp_gas price → 0 < gp_amount price → priceable price g num →
  Compute price g floor num den = Ok fee →
  floor ≤ fee ∧ g * gp_amount price ≤ fee * gp_gas price.
Proof.
  intros Hp Hg Hn Hd Hgas Hamt Hpr HC.
  rewrite Compute_cases in HC by done.
  repeat case_decide; try (lia || congruence).
  injection HC as <-. split; [lia|].
  apply exact_min_fee_least; [done|].
  assert (0 < exact_min_fee price g) by (apply exact_min_fee_pos; lia).
  rewrite Z.quot_div_nonneg by nia.
  assert (exact_min_fee price g ≤ exact_min_fee price g * num / den); [|lia].
  apply Z.div_le_lower_bound; nia.
Qed.
Lemma Compute_adequate_witness :
  10000 ≤ 140000 ∧ 10000000 * gp_amount example_price ≤ 140000 * gp_gas example_price.
Proof.
  apply (Compute_adequate example_price 10000000 10000 2 1 140000);
    [repeat split; vm_compute; discriminate| | | |reflexivity|reflexivity| |reflexivity];
    repeat split; vm_compute; discriminate.
Defined.

(** [gasWantedFor] always answers a limit the chain can meter and the
    server can price: for every [int64] measurement, even one whose
    margin-scaling wraps around, the limit lies between the light-write floor
    and the estimate ceiling, and a measurement the ceiling dry-run can have
    produced (at most the ceiling) is covered with its margin up to the ceiling. *)
Theorem gasWantedFor_bounds measured :
  DefaultGasWanted ≤ gasWantedFor measured ≤ gasEstimateCeiling ∧
  (0 ≤ measured ≤ gasEstimateCeiling →
   gasWantedFor measured =
     Z.max DefaultGasWanted (Z.min gasEstimateCeiling (measured * 3 / 2)) ∧
   measured ≤ gasWantedFor measured).
Proof.
  unfold gasWantedFor, DefaultGasWanted, gasEstimateCeiling, gasWantedMarginNum, gasWantedMarginDen.
  split.
  { repeat case_match; b2p; lia. }
  intros Hm.
  rewrite wrap64_id by (unfold int64, minInt64, maxInt64; lia).
  rewrite Z.quot_div_nonneg by lia.
  pose proof (Z.div_mod (measured * 3) 2). pose proof (Z.mod_pos_bound (measured * 3) 2).
  repeat case_match; b2p; lia.
Qed.
