(* ===== verification/Limiter.v ===== *)
(** * The faucet's rate limiter

    [faucet/limiter.go]: per-address and per-IP sliding windows, a hard daily
    cap and a token bucket over total outflow.  The clock is injected: every
    operation that reads [l.now()] takes the reading as its argument [now].
    The mutex makes each method one atomic step; interleavings of [Allow] and
    [Refund] calls are the step relation [lstep]. *)
From S2P Require Import Prelude GoTime.
From stdpp Require Import prelude strings gmap list relations.
From Stdlib Require Import ZArith Lia Sorted.
Local Open Scope Z_scope.

(** ** Data *)

Inductive limit_error := ErrCooldown | ErrRateLimited | ErrDailyCap | ErrDripLimited.

#[export] Instance limit_error_eq_dec : EqDecision limit_error.
Proof. solve_decision. Defined.

Record LimiterCfg := {
  PerAddrWindow : Duration;
  PerAddrMax : Z;
  PerIPWindow : Duration;
  PerIPMax : Z;
  DailyCapUgnot : Z;
  GrantUgnot : Z;
  DripBurstUgnot : Z;
  DripRateUgnotPerSec : Z;
}.

(** The fields of [Limiter] that [NewLimiter] sets once. *)
Record LimiterConf := {
  perAddrWindow : Duration;
  perAddrMax : Z;
  perIPWindow : Duration;
  perIPMax : Z;
  dailyCapUgnot : Z;
  grantUgnot : Z;
  dripBurst : float64;
  dripRatePerSec : float64;
}.

Record Limiter := {
  conf : LimiterConf;
  addrHits : gmap string (list Time);
  ipHits : gmap string (list Time);
  daySpent : Z;
  dayStart : Time;
  dripTokens : float64;
  dripLast : Time;
}.

Definition NewLimiter (cfg : LimiterCfg) : Limiter := {|
  conf := {|
    perAddrWindow := if PerAddrWindow cfg =? 0 then 24 * Hour else PerAddrWindow cfg;
    perAddrMax := PerAddrMax cfg;
    perIPWindow := if PerIPWindow cfg =? 0 then Hour else PerIPWindow cfg;
    perIPMax := PerIPMax cfg;
    dailyCapUgnot := DailyCapUgnot cfg;
    grantUgnot := GrantUgnot cfg;
    dripBurst := f64_of_int (DripBurstUgnot cfg);
    dripRatePerSec := f64_of_int (DripRateUgnotPerSec cfg);
  |};
  addrHits := ∅;
  ipHits := ∅;
  daySpent := 0;
  dayStart := 0;
  dripTokens := f64_of_int (DripBurstUgnot cfg);
  dripLast := 0;
|}.

(** ** Sliding windows *)

(** [sameUTCDay] compares the two [Date()] triples, i.e. the day numbers. *)
Definition sameUTCDay (a b : Time) : bool := utc_day a =? utc_day b.

(** [!h.Before(now.Add(-window))] *)
Definition within (now : Time) (window : Duration) (h : Time) : Prop :=
  time_add now (- window) ≤ h.

#[export] Instance within_dec now window h : Decision (within now window h).
Proof. unfold within. apply _. Defined.
#[global] Typeclasses Opaque within.

Definition countWithin (hits : list Time) (now : Time) (window : Duration) : Z :=
  Z.of_nat (length (filter (within now window) hits)).

Definition prune (hits : list Time) (now : Time) (window : Duration) : list Time :=
  filter (within now window) hits.

Definition pruneAndAppend (hits : list Time) (now : Time) (window : Duration) : list Time :=
  prune hits now window ++ [now].

Definition dropLast (hits : list Time) : list Time := removelast hits.

(** [m[k]] on a Go map of slices: the nil slice for a missing key. *)
Definition hits_of (m : gmap string (list Time)) (k : string) : list Time :=
  default [] (m !! k).

Definition sweep_hits (m : gmap string (list Time)) (now : Time) (window : Duration) : gmap string (list Time) :=
  omap (λ hits, match prune hits now window with [] => None | kept => Some kept end) m.

Definition sweepStale (l : Limiter) (now : Time) : Limiter := {|
  conf := conf l;
  addrHits := sweep_hits (addrHits l) now (perAddrWindow (conf l));
  ipHits := sweep_hits (ipHits l) now (perIPWindow (conf l));
  daySpent := daySpent l; dayStart := dayStart l;
  dripTokens := dripTokens l; dripLast := dripLast l;
|}.

(** ** The drip bucket *)

Definition set_drip (l : Limiter) (tokens : float64) (last : Time) : Limiter := {|
  conf := conf l; addrHits := addrHits l; ipHits := ipHits l;
  daySpent := daySpent l; dayStart := dayStart l;
  dripTokens := tokens; dripLast := last;
|}.

(** [if x > burst { x = burst }] *)
Definition cap_at (burst x : float64) : float64 := if f64_lt burst x then burst else x.

Definition refillDrip (l : Limiter) (now : Time) : Limiter :=
  if time_is_zero (dripLast l) then set_drip l (dripTokens l) now
  else
    let elapsed := Seconds (time_sub now (dripLast l)) in
    if f64_le elapsed f64_zero then l
    else
      let tokens := f64_add (dripTokens l) (f64_mul elapsed (dripRatePerSec (conf l))) in
      set_drip l (cap_at (dripBurst (conf l)) tokens) now.

Definition drip_enabled (l : Limiter) : bool := f64_lt f64_zero (dripBurst (conf l)).

(** ** [Allow] *)

(** The day rollover at the head of [Allow]. *)
Definition rollover (l : Limiter) (now : Time) : Limiter :=
  if time_is_zero (dayStart l) || negb (sameUTCDay (dayStart l) now)
  then sweepStale {| conf := conf l; addrHits := addrHits l; ipHits := ipHits l;
                     daySpent := 0; dayStart := now;
                     dripTokens := dripTokens l; dripLast := dripLast l |} now
  else l.

(** The drip check of [Allow]: the limiter after it, and whether it passed. *)
Definition takeDrip (l : Limiter) (now : Time) : Limiter * bool :=
  if drip_enabled l then
    let l' := refillDrip l now in
    let g := f64_of_int (grantUgnot (conf l')) in
    if f64_lt (dripTokens l') g then (l', false)
    else (set_drip l' (f64_sub (dripTokens l') g) (dripLast l'), true)
  else (l, true).

(** Recording a grant, the tail of [Allow]. *)
Definition record_grant (l : Limiter) (addr ip : string) (now : Time) : Limiter := {|
  conf := conf l;
  addrHits := <[addr := pruneAndAppend (hits_of (addrHits l) addr) now (perAddrWindow (conf l))]> (addrHits l);
  ipHits := <[ip := pruneAndAppend (hits_of (ipHits l) ip) now (perIPWindow (conf l))]> (ipHits l);
  daySpent := wrap64 (daySpent l + grantUgnot (conf l));
  dayStart := dayStart l;
  dripTokens := dripTokens l; dripLast := dripLast l;
|}.

Definition Allow (l0 : Limiter) (addr ip : string) (now : Time) : Limiter * res limit_error Time :=
  let l := rollover l0 now in
  let c := conf l in
  if perAddrMax c <=? countWithin (hits_of (addrHits l) addr) now (perAddrWindow c) then
    (l, Err ErrCooldown)
  else if perIPMax c <=? countWithin (hits_of (ipHits l) ip) now (perIPWindow c) then
    (l, Err ErrRateLimited)
  else if wrap64 (dailyCapUgnot c - grantUgnot c) <? daySpent l then
    (l, Err ErrDailyCap)
  else
    let '(l, passed) := takeDrip l now in
    if passed then (record_grant l addr ip now, Ok now) else (l, Err ErrDripLimited).

(** ** [Refund], [Snapshot], [Policy] *)

Definition Refund (l : Limiter) (addr ip : string) (grantedAt now : Time) : Limiter :=
  let spent := wrap64 (daySpent l - grantUgnot (conf l)) in
  let l := {|
    conf := conf l;
    addrHits := <[addr := dropLast (hits_of (addrHits l) addr)]> (addrHits l);
    ipHits := <[ip := dropLast (hits_of (ipHits l) ip)]> (ipHits l);
    daySpent := if sameUTCDay grantedAt (dayStart l)
                then (if spent <? 0 then 0 else spent) else daySpent l;
    dayStart := dayStart l;
    dripTokens := dripTokens l; dripLast := dripLast l;
  |} in
  if drip_enabled l then
    let l := refillDrip l now in
    let tokens := f64_add (dripTokens l) (f64_of_int (grantUgnot (conf l))) in
    set_drip l (cap_at (dripBurst (conf l)) tokens) (dripLast l)
  else l.

Record LimiterSnapshot := {
  DripEnabled : bool;
  DripTokens : float64;
  DripBurst : float64;
  SnapDailyCapUgnot : Z;
  DaySpentUgnot : Z;
}.

Definition Snapshot (l : Limiter) (now : Time) : LimiterSnapshot :=
  let spent := if time_is_zero (dayStart l) || negb (sameUTCDay (dayStart l) now)
               then 0 else daySpent l in
  let tokens :=
    if drip_enabled l then
      if negb (time_is_zero (dripLast l)) then
        let elapsed := Seconds (time_sub now (dripLast l)) in
        if f64_lt f64_zero elapsed then
          cap_at (dripBurst (conf l))
                 (f64_add (dripTokens l) (f64_mul elapsed (dripRatePerSec (conf l))))
        else dripTokens l
      else dripTokens l
    else f64_zero in
  {| DripEnabled := drip_enabled l; DripTokens := tokens;
     DripBurst := dripBurst (conf l);
     SnapDailyCapUgnot := dailyCapUgnot (conf l); DaySpentUgnot := spent |}.

Record LimiterPolicy := { PolPerAddrMax : Z; PolPerAddrWindow : Duration }.

Definition Policy (l : Limiter) : LimiterPolicy :=
  {| PolPerAddrMax := perAddrMax (conf l); PolPerAddrWindow := perAddrWindow (conf l) |}.

(** ** Histories

    [ledger] is a ghost record of the grants that count: appended by a
    successful [Allow], removed by the [Refund] of that grant.  Calls
    interleave freely; [clock] is the last reading of the injected clock,
    which the model assumes never goes back. *)

Record Grant := { g_addr : string; g_ip : string; g_at : Time }.

#[export] Instance Grant_eq_dec : EqDecision Grant.
Proof. solve_decision. Defined.

Record History := { lim : Limiter; clock : Time; ledger : list Grant }.

Definition history0 (cfg : LimiterCfg) (t0 : Time) : History :=
  {| lim := NewLimiter cfg; clock := t0; ledger := [] |}.

Definition after_allow (st : History) (addr ip : string) (now : Time) : History :=
  let '(l, r) := Allow (lim st) addr ip now in
  {| lim := l; clock := now;
     ledger := match r with
               | Ok t => ledger st ++ [{| g_addr := addr; g_ip := ip; g_at := t |}]
               | Err _ => ledger st
               end |}.

Definition after_refund (st : History) (g : Grant) (kept : list Grant) (now : Time) : History :=
  {| lim := Refund (lim st) (g_addr g) (g_ip g) (g_at g) now; clock := now; ledger := kept |}.

(** [ordered = true] restricts [Refund] to the newest outstanding grant of its
    address and of its IP. *)
Inductive lstep (ordered : bool) : History → History → Prop :=
  | step_allow st addr ip now :
      clock st ≤ now → lstep ordered st (after_allow st addr ip now)
  | step_refund st l1 g l2 now :
      clock st ≤ now → ledger st = l1 ++ g :: l2 →
      (ordered = true → Forall (λ g', g_addr g' ≠ g_addr g ∧ g_ip g' ≠ g_ip g) l2) →
      lstep ordered st (after_refund st g (l1 ++ l2) now).

(** Ugnot the ledger counts against UTC day [d]. *)
Definition on_day (d : Z) (g : Grant) : Prop := utc_day (g_at g) = d.
#[export] Instance on_day_dec d g : Decision (on_day d g).
Proof. unfold on_day. apply _. Defined.
#[global] Typeclasses Opaque on_day.

Definition granted_on (d : Z) (gs : list Grant) : Z := Z.of_nat (length (filter (on_day d) gs)).

(** The times of the outstanding grants of one key (address or IP), oldest
    first. *)
Definition times (key : Grant → string) (k : string) (gs : list Grant) : list Time :=
  g_at <$> filter (λ g, key g = k) gs.

(** Grants of the list inside the window of length [w] that ends at [t]. *)
Definition in_window (w : Duration) (t : Time) (ts : list Time) : Z :=
  Z.of_nat (length (filter (λ x, t - w ≤ x ≤ t) ts)).

(** ** Frame lemmas *)

Definition same_counts (a b : Limiter) : Prop :=
  conf b = conf a ∧ addrHits b = addrHits a ∧ ipHits b = ipHits a ∧
  daySpent b = daySpent a ∧ dayStart b = dayStart a.

Lemma refillDrip_same l now : same_counts l (refillDrip l now).
Proof. unfold refillDrip. repeat case_match; by repeat split. Qed.

Lemma takeDrip_same l now l' b : takeDrip l now = (l', b) → same_counts l l'.
Proof.
  unfold takeDrip. pose proof (refillDrip_same l now) as H.
  repeat case_match; intros [= <- <-]; auto; by repeat split.
Qed.

Lemma rollover_conf l now : conf (rollover l now) = conf l.
Proof. unfold rollover. by case_match. Qed.

(** The two ways an [Allow] can end. *)
Lemma Allow_inv l addr ip now l' r :
  Allow l addr ip now = (l', r) →
  match r with
  | Err _ => same_counts (rollover l now) l'
  | Ok t =>
      t = now ∧
      ∃ l2, same_counts (rollover l now) l2 ∧ l' = record_grant l2 addr ip now ∧
        countWithin (hits_of (addrHits l2) addr) now (perAddrWindow (conf l)) < perAddrMax (conf l) ∧
        countWithin (hits_of (ipHits l2) ip) now (perIPWindow (conf l)) < perIPMax (conf l) ∧
        daySpent l2 ≤ wrap64 (dailyCapUgnot (conf l) - grantUgnot (conf l))
  end.
Proof.
  unfold Allow. rewrite rollover_conf.
  destruct (perAddrMax _ <=? _) eqn:Ea; [intros [= <- <-]; by repeat split|].
  destruct (perIPMax _ <=? _) eqn:Ei; [intros [= <- <-]; by repeat split|].
  destruct (_ <? daySpent _) eqn:Ed; [intros [= <- <-]; by repeat split|].
  destruct (takeDrip _ now) as [l2 b] eqn:Et. pose proof (takeDrip_same _ _ _ _ Et) as Hs.
  destruct b; intros [= <- <-]; [|done].
  split; [done|]. exists l2.
  destruct Hs as (Hc & Ha & Hi & Hd & Hs). rewrite rollover_conf in Hc. b2p.
  rewrite Ha, Hi, Hd. repeat split; auto. by rewrite rollover_conf.
Qed.

Lemma Refund_same l addr ip t now :
  let l' := Refund l addr ip t now in
  conf l' = conf l ∧ dayStart l' = dayStart l ∧
  addrHits l' = <[addr := dropLast (hits_of (addrHits l) addr)]> (addrHits l) ∧
  ipHits l' = <[ip := dropLast (hits_of (ipHits l) ip)]> (ipHits l) ∧
  daySpent l' = if sameUTCDay t (dayStart l)
                then Z.max 0 (wrap64 (daySpent l - grantUgnot (conf l))) else daySpent l.
Proof.
  intros l'. unfold l', Refund.
  set (m := {| conf := conf l |}).
  assert (Hm : daySpent m = if sameUTCDay t (dayStart l)
                then Z.max 0 (wrap64 (daySpent l - grantUgnot (conf l))) else daySpent l).
  { simpl. repeat case_match; b2p; lia. }
  pose proof (refillDrip_same m now) as (H1 & H2 & H3 & H4 & H5).
  destruct (drip_enabled m).
  - simpl. by rewrite H1, H2, H3, H4, H5.
  - by repeat split.
Qed.

(** ** The daily cap *)

Lemma granted_on_app d a b : granted_on d (a ++ b) = granted_on d a + granted_on d b.
Proof. unfold granted_on. rewrite filter_app, length_app. lia. Qed.

Lemma granted_on_cons d g gs :
  granted_on d (g :: gs) = (if decide (on_day d g) then 1 else 0) + granted_on d gs.
Proof. unfold granted_on. rewrite filter_cons. case_decide; simpl; lia. Qed.

Lemma granted_on_nonneg d gs : 0 ≤ granted_on d gs.
Proof. unfold granted_on. lia. Qed.

Lemma granted_on_later d gs :
  Forall (λ g, utc_day (g_at g) < d) gs → granted_on d gs = 0.
Proof.
  unfold granted_on. intros H. rewrite filter_none; [done|].
  eapply Forall_impl; [exact H|]. unfold on_day. simpl. lia.
Qed.

Record cap_inv (c : LimiterConf) (st : History) : Prop := {
  ci_conf : conf (lim st) = c;
  ci_clock : 0 < clock st;
  ci_start : 0 ≤ dayStart (lim st) ≤ clock st;
  ci_fresh : dayStart (lim st) = 0 → ledger st = [];
  ci_past : Forall (λ g, utc_day (g_at g) ≤ utc_day (dayStart (lim st))) (ledger st);
  ci_spent : dayStart (lim st) ≠ 0 →
    daySpent (lim st) = grantUgnot c * granted_on (utc_day (dayStart (lim st))) (ledger st);
  ci_cap : ∀ d, grantUgnot c * granted_on d (ledger st) ≤ dailyCapUgnot c;
}.

Section cap.
Context (c : LimiterConf).
Hypotheses (Hgrant : 0 ≤ grantUgnot c) (Hcap : 0 ≤ dailyCapUgnot c ≤ maxInt64).
Hypothesis (Hgi : grantUgnot c ≤ maxInt64).

(** After the rollover of an [Allow] the counter is today's outflow. *)
Lemma rollover_spent st now :
  cap_inv c st → clock st ≤ now →
  let l := rollover (lim st) now in
  0 < dayStart l ≤ now ∧ utc_day (dayStart l) = utc_day now ∧
  utc_day (dayStart (lim st)) ≤ utc_day now ∧
  daySpent l = grantUgnot c * granted_on (utc_day now) (ledger st).
Proof.
  intros [Hconf Hck Hst Hfr Hpast Hsp _] Hnow l.
  pose proof (utc_day_mono (dayStart (lim st)) now ltac:(lia)) as Hd.
  assert (Hz : granted_on (utc_day now) (ledger st) = 0 ∨
               (dayStart (lim st) ≠ 0 ∧ utc_day (dayStart (lim st)) = utc_day now)).
  { destruct (decide (dayStart (lim st) = 0)) as [E|E]; [left; by rewrite Hfr|].
    destruct (decide (utc_day (dayStart (lim st)) = utc_day now)); [by right|left].
    apply granted_on_later. eapply Forall_impl; [exact Hpast|]. simpl; lia. }
  unfold l, rollover, time_is_zero, sameUTCDay.
  destruct ((_ =? 0) || _) eqn:E.
  - simpl. repeat split; lia.
  - b2p. repeat split; try lia. rewrite Hsp by lia. congruence.
Qed.

Lemma cap_inv_allow st addr ip now :
  cap_inv c st → clock st ≤ now → cap_inv c (after_allow st addr ip now).
Proof.
  intros Hi Hnow. pose proof (rollover_spent st now Hi Hnow) as (Hs & Hd & Hle & Hsp).
  destruct Hi as [Hconf Hck Hst Hfr Hpast _ Hc].
  unfold after_allow. destruct (Allow (lim st) addr ip now) as [l' r] eqn:EA.
  apply Allow_inv in EA.
  assert (Hpast' : Forall (λ g, utc_day (g_at g) ≤ utc_day now) (ledger st)).
  { eapply Forall_impl; [exact Hpast|]. simpl. lia. }
  destruct r as [t|e].
  - destruct EA as (-> & l2 & (Hc2 & _ & _ & Hd2 & Hs2) & -> & _ & _ & Hle2).
    rewrite rollover_conf in Hc2.
    rewrite Hd2, Hsp, Hconf in Hle2.
    pose proof (granted_on_nonneg (utc_day now) (ledger st)).
    rewrite wrap64_id in Hle2 by (unfold int64, minInt64, maxInt64 in *; lia).
    constructor; simpl; rewrite ?Hs2, ?Hd; try lia.
    + by rewrite Hc2.
    + apply Forall_app. split; [done|]. by constructor.
    + intros _. rewrite Hd2, Hsp, Hc2, Hconf, granted_on_app, granted_on_cons.
      rewrite decide_True by done. rewrite wrap64_id; [unfold granted_on; simpl; lia|].
      unfold int64, minInt64, maxInt64 in *. nia.
    + intros d. rewrite granted_on_app, granted_on_cons.
      specialize (Hc d). unfold granted_on at 2; simpl.
      case_decide as Hdd; unfold on_day in *; simpl in *; subst; lia.
  - destruct EA as (Hc2 & _ & _ & Hd2 & Hs2). rewrite rollover_conf in Hc2.
    constructor; simpl; rewrite ?Hs2, ?Hd; try done; try lia; try congruence.
Qed.

Lemma cap_inv_refund st l1 g l2 now :
  cap_inv c st → clock st ≤ now → ledger st = l1 ++ g :: l2 →
  cap_inv c (after_refund st g (l1 ++ l2) now).
Proof.
  intros [Hconf Hck Hst Hfr Hpast Hsp Hc] Hnow Hl.
  pose proof (Refund_same (lim st) (g_addr g) (g_ip g) (g_at g) now) as (H1 & H2 & _ & _ & H5).
  assert (H0 : dayStart (lim st) ≠ 0).
  { intros E. rewrite (Hfr E) in Hl. by destruct l1. }
  rewrite Hl in *. specialize (Hsp H0).
  rewrite granted_on_app, granted_on_cons in Hsp.
  pose proof (granted_on_nonneg (utc_day (dayStart (lim st))) l1).
  pose proof (granted_on_nonneg (utc_day (dayStart (lim st))) l2).
  pose proof (Hc (utc_day (dayStart (lim st)))) as Hcd.
  rewrite granted_on_app, granted_on_cons in Hcd.
  constructor; simpl; rewrite ?H1, ?H2; try done; try lia.
  - apply Forall_app in Hpast as [? Hp]. apply Forall_cons in Hp as [_ ?]. by apply Forall_app.
  - intros _. rewrite H5, Hconf, Hsp, granted_on_app.
    unfold sameUTCDay, on_day in *. case_decide as Hg.
    + rewrite (proj2 (Z.eqb_eq _ _) Hg), wrap64_id; [nia|].
      unfold int64, minInt64, maxInt64 in *. nia.
    + by rewrite (proj2 (Z.eqb_neq _ _) Hg).
  - intros d. specialize (Hc d). clear Hcd Hsp.
    rewrite granted_on_app, granted_on_cons in Hc. rewrite granted_on_app.
    rewrite !Z.mul_add_distr_l in *. case_decide; lia.
Qed.

Lemma cap_inv_steps st st' :
  rtc (lstep false) st st' → cap_inv c st → cap_inv c st'.
Proof.
  induction 1 as [|st st1 st2 Hs _ IH]; [done|]. intros Hi. apply IH.
  destruct Hs; [by apply cap_inv_allow|by apply cap_inv_refund].
Qed.
End cap.

(** A grant that counts was made since the start, at a time the clock has read. *)
Lemma ledger_times cfg t0 st : rtc (lstep false) (history0 cfg t0) st →
  t0 ≤ clock st ∧ Forall (λ g, t0 ≤ g_at g ≤ clock st) (ledger st).
Proof.
  intros Hs. refine (rtc_ind_r (λ st, t0 ≤ clock st ∧ Forall (λ g, t0 ≤ g_at g ≤ clock st) (ledger st)) _ _ _ _ Hs).
  { split; [done|constructor]. }
  intros st1 st2 _ Hstep [Hc Hf].
  assert (Hlater : ∀ now, clock st1 ≤ now → Forall (λ g, t0 ≤ g_at g ≤ now) (ledger st1)).
  { intros now Hn. eapply Forall_impl; [exact Hf|]. simpl. lia. }
  destruct Hstep as [st1 addr ip now Hn|st1 l1 g l2 now Hn Hl _].
  - unfold after_allow. destruct (Allow (lim st1) addr ip now) as [l' r] eqn:EA. apply Allow_inv in EA.
    simpl. split; [lia|]. destruct r as [t|e]; [|by apply Hlater]. destruct EA as (-> & _).
    apply Forall_app. split; [by apply Hlater|]. constructor; [simpl; lia|constructor].
  - simpl. split; [lia|]. specialize (Hlater now Hn). rewrite Hl in Hlater.
    apply Forall_app in Hlater as [? Hg]. apply Forall_cons in Hg as [_ ?]. by apply Forall_app.
Qed.

(** A bound per day bounds the total over the days spanned. *)
Lemma granted_total G C (n : nat) : ∀ a gs, 0 ≤ C →
  Forall (λ g, a ≤ utc_day (g_at g) < a + Z.of_nat n) gs → (∀ d, G * granted_on d gs ≤ C) →
  G * Z.of_nat (length gs) ≤ C * Z.of_nat n.
Proof.
  induction n as [|n IH]; intros a gs HC Hf Hd.
  { destruct gs as [|g gs]; [simpl; lia|]. apply Forall_cons in Hf as [? _]. lia. }
  assert (Hlen : ∀ l, Z.of_nat (length l) = granted_on a l + Z.of_nat (length (filter (λ g, ¬ on_day a g) l))).
  { induction l as [|g l IHl]; [done|]. rewrite granted_on_cons, filter_cons. simpl.
    destruct (decide (on_day a g)), (decide (¬ on_day a g)); simpl; try lia; tauto. }
  assert (Hle : ∀ d l, granted_on d (filter (λ g, ¬ on_day a g) l) ≤ granted_on d l ∧
                       granted_on a (filter (λ g, ¬ on_day a g) l) = 0).
  { intros d l. induction l as [|g l IHl]; [done|]. rewrite filter_cons, granted_on_cons.
    destruct (decide (¬ on_day a g)); [rewrite !granted_on_cons|]; repeat case_decide; try lia; tauto. }
  rewrite Hlen. set (rest := filter _ gs).
  assert (Hrest : G * Z.of_nat (length rest) ≤ C * Z.of_nat n).
  { apply (IH (a + 1)); [done| |].
    - apply Forall_forall. intros g Hg. apply list_elem_of_filter in Hg as [Hna Hg].
      apply (proj1 (Forall_forall _ _) Hf) in Hg. unfold on_day in Hna. lia.
    - intros d. destruct (Hle d gs) as [Hl _]. specialize (Hd d). fold rest in Hl.
      pose proof (granted_on_nonneg d rest). destruct (Z.le_gt_cases 0 G); nia. }
  specialize (Hd a). lia.
Qed.

(** ** The sliding windows *)

(** What one key's recorded hits have to do with its outstanding grants [ts]
    when the clock reads [clk]: pruning dropped only times that no later
    window can reach, and every window that ends at a grant is within [M]. *)
Record key_inv (W : Duration) (M : Z) (clk : Time) (hits ts : list Time) : Prop := {
  ki_sorted : StronglySorted Z.le ts;
  ki_past : Forall (λ x, x ≤ clk) ts;
  ki_hits : ∃ cut, cut ≤ clk - W ∧ hits = filter (λ x, cut ≤ x) ts;
  ki_window : ∀ a g b, ts = a ++ g :: b →
    Z.of_nat (length (filter (λ x, g - W ≤ x) (a ++ [g]))) ≤ M;
}.

Lemma filter_ge_ge c d (ts : list Z) :
  c ≤ d → filter (λ x, d ≤ x) (filter (λ x, c ≤ x) ts) = filter (λ x, d ≤ x) ts.
Proof.
  intros H. rewrite list_filter_filter. apply list_filter_iff. intros x. lia.
Qed.

Lemma filter_length_impl (P Q : Z → Prop) `{!∀ x, Decision (P x), !∀ x, Decision (Q x)} (ts : list Z) :
  Forall (λ x, P x → Q x) ts → (length (filter P ts) ≤ length (filter Q ts))%nat.
Proof.
  induction 1 as [|x ts Hx _ IH]; [done|]. rewrite !filter_cons.
  repeat case_decide; simpl; try lia; tauto.
Qed.

Lemma prune_eq hits now w : prune hits now w = filter (λ x, now - w ≤ x) hits.
Proof. unfold prune. apply list_filter_iff. unfold within, time_add. lia. Qed.

Lemma countWithin_eq hits now w : countWithin hits now w = Z.of_nat (length (prune hits now w)).
Proof. done. Qed.

Section key_inv.
Context (W : Duration) (M : Z) (HW : 0 ≤ W).

Lemma key_inv_init clk : key_inv W M clk [] [].
Proof.
  split; try by constructor.
  - exists (clk - W). by split.
  - by intros [].
Qed.

Lemma key_inv_clock clk now hits ts :
  clk ≤ now → key_inv W M clk hits ts → key_inv W M now hits ts.
Proof.
  intros Hn [Hs Hp (cut & Hc & ->) Hw]. split; try done.
  - eapply Forall_impl; [exact Hp|]. simpl; lia.
  - exists cut. split; [lia|done].
Qed.

Lemma key_inv_prune clk now hits ts :
  clk ≤ now → key_inv W M clk hits ts → key_inv W M now (prune hits now W) ts.
Proof.
  intros Hn [Hs Hp (cut & Hc & ->) Hw]. split; try done.
  - eapply Forall_impl; [exact Hp|]. simpl; lia.
  - exists (now - W). split; [lia|]. rewrite prune_eq. by apply filter_ge_ge; lia.
Qed.

Lemma key_inv_grant clk now hits ts :
  clk ≤ now → key_inv W M clk hits ts → countWithin hits now W < M →
  key_inv W M now (pruneAndAppend hits now W) (ts ++ [now]).
Proof.
  intros Hn [Hs Hp (cut & Hc & ->) Hw] Hlt.
  assert (Hp' : Forall (λ x, x ≤ now) ts).
  { eapply Forall_impl; [exact Hp|]. simpl; lia. }
  unfold pruneAndAppend. rewrite countWithin_eq in Hlt.
  rewrite prune_eq, filter_ge_ge in * by lia.
  split.
  - clear -Hs Hp'. induction Hs as [|x ts Hs IH Hx]; simpl; [by repeat constructor|].
    apply Forall_cons in Hp' as [Hxn Hp']. constructor; [by apply IH|].
    apply Forall_app. split; [done|]. by constructor.
  - apply Forall_app. split; [done|]. constructor; [lia|constructor].
  - exists (now - W). split; [lia|]. rewrite filter_app. f_equal.
    rewrite filter_cons_True by lia. done.
  - intros a g b Heq. destruct (exists_last_or_nil b) as [->|(b' & y & ->)].
    + apply app_inj_tail in Heq as [<- <-].
      rewrite filter_app, length_app, (filter_cons_True _ now []) by lia.
      simpl. lia.
    + apply (Hw a g b'). rewrite app_comm_cons, app_assoc in Heq.
      by apply app_inj_tail in Heq as [-> _].
Qed.

Lemma key_inv_drop clk hits ts g :
  key_inv W M clk hits (ts ++ [g]) → key_inv W M clk (dropLast hits) ts.
Proof.
  intros [Hs Hp (cut & Hc & ->) Hw].
  apply Forall_app in Hp as [Hp _]. split.
  - clear -Hs. induction ts as [|x ts IH]; [constructor|].
    inversion Hs as [|? ? Hs' Hx]; subst. constructor; [by apply IH|].
    by apply Forall_app in Hx as [? _].
  - done.
  - exists cut. split; [done|]. unfold dropLast. rewrite filter_app.
    destruct (decide (cut ≤ g)).
    + rewrite (filter_cons_True _ g []) by done. apply removelast_last.
    + rewrite (filter_cons_False _ g []), app_nil_r by done.
      rewrite (filter_none (λ x, cut ≤ x)); [done|].
      clear -Hs n. induction ts as [|x ts IH]; [constructor|].
      inversion Hs as [|? ? Hs' Hx]; subst. constructor; [|by apply IH].
      apply Forall_app in Hx as [_ Hx]. apply Forall_cons in Hx as [? _]. lia.
  - intros a g' b ->. apply (Hw a g' (b ++ [g])). by rewrite <- app_assoc.
Qed.

(** Any window of the outstanding grants is the window of its last grant. *)
Lemma key_inv_window clk hits ts t :
  key_inv W M clk hits ts → in_window W t ts ≤ Z.max 0 M.
Proof.
  intros [_ _ _ Hw]. unfold in_window. clear clk hits.
  induction ts as [|g ts IH] using rev_ind; [simpl; lia|].
  rewrite filter_app, length_app. destruct (decide (t - W ≤ g ≤ t)) as [Hg|Hg].
  - rewrite (filter_cons_True _ g []) by done. simpl.
    specialize (Hw ts g [] eq_refl). rewrite filter_app, length_app in Hw.
    rewrite (filter_cons_True _ g []) in Hw by lia. simpl in Hw.
    pose proof (filter_length_impl (λ x, t - W ≤ x ≤ t) (λ x, g - W ≤ x) ts
                  ltac:(apply Forall_true; lia)).
    lia.
  - rewrite (filter_cons_False _ g []) by done. simpl. rewrite Nat.add_0_r.
    apply IH. intros a g' b ->. apply (Hw a g' (b ++ [g])). by rewrite <- app_assoc.
Qed.
End key_inv.

Lemma hits_of_insert m k k' hits :
  hits_of (<[k := hits]> m) k' = if decide (k = k') then hits else hits_of m k'.
Proof. unfold hits_of. rewrite lookup_insert. by case_decide. Qed.

Lemma hits_of_sweep m now w k : hits_of (sweep_hits m now w) k = prune (hits_of m k) now w.
Proof.
  unfold hits_of, sweep_hits. rewrite lookup_omap. destruct (m !! k) as [hits|]; simpl; [|done].
  by destruct (prune hits now w).
Qed.

Lemma times_app key k a b : times key k (a ++ b) = times key k a ++ times key k b.
Proof. unfold times. by rewrite filter_app, fmap_app. Qed.

Lemma times_cons key k g gs :
  times key k (g :: gs) = (if decide (key g = k) then [g_at g] else []) ++ times key k gs.
Proof. unfold times. rewrite filter_cons. by case_decide. Qed.

Lemma times_none key k gs : Forall (λ g, key g ≠ k) gs → times key k gs = [].
Proof. unfold times. intros H. by rewrite filter_none. Qed.

(** The windows of all the keys of one map. *)
Definition map_inv (key : Grant → string) (W : Duration) (M : Z) (clk : Time)
    (m : gmap string (list Time)) (gs : list Grant) : Prop :=
  ∀ k, key_inv W M clk (hits_of m k) (times key k gs).

Section map_inv.
Context (key : Grant → string) (W : Duration) (M : Z) (HW : 0 ≤ W).

Lemma map_inv_rollover l now clk gs (sel : Limiter → gmap string (list Time))
    (Hsel : sel (rollover l now) = sel l ∨ sel (rollover l now) = sweep_hits (sel l) now W) :
  clk ≤ now → map_inv key W M clk (sel l) gs → map_inv key W M now (sel (rollover l now)) gs.
Proof.
  intros Hn H k. specialize (H k). destruct Hsel as [-> | ->].
  - by eapply key_inv_clock.
  - rewrite hits_of_sweep. by eapply key_inv_prune.
Qed.

Lemma map_inv_grant m gs g now :
  g_at g = now → map_inv key W M now m gs →
  countWithin (hits_of m (key g)) now W < M →
  map_inv key W M now (<[key g := pruneAndAppend (hits_of m (key g)) now W]> m) (gs ++ [g]).
Proof.
  intros Hg H Hlt k. rewrite hits_of_insert, times_app, times_cons. simpl.
  destruct (decide (key g = k)) as [<-|].
  - rewrite Hg. by eapply key_inv_grant.
  - rewrite !app_nil_r. apply H.
Qed.

Lemma map_inv_refund m clk now l1 g l2 :
  clk ≤ now → Forall (λ g', key g' ≠ key g) l2 →
  map_inv key W M clk m (l1 ++ g :: l2) →
  map_inv key W M now (<[key g := dropLast (hits_of m (key g))]> m) (l1 ++ l2).
Proof.
  intros Hn Hl2 H k. specialize (H k). rewrite hits_of_insert.
  rewrite times_app, times_cons in H. rewrite times_app.
  eapply key_inv_clock; [exact Hn|].
  destruct (decide (key g = k)) as [<-|]; [|done].
  rewrite (times_none _ _ l2) in * by done. rewrite app_nil_r in *.
  by eapply key_inv_drop.
Qed.
End map_inv.

Record window_inv (c : LimiterConf) (st : History) : Prop := {
  wi_conf : conf (lim st) = c;
  wi_addr : map_inv g_addr (perAddrWindow c) (perAddrMax c) (clock st) (addrHits (lim st)) (ledger st);
  wi_ip : map_inv g_ip (perIPWindow c) (perIPMax c) (clock st) (ipHits (lim st)) (ledger st);
}.

Section windows.
Context (c : LimiterConf) (HWa : 0 ≤ perAddrWindow c) (HWi : 0 ≤ perIPWindow c).

Lemma window_inv_rollover st now :
  window_inv c st → clock st ≤ now →
  map_inv g_addr (perAddrWindow c) (perAddrMax c) now (addrHits (rollover (lim st) now)) (ledger st) ∧
  map_inv g_ip (perIPWindow c) (perIPMax c) now (ipHits (rollover (lim st) now)) (ledger st).
Proof.
  intros [Hc Ha Hi] Hn. split.
  - eapply (map_inv_rollover _ _ _ _ _ (clock st) _ addrHits); [|exact Hn|exact Ha].
    unfold rollover. case_match; [right|by left]. simpl. by rewrite Hc.
  - eapply (map_inv_rollover _ _ _ _ _ (clock st) _ ipHits); [|exact Hn|exact Hi].
    unfold rollover. case_match; [right|by left]. simpl. by rewrite Hc.
Qed.

Lemma window_inv_step st st' : lstep true st st' → window_inv c st → window_inv c st'.
Proof.
  intros Hs Hw. pose proof Hw as [Hc Ha Hi]. destruct Hs as [st addr ip now Hn|st l1 g l2 now Hn Hl Ho].
  - destruct (window_inv_rollover st now Hw Hn) as [Ha' Hi'].
    unfold after_allow. destruct (Allow (lim st) addr ip now) as [l' r] eqn:EA.
    apply Allow_inv in EA. destruct r as [t|e].
    + destruct EA as (-> & l2 & (H1 & H2 & H3 & _) & -> & Hca & Hci & _).
      rewrite rollover_conf, Hc in H1. rewrite Hc in *. rewrite H2, H3 in *.
      constructor; simpl; [by rewrite H1| |]; rewrite H1, ?H2, ?H3.
      * by apply (map_inv_grant g_addr _ _ HWa _ _ {| g_addr := addr; g_ip := ip; g_at := now |}).
      * by apply (map_inv_grant g_ip _ _ HWi _ _ {| g_addr := addr; g_ip := ip; g_at := now |}).
    + destruct EA as (H1 & H2 & H3 & _). rewrite rollover_conf in H1.
      constructor; simpl; rewrite ?H2, ?H3; congruence || done.
  - specialize (Ho eq_refl). rewrite Hl in *.
    pose proof (Refund_same (lim st) (g_addr g) (g_ip g) (g_at g) now) as (H1 & _ & H3 & H4 & _).
    constructor; simpl; rewrite ?H1, ?H3, ?H4; [done| |].
    + eapply map_inv_refund; [exact Hn| |exact Ha].
      eapply Forall_impl; [exact Ho|]. by intros ? [? _].
    + eapply map_inv_refund; [exact Hn| |exact Hi].
      eapply Forall_impl; [exact Ho|]. by intros ? [_ ?].
Qed.

Lemma window_inv_steps st st' : rtc (lstep true) st st' → window_inv c st → window_inv c st'.
Proof. induction 1; eauto using window_inv_step. Qed.
End windows.

Lemma cap_inv_init cfg t0 :
  0 < t0 → 0 ≤ DailyCapUgnot cfg → cap_inv (conf (NewLimiter cfg)) (history0 cfg t0).
Proof.
  intros. constructor; simpl; try done; try lia.
  intros d. unfold granted_on. simpl. lia.
Qed.

Lemma window_inv_init cfg t0 : window_inv (conf (NewLimiter cfg)) (history0 cfg t0).
Proof. constructor; [done|intros k; apply key_inv_init..]. Qed.

(** ** What a call leaves counted *)

(** [l'] counts what [l] does from time [now] on: the same daily total, and
    the same hits in every window tested later. *)
Definition counts_as (now : Time) (l l' : Limiter) : Prop :=
  daySpent (rollover l' now) = daySpent (rollover l now) ∧
  ∀ k later, now ≤ later →
    countWithin (hits_of (addrHits l') k) later (perAddrWindow (conf l)) =
      countWithin (hits_of (addrHits l) k) later (perAddrWindow (conf l)) ∧
    countWithin (hits_of (ipHits l') k) later (perIPWindow (conf l)) =
      countWithin (hits_of (ipHits l) k) later (perIPWindow (conf l)).

Lemma countWithin_prune hits now w later :
  now ≤ later → countWithin (prune hits now w) later w = countWithin hits later w.
Proof. intros. rewrite !countWithin_eq, !prune_eq. by rewrite filter_ge_ge by lia. Qed.

Lemma rollover_counts l now k later :
  now ≤ later →
  countWithin (hits_of (addrHits (rollover l now)) k) later (perAddrWindow (conf l)) =
    countWithin (hits_of (addrHits l) k) later (perAddrWindow (conf l)) ∧
  countWithin (hits_of (ipHits (rollover l now)) k) later (perIPWindow (conf l)) =
    countWithin (hits_of (ipHits l) k) later (perIPWindow (conf l)).
Proof.
  intros Hl. unfold rollover. case_match; [|done]. simpl. rewrite !hits_of_sweep.
  by rewrite !countWithin_prune.
Qed.

Lemma rollover_today l now : 0 < now → utc_day (dayStart (rollover l now)) = utc_day now.
Proof.
  intros Hn. unfold rollover, time_is_zero, sameUTCDay.
  destruct ((_ =? 0) || _) eqn:E; [done|]. b2p. done.
Qed.

Lemma rollover_noop l now :
  0 < dayStart l → utc_day (dayStart l) = utc_day now → rollover l now = l.
Proof.
  intros Hs Hd. unfold rollover, time_is_zero, sameUTCDay.
  rewrite (proj2 (Z.eqb_neq _ _)) by lia. by rewrite (proj2 (Z.eqb_eq _ _)).
Qed.

Lemma rollover_start l now : 0 < now → 0 ≤ dayStart l → 0 < dayStart (rollover l now).
Proof.
  intros Hn Hs. unfold rollover, time_is_zero. destruct ((_ =? 0) || _) eqn:E; [done|]. b2p. lia.
Qed.

Lemma refused_counts_as l addr ip now l' e :
  0 < now → 0 ≤ dayStart l → Allow l addr ip now = (l', Err e) → counts_as now l l'.
Proof.
  intros Hn Hs HA. apply Allow_inv in HA as (_ & Ha & Hi & Hd & Hst).
  split.
  - rewrite rollover_noop; [done|..]; rewrite Hst; [by apply rollover_start|by apply rollover_today].
  - intros k later Hl. rewrite Ha, Hi. by apply rollover_counts.
Qed.

(** A grant followed by its own refund counts nothing, as long as the counter
    was a real one and the refund comes before another day's rollover. *)
Lemma refunded_counts_as l addr ip now l1 t later :
  0 < now → 0 ≤ dayStart l → 0 ≤ daySpent l ≤ maxInt64 →
  Allow l addr ip now = (l1, Ok t) → counts_as now l (Refund l1 addr ip t later).
Proof.
  intros Hn Hs Hsp HA. apply Allow_inv in HA as (-> & l2 & (Hc & Ha & Hi & Hd & Hst) & -> & _).
  pose proof (Refund_same (record_grant l2 addr ip now) addr ip now later) as (_ & Hst' & Ha' & Hi' & Hd').
  set (l' := Refund _ _ _ _ _) in *. simpl in *.
  rewrite rollover_conf in Hc.
  assert (Htoday : utc_day (dayStart l2) = utc_day now) by (rewrite Hst; by apply rollover_today).
  assert (Hspent : 0 ≤ daySpent (rollover l now) ≤ maxInt64)
    by (unfold rollover; destruct (_ || _); [simpl; unfold maxInt64; lia|done]).
  split.
  - rewrite rollover_noop; rewrite ?Hst', ?Hst; [|by apply rollover_start|by apply rollover_today].
    rewrite Hd'. unfold sameUTCDay. rewrite (proj2 (Z.eqb_eq _ _)) by done.
    rewrite wrap64_sub_l, Z.add_simpl_r, Hd.
    rewrite wrap64_id by (unfold int64, minInt64; lia). lia.
  - intros k later' Hl. rewrite Ha', Hi', !hits_of_insert, Hc, Ha, Hi.
    destruct (rollover_counts l now k later' Hl) as [<- <-].
    unfold dropLast, pruneAndAppend.
    split; case_decide; rewrite ?hits_of_insert; subst; rewrite ?decide_True by done;
      rewrite ?removelast_last, ?countWithin_prune by done; try done;
      rewrite ?decide_False by done; done.
Qed.

(** The drip bucket never holds more than its capacity (NaN included: the test
    is the [>] of the source). *)
Definition bucket_ok (l : Limiter) : Prop := f64_lt (dripBurst (conf l)) (dripTokens l) = false.

Lemma cap_at_ok burst x : f64_lt burst burst = false → f64_lt burst (cap_at burst x) = false.
Proof. unfold cap_at. by destruct (f64_lt burst x) eqn:?. Qed.

(** ** Concrete inputs *)

Definition cfg1 : LimiterCfg := {|
  PerAddrWindow := 0; PerAddrMax := 1; PerIPWindow := 0; PerIPMax := 3;
  DailyCapUgnot := 20; GrantUgnot := 10; DripBurstUgnot := 0; DripRateUgnotPerSec := 0 |}.

Definition cfg2 : LimiterCfg := {|
  PerAddrWindow := 10 * Second; PerAddrMax := 2; PerIPWindow := 0; PerIPMax := 100;
  DailyCapUgnot := 1000; GrantUgnot := 10; DripBurstUgnot := 0; DripRateUgnotPerSec := 0 |}.

(** A history of [Allow]s. *)
Definition allows (st : History) (calls : list (string * string * Time)) : History :=
  foldl (λ st c, let '(a, i, t) := c in after_allow st a i t) st calls.

Fixpoint calls_in_order (clk : Time) (calls : list (string * string * Time)) : bool :=
  match calls with
  | [] => true
  | (_, _, t) :: calls => (clk <=? t) && calls_in_order t calls
  end.

Lemma after_allow_clock st a i t : clock (after_allow st a i t) = t.
Proof. unfold after_allow. by destruct (Allow _ _ _ _). Qed.

Lemma allows_reach ordered st calls :
  calls_in_order (clock st) calls = true → rtc (lstep ordered) st (allows st calls).
Proof.
  revert st. induction calls as [|[[a i] t] calls IH]; intros st; [done|].
  simpl. intros [Ht Hc]%andb_true_iff. apply Z.leb_le in Ht.
  eapply rtc_l; [by apply (step_allow ordered st a i t)|]. apply IH.
  by rewrite after_allow_clock.
Qed.

(** ** Theorems *)

(** the daily cap is hard.  For every interleaving of [Allow] and [Refund]
    calls (a [Refund] of any grant still counted, in any order) against a
    clock that does not go back, on every UTC day the grants made on that day
    and not refunded total at most [DailyCapUgnot], and no counter wraps
    around. *)
Theorem daily_cap cfg t0 st d :
  0 < t0 → 0 ≤ GrantUgnot cfg ≤ maxInt64 → 0 ≤ DailyCapUgnot cfg ≤ maxInt64 →
  rtc (lstep false) (history0 cfg t0) st →
  GrantUgnot cfg * granted_on d (ledger st) ≤ DailyCapUgnot cfg.
Proof.
  intros Ht Hg Hc Hs.
  assert (Hi : cap_inv (conf (NewLimiter cfg)) st).
  { eapply cap_inv_steps; [..|exact Hs|apply cap_inv_init]; simpl; lia. }
  apply (ci_cap _ _ Hi).
Qed.

Lemma daily_cap_witness :
  let st := allows (history0 cfg1 1) [("a", "i", 5); ("b", "i", 6); ("c", "i", 7)] in
  ledger st = [{| g_addr := "a"; g_ip := "i"; g_at := 5 |}; {| g_addr := "b"; g_ip := "i"; g_at := 6 |}] ∧
  GrantUgnot cfg1 * granted_on 0 (ledger st) ≤ DailyCapUgnot cfg1.
Proof.
  split; [vm_compute; reflexivity|].
  apply (daily_cap cfg1 1 _ 0); [lia|vm_compute; split; discriminate..|].
  by apply allows_reach.
Defined.

(** C12: the per-address and per-IP limits bound every sliding window, not only
    the windows a request was tested in: over histories in which refunds undo
    the newest grant of their address and IP, any window of length
    [perAddrWindow] (resp. [perIPWindow]), wherever it ends, holds at most
    [PerAddrMax] (resp. [PerIPMax]) outstanding grants to one address (resp.
    IP); a maximum of zero or less admits none. *)
Theorem sliding_windows cfg t0 st k t :
  let c := conf (NewLimiter cfg) in
  0 ≤ PerAddrWindow cfg → 0 ≤ PerIPWindow cfg →
  rtc (lstep true) (history0 cfg t0) st →
  in_window (perAddrWindow c) t (times g_addr k (ledger st)) ≤ Z.max 0 (PerAddrMax cfg) ∧
  in_window (perIPWindow c) t (times g_ip k (ledger st)) ≤ Z.max 0 (PerIPMax cfg).
Proof.
  intros c Ha Hi Hs.
  assert (Hwa : 0 ≤ perAddrWindow c) by (simpl; case_match; done || unfold Hour, Minute, Second; lia).
  assert (Hwi : 0 ≤ perIPWindow c) by (simpl; case_match; done || unfold Hour, Minute, Second; lia).
  destruct (window_inv_steps c Hwa Hwi _ _ Hs (window_inv_init cfg t0)) as [_ H1 H2].
  split; [exact (key_inv_window _ _ Hwa _ _ _ _ (H1 k))|exact (key_inv_window _ _ Hwi _ _ _ _ (H2 k))].
Qed.

Lemma sliding_windows_witness :
  let st := allows (history0 cfg2 1) [("a", "i", 2 * Second); ("a", "i", 5 * Second); ("a", "i", 6 * Second)] in
  times g_addr "a" (ledger st) = [2 * Second; 5 * Second] ∧
  in_window (10 * Second) (6 * Second) (times g_addr "a" (ledger st)) ≤ 2.
Proof.
  split; [vm_compute; reflexivity|].
  refine (proj1 (sliding_windows cfg2 1 _ "a" (6 * Second) _ _ _)); [vm_compute; discriminate..|].
  by apply allows_reach.
Defined.

(** [Refund] drops the newest hit, not the refunded one: when a refund
    lands after a later grant to the same address, the limiter forgets the
    grant that was paid, and the address can be paid three times inside a
    window that admits two. *)
Theorem late_refund_breaks_window :
  ∃ st, rtc (lstep false) (history0 cfg2 1) st ∧
    in_window (perAddrWindow (conf (lim st))) (12 * Second) (times g_addr "a" (ledger st)) = 3 ∧
    perAddrMax (conf (lim st)) = 2.
Proof.
  eexists. split.
  - eapply rtc_l; [apply (step_allow false (history0 cfg2 1) "a" "i" (1 * Second)); vm_compute; discriminate|].
    eapply rtc_l; [apply (step_allow false _ "a" "i" (5 * Second)); vm_compute; discriminate|].
    eapply rtc_l; [apply (step_refund false _ [] {| g_addr := "a"; g_ip := "i"; g_at := 1 * Second |}
                            [{| g_addr := "a"; g_ip := "i"; g_at := 5 * Second |}] (6 * Second));
                   [vm_compute; discriminate|vm_compute; reflexivity|discriminate]|].
    eapply rtc_l; [apply (step_allow false _ "a" "i" (11 * Second + 1)); vm_compute; discriminate|].
    eapply rtc_l; [apply (step_allow false _ "a" "i" (12 * Second)); vm_compute; discriminate|].
    apply rtc_refl.
  - split; vm_compute; reflexivity.
Qed.

(** A refused [Allow] records nothing: the limiter it leaves is the one
    after the day rollover as far as the windows and the daily counter go, so
    a refusal consumes neither a cooldown nor the daily budget, and the hits
    every later window sees are unchanged. *)
Theorem refused_allow_counts_nothing l addr ip now l' e k later :
  Allow l addr ip now = (l', Err e) → now ≤ later →
  daySpent l' = daySpent (rollover l now) ∧ dayStart l' = dayStart (rollover l now) ∧
  countWithin (hits_of (addrHits l') k) later (perAddrWindow (conf l)) =
    countWithin (hits_of (addrHits l) k) later (perAddrWindow (conf l)) ∧
  countWithin (hits_of (ipHits l') k) later (perIPWindow (conf l)) =
    countWithin (hits_of (ipHits l) k) later (perIPWindow (conf l)).
Proof.
  intros HA Hl. apply Allow_inv in HA as (_ & Ha & Hi & Hd & Hs).
  split; [done|]. split; [done|]. rewrite Ha, Hi. by apply rollover_counts.
Qed.

Lemma refused_allow_counts_nothing_witness :
  let l := lim (allows (history0 cfg1 1) [("a", "i", 5)]) in
  snd (Allow l "a" "j" 6) = Err ErrCooldown ∧
  countWithin (hits_of (ipHits (fst (Allow l "a" "j" 6))) "j") 7 Hour = 0.
Proof.
  split; [vm_compute; reflexivity|].
  refine (eq_trans (proj2 (proj2 (proj2 (refused_allow_counts_nothing
            (lim (allows (history0 cfg1 1) [("a", "i", 5)])) "a" "j" 6
            (fst (Allow (lim (allows (history0 cfg1 1) [("a", "i", 5)])) "a" "j" 6))
            ErrCooldown "j" 7 _ _)))) _);
    [vm_compute; reflexivity|vm_compute; discriminate|vm_compute; reflexivity].
Defined.

(** [Snapshot] is a faithful projection: without touching the limiter it
    reports the counter [Allow] would compare with the daily cap at the same
    instant, and the tokens the drip check would see after its refill. *)
Theorem Snapshot_faithful l now :
  let s := Snapshot l now in
  DaySpentUgnot s = daySpent (rollover l now) ∧
  DripEnabled s = drip_enabled l ∧
  DripTokens s = (if drip_enabled l then dripTokens (refillDrip l now) else f64_zero).
Proof.
  unfold Snapshot, rollover, refillDrip. simpl. split; [by case_match|]. split; [done|].
  destruct (drip_enabled l); [|done]. destruct (time_is_zero (dripLast l)); [done|]. simpl.
  rewrite (f64_le_zero_negb _ _ (Seconds_signed _)).
  by destruct (f64_lt f64_zero _).
Qed.
