(* ===== verification/FaucetSvc.v ===== *)
(** * The faucet service

    [faucet/dispense.go] (pricing, signing and broadcasting a grant; the cached
    funding balance), [faucet/faucet.go] ([Fund] and its options),
    [faucet/metrics.go] (outcome classification), [faucet/server.go] (the HTTP
    handlers), [faucet/clientip.go] and [faucet/logging.go] (the access log).

    The bech32 codec ([crypto.Address]) and the gnoclient operations behind a
    dispense are outside the repository: they are the arguments of the
    sections below, and the laws the theorems use of them are named. *)
From S2P Require Import Prelude GoTime GoText GasPrice Limiter.
From stdpp Require Import prelude strings gmap list relations.
From Stdlib Require Import ZArith Lia Ascii String.
Local Open Scope Z_scope.

(** ** The dispenser interface *)

(** A [Send] error: whether it wraps [ErrNotGranted], and its text.
    [SePanic] is the nil dereference of a client that returns neither a result
    nor an error. *)
Inductive send_error :=
  | SeNotGranted (what : string)
  | SeUnknown (what : string)
  | SePanic.

Definition not_granted (e : send_error) : bool :=
  match e with SeNotGranted _ => true | _ => false end.

(** What [Dispenser] promises: [paid w] is the list of transfers (recipient,
    ugnot) out of the funding account that have landed in world [w]. *)
Class DispenserLaws {W : Type} (paid : W → list (string * Z)) (canonical : string → Prop)
    (Send : W → string → Z → W * res send_error string) : Prop := {
  send_paid : ∀ w to amt w' tx, canonical to →
    Send w to amt = (w', Ok tx) → paid w' = paid w ++ [(to, amt)];
  send_unpaid : ∀ w to amt w' e, canonical to →
    Send w to amt = (w', Err e) → not_granted e = true → paid w' = paid w;
  send_maybe : ∀ w to amt w' e, canonical to →
    Send w to amt = (w', Err e) → paid w' = paid w ∨ paid w' = paid w ++ [(to, amt)];
}.

(** ** [gnoclientDispenser] *)

Definition dispenseGasFeeMarginNum : Z := 2.
Definition dispenseGasFeeMarginDen : Z := 1.
Definition genesisGasPriceDivisor : Z := 1000.

Record gnoclientDispenser {Addr : Type} := { d_from : Addr; d_gasWanted : Z; d_floor : Z }.
Arguments gnoclientDispenser : clear implicits.

Definition NewGnoclientDispenser {Addr} (from : Addr) (gasWanted : Z) : gnoclientDispenser Addr :=
  {| d_from := from; d_gasWanted := gasWanted; d_floor := Z.quot gasWanted genesisGasPriceDivisor |}.

(** The gnoclient operations [Send] uses, over a world [W] they act on. *)
Record Cli {W Addr Tx Signed : Type} := {
  cli_gasprice : W → res price_error GasPrice;
  cli_new_send_tx : string → Z → Addr → Addr → Z → res string Tx;
  cli_sign : W → Tx → res string Signed;
  cli_broadcast : W → Signed → W * (option string * option string);
}.
Arguments Cli : clear implicits.

Section dispense.
Context {W Addr Tx Signed : Type}.
Context (AddressFromBech32 : string → res string Addr).

Definition Send (cli : Cli W Addr Tx Signed) (d : gnoclientDispenser Addr)
    (w : W) (to : string) (amountUgnot : Z) : W * res send_error string :=
  match AddressFromBech32 to with
  | Err e => (w, Err (SeNotGranted ("bad recipient: " +:+ e)))
  | Ok toAddr =>
  match cli_gasprice cli w with
  | Err _ => (w, Err (SeNotGranted "gas price"))
  | Ok price =>
  match Compute price (d_gasWanted d) (d_floor d) dispenseGasFeeMarginNum dispenseGasFeeMarginDen with
  | Err _ => (w, Err (SeNotGranted "gas price"))
  | Ok fee =>
  match cli_new_send_tx cli (format_int fee +:+ "ugnot") (d_gasWanted d) (d_from d) toAddr amountUgnot with
  | Err e => (w, Err (SeNotGranted ("build tx: " +:+ e)))
  | Ok tx =>
  match cli_sign cli w tx with
  | Err e => (w, Err (SeNotGranted ("sign: " +:+ e)))
  | Ok signed =>
  match cli_broadcast cli w signed with
  | (w, (Some _, Some e)) => (w, Err (SeNotGranted ("send: " +:+ e)))
  | (w, (None, Some e)) => (w, Err (SeUnknown ("faucet: send (outcome unknown): " +:+ e)))
  | (w, (Some hash, None)) => (w, Ok hash)
  | (w, (None, None)) => (w, Err SePanic)
  end end end end end end.
End dispense.

(** ** [NewGnoclientBalance]: the cached funding balance *)

Record BalanceCache := { cached : Z; cachedAt : Time; seeded : bool }.

(** One call at time [now], with [answer] what [QueryAccount] would return and
    [after] the clock when it has. *)
Definition balance_read (ttl : Duration) (answer : res string Z) (now after : Time)
    (c : BalanceCache) : BalanceCache * res string Z :=
  if seeded c && (time_sub now (cachedAt c) <? ttl) then (c, Ok (cached c))
  else match answer with
  | Err e => (c, Err ("query funding account: " +:+ e))
  | Ok v => ({| cached := v; cachedAt := after; seeded := true |}, Ok v)
  end.

(** ** [Faucet] *)

Record Faucet := {
  chainID : string;
  f_grantUgnot : Z;
  minFundingUgnot : Z;
  hasBalance : bool;        (* [fundingBalance != nil] *)
  trustedProxies : Z;
}.

Inductive Option :=
  | WithBalanceFloor (minUgnot : Z) (balance : bool)
  | WithTrustedProxies (n : Z).

Definition apply_option (f : Faucet) (o : Option) : Faucet :=
  match o with
  | WithBalanceFloor m b =>
      {| chainID := chainID f; f_grantUgnot := f_grantUgnot f; minFundingUgnot := m;
         hasBalance := b; trustedProxies := trustedProxies f |}
  | WithTrustedProxies n =>
      {| chainID := chainID f; f_grantUgnot := f_grantUgnot f; minFundingUgnot := minFundingUgnot f;
         hasBalance := hasBalance f; trustedProxies := n |}
  end.

Definition New (chain : string) (grant : Z) (opts : list Option) : Faucet :=
  foldl apply_option
    {| chainID := chain; f_grantUgnot := grant; minFundingUgnot := 0; hasBalance := false; trustedProxies := 0 |}
    opts.

Inductive fund_error :=
  | FErrChainMismatch
  | FErrBadAddress (address : string)
  | FErrFundingLow
  | FErrBalance (what : string)
  | FErrLimit (e : limit_error)
  | FErrDispense (e : send_error).

Record PerAddressLimit := { Max : Z; WindowSeconds : Z }.
Record FaucetLimits := { FlGrantUgnot : Z; FlPerAddress : PerAddressLimit }.

Definition Limits (f : Faucet) (l : Limiter) : FaucetLimits :=
  let p := Policy l in
  {| FlGrantUgnot := f_grantUgnot f;
     FlPerAddress := {| Max := PolPerAddrMax p; WindowSeconds := f64_trunc (Seconds (PolPerAddrWindow p)) |} |}.

Definition retryAfterSeconds (l : Limiter) : Z :=
  let floor := 24 * 60 * 60 in
  let w := f64_trunc (Seconds (PolPerAddrWindow (Policy l))) in
  if floor <? w then w else floor.

Section fund.
Context {W Addr : Type}.
Context (AddressFromBech32 : string → res string Addr) (String : Addr → string).
Context (Send : W → string → Z → W * res send_error string).

(** The checks before the limiter; [bal] is what [fundingBalance] answers. *)
Definition fund_precheck (f : Faucet) (bal : res string Z) (address reqChainID : string) :
    res fund_error string :=
  if negb (bool_decide (reqChainID = chainID f)) then Err FErrChainMismatch
  else match AddressFromBech32 address with
  | Err _ => Err (FErrBadAddress address)
  | Ok addr =>
      let canonical := String addr in
      if hasBalance f && (0 <? minFundingUgnot f) then
        match bal with
        | Err e => Err (FErrBalance e)
        | Ok b => if b <? minFundingUgnot f then Err FErrFundingLow else Ok canonical
        end
      else Ok canonical
  end.

(** What follows a [Send]: the refund, at time [later], of a grant that
    provably did not land. *)
Definition fund_settle (l : Limiter) (canonical ip : string) (grantedAt later : Time)
    (r : res send_error string) : Limiter * res fund_error string :=
  match r with
  | Ok tx => (l, Ok tx)
  | Err e => (if not_granted e then Refund l canonical ip grantedAt later else l, Err (FErrDispense e))
  end.

Definition Fund (f : Faucet) (l : Limiter) (w : W) (bal : res string Z)
    (address ip reqChainID : string) (now later : Time) : Limiter * W * res fund_error string :=
  match fund_precheck f bal address reqChainID with
  | Err e => (l, w, Err e)
  | Ok canonical =>
      match Allow l canonical ip now with
      | (l, Err e) => (l, w, Err (FErrLimit e))
      | (l, Ok grantedAt) =>
          let '(w, r) := Send w canonical (f_grantUgnot f) in
          let '(l, r) := fund_settle l canonical ip grantedAt later r in
          (l, w, r)
      end
  end.

(** *** Concurrent requests

    A request holds the limiter's lock for [Allow] and again for [Refund],
    and no lock in between: [inflight] are the grants allowed whose [Send]
    has not returned. *)
Record Service := { hist : History; inflight : list Grant; world : W }.

Definition service0 (cfg : LimiterCfg) (t0 : Time) (w : W) : Service :=
  {| hist := history0 cfg t0; inflight := []; world := w |}.

Inductive sstep (f : Faucet) : Service → Service → Prop :=
  | s_enter st bal address ip reqChainID canonical now :
      clock (hist st) ≤ now →
      fund_precheck f bal address reqChainID = Ok canonical →
      sstep f st
        {| hist := after_allow (hist st) canonical ip now;
           inflight := inflight st ++
             match snd (Allow (lim (hist st)) canonical ip now) with
             | Ok t => [{| g_addr := canonical; g_ip := ip; g_at := t |}]
             | Err _ => []
             end;
           world := world st |}
  | s_paid st a g b w' r :
      inflight st = a ++ g :: b →
      Send (world st) (g_addr g) (f_grantUgnot f) = (w', r) →
      match r with Ok _ => True | Err e => not_granted e = false end →
      sstep f st {| hist := hist st; inflight := a ++ b; world := w' |}
  | s_refund st a g b w' e l1 l2 now :
      inflight st = a ++ g :: b →
      Send (world st) (g_addr g) (f_grantUgnot f) = (w', Err e) →
      not_granted e = true →
      clock (hist st) ≤ now → ledger (hist st) = l1 ++ g :: l2 →
      sstep f st {| hist := after_refund (hist st) g (l1 ++ l2) now; inflight := a ++ b; world := w' |}.
End fund.
Arguments Service : clear implicits.

(** ** Outcomes *)

Definition OutcomeSuccess : string := "success".
Definition OutcomeBadRequest : string := "bad_request".
Definition OutcomeChainMismatch : string := "chain_mismatch".
Definition OutcomeCooldown : string := "cooldown".
Definition OutcomeRateLimited : string := "rate_limited".
Definition OutcomeDailyCap : string := "daily_cap".
Definition OutcomeDripLimited : string := "drip_limited".
Definition OutcomeFundingLow : string := "funding_low".
Definition OutcomeDispenseFailed : string := "dispense_failed".

Definition classify (err : option fund_error) : Z * string :=
  match err with
  | None => (200, OutcomeSuccess)
  | Some (FErrBadAddress _) => (400, OutcomeBadRequest)
  | Some FErrChainMismatch => (403, OutcomeChainMismatch)
  | Some (FErrLimit ErrCooldown) => (429, OutcomeCooldown)
  | Some (FErrLimit ErrRateLimited) => (429, OutcomeRateLimited)
  | Some (FErrLimit ErrDailyCap) => (429, OutcomeDailyCap)
  | Some (FErrLimit ErrDripLimited) => (429, OutcomeDripLimited)
  | Some FErrFundingLow => (503, OutcomeFundingLow)
  | Some (FErrBalance _) | Some (FErrDispense _) => (502, OutcomeDispenseFailed)
  end.

(** ** HTTP handlers *)

Record fundRequest := { rq_address : string; rq_chain_id : string }.

(** JSON bodies are the values encoded. *)
Inductive body :=
  | BText (s : string)
  | BFund (tx_hash : string) (amount_ugnot : Z)
  | BRate (error limit : string) (retry_after_seconds : Z)
  | BLimits (l : FaucetLimits).

Record Response := { r_status : Z; r_headers : list (string * string); r_body : body }.

(** [http.Error] *)
Definition http_error (msg : string) (code : Z) : Response :=
  {| r_status := code; r_headers := [("Content-Type", "text/plain; charset=utf-8")]; r_body := BText (msg +:+ NL) |}.

(** [err.Error()] of the errors [handleFund] passes to its caller. *)
Definition fund_error_text (is_print : Z → bool) (e : fund_error) : string :=
  match e with
  | FErrChainMismatch => "faucet: chain-id does not match this faucet"
  | FErrBadAddress a => "faucet: invalid recipient address: " +:+ quote is_print a
  | FErrFundingLow => "faucet: funding wallet below minimum balance"
  | FErrBalance e => "faucet: funding balance: " +:+ e
  | FErrLimit ErrCooldown => "faucet: address in cooldown"
  | FErrLimit ErrRateLimited => "faucet: per-IP rate limit"
  | FErrLimit ErrDailyCap => "faucet: global daily cap reached"
  | FErrLimit ErrDripLimited => "faucet: global drip rate exceeded"
  | FErrDispense (SeNotGranted e) => "faucet: dispense: faucet: grant not sent: " +:+ e
  | FErrDispense (SeUnknown e) => "faucet: dispense: " +:+ e
  | FErrDispense SePanic => ""
  end.

(** The access-log fields of a request ([reqInfo]). *)
Record reqInfo := { i_method : string; i_ip : string; i_outcome : string; i_address : string; i_chainID : string }.

Definition recordFund (info : reqInfo) (outcome address chain : string) : reqInfo :=
  {| i_method := i_method info; i_ip := i_ip info; i_outcome := outcome;
     i_address := address; i_chainID := chain |}.

Definition handleLimits (f : Faucet) (l : Limiter) : Response :=
  {| r_status := 200; r_headers := [("Content-Type", "application/json")]; r_body := BLimits (Limits f l) |}.

Definition handleHealth : Response := {| r_status := 200; r_headers := []; r_body := BText "ok" |}.

(** What [logRequests] sends for a handler that panicked before it wrote. *)
Definition panic_response : Response := {| r_status := 500; r_headers := []; r_body := BText "" |}.

(** The response to a [Fund] result; [l] is the limiter after the call. *)
Definition fund_response (is_print : Z → bool) (f : Faucet) (l : Limiter) (r : res fund_error string) : Response :=
  let '(status, outcome) := classify (match r with Ok _ => None | Err e => Some e end) in
  match r with
  | Ok tx => {| r_status := 200; r_headers := [("Content-Type", "application/json")]; r_body := BFund tx (f_grantUgnot f) |}
  | Err (FErrDispense SePanic) => panic_response
  | Err e =>
      if bool_decide (outcome = OutcomeDispenseFailed) then http_error "faucet: dispense failed" 502
      else if status =? 429 then
        let retry := retryAfterSeconds l in
        {| r_status := 429;
           r_headers := [("Retry-After", format_int retry); ("Content-Type", "application/json")];
           r_body := BRate "rate limited" (if bool_decide (outcome = OutcomeCooldown) then "per_address" else "") retry |}
      else http_error (fund_error_text is_print e) status
  end.

Section handlers.
Context {W Addr : Type}.
Context (AddressFromBech32 : string → res string Addr) (String : Addr → string).
Context (Send : W → string → Z → W * res send_error string).
Context (is_print : Z → bool).

(** [decoded] is the JSON body, [None] when it does not decode (a body over
    4 KiB included). *)
Definition handleFund (f : Faucet) (l : Limiter) (w : W) (bal : res string Z)
    (decoded : option fundRequest) (info : reqInfo) (now later : Time) :
    Limiter * W * Response * reqInfo :=
  match decoded with
  | Some rq =>
      if bool_decide (rq_address rq = "") then
        (l, w, http_error "bad request: expected JSON {address, chain_id}" 400,
         recordFund info OutcomeBadRequest "" "")
      else
        let '(l, w, r) :=
          Fund AddressFromBech32 String Send f l w bal (rq_address rq) (i_ip info) (rq_chain_id rq) now later in
        let '(_, outcome) := classify (match r with Ok _ => None | Err e => Some e end) in
        (l, w, fund_response is_print f l r,
         match r with
         | Err (FErrDispense SePanic) => info  (* the panic skips [recordFund] *)
         | _ => recordFund info outcome (rq_address rq) (rq_chain_id rq)
         end)
  | None =>
      (l, w, http_error "bad request: expected JSON {address, chain_id}" 400,
       recordFund info OutcomeBadRequest "" "")
  end.
End handlers.

(** ** The client address *)

(** The text before and after the last [c]. *)
Fixpoint cut_last (c : ascii) (s : string) : option (string * string) :=
  match s with
  | EmptyString => None
  | String a t =>
      match cut_last c t with
      | Some (x, y) => Some (String a x, y)
      | None => if Ascii.eqb a c then Some (EmptyString, t) else None
      end
  end.

(** The text before and after the first [c]. *)
Definition cut_first (c : ascii) (s : string) : option (string * string) :=
  match span (λ a, negb (Ascii.eqb a c)) s with
  | (x, String _ y) => Some (x, y)
  | (_, EmptyString) => None
  end.

Definition has_char (c : ascii) (s : string) : bool := str_exists (λ a, Ascii.eqb a c) s.

(** [net.SplitHostPort], the host part. *)
Definition split_host (hostport : string) : option string :=
  match cut_last ":" hostport with
  | None => None
  | Some (before, port) =>
      match hostport with
      | String a rest =>
          if Ascii.eqb a "[" then
            match cut_first "]" rest with
            | None => None
            | Some (host, after) =>
                (* the last colon must follow the bracket at once *)
                if bool_decide (after = String ":" port)
                then if has_char "[" (host +:+ port) || has_char "]" port then None else Some host
                else None
            end
          else if has_char ":" before || has_char "[" hostport || has_char "]" hostport then None
          else Some before
      | EmptyString => None
      end
  end.

Definition hostOnly (addr : string) : string := default addr (split_host addr).

(** [xff] is the value of the [X-Forwarded-For] header, empty when absent. *)
Definition clientIP (remoteAddr xff : string) (trusted : Z) : string :=
  let remote := hostOnly remoteAddr in
  if trusted <=? 0 then remote
  else if bool_decide (xff = "") then remote
  else
    let parts := split_byte "," xff in
    let idx := Z.of_nat (List.length parts) - trusted in
    if (idx <? 0) || (Z.of_nat (List.length parts) <=? idx) then remote
    else match parts !! Z.to_nat idx with
         | Some p => trim_space p
         | None => remote
         end.

(** ** The access log *)

(** What reaches the wire. *)
Inductive wire := WStatus (code : Z) | WBytes (b : string).

Record statusRecorder := { s_status : Z; s_wroteHeader : bool; s_out : list wire }.

Definition new_recorder : statusRecorder := {| s_status := 200; s_wroteHeader := false; s_out := [] |}.

Definition WriteHeader (s : statusRecorder) (code : Z) : statusRecorder :=
  if s_wroteHeader s then s
  else {| s_status := code; s_wroteHeader := true; s_out := s_out s ++ [WStatus code] |}.

Definition Write (s : statusRecorder) (b : string) : statusRecorder :=
  let s := if negb (s_wroteHeader s) then WriteHeader s 200 else s in
  {| s_status := s_status s; s_wroteHeader := s_wroteHeader s; s_out := s_out s ++ [WBytes b] |}.

(** What a handler does with its [ResponseWriter]. *)
Inductive handler_op := HHeader (code : Z) | HWrite (b : string).

Definition run_op (s : statusRecorder) (o : handler_op) : statusRecorder :=
  match o with HHeader c => WriteHeader s c | HWrite b => Write s b end.

Record log_record := { lg_level : string; lg_attrs : list (string * string) }.

Section log.
Context (route : string) (latency stack : string).

(** [logRequests] around a handler that performs [ops], leaves [info], and
    panics with [panicVal] if it is [Some]. *)
Definition logRequests (ops : list handler_op) (info : reqInfo) (panicVal : option string) :
    list wire * list log_record :=
  let rec := foldl run_op new_recorder ops in
  let rec := match panicVal with
             | Some _ => if negb (s_wroteHeader rec) then WriteHeader rec 500 else rec
             | None => rec
             end in
  let attrs := [("method", i_method info); ("route", route); ("status", format_int (s_status rec));
                ("latency_ms", latency); ("client_ip", i_ip info)] in
  let attrs := if bool_decide (i_outcome info = "") then attrs else attrs ++ [("outcome", i_outcome info)] in
  let attrs := if bool_decide (i_address info = "") then attrs else attrs ++ [("address", i_address info)] in
  let attrs := if bool_decide (i_chainID info = "") then attrs else attrs ++ [("chain_id", i_chainID info)] in
  match panicVal with
  | Some v => (s_out rec, [{| lg_level := "ERROR"; lg_attrs := attrs ++ [("panic", v); ("stack", stack)] |}])
  | None => (s_out rec, [{| lg_level := "INFO"; lg_attrs := attrs |}])
  end.
End log.

(** ** The dispenser refines its interface *)

(** What the gnoclient and the node behind it promise: [pays s] is the
    transfer a signed tx carries.  A broadcast that returns a result and an
    error was refused or reverted; one that returns neither a result nor a
    verdict may or may not have landed. *)
Class CliLaws {W Addr Tx Signed : Type} (fmt : Addr → string)
    (cli : Cli W Addr Tx Signed) (paid : W → list (string * Z)) (pays : Signed → string * Z) : Prop := {
  sign_pays : ∀ w fee gas from a amt tx s,
    cli_new_send_tx cli fee gas from a amt = Ok tx → cli_sign cli w tx = Ok s → pays s = (fmt a, amt);
  bc_ok : ∀ w s w' h, cli_broadcast cli w s = (w', (Some h, None)) → paid w' = paid w ++ [pays s];
  bc_refused : ∀ w s w' h e, cli_broadcast cli w s = (w', (Some h, Some e)) → paid w' = paid w;
  bc_unknown : ∀ w s w' e, cli_broadcast cli w s = (w', (None, e)) →
    paid w' = paid w ∨ paid w' = paid w ++ [pays s];
}.

Section dispenser_refines.
Context {W Addr Tx Signed : Type} (parse : string → res string Addr) (fmt : Addr → string).
Context (cli : Cli W Addr Tx Signed) (d : gnoclientDispenser Addr).
Context (paid : W → list (string * Z)) (pays : Signed → string * Z).
Context `{!CliLaws fmt cli paid pays}.

Lemma Send_cases w to amt w' r :
  (∀ a, parse to = Ok a → fmt a = to) →
  Send parse cli d w to amt = (w', r) →
  (paid w' = paid w ∧ ∃ e, r = Err e) ∨
  (paid w' = paid w ++ [(to, amt)] ∧ ∀ e, r = Err e → not_granted e = false).
Proof using All.
  unfold Send. intros Hto H.
  destruct (parse to) as [a|] eqn:Ep; [|simplify_eq; eauto].
  destruct (cli_gasprice cli w); [|simplify_eq; eauto].
  destruct (Compute _ _ _ _ _) as [fee|]; [|simplify_eq; eauto].
  destruct (cli_new_send_tx _ _ _ _ _ _) as [tx|] eqn:Et; [|simplify_eq; eauto].
  destruct (cli_sign cli w tx) as [s|] eqn:Es; [|simplify_eq; eauto].
  pose proof (sign_pays _ _ _ _ _ _ _ _ Et Es) as Hp. rewrite (Hto a) in Hp by done.
  destruct (cli_broadcast cli w s) as [w1 [[h|] [e|]]] eqn:Eb; simplify_eq.
  - left. split; [by eapply bc_refused|eauto].
  - right. rewrite <- Hp. split; [by eapply bc_ok|done].
  - rewrite <- Hp. destruct (bc_unknown _ _ _ _ Eb); [left|right]; split; eauto; by intros ? [= <-].
  - rewrite <- Hp. destruct (bc_unknown _ _ _ _ Eb); [left|right]; split; eauto; by intros ? [= <-].
Qed.
End dispenser_refines.

(** ** The concurrent service *)

Lemma granted_on_submseteq d gs gs' : gs ⊆+ gs' → granted_on d gs ≤ granted_on d gs'.
Proof.
  intros H. unfold granted_on. apply inj_le. induction H as [|x l1 l2 _ IH|x y l|x l1 l2 _ IH|]; try lia.
  - rewrite !filter_cons. case_decide; simpl; lia.
  - rewrite !filter_cons. repeat case_decide; simpl; lia.
  - rewrite (filter_cons _ x). case_decide; simpl; lia.
Qed.

Section service.
Context {W Addr : Type} (parse : string → res string Addr) (fmt : Addr → string).
Context (Send : W → string → Z → W * res send_error string).
Context (paid : W → list (string * Z)).
Context `{!DispenserLaws paid (λ s, ∃ a, fmt a = s) Send}.
Context (f : Faucet) (cfg : LimiterCfg) (t0 : Time) (w0 : W).

Definition payment (g : Grant) : string * Z := (g_addr g, f_grantUgnot f).

(** The grants in flight and the grants paid are distinct entries of the
    ledger the limiter counts. *)
Record svc_inv (st : Service W) : Prop := {
  sv_reach : rtc (lstep false) (history0 cfg t0) (hist st);
  sv_canon : Forall (λ g, ∃ a, fmt a = g_addr g) (inflight st);
  sv_paid : ∃ gs, paid (world st) = paid w0 ++ (payment <$> gs) ∧ inflight st ++ gs ⊆+ ledger (hist st);
}.

Lemma precheck_canonical bal address chain c :
  fund_precheck parse fmt f bal address chain = Ok c → ∃ a, parse address = Ok a ∧ fmt a = c.
Proof using Type. unfold fund_precheck. intros. repeat (case_match; simplify_eq); eauto. Qed.

Lemma ledger_after_allow st a i now :
  ledger (after_allow st a i now) = ledger st ++
    match snd (Allow (lim st) a i now) with
    | Ok t => [{| g_addr := a; g_ip := i; g_at := t |}] | Err _ => [] end.
Proof using Type.
  unfold after_allow. destruct (Allow _ _ _ _) as [l [t|e]]; simpl; by rewrite ?app_nil_r.
Qed.

Lemma svc_inv_step st st' : sstep parse fmt Send f st st' → svc_inv st → svc_inv st'.
Proof using All.
  intros Hs [Hr Hc (gs & Hp & Hsub)].
  destruct Hs as [st bal address ip chain c now Hn Hpre|st a g b w' r Hin HS Hok|st a g b w' e l1 l2 now Hin HS Hng Hn Hl].
  - constructor; simpl.
    + eapply rtc_r; [exact Hr|]. by constructor.
    + apply Forall_app. split; [done|]. apply precheck_canonical in Hpre as (x & _ & <-).
      destruct (snd _); constructor; eauto.
    + exists gs. split; [done|]. rewrite ledger_after_allow.
      rewrite <- app_assoc, (Permutation_app_comm _ gs), app_assoc.
      by apply submseteq_app.
  - rewrite Hin in Hc, Hsub. apply Forall_app in Hc as [Ha Hgb].
    apply Forall_cons in Hgb as [Hg Hb].
    assert (Hcases : paid w' = paid (world st) ∨ paid w' = paid (world st) ++ [payment g]).
    { destruct r as [tx|e]; [right; by eapply send_paid|by eapply send_maybe]. }
    constructor; simpl; [done|by apply Forall_app|].
    rewrite <- app_assoc in Hsub. simpl in Hsub. rewrite <- Permutation_middle in Hsub.
    destruct Hcases as [-> | ->].
    + exists gs. split; [done|]. rewrite <- app_assoc.
      etrans; [|exact Hsub]. by apply submseteq_cons.
    + exists (gs ++ [g]). split; [rewrite Hp, fmap_app; by rewrite app_assoc|].
      rewrite <- app_assoc. etrans; [|exact Hsub]. apply Permutation_submseteq.
      by rewrite (app_assoc b), (app_assoc a), <- Permutation_cons_append.
  - rewrite Hin in Hc, Hsub. apply Forall_app in Hc as [Ha Hgb].
    apply Forall_cons in Hgb as [Hg Hb]. rewrite Hl in Hsub.
    constructor; simpl; [|by apply Forall_app|].
    + eapply rtc_r; [exact Hr|]. by constructor.
    + exists gs. split; [by rewrite (send_unpaid _ _ _ _ _ Hg HS Hng)|].
      rewrite <- app_assoc in Hsub. simpl in Hsub. rewrite <- !Permutation_middle in Hsub.
      rewrite <- app_assoc. by apply (submseteq_app_inv_l _ _ [g]).
Qed.

Lemma svc_inv_steps st st' : rtc (sstep parse fmt Send f) st st' → svc_inv st → svc_inv st'.
Proof using All. induction 1; eauto using svc_inv_step. Qed.

Lemma svc_inv_init : svc_inv (service0 cfg t0 w0).
Proof using Type.
  constructor; simpl; [done|done|]. exists []. by rewrite app_nil_r.
Qed.
End service.

(** ** Concrete inputs *)

(** A toy codec and node: addresses are strings starting with ["g1"], and a
    world is the list of transfers that have landed. *)
Definition toy_parse (s : string) : res string string := if has_prefix s "g1" then Ok s else Err "no g1".
Definition toy_cli : Cli (list (string * Z)) string (string * Z) (string * Z) := {|
  cli_gasprice _ := Ok {| gp_gas := 1000; gp_amount := 1; gp_denom := "ugnot" |};
  cli_new_send_tx _ _ _ to amt := if amt <=? 0 then Err "invalid amount" else Ok (to, amt);
  cli_sign _ tx := Ok tx;
  cli_broadcast w s :=
    if bool_decide (s.1 = "g1down") then (w, (None, Some "timeout"))
    else if bool_decide (s.1 = "g1bad") then (w, (Some "h", Some "refused"))
    else (w ++ [s], (Some "h", None));
|}.
Definition toy_send : list (string * Z) → string → Z → list (string * Z) * res send_error string :=
  Send toy_parse toy_cli (NewGnoclientDispenser "g1faucet" 5000000).
Definition toy_faucet : Faucet := New "test-1" 10 [WithTrustedProxies 1].

#[export] Instance toy_cli_laws : CliLaws id toy_cli id id.
Proof.
  constructor; simpl; intros.
  - repeat (case_match; simplify_eq/=); done.
  - repeat (case_match; simplify_eq/=); done.
  - repeat (case_match; simplify_eq/=); done.
  - repeat (case_match; simplify_eq/=); eauto.
Qed.

(** ** Properties *)

(** the dispenser keeps its contract.  With a bech32 codec that
    round-trips and a client that answers as documented, a successful [Send]
    has paid the amount to the recipient, an error that wraps [ErrNotGranted]
    has paid nothing, and any other error has paid at most once. *)
Theorem Send_refines_Dispenser {W Addr Tx Signed : Type} (parse : string → res string Addr)
    (fmt : Addr → string) (cli : Cli W Addr Tx Signed) d paid pays :
  (∀ a, parse (fmt a) = Ok a) → CliLaws fmt cli paid pays →
  DispenserLaws paid (λ s, ∃ a, fmt a = s) (Send parse cli d).
Proof.
  intros Hrt Hl.
  assert (Hto : ∀ to, (∃ a, fmt a = to) → ∀ a, parse to = Ok a → fmt a = to)
    by (intros ? [a <-] b; rewrite Hrt; congruence).
  constructor; intros w to amt w' x Hcan HS;
    apply (Send_cases parse fmt cli d paid pays _ _ _ _ _ (Hto _ Hcan)) in HS.
  - destruct HS as [[_ [e He]]|[? _]]; done.
  - intros Hng. destruct HS as [[? _]|[_ He]]; [done|]. by rewrite (He x) in Hng.
  - tauto.
Qed.

Lemma Send_refines_Dispenser_witness :
  (∀ a : string, (λ s, Ok s : res string string) (id a) = Ok a) ∧
  DispenserLaws id (λ s, ∃ a, id a = s) (Send (λ s, Ok s) toy_cli (NewGnoclientDispenser "g1faucet" 5000000)).
Proof.
  split; [reflexivity|]. apply (Send_refines_Dispenser _ id _ _ id id); [reflexivity|apply toy_cli_laws].
Defined.

(** What a run pays: [gs] are the grants its new transfers were made for, all of
    them counted by the limiter; the limiter counts at most the cap on any UTC
    day; and the transfers, however they are counted, total at most a cap for
    each day the run has spanned. *)
Record outflow {W : Type} (paid : W → list (string * Z)) (f : Faucet) (cfg : LimiterCfg) (t0 : Time) (w0 : W)
    (st : Service W) (gs : list Grant) : Prop := {
  out_paid : paid (world st) = paid w0 ++ (payment f <$> gs);
  out_counted : inflight st ++ gs ⊆+ ledger (hist st);
  out_day : ∀ d, GrantUgnot cfg * granted_on d (ledger (hist st)) ≤ DailyCapUgnot cfg;
  out_total : GrantUgnot cfg * Z.of_nat (List.length gs) ≤ DailyCapUgnot cfg * (utc_day (clock (hist st)) - utc_day t0 + 1);
}.

(** the daily cap end to end.  Whatever requests run concurrently, with
    their limiter, dispense and refund steps interleaved in any order, the
    transfers that have landed are payments of the grant to canonical
    addresses, and the ugnot paid for grants admitted on any one UTC day is at
    most the daily cap, also when an outcome was unknown. *)
Theorem faucet_daily_outflow {W Addr : Type} (parse : string → res string Addr) (fmt : Addr → string)
    (send : W → string → Z → W * res send_error string) paid f cfg t0 w0 st :
  DispenserLaws paid (λ s, ∃ a, fmt a = s) send →
  0 < t0 → 0 ≤ GrantUgnot cfg ≤ maxInt64 → 0 ≤ DailyCapUgnot cfg ≤ maxInt64 →
  rtc (sstep parse fmt send f) (service0 cfg t0 w0) st →
  ∃ gs, outflow paid f cfg t0 w0 st gs.
Proof.
  intros HD Ht Hg Hcap Hs.
  destruct (svc_inv_steps parse fmt send paid f cfg t0 w0 _ _ Hs (svc_inv_init fmt paid f cfg t0 w0))
    as [Hr _ (gs & Hp & Hsub)].
  assert (Hi : cap_inv (conf (NewLimiter cfg)) (hist st)).
  { eapply cap_inv_steps; [..|exact Hr|apply cap_inv_init]; simpl; lia. }
  pose proof (ci_cap _ _ Hi) as Hd. simpl in Hd. exists gs. constructor; [done..|].
  destruct (ledger_times _ _ _ Hr) as [Hc Ht0]. pose proof (utc_day_mono t0 (clock (hist st)) ltac:(lia)) as Hm.
  assert (Hgs : gs ⊆+ ledger (hist st)) by (etrans; [by apply submseteq_inserts_l|exact Hsub]).
  apply submseteq_length in Hgs as Hl.
  pose proof (granted_total (GrantUgnot cfg) (DailyCapUgnot cfg) (Z.to_nat (utc_day (clock (hist st)) - utc_day t0 + 1))
    (utc_day t0) (ledger (hist st))) as Htot. rewrite Z2Nat.id in Htot by lia.
  transitivity (GrantUgnot cfg * Z.of_nat (List.length (ledger (hist st)))); [nia|]. apply Htot; [lia| |done].
  eapply Forall_impl; [exact Ht0|]. simpl. intros g Hgt.
  pose proof (utc_day_mono t0 (g_at g) ltac:(lia)). pose proof (utc_day_mono (g_at g) (clock (hist st)) ltac:(lia)). lia.
Qed.

(** One request admitted and paid. *)
Definition toy_admitted : Service (list (string * Z)) :=
  {| hist := after_allow (history0 cfg1 1) "g1a" "i" 5;
     inflight := [{| g_addr := "g1a"; g_ip := "i"; g_at := 5 |}]; world := [] |}.
Definition toy_paid : Service (list (string * Z)) :=
  {| hist := hist toy_admitted; inflight := []; world := [("g1a", 10)] |}.

Lemma toy_run (parse : string → res string string) :
  parse "g1a" = Ok "g1a" →
  rtc (sstep parse id (Send parse toy_cli (NewGnoclientDispenser "g1faucet" 5000000)) toy_faucet)
    (service0 cfg1 1 []) toy_paid.
Proof.
  intros Hp. apply (rtc_l _ _ toy_admitted); [|apply rtc_once].
  - replace toy_admitted with
      {| hist := after_allow (hist (service0 cfg1 1 ([] : list (string * Z)))) "g1a" "i" 5;
         inflight := [] ++ match snd (Allow (lim (history0 cfg1 1)) "g1a" "i" 5) with
           | Ok t => [{| g_addr := "g1a"; g_ip := "i"; g_at := t |}] | Err _ => [] end;
         world := ([] : list (string * Z)) |} by (vm_compute; reflexivity).
    apply (s_enter parse id _ toy_faucet (service0 cfg1 1 []) (Ok 0) "g1a" "i" "test-1"); [done|].
    unfold fund_precheck. by rewrite Hp.
  - apply (s_paid parse id _ toy_faucet toy_admitted [] {| g_addr := "g1a"; g_ip := "i"; g_at := 5 |} [] [("g1a", 10)] (Ok "h"));
      [done| |done]. unfold Send. cbn [toy_admitted inflight g_addr world]. by rewrite Hp.
Qed.

#[export] Instance toy_dispenser_laws : DispenserLaws id (λ s, ∃ a : string, id a = s) toy_send.
Proof.
  assert (Hto : ∀ to a, toy_parse to = Ok a → id a = to)
    by (intros to a; unfold toy_parse; case_match; simpl; congruence).
  constructor; intros w to amt w' x _ HS;
    apply (Send_cases toy_parse id toy_cli _ id id _ _ _ _ _ (Hto to)) in HS.
  - destruct HS as [[_ [e He]]|[? _]]; done.
  - intros Hng. destruct HS as [[? _]|[_ He]]; [done|]. by rewrite (He x) in Hng.
  - tauto.
Qed.

Lemma faucet_daily_outflow_witness :
  ∃ gs, outflow id toy_faucet cfg1 1 [] toy_paid gs.
Proof.
  apply (faucet_daily_outflow toy_parse id toy_send id toy_faucet cfg1 1 [] toy_paid);
    [apply toy_dispenser_laws|lia|vm_compute; split; discriminate..|by apply toy_run].
Defined.

(** only a grant that may have landed counts.  When [Fund] fails for any
    reason other than a dispense of unknown outcome — a wrong chain, an address
    that does not parse, an unread or low funding balance, a limit, or a
    dispense that provably did not land — the limiter counts afterwards exactly
    what it counted before: the same daily total, the same hits of every
    address and IP in every later window; and when the request was refused
    before the dispense, nothing was sent and the world is untouched. *)
Theorem failed_fund_counts_nothing {W Addr : Type} (parse : string → res string Addr) fmt
    (send : W → string → Z → W * res send_error string) f l w bal address ip chain now later l' w' e :
  Fund parse fmt send f l w bal address ip chain now later = (l', w', Err e) →
  0 < now → 0 ≤ dayStart l → 0 ≤ daySpent l ≤ maxInt64 →
  match e with
  | FErrDispense de => not_granted de = true → counts_as now l l'
  | FErrLimit _ => counts_as now l l' ∧ w' = w
  | _ => l' = l ∧ w' = w
  end.
Proof.
  intros HF Hn Hs Hsp. unfold Fund in HF.
  destruct (fund_precheck _ _ _ _ _ _) as [c|pe] eqn:Ep.
  - destruct (Allow l c ip now) as [l1 [t|le]] eqn:EA.
    + destruct (send w c _) as [w1 [tx|de]]; simpl in HF; simplify_eq.
      intros ->. by eapply refunded_counts_as.
    + simplify_eq. split; [by eapply refused_counts_as|done].
  - simplify_eq. unfold fund_precheck in Ep. repeat (case_match; simplify_eq); done.
Qed.

Lemma failed_fund_counts_nothing_witness :
  let l := NewLimiter cfg1 in
  let r := Fund toy_parse id toy_send toy_faucet l [] (Ok 0) "g1bad" "i" "test-1" 5 6 in
  snd r = Err (FErrDispense (SeNotGranted "send: refused")) ∧ counts_as 5 l (fst (fst r)).
Proof.
  split; [vm_compute; reflexivity|].
  refine (failed_fund_counts_nothing toy_parse id toy_send toy_faucet (NewLimiter cfg1) [] (Ok 0)
            "g1bad" "i" "test-1" 5 6 _ [] (FErrDispense (SeNotGranted "send: refused")) _ _ _ _ _);
    [vm_compute; reflexivity|lia|vm_compute; discriminate|vm_compute; split; discriminate|reflexivity].
Defined.

(** refusals disclose one limit only.  Every limiter refusal is answered
    429 with a back-off of at least a day that is a function of the configured
    per-address window alone; refusals other than the per-address cooldown are
    indistinguishable to the client, the cooldown names only itself; and the
    text of an internal failure, or of a panic, never reaches the caller. *)
Theorem fund_response_discloses is_print f l e :
  let resp := fund_response is_print f l (Err e) in
  match e with
  | FErrLimit le =>
      r_status resp = 429 ∧ 86400 ≤ retryAfterSeconds l ∧
      (∀ l2, perAddrWindow (conf l2) = perAddrWindow (conf l) →
        resp = fund_response is_print f l2 (Err (FErrLimit (if bool_decide (le = ErrCooldown) then ErrCooldown else ErrRateLimited)))) ∧
      r_body resp = BRate "rate limited" (if bool_decide (le = ErrCooldown) then "per_address" else "") (retryAfterSeconds l)
  | FErrDispense SePanic => resp = panic_response
  | FErrBalance _ | FErrDispense _ => resp = http_error "faucet: dispense failed" 502
  | _ => 400 ≤ r_status resp ∧ r_status resp ≠ 429
  end.
Proof.
  destruct e as [| | |b|le|[]]; simpl; try done; try lia.
  assert (86400 ≤ retryAfterSeconds l).
  { unfold retryAfterSeconds. destruct (Z.ltb_spec (24 * 60 * 60) (f64_trunc (Seconds (PolPerAddrWindow (Policy l))))); lia. }
  assert (Hr : ∀ l2, perAddrWindow (conf l2) = perAddrWindow (conf l) → retryAfterSeconds l2 = retryAfterSeconds l)
    by (intros l2 E; unfold retryAfterSeconds, Policy; simpl; by rewrite E).
  destruct le; unfold fund_response; simpl; split_and!; try done;
    intros l2 E; by rewrite (Hr l2 E).
Qed.

(** the per-IP key cannot be chosen by the client.  When the trusted
    proxies have appended their entries, the address is the entry the
    outermost trusted proxy wrote, whatever the client put before it; with no
    trusted proxy the header is ignored. *)
Theorem clientIP_unforgeable remote forged hops h n :
  n = Z.of_nat (List.length (h :: hops)) →
  Forall (λ x, str_forall (λ a, negb (Ascii.eqb a ",")) x = true) (h :: hops) →
  clientIP remote (forged +:+ "," +:+ GoText.join "," (h :: hops)) n = trim_space h ∧
  clientIP remote forged 0 = hostOnly remote.
Proof.
  intros Hn Hh. split; [|done]. unfold clientIP.
  set (xff := forged +:+ _). rewrite (proj2 (Z.leb_gt n 0)) by (simpl in Hn; lia).
  rewrite bool_decide_eq_false_2 by (unfold xff; destruct forged; discriminate).
  assert (Hsplit : split_byte "," xff = split_byte "," forged ++ h :: hops).
  { unfold xff. rewrite str_app_cons, str_app_nil_l, split_byte_app. f_equal. by apply split_byte_join. }
  rewrite Hsplit, List.length_app.
  destruct (split_byte_cons "," forged) as (x & r & E).
  assert (0 < List.length (split_byte "," forged))%nat by (rewrite E; simpl; lia).
  replace (_ <? 0) with false by (symmetry; apply Z.ltb_ge; lia).
  rewrite (proj2 (Z.leb_gt _ _)) by (simpl in *; lia). simpl orb. cbv iota.
  rewrite lookup_app_r by lia.
  by replace (_ - List.length (split_byte "," forged))%nat with 0%nat by lia.
Qed.

Lemma clientIP_unforgeable_witness :
  clientIP "10.0.0.1:9" "6.6.6.6,6.6.6.7, 9.9.9.9" 1 = "9.9.9.9".
Proof.
  refine (eq_trans (proj1 (clientIP_unforgeable "10.0.0.1:9" "6.6.6.6,6.6.6.7" [] " 9.9.9.9" 1 _ _)) _);
    [reflexivity|repeat constructor|reflexivity].
Defined.

(** The recorder after any calls: one status at most has gone out, and it is
    the one recorded; before it, the status is the 200 net/http implies. *)
Lemma run_ops_inv ops s :
  (if s_wroteHeader s then ∃ bs, s_out s = WStatus (s_status s) :: (WBytes <$> bs)
   else s_out s = [] ∧ s_status s = 200) →
  let s' := foldl run_op s ops in
  if s_wroteHeader s' then ∃ bs, s_out s' = WStatus (s_status s') :: (WBytes <$> bs)
  else s_out s' = [] ∧ s_status s' = 200.
Proof.
  revert s. induction ops as [|o ops IH]; intros s Hs; [done|]. simpl. apply IH.
  destruct s as [st [] out]; destruct o as [c|b]; unfold run_op, Write, WriteHeader in *; simpl in *.
  - done.
  - destruct Hs as [bs ->]. exists (bs ++ [b]). by rewrite fmap_app.
  - destruct Hs as [-> ->]. by exists [].
  - destruct Hs as [-> ->]. by exists [b].
Qed.

(** one faithful access-log line per request.  Whatever the handler does
    with its response writer, and also when it panics, exactly one record is
    logged; its status is the one status line sent (200 when the handler wrote
    nothing and net/http will imply it, 500 when it panicked before writing),
    no second status line goes out, and a panic is logged at ERROR. *)
Theorem logRequests_faithful route latency stack ops info panicVal :
  let '(out, logs) := logRequests route latency stack ops info panicVal in
  ∃ r status, logs = [r] ∧ ("status", format_int status) ∈ lg_attrs r ∧
    (lg_level r = "ERROR" ↔ panicVal ≠ None) ∧
    ((out = [] ∧ status = 200 ∧ panicVal = None) ∨
     ∃ bs, out = WStatus status :: (WBytes <$> bs) ∧
           (foldl run_op new_recorder ops = new_recorder → panicVal ≠ None → status = 500)).
Proof.
  pose proof (run_ops_inv ops new_recorder ltac:(done)) as Hinv.
  unfold logRequests. set (rec := foldl run_op new_recorder ops) in *.
  set (rec' := match panicVal with Some _ => _ | None => rec end).
  destruct panicVal as [v|]; eexists _, (s_status rec'); (split; [reflexivity|]); simpl.
  - split; [|split; [done|]].
    + repeat case_bool_decide; set_unfold; tauto.
    + right. unfold rec'. destruct rec as [st [] out]; simpl in *.
      * destruct Hinv as [bs ->]. exists bs. split; [done|]. discriminate.
      * destruct Hinv as [-> ->]. by exists [].
  - split; [|split; [done|]].
    + repeat case_bool_decide; set_unfold; tauto.
    + unfold rec'. destruct rec as [st [] out]; simpl in *.
      * destruct Hinv as [bs ->]. right. exists bs. split; [done|]. done.
      * destruct Hinv as [-> ->]. by left.
Qed.
