(* ===== verification/Untrusted.v ===== *)
(** * The untrusted-content envelope and the output budget

    Models [internal/untrusted/untrusted.go] (the tag-neutralizing rewrite and
    the envelope) and [internal/budget/budget.go] (what a text tool returns). *)
From S2P Require Import Prelude GoText.
From stdpp Require Import prelude strings list.
From Stdlib Require Import ZArith Lia Ascii String.

(** ** internal/untrusted *)

Definition closeTag : string := "</untrusted_content>".

(** RE2's [\s]: tab, line feed, form feed, carriage return, space. *)
Definition re_space (a : ascii) : bool :=
  (let b := byte_val a in (b =? 9) || (b =? 10) || (b =? 12) || (b =? 13) || (b =? 32))%Z.

Definition upper_of (a : ascii) : ascii :=
  if is_lower a then byte_of (byte_val a - 32) else a.

(** One letter of the pattern under [(?i)]: itself, its upper case, and for
    [s] also U+017F, whose UTF-8 encoding is the bytes C5 BF.  Returns the
    matched bytes and the rest. *)
Definition match_letter (c : ascii) (s : string) : option (string * string) :=
  match s with
  | EmptyString => None
  | String a t =>
      if Ascii.eqb a c || Ascii.eqb a (upper_of c) then Some (String a EmptyString, t)
      else if Ascii.eqb c "s" && (byte_val a =? 197)%Z then
        match t with
        | String b t' => if (byte_val b =? 191)%Z then Some (String a (String b EmptyString), t') else None
        | EmptyString => None
        end
      else None
  end.

Fixpoint match_word (w s : string) : option (string * string) :=
  match w with
  | EmptyString => Some (EmptyString, s)
  | String c w =>
      '(m, s) ← match_letter c s;
      '(ms, s) ← match_word w s;
      Some (m +:+ ms, s)
  end.

Definition tag_word : string := "untrusted_content".

(** [(\s*/?\s*untrusted_content)]: the capture and the text after it.  The
    word starts with neither white space nor a slash, so the greedy choice is
    the only one. *)
Definition match_group (s : string) : option (string * string) :=
  let '(w1, s1) := span re_space s in
  let '(sl, s2) := match cut_prefix "/" s1 with Some t => ("/", t) | None => ("", s1) end in
  let '(w2, s3) := span re_space s2 in
  '(m, rest) ← match_word tag_word s3;
  Some (w1 +:+ sl +:+ w2 +:+ m, rest).

(** [envTagRE] at the start of [s]. *)
Definition envTagRE (s : string) : option (string * string) :=
  t ← cut_prefix "<" s; match_group t.

(** [ReplaceAllString]: leftmost matches, resuming after each; [n] bounds the
    steps and [String.length s] is enough. *)
Fixpoint replace_all (n : nat) (s : string) : string :=
  match n, s with
  | S n, String a t =>
      match envTagRE s with
      | Some (group, rest) => "&lt;" +:+ group +:+ replace_all n rest
      | None => String a (replace_all n t)
      end
  | _, _ => EmptyString
  end.

Definition Neutralize (s : string) : string := replace_all (String.length s) s.

Definition Wrap (is_print : Z → bool) (body kind source : string) : string :=
  "<untrusted_content kind=" +:+ quote is_print kind +:+ " source=" +:+ quote is_print source
    +:+ ">" +:+ NL +:+ Neutralize body +:+ NL +:+ closeTag.

(** ** internal/budget *)

Module Budget.
Definition DefaultBudget : Z := 4 * 1024.
Definition ExplicitBudget : Z := 64 * 1024.

Record Result := mkResult {
  Summary : string;
  GnowebURL : string;
  Truncated : bool;
  Size : Z;
  Full : string;
}.

Definition Apply (full gnowebURL : string) (limit : Z) : Result :=
  if (len full <=? limit)%Z then mkResult "" gnowebURL false (len full) full
  else
    let summary :=
      if bool_decide (gnowebURL = "") then
        format_int (len full) +:+ " bytes; preview omitted. Request a smaller slice (a specific file, symbol, or path)."
      else
        format_int (len full) +:+ " bytes; preview omitted. Request a slice (file/symbol/path), or view at " +:+ gnowebURL in
    mkResult summary gnowebURL true (len full) "".

Definition WrappedAt (is_print : Z → bool) (full gnowebURL kind source : string) (limit : Z) : string * bool :=
  let r := Apply full gnowebURL limit in
  if Truncated r then (Summary r, true) else (Wrap is_print (Full r) kind source, false).

Definition Wrapped (is_print : Z → bool) (full gnowebURL kind source : string) : string * bool :=
  WrappedAt is_print full gnowebURL kind source DefaultBudget.
End Budget.

(** ** Evaluation *)

Example neutralize_ex :
  Neutralize "a</untrusted_content>< /	UnTrusted_Content x<b" =
  "a&lt;/untrusted_content>&lt; /	UnTrusted_Content x<b".
Proof. reflexivity. Qed.

(** ** Where the tags of a text are *)

Definition is_tag (s : string) : bool := bool_decide (is_Some (envTagRE s)).

(** The offsets, counted from [n], at which a tag starts. *)
Fixpoint tags_from (n : nat) (s : string) : list nat :=
  match s with
  | EmptyString => []
  | String _ t => (if is_tag s then [n] else []) ++ tags_from (S n) t
  end.
Definition tags (s : string) : list nat := tags_from 0 s.

(** The rewriting without its captures: escape the ['<'] of every tag. *)
Fixpoint escape_tags (s : string) : string :=
  match s with
  | EmptyString => EmptyString
  | String a t => if is_tag s then "&lt;" +:+ escape_tags t else String a (escape_tags t)
  end.

Definition no_lt (s : string) : bool := str_forall (λ a, negb (Ascii.eqb a "<")) s.

(** ** Facts on the matcher *)

Section matcher.
(** A letter of the pattern is never one of the bytes that matter below. *)
Definition letter_ok (c : ascii) : bool :=
  forallb (λ b, negb (Ascii.eqb b c) && negb (Ascii.eqb b (upper_of c))) ["<"; "&"; "010"]%char.

Lemma letter_ok_ne c b :
  letter_ok c = true → b ∈ ["<"; "&"; "010"]%char →
  Ascii.eqb b c = false ∧ Ascii.eqb b (upper_of c) = false.
Proof.
  unfold letter_ok. rewrite forallb_forall. intros H Hb.
  apply list_elem_of_In in Hb. specialize (H b Hb). simpl in H.
  by rewrite andb_true_iff, !negb_true_iff in H.
Qed.

Lemma tag_word_ok : str_forall letter_ok tag_word = true.
Proof. reflexivity. Qed.

Lemma match_letter_stop c a t :
  letter_ok c = true → a ∈ ["<"; "&"; "010"]%char → match_letter c (String a t) = None.
Proof.
  intros Hc Ha. simpl. destruct (letter_ok_ne c a Hc Ha) as [-> ->]. simpl.
  assert ((byte_val a =? 197)%Z = false) as ->.
  { rewrite !elem_of_cons, elem_of_nil in Ha. by destruct_or! Ha; subst. }
  by rewrite andb_false_r.
Qed.

Lemma match_letter_app c s m r :
  letter_ok c = true → match_letter c s = Some (m, r) → s = m +:+ r ∧ no_lt m = true.
Proof.
  intros Hc. destruct s as [|a t]; [done|].
  destruct (Ascii.eqb_spec a "<") as [->|Hne].
  { by rewrite match_letter_stop by (done || set_solver). }
  assert (Ha : negb (Ascii.eqb a "<") = true) by (apply negb_true_iff, Ascii.eqb_neq; done).
  simpl. destruct (_ || _) eqn:E1; [intros [= <- <-]; unfold no_lt; simpl; by rewrite Ha|].
  destruct (_ && _); [|done]. destruct t as [|b t]; [done|].
  destruct (Z.eqb_spec (byte_val b) 191); [|done]. intros [= <- <-].
  unfold no_lt; simpl. rewrite Ha. simpl. by destruct (Ascii.eqb_spec b "<"); [subst|].
Qed.

Lemma match_word_app w s m r :
  str_forall letter_ok w = true → match_word w s = Some (m, r) → s = m +:+ r ∧ no_lt m = true.
Proof.
  revert s m. induction w as [|c w IH]; intros s m Hw H; simpl in *; simplify_eq; [done|].
  apply andb_true_iff in Hw as [Hc Hw].
  apply bind_Some in H as ([m1 s1] & H1 & H). apply bind_Some in H as ([m2 s2] & H2 & H).
  simplify_eq/=. apply match_letter_app in H1 as [-> ?]; [|done].
  apply IH in H2 as [-> ?]; [|done]. split; [by rewrite str_app_assoc|].
  unfold no_lt in *. rewrite str_forall_app. by apply andb_true_iff.
Qed.

Lemma spaces_no_lt s : no_lt (fst (span re_space s)) = true.
Proof.
  eapply str_forall_impl; [|apply span_forall]. intros a Ha.
  destruct (Ascii.eqb_spec a "<"); [by subst|done].
Qed.

(** The capture is a prefix of the text and holds no ['<']. *)
Lemma match_group_app s g r : match_group s = Some (g, r) → s = g +:+ r ∧ no_lt g = true.
Proof.
  unfold match_group. intros H.
  pose proof (span_app re_space s) as E1. pose proof (spaces_no_lt s) as N1.
  destruct (span re_space s) as [w1 s1]. cbn [fst snd] in *.
  assert (Hs : ∃ sl s2, s1 = sl +:+ s2 ∧ no_lt sl = true ∧
    (let '(w2, s3) := span re_space s2 in
     '(m, rest) ← match_word tag_word s3; Some (w1 +:+ sl +:+ w2 +:+ m, rest)) = Some (g, r)).
  { destruct (cut_prefix "/" s1) as [t|] eqn:E.
    - apply cut_prefix_Some in E. by exists "/", t.
    - by exists "", s1. }
  clear H. destruct Hs as (sl & s2 & -> & N2 & H).
  pose proof (span_app re_space s2) as E2. pose proof (spaces_no_lt s2) as N3.
  destruct (span re_space s2) as [w2 s3]. cbn [fst snd] in *.
  apply bind_Some in H as ([m rest] & Hm & H). simplify_eq.
  apply match_word_app in Hm as [-> N4]; [|apply tag_word_ok].
  rewrite !str_app_assoc. split; [done|]. unfold no_lt in *. rewrite !str_forall_app.
  by rewrite N1, N2, N3, N4.
Qed.

Lemma is_tag_cons a t :
  is_tag (String a t) = Ascii.eqb "<" a && bool_decide (is_Some (match_group t)).
Proof. unfold is_tag, envTagRE. simpl. by destruct (Ascii.eqb "<" a). Qed.

Lemma is_tag_ne a t : a ≠ "<"%char → is_tag (String a t) = false.
Proof. intros H. rewrite is_tag_cons. destruct (Ascii.eqb_spec "<" a); [by subst|done]. Qed.

Lemma escape_tags_no_lt g r : no_lt g = true → escape_tags (g +:+ r) = g +:+ escape_tags r.
Proof.
  induction g as [|a g IH]; [done|]. rewrite !str_app_cons. simpl.
  intros [H ?]%andb_true_iff. apply negb_true_iff, Ascii.eqb_neq in H.
  by rewrite is_tag_ne, IH.
Qed.

Lemma tags_from_no_lt n g r :
  no_lt g = true → tags_from n (g +:+ r) = tags_from (n + String.length g) r.
Proof.
  revert n. induction g as [|a g IH]; intros n; [by rewrite str_app_nil_l, Nat.add_0_r|].
  rewrite str_app_cons. simpl.
  intros [H ?]%andb_true_iff. apply negb_true_iff, Ascii.eqb_neq in H.
  rewrite is_tag_ne, IH by done. simpl. f_equal. lia.
Qed.
End matcher.

Lemma replace_all_escape n s : (String.length s ≤ n)%nat → replace_all n s = escape_tags s.
Proof.
  revert s. induction n as [|n IH]; intros [|a t] Hn; simpl in Hn; try done || lia.
  simpl. unfold is_tag. destruct (envTagRE (String a t)) as [[g r]|] eqn:E; simpl.
  - unfold envTagRE in E. simpl in E. destruct (Ascii.eqb_spec "<" a) as [<-|]; [|done]. simpl in E.
    apply match_group_app in E as [-> Hg]. rewrite str_length_app in Hn.
    rewrite IH by lia. by rewrite escape_tags_no_lt.
  - by rewrite IH by lia.
Qed.

Lemma Neutralize_escape s : Neutralize s = escape_tags s.
Proof. by apply replace_all_escape. Qed.

(** ** The output of the rewriting holds no tag *)

Section escaped.
Lemma match_letter_escape c s :
  letter_ok c = true → match_letter c (escape_tags s) = prod_map id escape_tags <$> match_letter c s.
Proof.
  intros Hc. destruct s as [|a t]; [done|].
  destruct (decide (a = "<"%char)) as [->|Ha].
  { rewrite (match_letter_stop c "<" t) by (done || set_solver).
    cbn [escape_tags]. destruct (is_tag _); [rewrite !str_app_cons|];
      by rewrite match_letter_stop by (done || set_solver). }
  cbn [escape_tags]. rewrite is_tag_ne by done. simpl.
  destruct (_ || _); [done|]. destruct (_ && _); [|done].
  destruct t as [|b t]; [done|]. simpl.
  destruct (decide (b = "<"%char)) as [->|Hb]; [by destruct (is_tag _)|].
  rewrite is_tag_ne by done. by destruct (byte_val b =? 191)%Z.
Qed.

Lemma match_word_escape w s :
  str_forall letter_ok w = true → match_word w (escape_tags s) = prod_map id escape_tags <$> match_word w s.
Proof.
  revert s. induction w as [|c w IH]; intros s Hw; [done|]. simpl in *.
  apply andb_true_iff in Hw as [Hc Hw]. rewrite match_letter_escape by done.
  destruct (match_letter c s) as [[m r]|]; [|done]. simpl. rewrite IH by done.
  by destruct (match_word w r) as [[? ?]|].
Qed.

Lemma span_escape s : span re_space (escape_tags s) = prod_map id escape_tags (span re_space s).
Proof.
  induction s as [|a t IH]; [done|]. cbn [escape_tags].
  destruct (decide (a = "<"%char)) as [->|Ha].
  { simpl. by destruct (is_tag (String "<" t)) eqn:E; simpl; rewrite ?E. }
  rewrite is_tag_ne by done. simpl. destruct (re_space a); simpl.
  - rewrite IH. by destruct (span re_space t).
  - by rewrite is_tag_ne.
Qed.

Lemma cut_slash_escape s : cut_prefix "/" (escape_tags s) = escape_tags <$> cut_prefix "/" s.
Proof.
  destruct s as [|a t]; [done|]. destruct (decide (a = "<"%char)) as [->|Ha].
  { cbn [escape_tags]. by destruct (is_tag _). }
  cbn [escape_tags]. rewrite is_tag_ne by done. simpl. by destruct (Ascii.eqb "/" a).
Qed.

Lemma match_group_escape s :
  is_Some (match_group (escape_tags s)) → is_Some (match_group s).
Proof.
  unfold match_group. rewrite span_escape.
  destruct (span re_space s) as [w1 s1]. cbn [prod_map id fst snd].
  rewrite cut_slash_escape. destruct (cut_prefix "/" s1) as [s2|]; cbn [fmap option_fmap option_map];
    rewrite span_escape; destruct (span re_space _) as [w2 s3]; cbn [prod_map id fst snd];
    rewrite match_word_escape by apply tag_word_ok;
    destruct (match_word tag_word s3) as [[m r]|]; eauto.
Qed.

Lemma escape_tags_clean n s : tags_from n (escape_tags s) = [].
Proof.
  revert n. induction s as [|a t IH]; intros n; [done|]. cbn [escape_tags].
  destruct (is_tag (String a t)) eqn:E.
  { by rewrite tags_from_no_lt. }
  cbn [tags_from]. rewrite IH, app_nil_r.
  destruct (is_tag (String a (escape_tags t))) eqn:E'; [|done]. exfalso.
  rewrite is_tag_cons in E, E'. destruct (Ascii.eqb "<" a); [|done]. simpl in *.
  apply bool_decide_eq_true, match_group_escape in E'.
  by apply bool_decide_eq_false in E.
Qed.
End escaped.

(** A text without tags is left alone. *)
Lemma escape_tags_id n s : tags_from n s = [] → escape_tags s = s.
Proof.
  revert n. induction s as [|a t IH]; intros n; [done|]. cbn [tags_from escape_tags].
  intros [H1 H2]%app_eq_nil. destruct (is_tag _); [done|]. by rewrite (IH (S n)).
Qed.

(** ** A text followed by the end of the envelope *)

Definition envelope_end : string := NL +:+ closeTag.

Section envelope.
Lemma match_letter_end c s :
  letter_ok c = true →
  match_letter c (s +:+ envelope_end) = prod_map id (λ r, r +:+ envelope_end) <$> match_letter c s.
Proof.
  intros Hc. destruct s as [|a t].
  { rewrite str_app_nil_l. unfold envelope_end, NL. rewrite str_app_cons.
    by rewrite match_letter_stop by (done || set_solver). }
  rewrite str_app_cons. cbn [match_letter]. destruct (_ || _); [done|].
  destruct (_ && _); [|done]. destruct t as [|b t]; [done|].
  rewrite str_app_cons. by destruct (byte_val b =? 191)%Z.
Qed.

Lemma match_word_end w s :
  str_forall letter_ok w = true →
  match_word w (s +:+ envelope_end) = prod_map id (λ r, r +:+ envelope_end) <$> match_word w s.
Proof.
  revert s. induction w as [|c w IH]; intros s Hw; [done|]. simpl in *.
  apply andb_true_iff in Hw as [Hc Hw]. rewrite match_letter_end by done.
  destruct (match_letter c s) as [[m r]|]; [|done]. simpl. rewrite IH by done.
  by destruct (match_word w r) as [[? ?]|].
Qed.

Lemma span_end s :
  span re_space (s +:+ envelope_end) =
  match span re_space s with
  | (w, EmptyString) => (w +:+ NL, closeTag)
  | (w, r) => (w, r +:+ envelope_end)
  end.
Proof.
  induction s as [|a t IH]; [done|]. rewrite str_app_cons. cbn [span].
  destruct (re_space a); [|done]. rewrite IH. by destruct (span re_space t) as [w [|b r]].
Qed.

Definition word_after_spaces (s : string) : bool :=
  bool_decide (is_Some (match_word tag_word (snd (span re_space s)))).

Lemma word_after_spaces_end s : word_after_spaces (s +:+ envelope_end) = word_after_spaces s.
Proof.
  unfold word_after_spaces. rewrite span_end.
  destruct (span re_space s) as [w [|b r]]; [done|]. cbn [snd].
  rewrite match_word_end by apply tag_word_ok. by destruct (match_word _ _).
Qed.

Lemma match_group_word s :
  bool_decide (is_Some (match_group s)) =
  word_after_spaces (default (snd (span re_space s)) (cut_prefix "/" (snd (span re_space s)))).
Proof.
  unfold match_group, word_after_spaces. destruct (span re_space s) as [w1 s1]. cbn [snd].
  destruct (cut_prefix "/" s1) as [s2|]; cbn [default id]; destruct (span re_space _) as [w2 s3];
    cbn [snd]; by destruct (match_word tag_word s3) as [[m r]|].
Qed.

Lemma match_group_end s :
  bool_decide (is_Some (match_group (s +:+ envelope_end))) = bool_decide (is_Some (match_group s)).
Proof.
  rewrite !match_group_word, span_end. destruct (span re_space s) as [w [|b r]]; [done|]. cbn [snd].
  rewrite str_app_cons. simpl. destruct (Ascii.eqb "/" b); cbn [default id].
  - apply word_after_spaces_end.
  - rewrite <- str_app_cons. apply word_after_spaces_end.
Qed.

Lemma tags_from_end n s :
  tags_from n (s +:+ envelope_end) = tags_from n s ++ [n + String.length s + 1]%nat.
Proof.
  revert n. induction s as [|a t IH]; intros n.
  - rewrite str_app_nil_l. simpl. by rewrite Nat.add_0_r, Nat.add_1_r.
  - rewrite str_app_cons. cbn [tags_from String.length]. rewrite IH, !is_tag_cons, match_group_end.
    rewrite <- app_assoc. do 3 f_equal. lia.
Qed.
End envelope.

(** ** Properties *)

(** Neutralizing. The output of [Neutralize] holds no opening or closing
    envelope tag, in any case and spacing, at any offset; a text that holds
    none is returned unchanged, so neutralizing twice is neutralizing once. *)
Theorem Neutralize_no_tags s :
  tags (Neutralize s) = [] ∧ Neutralize (Neutralize s) = Neutralize s ∧
  (tags s = [] → Neutralize s = s).
Proof.
  rewrite !Neutralize_escape. unfold tags.
  split_and!; [apply escape_tags_clean| |apply escape_tags_id].
  eapply escape_tags_id, (escape_tags_clean 0).
Qed.

Lemma quote_no_lt is_print s : no_lt s = true → no_lt (quote is_print s) = true.
Proof.
  apply quote_ok. intros a Ha. unfold quote_alphabet in Ha. rewrite !elem_of_cons, elem_of_nil in Ha.
  by destruct_or! Ha; subst.
Qed.

Lemma opening_tag x : is_tag ("<untrusted_content" +:+ x) = true.
Proof. vm_compute. reflexivity. Qed.

(** The text [Wrap] writes before the body: one tag, at its start. *)
Lemma tags_Wrap is_print body kind source :
  no_lt kind = true → no_lt source = true →
  tags (Wrap is_print body kind source) =
    [0; String.length (Wrap is_print body kind source) - String.length closeTag]%nat.
Proof.
  intros Hk Hs. set (w := Wrap _ _ _ _).
  set (attrs := " kind=" +:+ quote is_print kind +:+ " source=" +:+ quote is_print source +:+ ">" +:+ NL).
  assert (Ew : w = "<untrusted_content" +:+ attrs +:+ Neutralize body +:+ envelope_end).
  { unfold w, Wrap, attrs, envelope_end. rewrite !str_app_assoc. done. }
  assert (Ha : no_lt attrs = true).
  { unfold attrs, no_lt. rewrite !str_forall_app. fold (no_lt (quote is_print kind)).
    fold (no_lt (quote is_print source)). by rewrite !quote_no_lt. }
  assert (Et : ∀ x, tags ("<untrusted_content" +:+ x) = 0%nat :: tags_from 18 x).
  { intros x. unfold tags. pose proof (opening_tag x) as Ho. revert Ho.
    change ("<untrusted_content" +:+ x) with (String "<" ("untrusted_content" +:+ x)).
    intros Ho. cbn [tags_from]. rewrite Ho. done. }
  rewrite Ew, Et, tags_from_no_lt, tags_from_end, Neutralize_escape, escape_tags_clean by done.
  rewrite !str_length_app. f_equal. rewrite app_nil_l. f_equal.
  change (String.length "<untrusted_content") with 18%nat.
  assert (String.length envelope_end = 21%nat ∧ String.length closeTag = 20%nat) as [-> ->] by done.
  lia.
Qed.

(** the envelope. What a text tool returns for chain content is either the
    content inside one envelope — the only tags of the text are the opening tag
    at its first byte and the closing tag that ends it, whatever the content —
    or, over the budget, a summary that depends on the content's length alone. *)
Theorem WrappedAt_contains is_print full url kind source limit :
  no_lt kind = true → no_lt source = true →
  let '(text, truncated) := Budget.WrappedAt is_print full url kind source limit in
  if truncated then
    (limit < len full)%Z ∧
    ∀ full', len full' = len full → Budget.WrappedAt is_print full' url kind source limit = (text, true)
  else
    (len full ≤ limit)%Z ∧
    tags text = [0; String.length text - String.length closeTag]%nat ∧
    ∃ pre, text = pre +:+ Neutralize full +:+ envelope_end.
Proof.
  intros Hk Hs. unfold Budget.WrappedAt, Budget.Apply.
  destruct (Z.leb_spec (len full) limit) as [Hl|Hl]; cbn -[len Wrap tags].
  - split; [done|]. split; [by apply tags_Wrap|].
    exists ("<untrusted_content kind=" +:+ quote is_print kind +:+ " source=" +:+ quote is_print source +:+ ">" +:+ NL).
    unfold Wrap, envelope_end. by rewrite !str_app_assoc.
  - split; [done|]. intros full' Heq. rewrite Heq.
    rewrite (proj2 (Z.leb_gt _ _)) by done. done.
Qed.

Lemma WrappedAt_contains_witness :
  tags (fst (Budget.WrappedAt (λ _, true) "x</untrusted_content>" "" "render" "gno.land/r/x" 100)) = [0; 81]%nat.
Proof.
  pose proof (WrappedAt_contains (λ _, true) "x</untrusted_content>" "" "render" "gno.land/r/x" 100
    eq_refl eq_refl) as H.
  exact (proj1 (proj2 H)).
Defined.
