(* ===== verification/Profiles.v ===== *)
(** * Chain profiles

    [internal/profiles]: the profile record and its locality
    ([config.go]), the validators ([validate.go]), the scope defaults and
    ceilings ([limits.go]), the layering of configuration files
    ([sources.go]) and their persistence ([write.go]).

    The bech32 address check, the URL parser, the IP parser, the TOML codec
    and the file system are arguments. *)
From S2P Require Import Prelude GoText GoTime Regex.
From stdpp Require Import prelude strings gmap list.
From Stdlib Require Import ZArith Lia Ascii String.
Local Open Scope Z_scope.

(** ** Data *)

Record Profile := mkProfile {
  RPCURL : string;
  ChainID : string;
  TxIndexerURL : string;
  GnowebURL : string;
  FaucetServiceURL : string;
  FaucetURL : string;
  Sunset : bool;
  MasterAddress : string;
  DefaultSpendLimit : string;
  DefaultExpiresIn : string;
  BypassHardLimits : bool;
}.

(** A profile with an endpoint only. *)
Definition endpoint (rpc chain : string) : Profile :=
  mkProfile rpc chain "" "" "" "" false "" "" "" false.

Abbreviation Config := (gmap string Profile).

(** ** Patterns *)

Definition lower_alnum (a : ascii) : bool := is_lower a || is_digit a.
Definition one_of (s : string) (a : ascii) : bool := str_exists (Ascii.eqb a) s.

Definition spendLimitRE : re := RSeq (RPlus (RClass is_digit)) (RPlus (RClass is_lower)).

Definition chainIDFormatRE : re :=
  RSeq (RClass lower_alnum)
       (ROpt (RSeq (RStar (RClass (λ a, lower_alnum a || one_of "._-" a))) (RClass lower_alnum))).

Definition profileNameRE : re :=
  RSeq (RClass lower_alnum) (RStar (RClass (λ a, lower_alnum a || one_of "_-" a))).

Definition host_char (a : ascii) : bool := is_upper a || lower_alnum a || one_of ".-" a.
Definition path_char (a : ascii) : bool := is_upper a || lower_alnum a || one_of "._/-" a.

Definition rpcURLRE : re :=
  RSeq (RLit "http") (RSeq (ROpt (RLit "s")) (RSeq (RLit "://")
    (RSeq (RPlus (RClass host_char))
      (RSeq (ROpt (RSeq (RLit ":") (RPlus (RClass is_digit))))
            (ROpt (RSeq (RLit "/") (RStar (RClass path_char)))))))).

Definition SpendLimitValid (s : string) : bool := matches spendLimitRE s.
Definition ValidProfileName (name : string) : bool := matches profileNameRE name.
Definition ValidRPCURL (s : string) : bool := matches rpcURLRE s.

Definition testnetChainNames : list string := ["test"; "onyx"].

Definition IsTestnetChainID (id : string) : bool := existsb (has_prefix id) testnetChainNames.
Definition ChainIDWritable (chainID : string) : bool := bool_decide (chainID = "dev") || IsTestnetChainID chainID.
Definition ChainIDValid (chainID : string) : bool := (len chainID <=? 64) && matches chainIDFormatRE chainID.

(** ** Locality *)

Definition IsLocal (p : Profile) : bool := bool_decide (ChainID p = "dev").
Definition IsTestnet (p : Profile) : bool := ChainIDWritable (ChainID p) && negb (IsLocal p).
Definition IsReadOnly (p : Profile) : bool := negb (ChainIDWritable (ChainID p)).

Definition Kind (p : Profile) : string :=
  if IsLocal p then "local" else if IsReadOnly p then "read-only" else "testnet".

(** ** gnoweb links *)

Record URL := { Scheme : string; Host : string; Hostname : string }.
Record IPKind := { IsLoopback : bool; IsUnspecified : bool; IsPrivate : bool; IsLinkLocalUnicast : bool }.

(** [strings.Replace(s, old, new, 1)] for a non-empty [old]. *)
Fixpoint replace_first (old new s : string) : string :=
  match cut_prefix old s with
  | Some rest => new +:+ rest
  | None => match s with EmptyString => EmptyString | String a t => String a (replace_first old new t) end
  end.

Section gnoweb.
Context (url_parse : string → option URL) (ParseIP : string → option IPKind).

Definition isPublicHost (host : string) : bool :=
  match ParseIP host with
  | Some ip => negb (IsLoopback ip) && negb (IsUnspecified ip) && negb (IsPrivate ip) && negb (IsLinkLocalUnicast ip)
  | None => contains host "."
  end.

Definition is_http (u : URL) : bool := bool_decide (Scheme u = "http") || bool_decide (Scheme u = "https").

Definition gnowebBase (p : Profile) : string :=
  if negb (bool_decide (GnowebURL p = "")) then trim_suffix (GnowebURL p) "/"
  else
    let base := replace_first "://rpc." "://" (RPCURL p) in
    let base := trim_suffix base ":443" in
    match url_parse base with
    | Some u => if negb (is_http u) || negb (isPublicHost (Hostname u)) then "" else trim_suffix base "/"
    | None => ""
    end.

Definition RealmViewURL (p : Profile) (pkgPath : string) : string :=
  let base := gnowebBase p in
  if bool_decide (base = "") then "" else base +:+ "/" +:+ trim_prefix pkgPath "gno.land/".
End gnoweb.

(** ** Built-in profiles and merging *)

Definition BuiltinProfiles : Config :=
  list_to_map [
    ("local", endpoint "http://127.0.0.1:26657" "dev");
    ("testnet", mkProfile "https://rpc.onyx.testnets.gno.land:443" "onyx-1"
       "https://indexer.onyx.testnets.gno.land/graphql/query" "https://onyx.testnets.gno.land"
       "https://faucet-agent.onyx.testnets.gno.land" "" false "" "" "" false);
    ("mainnet", mkProfile "https://rpc.gno.land:443" "gnoland-1"
       "https://indexer.gno.land/graphql/query" "https://gno.land" "" "" false "" "" "" false)].

(** Copying [base] and then [overlay] key by key: the overlay's entries win. *)
Definition Merge (base overlay : Config) : Config := overlay ∪ base.

(** ** Validation *)

Inductive profile_error :=
  | ENoProfiles
  | EMissingRPC (name : string)
  | EBadRPC (name : string)
  | EMissingChain (name : string)
  | EBadChain (name : string)
  | EBadExpires (name : string)
  | EBadSpend (name : string)
  | EBypassNoMaster (name : string)
  | EMasterReadOnly (name : string)
  | EBadMaster (name : string)
  | EFaucetReadOnly (name field : string)
  | EBadFaucet (name field : string)
  | EOpen (path : string)
  | EParse.

#[export] Instance profile_error_eq_dec : EqDecision profile_error.
Proof. solve_decision. Defined.

Section validate.
Context (AddressFromBech32 : string → bool) (url_parse : string → option URL).

Definition unless (b : bool) (e : profile_error) : res profile_error unit := check (negb b) e.

(** One faucet field of the loop over [faucet-url], [faucet-service-url]. *)
Definition validate_faucet (name field val : string) (p : Profile) : res profile_error unit :=
  if bool_decide (val = "") then Ok tt
  else
    _ ← unless (negb (ChainIDWritable (ChainID p))) (EFaucetReadOnly name field);
    match url_parse val with
    | Some u => unless (negb (is_http u) || bool_decide (Host u = "")) (EBadFaucet name field)
    | None => Err (EBadFaucet name field)
    end.

(** The body of [Validate]'s loop. *)
Definition validate_profile (name : string) (p : Profile) : res profile_error unit :=
  _ ← unless (bool_decide (RPCURL p = "")) (EMissingRPC name);
  _ ← unless (negb (ValidRPCURL (RPCURL p))) (EBadRPC name);
  _ ← unless (bool_decide (ChainID p = "")) (EMissingChain name);
  _ ← unless (negb (ChainIDValid (ChainID p))) (EBadChain name);
  _ ← unless (negb (bool_decide (DefaultExpiresIn p = "")) && negb (bool_decide (is_Some (ParseDuration (DefaultExpiresIn p)))))
             (EBadExpires name);
  _ ← unless (negb (bool_decide (DefaultSpendLimit p = "")) && negb (matches spendLimitRE (DefaultSpendLimit p)))
             (EBadSpend name);
  _ ← unless (BypassHardLimits p && bool_decide (MasterAddress p = "")) (EBypassNoMaster name);
  _ ← (if bool_decide (MasterAddress p = "") then Ok tt
       else _ ← unless (negb (ChainIDWritable (ChainID p))) (EMasterReadOnly name);
            unless (negb (AddressFromBech32 (MasterAddress p))) (EBadMaster name));
  _ ← validate_faucet name "faucet-url" (FaucetURL p) p;
  validate_faucet name "faucet-service-url" (FaucetServiceURL p) p.

Fixpoint validate_all (l : list (string * Profile)) : res profile_error unit :=
  match l with
  | [] => Ok tt
  | (name, p) :: l => _ ← validate_profile name p; validate_all l
  end.

(** [order c] is the iteration order Go picks for the map [c]. *)
Context (order : Config → list (string * Profile)).

Definition Validate (c : Config) : res profile_error unit :=
  if bool_decide (c = ∅) then Err ENoProfiles else validate_all (order c).

(** *** Sources *)

Record Sources := { GlobalPath : string; ProjectPath : string; ExplicitPath : string }.

Inductive open_result := NotExist | OpenError | Contents (bytes : string).

Context (os_open : string → open_result) (Load : string → option Config).

Definition layer (merged : Config) (path : string) (required : bool) : res profile_error Config :=
  if bool_decide (path = "") then Ok merged
  else match os_open path with
  | NotExist => if required then Err (EOpen path) else Ok merged
  | OpenError => Err (EOpen path)
  | Contents b =>
      match Load b with
      | Some c => Ok (Merge merged c)
      | None => Err EParse
      end
  end.

Definition LoadResolved (s : Sources) : res profile_error Config :=
  merged ← layer BuiltinProfiles (GlobalPath s) false;
  merged ← layer merged (ProjectPath s) false;
  merged ← layer merged (ExplicitPath s) true;
  _ ← Validate merged;
  mret merged.

(** *** [WriteFile], up to the atomic write of the encoded bytes *)

Inductive write_error := WInvalid (e : profile_error) | WEncode | WWrite (e : string).

Context {W : Type} (Encode : Config → option string)
        (WriteFileAtomic : W → string → string → Z → W * option string).

Definition WriteFile (w : W) (path : string) (profiles : Config) : W * res write_error unit :=
  match (if bool_decide (profiles = ∅) then Ok tt else Validate profiles) with
  | Err e => (w, Err (WInvalid e))
  | Ok _ =>
      match Encode profiles with
      | None => (w, Err WEncode)
      | Some b =>
          match WriteFileAtomic w path b 384 with   (* 0o600 *)
          | (w, Some e) => (w, Err (WWrite e))
          | (w, None) => (w, Ok tt)
          end
      end
  end.
End validate.

(** ** Scope defaults and ceilings *)

Record HardLimits := { MaxSpendLimit : string; MaxExpiresIn : Duration; MaxAllowPathsCount : Z }.

Definition hardDefaultSpendLimit : string := "100000000ugnot".
Definition hardDefaultExpiresIn : Duration := Hour.

Definition EffectiveDefaults (p : Profile) : res string (string * Duration) :=
  let spendLimit := if bool_decide (DefaultSpendLimit p = "") then hardDefaultSpendLimit else DefaultSpendLimit p in
  if bool_decide (DefaultExpiresIn p = "") then Ok (spendLimit, hardDefaultExpiresIn)
  else match ParseDuration (DefaultExpiresIn p) with
       | Some d => Ok (spendLimit, d)
       | None => Err (DefaultExpiresIn p)
       end.

Definition HardLimits_of (p : Profile) : HardLimits :=
  if BypassHardLimits p then {| MaxSpendLimit := ""; MaxExpiresIn := 0; MaxAllowPathsCount := 0 |}
  else if IsLocal p then
    {| MaxSpendLimit := "100000000ugnot"; MaxExpiresIn := 30 * 24 * Hour; MaxAllowPathsCount := 20 |}
  else {| MaxSpendLimit := "100000000ugnot"; MaxExpiresIn := 7 * 24 * Hour; MaxAllowPathsCount := 10 |}.

(** ** Discovery *)

(** [DiscoverLocal]; [status] is the HTTP answer: a transport failure, a
    status code, and the decoded body's network. *)
Inductive status_answer := SUnreachable | SCode (code : Z) (network : option string).

Definition DiscoverLocal (p : Profile) (status : status_answer) : res string bool :=
  if negb (IsLocal p) then Ok false
  else match status with
  | SUnreachable => Ok false
  | SCode code network =>
      if negb (code =? 200) then Ok false
      else match network with
           | Some n => Ok (bool_decide (n = ChainID p))
           | None => Err "decode status"
           end
  end.

(** ** Evaluation *)

Example valid_ex :
  ValidRPCURL "https://rpc.onyx.testnets.gno.land:443" = true ∧ ValidRPCURL "http://h/$(cmd)" = false ∧
  ChainIDValid "onyx-1" = true ∧ ChainIDValid "-x" = false ∧ ChainIDValid "test-" = false ∧
  SpendLimitValid "10gnot" = true ∧ SpendLimitValid "10" = false ∧ ValidProfileName "my_net-1" = true.
Proof. vm_compute. repeat split. Qed.

(** ** Facts *)

(** Characters with no meaning to a shell, which the pasted commands may
    hold unquoted. *)
Definition shell_safe (a : ascii) : bool := is_upper a || lower_alnum a || one_of "._/:-" a.
Definition safe_word (s : string) : bool := negb (bool_decide (s = "")) && str_forall shell_safe s.

(** A word that cannot be read as a flag. *)
Definition starts_alnum (s : string) : bool :=
  match s with String a _ => is_upper a || lower_alnum a | EmptyString => false end.

Lemma matches_safe r s :
  re_over shell_safe r = true → first_over (λ a, is_upper a || lower_alnum a) r = true →
  matches r s = true → safe_word s = true ∧ starts_alnum s = true.
Proof.
  intros Ho Hf Hm. pose proof (matches_over _ _ _ Ho Hm) as Hs.
  apply matches_lang in Hm. destruct (lang_first _ _ _ Hf Hm) as (c & t & -> & Hc).
  split; [|exact Hc]. unfold safe_word. by rewrite Hs.
Qed.

Lemma ValidRPCURL_safe s : ValidRPCURL s = true → safe_word s = true ∧ starts_alnum s = true.
Proof. apply matches_safe; vm_compute; reflexivity. Qed.

Lemma ChainIDValid_safe s : ChainIDValid s = true → safe_word s = true ∧ starts_alnum s = true.
Proof. intros [_ H]%andb_true_iff. revert H. apply matches_safe; vm_compute; reflexivity. Qed.

Lemma SpendLimitValid_safe s : SpendLimitValid s = true → safe_word s = true ∧ starts_alnum s = true.
Proof. apply matches_safe; vm_compute; reflexivity. Qed.

Lemma ValidProfileName_safe s : ValidProfileName s = true → safe_word s = true ∧ starts_alnum s = true.
Proof. apply matches_safe; vm_compute; reflexivity. Qed.

Lemma unless_Ok b e u : unless b e = Ok u ↔ b = false.
Proof. unfold unless. rewrite check_Ok. by rewrite negb_true_iff. Qed.

Ltac inv_unless :=
  inv_ok; repeat match goal with H : unless _ _ = Ok _ |- _ => apply unless_Ok in H end.

(** What validation guarantees of one profile. *)
Record profile_ok (p : Profile) : Prop := {
  po_rpc : safe_word (RPCURL p) = true ∧ starts_alnum (RPCURL p) = true;
  po_chain : safe_word (ChainID p) = true ∧ starts_alnum (ChainID p) = true;
  po_spend : DefaultSpendLimit p = "" ∨ SpendLimitValid (DefaultSpendLimit p) = true;
  po_defaults : is_ok (EffectiveDefaults p) = true;
  po_bypass : BypassHardLimits p = true → MasterAddress p ≠ "";
  po_readonly : IsReadOnly p = true →
    MasterAddress p = "" ∧ FaucetURL p = "" ∧ FaucetServiceURL p = "" ∧ BypassHardLimits p = false;
}.

Section facts.
Context (addr_ok : string → bool) (url_parse : string → option URL).

Lemma validate_faucet_readonly name field val p u :
  validate_faucet url_parse name field val p = Ok u → IsReadOnly p = true → val = "".
Proof using Type.
  unfold validate_faucet, IsReadOnly. case_bool_decide; [done|]. intros Hv Hr. inv_unless. congruence.
Qed.

Lemma validate_profile_ok name p u : validate_profile addr_ok url_parse name p = Ok u → profile_ok p.
Proof using Type.
  unfold validate_profile. intros Hv. inv_unless. b2p.
  assert (Hro : IsReadOnly p = true → MasterAddress p = "").
  { intros Hr. case_bool_decide; [done|]. inv_unless. unfold IsReadOnly in Hr. congruence. }
  constructor.
  - by apply ValidRPCURL_safe.
  - by apply ChainIDValid_safe.
  - destruct (bool_decide (DefaultSpendLimit p = "")) eqn:E; [left; by apply bool_decide_eq_true in E|].
    right. unfold SpendLimitValid. by destruct (matches spendLimitRE _).
  - unfold EffectiveDefaults. destruct (bool_decide (DefaultExpiresIn p = "")) eqn:E; [done|].
    simpl in *. destruct (ParseDuration _); [done|].
    match goal with H : negb (bool_decide (is_Some None)) = false |- _ => by rewrite bool_decide_eq_false_2 in H end.
  - intros Hb E. match goal with H : BypassHardLimits p && _ = false |- _ => by rewrite Hb, E in H end.
  - intros Hr. specialize (Hro Hr). split_and!; [done| | |].
    + by eapply validate_faucet_readonly.
    + by eapply validate_faucet_readonly.
    + match goal with H : BypassHardLimits p && _ = false |- _ => rewrite Hro, andb_true_r in H; exact H end.
Qed.

Lemma validate_all_Ok l :
  validate_all addr_ok url_parse l = Ok tt ↔ Forall (λ np, validate_profile addr_ok url_parse np.1 np.2 = Ok tt) l.
Proof using Type.
  induction l as [|[name p] l IH]; simpl; [by split|]. rewrite bind_Ok, Forall_cons, <- IH. simpl.
  split; [intros ([] & ? & ?)|intros [? ?]; eexists]; eauto.
Qed.
End facts.

(** ** Properties *)

(** validation makes the configuration safe to use.  Whatever order Go
    iterates the map in, a configuration that validates holds only profiles
    whose endpoint and chain-id are single shell words that cannot be read as
    flags, whose scope defaults parse, and which on a read-only chain carry no
    master address, no faucet and no bypass; and no other order would have
    refused it. *)
Theorem Validate_sound addr_ok url_parse order order' c :
  (∀ c, order c ≡ₚ map_to_list c) → (∀ c, order' c ≡ₚ map_to_list c) →
  Validate addr_ok url_parse order c = Ok tt →
  (∀ name p, c !! name = Some p → profile_ok p) ∧ Validate addr_ok url_parse order' c = Ok tt.
Proof.
  intros Ho Ho' H. unfold Validate in *. case_bool_decide; [done|].
  rewrite validate_all_Ok in *. rewrite (Ho c) in H. rewrite (Ho' c). split; [|done].
  intros name p Hp. rewrite Forall_forall in H.
  eapply (validate_profile_ok addr_ok url_parse name p tt), (H (name, p)).
  by apply elem_of_map_to_list.
Qed.

Definition toy_url (s : string) : option URL :=
  if has_prefix s "https://" then Some {| Scheme := "https"; Host := "h"; Hostname := "h" |} else None.

Lemma Validate_sound_witness :
  Validate (λ _, true) toy_url map_to_list BuiltinProfiles = Ok tt ∧
  ∀ name p, BuiltinProfiles !! name = Some p → profile_ok p.
Proof.
  assert (H : Validate (λ _, true) toy_url map_to_list BuiltinProfiles = Ok tt) by (vm_compute; reflexivity).
  split; [exact H|].
  exact (proj1 (Validate_sound (λ _, true) toy_url map_to_list map_to_list BuiltinProfiles
                  (λ c, reflexivity _) (λ c, reflexivity _) H)).
Defined.

(** What a configuration file contributes: nothing when its path is unset or
    the file is missing, and [None] when it cannot be read or parsed. *)
Definition file_layer (os_open : string → open_result) (Load : string → option Config) (path : string) : option Config :=
  if bool_decide (path = "") then Some ∅
  else match os_open path with NotExist => Some ∅ | OpenError => None | Contents b => Load b end.

Lemma layer_Ok os_open Load merged path required c :
  layer os_open Load merged path required = Ok c ↔
  ∃ l, file_layer os_open Load path = Some l ∧ c = l ∪ merged ∧
       (required = true → path ≠ "" → os_open path ≠ NotExist).
Proof.
  unfold layer, file_layer, Merge. case_bool_decide as Hp.
  - split; [intros [= <-]; exists ∅; by rewrite (left_id_L ∅ (∪))|intros (l & [= <-] & -> & _); by rewrite (left_id_L ∅ (∪))].
  - destruct (os_open path) as [| |b].
    + destruct required; split; try done.
      * intros (l & _ & _ & H). by destruct H.
      * intros [= <-]. exists ∅. by rewrite (left_id_L ∅ (∪)).
      * intros (l & [= <-] & -> & _). by rewrite (left_id_L ∅ (∪)).
    + split; [done|by intros (? & ? & _)].
    + destruct (Load b); split; naive_solver.
Qed.

(** precedence of the configuration layers.  A configuration resolves
    exactly when every file that is there loads, the explicitly named one is
    there, and the result validates; each profile is then taken whole from the
    highest layer that names it: explicit file, project file, global file,
    built-in default. *)
Theorem LoadResolved_precedence addr_ok url_parse order os_open Load s c :
  LoadResolved addr_ok url_parse order os_open Load s = Ok c ↔
  ∃ g p e, file_layer os_open Load (GlobalPath s) = Some g ∧
    file_layer os_open Load (ProjectPath s) = Some p ∧
    file_layer os_open Load (ExplicitPath s) = Some e ∧
    (ExplicitPath s ≠ "" → os_open (ExplicitPath s) ≠ NotExist) ∧
    Validate addr_ok url_parse order c = Ok tt ∧
    c = e ∪ (p ∪ (g ∪ BuiltinProfiles)).
Proof.
  unfold LoadResolved. split.
  - intros H. inv_ok. unfold mret, res_ret in *. inv_ok.
    repeat match goal with H : layer _ _ _ _ _ = Ok _ |- _ => apply layer_Ok in H; destruct H as (? & ? & -> & ?) end.
    match goal with x : unit |- _ => destruct x end.
    eexists _, _, _. split_and!; try done. auto.
  - intros (g & p & e & Hg & Hp & He & Hex & Hv & ->).
    rewrite (proj2 (layer_Ok _ _ _ _ _ (g ∪ BuiltinProfiles))) by naive_solver. simpl.
    rewrite (proj2 (layer_Ok _ _ _ _ _ (p ∪ (g ∪ BuiltinProfiles)))) by naive_solver. simpl.
    rewrite (proj2 (layer_Ok _ _ _ _ _ (e ∪ (p ∪ (g ∪ BuiltinProfiles))))) by naive_solver. simpl.
    by rewrite Hv.
Qed.
