(* ===== verification/Secret.v ===== *)
(** * Encryption at rest

    [internal/secret/secret.go]: the scheme-tagged blobs that hold session
    keys and agent mnemonics.  scrypt, AES-GCM and the random source are
    arguments; [AeadLaws] states what the code relies on. *)
From S2P Require Import Prelude GoText.
From stdpp Require Import prelude strings list.
From Stdlib Require Import ZArith Lia Ascii String.

Definition saltLen : nat := 16.
Definition nonceLen : nat := 12.
Definition gcmTagLen : nat := 16.

Definition schemePlain : ascii := byte_of 0.
Definition schemeScrypt : ascii := byte_of 1.

Inductive secret_error :=
  | ERandom
  | EDerive
  | ECipher
  | EEmpty
  | EScheme (tag : ascii)
  | ErrPassphraseRequired
  | ETooShort
  | EOpen.

#[export] Instance secret_error_eq_dec : EqDecision secret_error.
Proof. solve_decision. Defined.

Section secret.
(** [scrypt.Key] at the fixed cost, and AES-256-GCM under a derived key;
    [None] is the error the constructors return for a bad key. *)
Context (scrypt : string → string → option string).
Context (new_gcm : string → bool).
Context (Seal : string → string → string → string).
Context (Open : string → string → string → option string).

Definition deriveKey (passphrase salt : string) : res secret_error string :=
  ok_or EDerive (scrypt passphrase salt).

(** [salt] and [nonce] are what [rand.Reader] delivers. *)
Definition Encrypt (salt nonce : option string) (plaintext passphrase : string) : res secret_error string :=
  if bool_decide (passphrase = "") then Ok (String schemePlain plaintext)
  else
    salt ← ok_or ERandom salt;
    key ← deriveKey passphrase salt;
    _ ← check (new_gcm key) ECipher;
    nonce ← ok_or ERandom nonce;
    mret (String schemeScrypt (salt +:+ nonce +:+ Seal key nonce plaintext)).

Definition Decrypt (blob passphrase : string) : res secret_error string :=
  match blob with
  | EmptyString => Err EEmpty
  | String scheme body =>
      if Ascii.eqb scheme schemePlain then Ok body
      else if negb (Ascii.eqb scheme schemeScrypt) then Err (EScheme scheme)
      else if bool_decide (passphrase = "") then Err ErrPassphraseRequired
      else if (String.length body <? saltLen + nonceLen + gcmTagLen)%nat then Err ETooShort
      else
        let salt := str_take saltLen body in
        let nonce := str_take nonceLen (str_drop saltLen body) in
        let data := str_drop (saltLen + nonceLen) body in
        key ← deriveKey passphrase salt;
        _ ← check (new_gcm key) ECipher;
        ok_or EOpen (Open key nonce data)
  end.
End secret.

(** What the code relies on of AES-GCM: opening inverts sealing, accepts only
    sealed text, and sealing appends a 16-byte tag. *)
Class AeadLaws (Seal : string → string → string → string)
    (Open : string → string → string → option string) : Prop := {
  open_seal : ∀ k n p, Open k n (Seal k n p) = Some p;
  open_only : ∀ k n c p, Open k n c = Some p → c = Seal k n p;
  seal_length : ∀ k n p, String.length (Seal k n p) = (String.length p + gcmTagLen)%nat;
}.

(** ** Facts on slices *)

Lemma str_take_app_len x y : str_take (String.length x) (x +:+ y) = x.
Proof. induction x as [|a x IH]; [by destruct y|]. rewrite str_app_cons. simpl. by rewrite IH. Qed.

Lemma str_drop_app_len x y : str_drop (String.length x) (x +:+ y) = y.
Proof. induction x as [|a x IH]; [by destruct y|]. by rewrite str_app_cons. Qed.

Lemma str_take_drop n s : str_take n s +:+ str_drop n s = s.
Proof.
  revert s. induction n as [|n IH]; intros [|a s]; try done. simpl.
  rewrite str_app_cons. by rewrite IH.
Qed.

Lemma str_drop_drop n m s : str_drop n (str_drop m s) = str_drop (m + n) s.
Proof.
  revert s. induction m as [|m IH]; intros s; [done|]. destruct s as [|a s]; simpl; [by destruct n|].
  by rewrite IH.
Qed.

Lemma str_take_length n s : (n ≤ String.length s)%nat → String.length (str_take n s) = n.
Proof.
  revert s. induction n as [|n IH]; intros [|a s]; simpl; try done; try lia.
  intros. by rewrite IH by lia.
Qed.

Lemma str_drop_length n s : String.length (str_drop n s) = (String.length s - n)%nat.
Proof. revert s. induction n as [|n IH]; intros [|a s]; simpl; try done; try lia. Qed.

(** ** Properties *)

#[local] Opaque saltLen nonceLen gcmTagLen.

Section properties.
Context (scrypt : string → string → option string) (new_gcm : string → bool).
Context (Seal : string → string → string → string) (Open : string → string → string → option string).

Lemma Decrypt_scrypt salt nonce ct pw key :
  pw ≠ "" → String.length salt = saltLen → String.length nonce = nonceLen →
  (gcmTagLen ≤ String.length ct)%nat → scrypt pw salt = Some key → new_gcm key = true →
  Decrypt scrypt new_gcm Open (String schemeScrypt (salt +:+ nonce +:+ ct)) pw = ok_or EOpen (Open key nonce ct).
Proof using Type.
  intros Hpw Hs Hn Hct Hk Hg. unfold Decrypt.
  change (Ascii.eqb schemeScrypt schemePlain) with false.
  change (Ascii.eqb schemeScrypt schemeScrypt) with true. simpl negb. cbv iota.
  rewrite bool_decide_eq_false_2 by done.
  rewrite (proj2 (Nat.ltb_ge _ _)) by (rewrite !str_length_app; lia).
  rewrite <- Hs at 1. rewrite str_take_app_len. unfold deriveKey. rewrite Hk. simpl. rewrite Hg. simpl.
  rewrite <- str_drop_drop, <- Hs, str_drop_app_len, <- Hn, str_take_app_len, str_drop_app_len. done.
Qed.
End properties.

(** What [Encrypt] writes, [Decrypt] reads. *)
Lemma Encrypt_roundtrip scrypt new_gcm Seal Open salt nonce plaintext pw blob :
  AeadLaws Seal Open →
  String.length salt = saltLen → String.length nonce = nonceLen →
  Encrypt scrypt new_gcm Seal (Some salt) (Some nonce) plaintext pw = Ok blob →
  Decrypt scrypt new_gcm Open blob pw = Ok plaintext ∧
  (pw ≠ "" → Decrypt scrypt new_gcm Open blob "" = Err ErrPassphraseRequired) ∧
  (pw = "" → blob = String schemePlain plaintext).
Proof.
  intros Hl Hs Hn HE. unfold Encrypt in HE. case_bool_decide as Hpw.
  { injection HE as <-. by split_and!. }
  simpl in HE. unfold deriveKey in HE. destruct (scrypt pw salt) as [key|] eqn:Ek; [|done].
  simpl in HE. destruct (new_gcm key) eqn:Eg; [|done]. simpl in HE. injection HE as <-.
  split_and!; [|done|done].
  rewrite (Decrypt_scrypt _ _ _ _ _ _ _ key) by (try done; rewrite seal_length; lia).
  by rewrite open_seal.
Qed.

(** C16: the blobs round-trip and fail loudly.  What [Encrypt] writes,
    [Decrypt] reads back under the same passphrase; a plaintext blob is read
    under any; an encrypted one without a passphrase is refused as such; and
    whatever [Decrypt] accepts of an encrypted blob is exactly what [Encrypt]
    writes for that plaintext, so a damaged or foreign blob is never
    mis-decoded. *)
Theorem Decrypt_Encrypt scrypt new_gcm Seal Open salt nonce plaintext pw blob :
  AeadLaws Seal Open →
  String.length salt = saltLen → String.length nonce = nonceLen →
  Encrypt scrypt new_gcm Seal (Some salt) (Some nonce) plaintext pw = Ok blob →
  Decrypt scrypt new_gcm Open blob pw = Ok plaintext ∧
  (pw = "" → ∀ pw', Decrypt scrypt new_gcm Open blob pw' = Ok plaintext) ∧
  (pw ≠ "" → Decrypt scrypt new_gcm Open blob "" = Err ErrPassphraseRequired) ∧
  (∀ blob' p, Decrypt scrypt new_gcm Open blob' pw = Ok p →
     blob' = String schemePlain p ∨
     ∃ salt' nonce', Encrypt scrypt new_gcm Seal (Some salt') (Some nonce') p pw = Ok blob').
Proof.
  intros Hl Hs Hn HE.
  pose proof (Encrypt_roundtrip _ _ _ _ _ _ _ _ _ Hl Hs Hn HE) as Hrt.
  destruct Hrt as (H1 & H2 & H3). split_and!; [done| |done|].
  { intros E pw'. by rewrite H3. }
  intros blob' p HD. unfold Decrypt in HD. destruct blob' as [|tag body]; [done|].
  destruct (Ascii.eqb_spec tag schemePlain) as [->|_]; [injection HD as <-; by left|].
  destruct (Ascii.eqb_spec tag schemeScrypt) as [->|_]; [|done]. simpl in HD.
  case_bool_decide as Hpw; [done|].
  destruct (Nat.ltb_spec (String.length body) (saltLen + nonceLen + gcmTagLen)); [done|].
  unfold deriveKey in HD. destruct (scrypt pw _) as [key|] eqn:Ek; [|done]. simpl in HD.
  destruct (new_gcm key) eqn:Eg; [|done]. simpl in HD.
  destruct (Open _ _ _) as [q|] eqn:Eo; [|done]. injection HD as ->.
  apply open_only in Eo. right.
  exists (str_take saltLen body), (str_take nonceLen (str_drop saltLen body)).
  unfold Encrypt, deriveKey. rewrite bool_decide_eq_false_2 by done. simpl ok_or. cbn [mbind res_bind].
  rewrite Ek. simpl ok_or. cbn [mbind res_bind]. rewrite Eg. simpl.
  rewrite <- Eo, <- str_drop_drop, !str_take_drop. done.
Qed.

#[local] Transparent saltLen nonceLen gcmTagLen.

(** A toy AEAD: the "tag" is sixteen zero bytes in front of the text. *)
Definition toy_tag : string := "0000000000000000".
Definition toy_seal (k n p : string) : string := toy_tag +:+ p.
Definition toy_open (k n c : string) : option string := cut_prefix toy_tag c.

#[export] Instance toy_aead : AeadLaws toy_seal toy_open.
Proof.
  constructor; unfold toy_seal, toy_open; intros.
  - apply cut_prefix_app.
  - by apply cut_prefix_Some.
  - rewrite str_length_app. change (String.length toy_tag) with gcmTagLen. lia.
Qed.

Lemma Decrypt_Encrypt_witness :
  let scrypt := λ p s : string, Some (p +:+ s) in
  let blob := String schemeScrypt ("saltsaltsaltsalt" +:+ "noncenonceno" +:+ toy_tag +:+ "key") in
  Decrypt scrypt (λ _, true) toy_open blob "pw" = Ok "key" ∧
  Decrypt scrypt (λ _, true) toy_open blob "" = Err ErrPassphraseRequired.
Proof.
  destruct (Decrypt_Encrypt (λ p s : string, Some (p +:+ s)) (λ _, true) toy_seal toy_open
    "saltsaltsaltsalt" "noncenonceno" "key" "pw"
    (String schemeScrypt ("saltsaltsaltsalt" +:+ "noncenonceno" +:+ toy_tag +:+ "key"))
    toy_aead eq_refl eq_refl eq_refl) as (H1 & _ & H3 & _).
  split; [exact H1|apply H3; discriminate].
Defined.
