(* ===== verification/Scope.v ===== *)
(** * Session scopes and the commands that authorize them

    [internal/session/scope.go] (the layered scope policy) and
    [internal/session/gnokey.go] (the gnokey commands a user pastes into a
    terminal).  The toolchain's realm-path predicate is an argument. *)
From S2P Require Import Prelude GoText GoTime Regex GasPrice Profiles.
From stdpp Require Import prelude strings gmap list.
From Stdlib Require Import ZArith Lia Ascii String.
Local Open Scope Z_scope.

(** ** Data *)

Record Scope := mkScope {
  SpendLimit : string;
  SpendPeriod : Duration;
  ExpiresIn : Duration;
  AllowPaths : list string;
  AllowRun : bool;
}.

Record ScopeArgs := mkScopeArgs {
  aSpendLimit : string;
  aExpiresIn : string;
  aAllowPaths : list string;
  aAllowRun : bool;
}.

Definition spendLimitWriteBudget : Z := 10.

Inductive scope_error :=
  | ENothingRequested
  | EPathEmpty
  | EPathChars (p : string)
  | EPathNotRealm (p : string)
  | EProfileDefaults (e : string)
  | ESpendLimit (s : string)
  | EExpiresIn (s : string)
  | EClamp
  | EFeeParse
  | EFeeDenom
  | EFeeTooLow (fee : Z).

#[export] Instance scope_error_eq_dec : EqDecision scope_error.
Proof. solve_decision. Defined.

(** ** Coins *)

(** [parseCoins]: magnitude and denomination. *)
Definition parseCoins (s : string) : option (Z * string) :=
  if bool_decide (s = "") then None
  else
    let '(digits, denom) := span is_digit s in
    (* [IndexFunc] finds no non-digit, or finds it at 0 *)
    if bool_decide (denom = "") || bool_decide (digits = "") then None
    else
      mag ← parse_int digits;
      Some (mag, denom).

Definition clampCoin (a cap : string) : option (string * bool) :=
  '(aMag, aDenom) ← parseCoins a;
  '(cMag, cDenom) ← parseCoins cap;
  if negb (bool_decide (aDenom = cDenom)) then None
  else if cMag <? aMag then Some (cap, true) else Some (a, false).

(** ** Allow paths *)

Definition allow_path_char (a : ascii) : bool := lower_alnum a || one_of "./_-" a.

Section scope.
Context (IsRealmPath : string → bool).

Definition validateAllowPath (p : string) : res scope_error unit :=
  if bool_decide (p = "") then Err EPathEmpty
  else if negb (str_forall allow_path_char p) then Err (EPathChars p)
  else if negb (IsRealmPath p) then Err (EPathNotRealm p)
  else Ok tt.

Fixpoint validateAllowPaths (l : list string) : res scope_error unit :=
  match l with
  | [] => Ok tt
  | p :: l => _ ← validateAllowPath p; validateAllowPaths l
  end.

(** ** Fees *)

Definition derivedSpendLimit (feeUgnot : Z) (profile : Profile) : string :=
  let mag := wrap64 (feeUgnot * spendLimitWriteBudget) in
  let mag :=
    if negb (BypassHardLimits profile) then
      let maxSpend := MaxSpendLimit (HardLimits_of profile) in
      if negb (bool_decide (maxSpend = "")) then
        match parseCoins maxSpend with
        | Some (maxMag, maxDenom) => if bool_decide (maxDenom = "ugnot") && (maxMag <? mag) then maxMag else mag
        | None => mag
        end
      else mag
    else mag in
  format_int mag +:+ "ugnot".

Definition spendLimitCoversFee (spendLimit : string) (feeUgnot : Z) : res scope_error unit :=
  if feeUgnot <=? 0 then Ok tt
  else match parseCoins spendLimit with
  | None => Err EFeeParse
  | Some (mag, denom) =>
      if negb (bool_decide (denom = "ugnot")) then Err EFeeDenom
      else if mag <? feeUgnot then Err (EFeeTooLow feeUgnot)
      else Ok tt
  end.

Definition WritesAtFee (s : Scope) (feeUgnot : Z) : option Z :=
  if feeUgnot <=? 0 then None
  else match parseCoins (SpendLimit s) with
  | None => None
  | Some (mag, denom) => if bool_decide (denom = "ugnot") then Some (Z.quot mag feeUgnot) else None
  end.

(** ** [ResolveScope] *)

Definition set_spend (s : Scope) (v : string) : Scope :=
  mkScope v (SpendPeriod s) (ExpiresIn s) (AllowPaths s) (AllowRun s).
Definition set_expires (s : Scope) (d : Duration) : Scope :=
  mkScope (SpendLimit s) d d (AllowPaths s) (AllowRun s).
Definition set_paths (s : Scope) (l : list string) : Scope :=
  mkScope (SpendLimit s) (SpendPeriod s) (ExpiresIn s) l (AllowRun s).

(** The scope before clamping. *)
Definition requestedScope (args : ScopeArgs) (profile : Profile) (feeUgnot : Z) : res scope_error Scope :=
  if bool_decide (aAllowPaths args = []) && negb (aAllowRun args) then Err ENothingRequested
  else
    _ ← validateAllowPaths (aAllowPaths args);
    '(profileSpendLimit, profileExpiresIn) ← map_err EProfileDefaults (EffectiveDefaults profile);
    let spendLimit :=
      if bool_decide (DefaultSpendLimit profile = "") && (0 <? feeUgnot)
      then derivedSpendLimit feeUgnot profile else profileSpendLimit in
    let spendLimit := if bool_decide (aSpendLimit args = "") then spendLimit else aSpendLimit args in
    _ ← check (SpendLimitValid spendLimit) (ESpendLimit spendLimit);
    expiresIn ←
      (if bool_decide (aExpiresIn args = "") then Ok profileExpiresIn
       else ok_or (EExpiresIn (aExpiresIn args)) (ParseDuration (aExpiresIn args)));
    mret (mkScope spendLimit expiresIn expiresIn (aAllowPaths args) (aAllowRun args)).

(** The three clamps, each with the warning it adds. *)
Definition clampSpend (profile : Profile) (scope : Scope) : res scope_error (Scope * list string) :=
  let maxSpend := MaxSpendLimit (HardLimits_of profile) in
  if bool_decide (maxSpend = "") then Ok (scope, [])
  else
    '(clamped, didClamp) ← ok_or EClamp (clampCoin (SpendLimit scope) maxSpend);
    if didClamp : bool then
      mret (set_spend scope clamped,
            ["WARNING: requested spend_limit " +:+ SpendLimit scope +:+ " exceeds " +:+ Kind profile +:+
             " cap of " +:+ maxSpend +:+ "; clamped to " +:+ clamped +:+ "."])
    else mret (scope, []).

Definition clampExpires (profile : Profile) (scope : Scope) : Scope * list string :=
  let maxExp := MaxExpiresIn (HardLimits_of profile) in
  if (0 <? maxExp) && (maxExp <? ExpiresIn scope) then
    (set_expires scope maxExp,
     ["WARNING: requested expires_in " +:+ format_duration (ExpiresIn scope) +:+ " exceeds " +:+ Kind profile +:+
      " cap of " +:+ format_duration maxExp +:+ "; clamped to " +:+ format_duration maxExp +:+ "."])
  else (scope, []).

Definition clampPaths (profile : Profile) (scope : Scope) : Scope * list string :=
  let maxN := MaxAllowPathsCount (HardLimits_of profile) in
  let n := Z.of_nat (List.length (AllowPaths scope)) in
  if (0 <? maxN) && (maxN <? n) then
    (set_paths scope (take (Z.to_nat maxN) (AllowPaths scope)),
     ["WARNING: requested " +:+ format_int n +:+ " allow_paths exceeds " +:+ Kind profile +:+
      " cap of " +:+ format_int maxN +:+ "; clamped to first " +:+ format_int maxN +:+ "."])
  else (scope, []).

Definition ResolveScope (args : ScopeArgs) (profile : Profile) (feeUgnot : Z) :
    res scope_error (Scope * list string) :=
  scope ← requestedScope args profile feeUgnot;
  if BypassHardLimits profile then
    _ ← spendLimitCoversFee (SpendLimit scope) feeUgnot;
    mret (scope, [])
  else
    '(scope, w1) ← clampSpend profile scope;
    let '(scope, w2) := clampExpires profile scope in
    let '(scope, w3) := clampPaths profile scope in
    _ ← spendLimitCoversFee (SpendLimit scope) feeUgnot;
    mret (scope, w1 ++ w2 ++ w3).
End scope.

(** ** The emitted commands *)

Definition defaultGnokeyGasFee : string := format_int DefaultGasFeeUgnot +:+ "ugnot".

(** [t.Unix()]: seconds since 1970 of a time counted from year 1. *)
Definition unix (t : Time) : Z := t / Second - 62135596800.

Definition gnokey_gas_fee (feeUgnot : Z) : string :=
  if 0 <? feeUgnot then format_int feeUgnot +:+ "ugnot" else defaultGnokeyGasFee.

Definition CONT : string := " \" +:+ NL.   (* [" \\\n"] *)

Definition FormatGnokeyCreateCommand (profile : Profile) (sessionPubkey : string) (scope : Scope)
    (feeUgnot : Z) (now : Time) : string :=
  "gnokey maketx session create" +:+ CONT +:+
  "  --pubkey " +:+ sessionPubkey +:+ CONT +:+
  foldr (λ p acc, "  --allow-paths vm/exec:" +:+ p +:+ CONT +:+ acc) "" (AllowPaths scope) +:+
  (if AllowRun scope then "  --allow-paths vm/run" +:+ CONT else "") +:+
  "  --spend-limit " +:+ SpendLimit scope +:+ CONT +:+
  "  --expires-at " +:+ format_int (unix (time_add now (ExpiresIn scope))) +:+ CONT +:+
  "  --gas-fee " +:+ gnokey_gas_fee feeUgnot +:+ CONT +:+
  "  --gas-wanted " +:+ format_int DefaultGasWanted +:+ CONT +:+
  "  --remote " +:+ RPCURL profile +:+ CONT +:+
  "  --chainid " +:+ ChainID profile +:+ CONT +:+
  "  --broadcast" +:+ CONT +:+
  "  <your-master-key-name>".

Definition FormatGnokeyRevokeCommand (profile : Profile) (sessionPubkey : string) (feeUgnot : Z) : string :=
  "gnokey maketx session revoke" +:+ CONT +:+
  "  --pubkey " +:+ sessionPubkey +:+ CONT +:+
  "  --gas-fee " +:+ gnokey_gas_fee feeUgnot +:+ CONT +:+
  "  --gas-wanted " +:+ format_int DefaultGasWanted +:+ CONT +:+
  "  --remote " +:+ RPCURL profile +:+ CONT +:+
  "  --chainid " +:+ ChainID profile +:+ CONT +:+
  "  --broadcast" +:+ CONT +:+
  "  <your-master-key-name>".

(** ** Evaluation *)

Definition toy_realm (p : string) : bool := has_prefix p "gno.land/r/".
Definition testnet1 : Profile := endpoint "https://rpc.test5.gno.land:443" "test5".

Example resolve_ex :
  ResolveScope toy_realm (mkScopeArgs "900000000ugnot" "999h" ["gno.land/r/a"] false) testnet1 20000 =
  Ok (mkScope "100000000ugnot" (168 * Hour) (168 * Hour) ["gno.land/r/a"] false,
      ["WARNING: requested spend_limit 900000000ugnot exceeds testnet cap of 100000000ugnot; clamped to 100000000ugnot.";
       "WARNING: requested expires_in 999h0m0s exceeds testnet cap of 168h0m0s; clamped to 168h0m0s."]).
Proof. vm_compute. reflexivity. Qed.

(** A negative lifetime passes: only the upper bound is checked. *)
Example resolve_negative :
  ResolveScope toy_realm (mkScopeArgs "" "-1h" ["gno.land/r/a"] false) testnet1 20000 =
  Ok (mkScope "200000ugnot" (- Hour) (- Hour) ["gno.land/r/a"] false, []).
Proof. vm_compute. reflexivity. Qed.

(** ** Facts *)

Lemma format_int_safe z : safe_word (format_int z) = true.
Proof.
  assert (Hd : ∀ z, str_forall shell_safe (format_digits 19 z EmptyString) = true ∧ format_digits 19 z EmptyString ≠ "").
  { intros y. split.
    - eapply str_forall_impl; [|by apply format_digits_digits].
      intros a Ha. unfold shell_safe, lower_alnum. by rewrite Ha, !orb_true_r.
    - destruct (format_digits_nonempty 19 y "") as (d & s & -> & _); [lia|done]. }
  unfold safe_word, format_int. destruct (z <? 0).
  - rewrite bool_decide_eq_false_2 by done. exact (proj1 (Hd (- z))).
  - rewrite bool_decide_eq_false_2 by apply Hd. exact (proj1 (Hd z)).
Qed.

Lemma safe_word_app a b : safe_word a = true → str_forall shell_safe b = true → safe_word (a +:+ b) = true.
Proof.
  unfold safe_word. rewrite !andb_true_iff, !negb_true_iff, !bool_decide_eq_false, str_forall_app.
  intros [Hne Ha] Hb. rewrite Ha, Hb. split; [|done]. by destruct a.
Qed.

Lemma safe_word_forall s : safe_word s = true → str_forall shell_safe s = true.
Proof. unfold safe_word. by intros [_ ?]%andb_true_iff. Qed.

Section scope_facts.
Context (IsRealmPath : string → bool).

Definition allow_path_ok (p : string) : Prop :=
  safe_word p = true ∧ IsRealmPath p = true.

Lemma validateAllowPath_ok p u : validateAllowPath IsRealmPath p = Ok u → allow_path_ok p.
Proof using Type.
  unfold validateAllowPath. case_bool_decide as Hne; [done|].
  destruct (str_forall allow_path_char p) eqn:Hc; [|done].
  destruct (IsRealmPath p) eqn:Hr; [|done]. intros _. split; [|done].
  unfold safe_word. rewrite bool_decide_eq_false_2 by done. simpl.
  eapply str_forall_impl; [|exact Hc]. intros a. apply class_sub_spec. vm_compute. reflexivity.
Qed.

Lemma validateAllowPaths_ok l u : validateAllowPaths IsRealmPath l = Ok u → Forall allow_path_ok l.
Proof using Type.
  revert u. induction l as [|p l IH]; simpl; [done|]. intros u H. inv_ok.
  constructor; eauto using validateAllowPath_ok.
Qed.

(** What holds of the requested scope, whatever the clamps do next. *)
Lemma requestedScope_ok args p fee s :
  requestedScope IsRealmPath args p fee = Ok s →
  SpendLimitValid (SpendLimit s) = true ∧ AllowPaths s = aAllowPaths args ∧ AllowRun s = aAllowRun args ∧
  SpendPeriod s = ExpiresIn s ∧ Forall allow_path_ok (AllowPaths s) ∧ (AllowPaths s ≠ [] ∨ AllowRun s = true).
Proof using Type.
  unfold requestedScope. destruct (bool_decide (aAllowPaths args = []) && _) eqn:E; [done|].
  intros H. inv_ok. match goal with x : string * Duration |- _ => destruct x end. inv_ok.
  unfold mret, res_ret in *. inv_ok. simpl. split_and!; try done.
  - by eapply validateAllowPaths_ok.
  - apply andb_false_iff in E as [E|E]; [left; by apply bool_decide_eq_false in E|right].
    by apply negb_false_iff in E.
Qed.

Lemma clampSpend_ok p s s' w :
  BypassHardLimits p = false → clampSpend p s = Ok (s', w) →
  (∃ mag, parseCoins (SpendLimit s') = Some (mag, "ugnot") ∧ mag ≤ 100000000) ∧
  SpendLimit s' ∈ [SpendLimit s; "100000000ugnot"] ∧ s' = set_spend s (SpendLimit s') ∧ (w = [] → s' = s).
Proof using Type.
  intros Hb. unfold clampSpend.
  assert (MaxSpendLimit (HardLimits_of p) = "100000000ugnot") as ->
    by (unfold HardLimits_of; rewrite Hb; by case_match).
  rewrite bool_decide_eq_false_2 by done. unfold clampCoin.
  destruct (parseCoins (SpendLimit s)) as [[mag denom]|] eqn:Ep; [|done].
  change (parseCoins "100000000ugnot") with (Some (100000000, "ugnot")). simpl.
  case_bool_decide as Hd; [|done]. simpl. destruct (Z.ltb_spec 100000000 mag) as [Hm|Hm]; simpl;
    unfold mret, res_ret; intros [= <- <-]; simpl.
  - split_and!; [exists 100000000; by split|set_solver|done|done].
  - subst. split_and!; [by exists mag|set_solver|by destruct s|done].
Qed.

Lemma clampExpires_ok p s s' w :
  BypassHardLimits p = false → clampExpires p s = (s', w) →
  ExpiresIn s' ≤ MaxExpiresIn (HardLimits_of p) ∧ SpendLimit s' = SpendLimit s ∧
  AllowPaths s' = AllowPaths s ∧ AllowRun s' = AllowRun s ∧
  (SpendPeriod s = ExpiresIn s → SpendPeriod s' = ExpiresIn s') ∧ (w = [] → s' = s).
Proof using Type.
  intros Hb. unfold clampExpires.
  assert (0 < MaxExpiresIn (HardLimits_of p)) as Hm
    by (unfold HardLimits_of; rewrite Hb; by case_match).
  rewrite (proj2 (Z.ltb_lt _ _) Hm). simpl.
  destruct (Z.ltb_spec (MaxExpiresIn (HardLimits_of p)) (ExpiresIn s)); intros [= <- <-]; simpl;
    split_and!; try done; lia.
Qed.

Lemma clampPaths_ok p s s' w :
  BypassHardLimits p = false → clampPaths p s = (s', w) →
  Z.of_nat (List.length (AllowPaths s')) ≤ MaxAllowPathsCount (HardLimits_of p) ∧
  AllowPaths s' `prefix_of` AllowPaths s ∧ (AllowPaths s ≠ [] → AllowPaths s' ≠ []) ∧
  SpendLimit s' = SpendLimit s ∧ ExpiresIn s' = ExpiresIn s ∧ SpendPeriod s' = SpendPeriod s ∧
  AllowRun s' = AllowRun s ∧ (w = [] → s' = s).
Proof using Type.
  intros Hb. unfold clampPaths.
  assert (0 < MaxAllowPathsCount (HardLimits_of p)) as Hm
    by (unfold HardLimits_of; rewrite Hb; by case_match).
  rewrite (proj2 (Z.ltb_lt _ _) Hm). simpl.
  destruct (Z.ltb_spec (MaxAllowPathsCount (HardLimits_of p)) (Z.of_nat (List.length (AllowPaths s))));
    intros [= <- <-]; simpl; split_and!; try done.
  - rewrite length_take. lia.
  - exists (drop (Z.to_nat (MaxAllowPathsCount (HardLimits_of p))) (AllowPaths s)). by rewrite take_drop.
  - destruct (AllowPaths s), (Z.to_nat _) eqn:E; try done; lia.
Qed.

(** *** What the user is told

    The warning of each field that differs from the request, and of no other. *)
Definition spend_change (p : Profile) (r s : Scope) : list string :=
  if decide (SpendLimit s = SpendLimit r) then []
  else ["WARNING: requested spend_limit " +:+ SpendLimit r +:+ " exceeds " +:+ Kind p +:+ " cap of " +:+
        MaxSpendLimit (HardLimits_of p) +:+ "; clamped to " +:+ SpendLimit s +:+ "."].
Definition expires_change (p : Profile) (r s : Scope) : list string :=
  if decide (ExpiresIn s = ExpiresIn r) then []
  else ["WARNING: requested expires_in " +:+ format_duration (ExpiresIn r) +:+ " exceeds " +:+ Kind p +:+ " cap of " +:+
        format_duration (ExpiresIn s) +:+ "; clamped to " +:+ format_duration (ExpiresIn s) +:+ "."].
Definition paths_change (p : Profile) (r s : Scope) : list string :=
  if decide (AllowPaths s = AllowPaths r) then []
  else let n l := format_int (Z.of_nat (List.length l)) in
       ["WARNING: requested " +:+ n (AllowPaths r) +:+ " allow_paths exceeds " +:+ Kind p +:+ " cap of " +:+
        n (AllowPaths s) +:+ "; clamped to first " +:+ n (AllowPaths s) +:+ "."].
Definition changes (p : Profile) (r s : Scope) : list string :=
  spend_change p r s ++ expires_change p r s ++ paths_change p r s.

(** Each limit of the request cut to the ceiling, and nothing else. *)
Record cut_to_ceilings (p : Profile) (r s : Scope) : Prop := {
  cut_spend : ∃ mag, parseCoins (SpendLimit r) = Some (mag, "ugnot") ∧
    SpendLimit s = if 100000000 <? mag then "100000000ugnot" else SpendLimit r;
  cut_expires : ExpiresIn s = Z.min (ExpiresIn r) (MaxExpiresIn (HardLimits_of p));
  cut_paths : AllowPaths s = take (Z.to_nat (MaxAllowPathsCount (HardLimits_of p))) (AllowPaths r);
}.

Lemma clampSpend_cut p s s' w : BypassHardLimits p = false → clampSpend p s = Ok (s', w) →
  w = spend_change p s s' ∧ ∃ mag, parseCoins (SpendLimit s) = Some (mag, "ugnot") ∧
    SpendLimit s' = if 100000000 <? mag then "100000000ugnot" else SpendLimit s.
Proof using Type.
  intros Hb. unfold clampSpend, spend_change.
  assert (MaxSpendLimit (HardLimits_of p) = "100000000ugnot") as -> by (unfold HardLimits_of; rewrite Hb; by case_match).
  rewrite bool_decide_eq_false_2 by done. unfold clampCoin.
  destruct (parseCoins (SpendLimit s)) as [[mag denom]|] eqn:Ep; [|done].
  change (parseCoins "100000000ugnot") with (Some (100000000, "ugnot")). simpl.
  case_bool_decide as Hd; [|done]. subst denom. simpl. destruct (100000000 <? mag) eqn:Em; simpl;
    unfold mret, res_ret; intros [= <- <-]; simpl.
  - split; [|exists mag; by rewrite Em]. rewrite decide_False; [done|]. intros E. rewrite <- E in Ep.
    injection Ep as <-. done.
  - rewrite decide_True by done. split; [done|]. exists mag. by rewrite Em.
Qed.

Lemma clampExpires_cut p s s' w : BypassHardLimits p = false → clampExpires p s = (s', w) →
  w = expires_change p s s' ∧ ExpiresIn s' = Z.min (ExpiresIn s) (MaxExpiresIn (HardLimits_of p)).
Proof using Type.
  intros Hb. unfold clampExpires, expires_change.
  assert (0 < MaxExpiresIn (HardLimits_of p)) as Hm by (unfold HardLimits_of; rewrite Hb; by case_match).
  rewrite (proj2 (Z.ltb_lt _ _) Hm). simpl.
  destruct (Z.ltb_spec (MaxExpiresIn (HardLimits_of p)) (ExpiresIn s)); intros [= <- <-]; simpl.
  - rewrite decide_False by lia. split; [done|lia].
  - rewrite decide_True by done. split; [done|lia].
Qed.

Lemma clampPaths_cut p s s' w : BypassHardLimits p = false → clampPaths p s = (s', w) →
  w = paths_change p s s' ∧ AllowPaths s' = take (Z.to_nat (MaxAllowPathsCount (HardLimits_of p))) (AllowPaths s).
Proof using Type.
  intros Hb. unfold clampPaths, paths_change.
  assert (0 < MaxAllowPathsCount (HardLimits_of p)) as Hm by (unfold HardLimits_of; rewrite Hb; by case_match).
  rewrite (proj2 (Z.ltb_lt _ _) Hm). set (k := MaxAllowPathsCount _) in *. simpl.
  destruct (Z.ltb_spec k (Z.of_nat (List.length (AllowPaths s)))); intros [= <- <-]; simpl.
  - assert (Hl : Z.of_nat (List.length (take (Z.to_nat k) (AllowPaths s))) = k) by (rewrite length_take; lia).
    rewrite decide_False, Hl; [done|]. intros E. rewrite E in Hl. lia.
  - rewrite decide_True by done. split; [done|]. rewrite take_ge; [done|lia].
Qed.

Lemma covers_fee_writes s fee u :
  spendLimitCoversFee (SpendLimit s) fee = Ok u → 0 < fee →
  ∃ n, WritesAtFee s fee = Some n ∧ 1 ≤ n.
Proof using Type.
  unfold spendLimitCoversFee, WritesAtFee. intros H Hf. rewrite (proj2 (Z.leb_gt _ _)) in * by lia.
  destruct (parseCoins (SpendLimit s)) as [[mag denom]|]; [|done].
  case_bool_decide; [|done]. simpl in H. destruct (Z.ltb_spec mag fee); [done|].
  eexists. split; [done|]. rewrite Z.quot_div_nonneg by lia. apply Z.div_le_lower_bound; lia.
Qed.
(** What every accepted scope satisfies. *)
Lemma ResolveScope_facts args p fee s warnings :
  ResolveScope IsRealmPath args p fee = Ok (s, warnings) →
  SpendLimitValid (SpendLimit s) = true ∧ Forall allow_path_ok (AllowPaths s) ∧
  (0 < fee → ∃ n, WritesAtFee s fee = Some n ∧ 1 ≤ n).
Proof.
  unfold ResolveScope. intros H. apply bind_Ok in H as (r & Hr & H).
  pose proof (requestedScope_ok _ _ _ _ Hr) as (Hv & Hp & _ & _ & Hok & _).
  destruct (BypassHardLimits p) eqn:Hb.
  { inv_res. split_and!; try done. by intros; eapply covers_fee_writes. }
  apply bind_Ok in H as ([s1 w1] & H1 & H).
  destruct (clampExpires p s1) as [s2 w2] eqn:H2. destruct (clampPaths p s2) as [s3 w3] eqn:H3. inv_res.
  apply clampSpend_ok in H1 as (_ & Hin & Hs1 & _); [|done].
  apply clampExpires_ok in H2 as (_ & E1 & E2 & _); [|done].
  apply clampPaths_ok in H3 as (_ & [rest Hpre] & _ & F1 & _); [|done].
  split_and!; [| |by intros; eapply covers_fee_writes].
  - rewrite F1, E1. rewrite !elem_of_cons, elem_of_nil in Hin. by destruct Hin as [->|[->|[]]].
  - rewrite E2, Hs1 in Hpre. simpl in Hpre. rewrite Hpre in Hok. by apply Forall_app in Hok as [? _].
Qed.
End scope_facts.

(** ** Properties *)

(** C8: a resolved scope is bounded and usable.  Whatever the agent asked for,
    an accepted scope names only clean realm paths taken in order from the
    request, or runs; its spend limit is a single coin that pays for at least
    one write at the live fee; and unless the profile bypasses the limits it
    is at most 100000000ugnot, and its lifetime and number of paths are within
    the chain's ceilings.  Each limit is the request's, cut to its ceiling and
    not otherwise changed, and the warnings are one for each limit that was
    cut, with the value asked for and the value given, and no other. *)
Theorem ResolveScope_bounded IsRealmPath args p fee s warnings :
  ResolveScope IsRealmPath args p fee = Ok (s, warnings) →
  SpendLimitValid (SpendLimit s) = true ∧
  Forall (allow_path_ok IsRealmPath) (AllowPaths s) ∧ AllowPaths s `prefix_of` aAllowPaths args ∧
  AllowRun s = aAllowRun args ∧ (AllowPaths s ≠ [] ∨ AllowRun s = true) ∧
  SpendPeriod s = ExpiresIn s ∧
  (0 < fee → ∃ n, WritesAtFee s fee = Some n ∧ 1 ≤ n) ∧
  (BypassHardLimits p = false →
     (∃ mag, parseCoins (SpendLimit s) = Some (mag, "ugnot") ∧ mag ≤ 100000000) ∧
     ExpiresIn s ≤ MaxExpiresIn (HardLimits_of p) ∧
     Z.of_nat (List.length (AllowPaths s)) ≤ MaxAllowPathsCount (HardLimits_of p)) ∧
  (∃ r, requestedScope IsRealmPath args p fee = Ok r ∧ warnings = changes p r s ∧
     if BypassHardLimits p then s = r else cut_to_ceilings p r s) ∧
  (warnings = [] → requestedScope IsRealmPath args p fee = Ok s).
Proof.
  unfold ResolveScope. intros H. apply bind_Ok in H as (r & Hr & H).
  pose proof (requestedScope_ok _ _ _ _ _ Hr) as (Hv & Hp & Hrun & Hper & Hok & Hne).
  destruct (BypassHardLimits p) eqn:Hb.
  - apply bind_Ok in H as (u & Hf & H). unfold mret, res_ret in H. simplify_eq.
    rewrite <- Hp. split_and!; try done; [by intros; eapply covers_fee_writes|].
    exists s. split; [done|]. split; [|done]. unfold changes, spend_change, expires_change, paths_change.
    by rewrite !decide_True.
  - apply bind_Ok in H as ([s1 w1] & H1 & H).
    destruct (clampExpires p s1) as [s2 w2] eqn:H2. destruct (clampPaths p s2) as [s3 w3] eqn:H3.
    apply bind_Ok in H as (u & Hf & H). unfold mret, res_ret in H. simplify_eq.
    pose proof (clampSpend_cut _ _ _ _ Hb H1) as (K1 & K2). pose proof (clampExpires_cut _ _ _ _ Hb H2) as (K3 & K4).
    pose proof (clampPaths_cut _ _ _ _ Hb H3) as (K5 & K6).
    apply clampSpend_ok in H1 as ((mag & Hmag & Hle) & Hin & Hs1 & Hw1); [|done].
    apply clampExpires_ok in H2 as (He & E1 & E2 & E3 & E4 & Hw2); [|done].
    apply clampPaths_ok in H3 as (Hn & Hpre & Hne' & F1 & F2 & F3 & F4 & Hw3); [|done].
    assert (AllowPaths s1 = AllowPaths r ∧ AllowRun s1 = AllowRun r ∧ SpendPeriod s1 = ExpiresIn s1) as (G1 & G2 & G3)
      by (rewrite Hs1; by simpl).
    assert (G4 : ExpiresIn s1 = ExpiresIn r) by (by rewrite Hs1).
    assert (Hch : changes p r s = w1 ++ w2 ++ w3 ∧ cut_to_ceilings p r s).
    { split.
      - unfold changes. rewrite K1, K3, K5. unfold spend_change, expires_change, paths_change.
        by rewrite F1, E1, F2, G4, E2, G1.
      - constructor; [by rewrite F1, E1|by rewrite F2, K4, G4|by rewrite K6, E2, G1]. }
    destruct Hch as [Hch Hcut].
    rewrite F1, F2, F3, F4, E1, E3 in *. rewrite E2, G1 in *. rewrite Hp in *.
    split_and!; try done.
    + rewrite !elem_of_cons, elem_of_nil in Hin. destruct Hin as [Hin|[Hin|[]]]; by rewrite Hin.
    + destruct Hpre as [rest Hpre]. rewrite Hpre in Hok. by apply Forall_app in Hok as [? _].
    + by rewrite G2.
    + rewrite G2. destruct Hne; [left; auto|by right].
    + auto.
    + intros Hfee. eapply covers_fee_writes; [|done]. by rewrite F1.
    + intros _. split_and!; [by exists mag|done|done].
    + exists r. by rewrite Hch.
    + intros [-> [-> ->]%app_nil]%app_nil. by rewrite Hw3, Hw2, Hw1.
Qed.

Lemma ResolveScope_bounded_witness :
  let args := mkScopeArgs "900000000ugnot" "999h" ["gno.land/r/a"] false in
  let s := mkScope "100000000ugnot" (168 * Hour) (168 * Hour) ["gno.land/r/a"] false in
  is_ok (ResolveScope toy_realm args testnet1 20000) = true ∧ ∃ n, WritesAtFee s 20000 = Some n ∧ 1 ≤ n.
Proof.
  split; [vm_compute; reflexivity|].
  refine (proj1 (proj2 (proj2 (proj2 (proj2 (proj2 (proj2 (ResolveScope_bounded toy_realm
    (mkScopeArgs "900000000ugnot" "999h" ["gno.land/r/a"] false) testnet1 20000 _
    ["WARNING: requested spend_limit 900000000ugnot exceeds testnet cap of 100000000ugnot; clamped to 100000000ugnot.";
     "WARNING: requested expires_in 999h0m0s exceeds testnet cap of 168h0m0s; clamped to 168h0m0s."] _))))))) _);
    [vm_compute; reflexivity|lia].
Defined.

(** ** The structure of the commands *)

(** One line per flag: two spaces, the flag, its value, and the continuation. *)
Definition render_flags (l : list (string * string)) : string :=
  foldr (λ fv acc, "  " +:+ fv.1 +:+ " " +:+ fv.2 +:+ CONT +:+ acc) "" l.

Lemma render_flags_app a b : render_flags (a ++ b) = render_flags a +:+ render_flags b.
Proof.
  induction a as [|[f v] a IH]; [done|]. simpl. rewrite IH. by rewrite !str_app_assoc.
Qed.

Definition create_flags (profile : Profile) (pubkey : string) (scope : Scope) (fee : Z) (now : Time) : list (string * string) :=
  [("--pubkey", pubkey)] ++
  ((λ p, ("--allow-paths", "vm/exec:" +:+ p)) <$> AllowPaths scope) ++
  (if AllowRun scope then [("--allow-paths", "vm/run")] else []) ++
  [("--spend-limit", SpendLimit scope);
   ("--expires-at", format_int (unix (time_add now (ExpiresIn scope))));
   ("--gas-fee", gnokey_gas_fee fee);
   ("--gas-wanted", format_int DefaultGasWanted);
   ("--remote", RPCURL profile);
   ("--chainid", ChainID profile)].

Definition revoke_flags (profile : Profile) (pubkey : string) (fee : Z) : list (string * string) :=
  [("--pubkey", pubkey); ("--gas-fee", gnokey_gas_fee fee);
   ("--gas-wanted", format_int DefaultGasWanted);
   ("--remote", RPCURL profile); ("--chainid", ChainID profile)].

Definition command_tail : string := "  --broadcast" +:+ CONT +:+ "  <your-master-key-name>".

Lemma gnokey_gas_fee_safe fee : safe_word (gnokey_gas_fee fee) = true.
Proof.
  unfold gnokey_gas_fee, defaultGnokeyGasFee.
  destruct (0 <? fee); (apply safe_word_app; [apply format_int_safe|by vm_compute]).
Qed.

Lemma allow_paths_lines l :
  foldr (λ p acc, "  --allow-paths vm/exec:" +:+ p +:+ CONT +:+ acc) "" l =
  render_flags ((λ p, ("--allow-paths", "vm/exec:" +:+ p)) <$> l).
Proof. induction l as [|p l IH]; [done|]. simpl. by rewrite IH, str_app_assoc. Qed.

(** C9: the commands a user pastes cannot be injected into.  For a validated
    profile, a session key that is one shell word and a scope as
    [ResolveScope] accepts it, the create and revoke commands are the fixed
    gnokey verb, one line per flag, and the fixed tail, where every value is a
    single word of characters without meaning to a shell: no quoting, no
    substitution, no extra word, line or flag. *)
Theorem commands_safe IsRealmPath args p fee0 s warnings pubkey fee now :
  profile_ok p → safe_word pubkey = true →
  ResolveScope IsRealmPath args p fee0 = Ok (s, warnings) →
  FormatGnokeyCreateCommand p pubkey s fee now =
    "gnokey maketx session create" +:+ CONT +:+ render_flags (create_flags p pubkey s fee now) +:+ command_tail ∧
  FormatGnokeyRevokeCommand p pubkey fee =
    "gnokey maketx session revoke" +:+ CONT +:+ render_flags (revoke_flags p pubkey fee) +:+ command_tail ∧
  Forall (λ fv, safe_word fv.2 = true) (create_flags p pubkey s fee now ++ revoke_flags p pubkey fee).
Proof.
  intros [[Hrpc _] [Hch _] _ _ _ _] Hpk HR.
  destruct (ResolveScope_facts _ _ _ _ _ _ HR) as ([Hsp _]%SpendLimitValid_safe & Hpaths & _).
  split_and!.
  - unfold FormatGnokeyCreateCommand, create_flags. rewrite !render_flags_app, allow_paths_lines.
    destruct (AllowRun s); simpl; unfold command_tail; rewrite !str_app_assoc; done.
  - unfold FormatGnokeyRevokeCommand, revoke_flags, command_tail. simpl. by rewrite !str_app_assoc.
  - unfold create_flags, revoke_flags. rewrite !Forall_app, !Forall_cons, !Forall_nil. simpl.
    split_and!; auto using gnokey_gas_fee_safe, format_int_safe.
    + apply Forall_fmap. eapply Forall_impl; [exact Hpaths|]. intros q [Hq _]. simpl.
      apply (safe_word_app "vm/exec:"); [by vm_compute|by apply safe_word_forall].
    + destruct (AllowRun s); repeat constructor; by vm_compute.
Qed.

Lemma commands_safe_witness :
  let s := mkScope "200000ugnot" Hour Hour ["gno.land/r/a"] false in
  profile_ok testnet1 ∧
  Forall (λ fv, safe_word fv.2 = true) (create_flags testnet1 "gpub1x" s 20000 0 ++ revoke_flags testnet1 "gpub1x" 20000).
Proof.
  assert (Hp : profile_ok testnet1).
  { eapply (validate_profile_ok (λ _, true) toy_url "testnet1" testnet1 tt). vm_compute. reflexivity. }
  split; [exact Hp|].
  refine (proj2 (proj2 (commands_safe toy_realm (mkScopeArgs "" "" ["gno.land/r/a"] false) testnet1 20000
    (mkScope "200000ugnot" Hour Hour ["gno.land/r/a"] false) [] "gpub1x" 20000 0 Hp _ _)));
    vm_compute; reflexivity.
Defined.
