(* ===== verification/ChainTypes.v ===== *)
(** * What the chain client reports

    The result types of [internal/chain/client.go] and the answers of a
    session query ([internal/session/chain_check.go]). *)
From S2P Require Import Prelude GoText.
From stdpp Require Import prelude strings list.
From Stdlib Require Import ZArith Lia String.
Local Open Scope Z_scope.

(** [SessionStatus]: the chain-side state of a session. *)
Record SessionStatus := mkStatus {
  Active : bool;
  stAllowPaths : list string;
  stAllowRun : bool;
  stSpendLimit : string;
  stSpendRemaining : string;
  stExpiresAt : Z;
}.

Definition inactive : SessionStatus := mkStatus false [] false "" "" 0.

(** An error of [Client.QuerySession]: [ErrSessionQueryUnsupported] or any
    other. *)
Inductive query_error := ErrSessionQueryUnsupported | EQueryOther.

Abbreviation SessionQuery := (string → string → res query_error SessionStatus).

(** [chainCheckResult] *)
Record chainCheckResult := mkCheck {
  ckActive : bool;
  ckUnsupported : bool;
  ckStatus : SessionStatus;
}.

(** [queryChain]; [client] is what the resolver returns for the profile. *)
Definition queryChain (client : option SessionQuery) (master sessionAddr : string) : res string chainCheckResult :=
  match client with
  | None => Err "session: no chain client for profile"
  | Some QuerySession =>
      if bool_decide (master = "") then Ok (mkCheck false true inactive)
      else match QuerySession master sessionAddr with
      | Err ErrSessionQueryUnsupported => Ok (mkCheck false true inactive)
      | Err EQueryOther => Ok (mkCheck false false inactive)
      | Ok status => Ok (mkCheck (Active status) false status)
      end
  end.

(** The outcome of a write, [CallResult] and [RunResult] alike ([Data] is
    [Result] or [Output]). *)
Record TxResult := mkTx {
  TxHash : string;
  Height : Z;
  Data : string;
  GasUsed : Z;
  GasWanted : Z;
  GasFee : Z;
  Simulated : bool;
}.

(** [PackageMeta] and the statuses of vm/qpkgmeta_json. *)
Definition PackageLive : string := "live".
Definition PackageInert : string := "inert".
Definition PackageAbsent : string := "absent".

Record PackageMeta := mkMeta { Status : string; Reason : string; Pending : bool }.

Definition Live (m : PackageMeta) : bool := bool_decide (Status m = PackageLive) && negb (Pending m).
