(* ===== verification/SessionManager.v ===== *)
(** * Session keys: the store and the manager

    [internal/session/store.go] (one file per session, private keys encrypted
    under the passphrase) and [internal/session/manager.go] (the in-memory
    lifecycle of the sessions of every profile).

    The manager is a client of a store interface, [StoreLaws]; the [Store]
    section implements it over an abstract JSON codec and the blobs of
    [Secret].  Iteration over a Go map is an argument [order] that lists the
    map's entries in some order; the clock and the answers of the chain and of
    the disk are arguments too.

    The manager's methods lock around their accesses to the map and not around
    chain queries or disk writes; [mstep] is their interleaving. *)
From S2P Require Import Prelude GoText GoTime Scope Secret ChainTypes.
From stdpp Require Import prelude strings gmap list relations sorting.
From Stdlib Require Import ZArith Lia Ascii String.
Local Open Scope Z_scope.

(** ** Data *)

Definition StatePending : string := "pending".
Definition StateActive : string := "active".
Definition StateExpired : string := "expired".
Definition StateRevoked : string := "revoked".

Record SessionMeta := mkSession {
  SessionAddress : string;
  SessionPubkey : string;
  MasterAddress : string;
  Privkey : string;
  Encrypted : bool;
  mAllowPaths : list string;
  mAllowRun : bool;
  mSpendLimit : string;
  SpendRemaining : string;
  ExpiresAt : Z;
  CreatedAt : Z;
  mState : string;
}.

Definition set_key (m : SessionMeta) (k : string) (e : bool) : SessionMeta :=
  mkSession (SessionAddress m) (SessionPubkey m) (MasterAddress m) k e (mAllowPaths m) (mAllowRun m)
    (mSpendLimit m) (SpendRemaining m) (ExpiresAt m) (CreatedAt m) (mState m).

Definition set_remaining (m : SessionMeta) (r : string) : SessionMeta :=
  mkSession (SessionAddress m) (SessionPubkey m) (MasterAddress m) (Privkey m) (Encrypted m) (mAllowPaths m)
    (mAllowRun m) (mSpendLimit m) r (ExpiresAt m) (CreatedAt m) (mState m).

Definition set_state (m : SessionMeta) (s : string) : SessionMeta :=
  mkSession (SessionAddress m) (SessionPubkey m) (MasterAddress m) (Privkey m) (Encrypted m) (mAllowPaths m)
    (mAllowRun m) (mSpendLimit m) (SpendRemaining m) (ExpiresAt m) (CreatedAt m) s.

(** [applyStatus] *)
Definition applyStatus (m : SessionMeta) (st : SessionStatus) : SessionMeta :=
  mkSession (SessionAddress m) (SessionPubkey m) (MasterAddress m) (Privkey m) (Encrypted m)
    (stAllowPaths st) (stAllowRun st) (stSpendLimit st) (stSpendRemaining st) (stExpiresAt st)
    (CreatedAt m) StateActive.

(** [sessionState]: the in-memory state may run ahead of [mState]. *)
Record sessionState := mkState { state : string; meta : SessionMeta }.

(** ** The store *)

Module Store.
(** A directory per profile, a file per session. *)
Abbreviation Disk := (gmap string (gmap string string)).

Section store.
Context (scrypt : string → string → option string) (new_gcm : string → bool).
Context (Seal : string → string → string → string) (Open : string → string → string → option string).
Context (marshal : SessionMeta → option string) (unmarshal : string → option SessionMeta).

Inductive store_error := SEncrypt (e : secret_error) | SMarshal | SWrite | SRead | SDecode | SEncrypted | SDecrypt (e : secret_error).

Definition file_of (sessionAddr : string) : string := sessionAddr +:+ ".key".

Definition put (d : Disk) (profile file bytes : string) : Disk :=
  <[profile := <[file := bytes]> (default ∅ (d !! profile))]> d.

(** [encode] is the head of [Write]: what goes to disk. *)
Definition encode (passphrase : string) (salt nonce : option string) (m : SessionMeta) : res store_error string :=
  m' ← (if negb (bool_decide (passphrase = "")) then
          k ← map_err SEncrypt (Encrypt scrypt new_gcm Seal salt nonce (Privkey m) passphrase);
          mret (set_key m k true)
        else mret (set_key m (Privkey m) false));
  ok_or SMarshal (marshal m').

(** How [fsutil.WriteFileAtomic] can end: the file is in place; it is in place
    and syncing its directory failed, so the write reports an error; or it is
    not, and the profile's directory may have been created. *)
Inductive write_outcome := Written | Unsynced | NotWritten (made_dir : bool).

Definition mkdir (d : Disk) (profile : string) : Disk := <[profile := default ∅ (d !! profile)]> d.

Definition WriteFileAtomic (o : write_outcome) (d : Disk) (profile file bytes : string) : Disk * res store_error unit :=
  match o with
  | Written => (put d profile file bytes, Ok tt)
  | Unsynced => (put d profile file bytes, Err SWrite)
  | NotWritten made_dir => (if made_dir then mkdir d profile else d, Err SWrite)
  end.

Definition Write (passphrase : string) (salt nonce : option string) (o : write_outcome)
    (d : Disk) (profile : string) (m : SessionMeta) : Disk * res store_error unit :=
  match encode passphrase salt nonce m with
  | Err e => (d, Err e)
  | Ok bytes => WriteFileAtomic o d profile (file_of (SessionAddress m)) bytes
  end.

Definition decode (passphrase bytes : string) : res store_error SessionMeta :=
  m ← ok_or SDecode (unmarshal bytes);
  if Encrypted m && bool_decide (passphrase = "") then Err SEncrypted
  else if Encrypted m then
    plain ← map_err SDecrypt (Decrypt scrypt new_gcm Open (Privkey m) passphrase);
    mret (set_key m plain false)
  else mret m.

Definition Read (passphrase : string) (d : Disk) (profile sessionAddr : string) : res store_error SessionMeta :=
  bytes ← ok_or SRead (d !! profile ≫= λ files, files !! file_of sessionAddr);
  decode passphrase bytes.

(** A missing file is not an error. *)
Definition Delete (d : Disk) (profile sessionAddr : string) : Disk :=
  alter (delete (file_of sessionAddr)) profile d.

(** [List], over the directory's entries in [ReadDir] order. *)
Definition List (passphrase : string) (entries : list (string * string)) : list SessionMeta :=
  omap (λ nb : string * string,
    if has_suffix nb.1 ".key" then
      match decode passphrase nb.2 with Ok m => Some m | Err _ => None end
    else None) entries.
End store.
End Store.

(** ** The manager *)

Abbreviation Sessions := (gmap string (gmap string sessionState)).

Definition getState (m : Sessions) (profile addr : string) : option sessionState :=
  m !! profile ≫= λ ps, ps !! addr.

Definition insertState (m : Sessions) (profile : string) (mt : SessionMeta) (st : string) : Sessions :=
  <[profile := <[SessionAddress mt := mkState st mt]> (default ∅ (m !! profile))]> m.

(** Writing through the pointer the map holds for [addr]. *)
Definition setState (m : Sessions) (profile addr : string) (ss : sessionState) : Sessions :=
  <[profile := <[addr := ss]> (default ∅ (m !! profile))]> m.

Definition coversRealm (allowPaths : list string) (realm : string) : bool :=
  existsb (λ p, bool_decide (p = realm) || has_prefix realm (p +:+ "/")) allowPaths.

Fixpoint dedup_go (seen : gset string) (l : list string) : list string :=
  match l with
  | [] => []
  | s :: l => if decide (s ∈ seen) then dedup_go seen l else s :: dedup_go ({[s]} ∪ seen) l
  end.
Definition dedup (l : list string) : list string := dedup_go ∅ l.

Definition isZeroSpend (coin : string) : bool :=
  if bool_decide (coin = "") then false
  else match parseCoins coin with
       | Some (mag, _) => mag =? 0
       | None => false
       end.

Inductive pick_error :=
  | ErrNoActiveSession
  | ErrScopeMismatch (availablePaths : list string).

(** [Error()] ([errors.go]); [%v] of the paths. *)
Definition pick_error_text (e : pick_error) : string :=
  match e with
  | ErrNoActiveSession => "session: no active session for profile"
  | ErrScopeMismatch paths => "session: realm not in any active session's AllowPaths (available: [" +:+ GoText.join " " paths +:+ "])"
  end.

#[export] Instance pick_error_eq_dec : EqDecision pick_error.
Proof. solve_decision. Defined.

(** What a pick returns: the signer's address and key, and the master. *)
Record Picked := mkPicked { pk_addr : string; pk_priv : string; pk_master : string }.

(** *** The steps of [pickSession] *)

(** Step 1: the pending sessions, with the master to query. *)
Definition toPromote (ps : list (string * sessionState)) : list (string * string) :=
  omap (λ e : string * sessionState,
    if bool_decide (state e.2 = StatePending) then Some (e.1, MasterAddress (meta e.2)) else None) ps.

(** Step 2, one session: apply the chain's answer if it is still pending; the
    copy is what is then written to disk. *)
Definition promote (m : Sessions) (profile addr : string) (answer : res string chainCheckResult) :
    Sessions * option SessionMeta :=
  match answer with
  | Err _ => (m, None)
  | Ok r =>
      if negb (ckActive r) then (m, None)
      else match getState m profile addr with
      | None => (m, None)
      | Some ss =>
          if negb (bool_decide (state ss = StatePending)) then (m, None)
          else
            let mt := applyStatus (meta ss) (ckStatus r) in
            (setState m profile addr (mkState StateActive mt), Some mt)
      end
  end.

Definition expired_at (now : Z) (ss : sessionState) : bool :=
  (0 <? ExpiresAt (meta ss)) && (ExpiresAt (meta ss) <? now).

(** Active, unexpired, with spend left. *)
Definition usable (now : Z) (ss : sessionState) : bool :=
  bool_decide (state ss = StateActive) && negb (expired_at now ss) && negb (isZeroSpend (SpendRemaining (meta ss))).

(** Step 3 marks the expired sessions it meets. *)
Definition expire (now : Z) (ss : sessionState) : sessionState :=
  if bool_decide (state ss = StateActive) && expired_at now ss then mkState StateExpired (meta ss) else ss.

(** The first of the most recently created. *)
Fixpoint most_recent (best : sessionState) (l : list sessionState) : sessionState :=
  match l with
  | [] => best
  | ss :: l => most_recent (if CreatedAt (meta best) <? CreatedAt (meta ss) then ss else best) l
  end.

Section pick.
Context (order : gmap string sessionState → list (string * sessionState)).

Definition pick_locked (m : Sessions) (profile : string) (match_ : sessionState → bool) (now : Z) :
    Sessions * res pick_error Picked :=
  let profileSessions := default ∅ (m !! profile) in
  if bool_decide (profileSessions = ∅) then (m, Err ErrNoActiveSession)
  else
    let m' := <[profile := expire now <$> profileSessions]> m in
    let active := filter (λ ss, usable now ss = true) (snd <$> order profileSessions) in
    let availablePaths := active ≫= λ ss, mAllowPaths (meta ss) in
    match filter (λ ss, match_ ss = true) active with
    | [] => (m', Err (if bool_decide (availablePaths = []) then ErrNoActiveSession
                      else ErrScopeMismatch (dedup availablePaths)))
    | ss :: rest =>
        let best := meta (most_recent ss rest) in
        (m', Ok (mkPicked (SessionAddress best) (Privkey best) (MasterAddress best)))
    end.

(** [pickSession]: [answer] is [queryChain] for the profile.  The writes of
    the promoted copies are returned, in order. *)
Definition pickSession (m : Sessions) (profile : string)
    (answer : string → string → res string chainCheckResult) (match_ : sessionState → bool) (now : Z) :
    Sessions * list SessionMeta * res pick_error Picked :=
  let pend := toPromote (order (default ∅ (m !! profile))) in
  let '(m, writes) :=
    foldl (λ '(m, writes) '(addr, master),
      let '(m, w) := promote m profile addr (answer master addr) in
      (m, writes ++ option_list w)) (m, []) pend in
  let '(m, r) := pick_locked m profile match_ now in
  (m, writes, r).

Definition PickSessionForProfile (m : Sessions) (profile realm : string)
    (answer : string → string → res string chainCheckResult) (now : Z) :=
  pickSession m profile answer
    (λ ss, bool_decide (realm = "") || coversRealm (mAllowPaths (meta ss)) realm) now.

Definition PickSessionForRun (m : Sessions) (profile : string)
    (answer : string → string → res string chainCheckResult) (now : Z) :=
  pickSession m profile answer (λ ss, mAllowRun (meta ss)) now.
End pick.

(** *** The store as the manager sees it *)

(** Each write may fail; a failure is reported by its text. *)
Record StoreOps (D : Type) := {
  sw : D → string → SessionMeta → D * option string;      (* [Write] *)
  sd : D → string → string → D * option string;           (* [Delete] *)
  sr : D → string → string → option SessionMeta;          (* what [Read] would return *)
  slist : D → string → res string (list SessionMeta);     (* [List] *)
  sprofiles : D → res string (list string);               (* [listProfiles] *)
}.
Arguments sw {D}. Arguments sd {D}. Arguments sr {D}. Arguments slist {D}. Arguments sprofiles {D}.

Section laws.
Context {D : Type} (s : StoreOps D).

(** [m] is in its file, and no other session's file has changed. *)
Definition written (d : D) (p : string) (m : SessionMeta) (d' : D) : Prop :=
  sr s d' p (SessionAddress m) = Some (set_key m (Privkey m) false) ∧
  ∀ p' a, (p', a) ≠ (p, SessionAddress m) → sr s d' p' a = sr s d p' a.

Definition same_files (d d' : D) : Prop := ∀ p a, sr s d' p a = sr s d p a.

(** What the manager relies on: a write that succeeds is read back; one that
    reports an error left the file as it was or, when only the directory could
    not be synced, replaced it whole; and neither touches another session. *)
Class StoreLaws : Prop := {
  sw_ok : ∀ d p m d', sw s d p m = (d', None) → written d p m d';
  sw_fail : ∀ d p m d' e, sw s d p m = (d', Some e) → same_files d d' ∨ written d p m d';
  sd_read : ∀ d p a p' a' mt, sr s (fst (sd s d p a)) p' a' = Some mt → sr s d p' a' = Some mt;
  slist_read : ∀ d p l mt, slist s d p = Ok l → mt ∈ l → ∃ a, sr s d p a = Some mt;
}.

(** Every write leaves the files as they were or writes its session. *)
Lemma sw_any `{!StoreLaws} d p m d' e : sw s d p m = (d', e) → same_files d d' ∨ written d p m d'.
Proof using Type. destruct e as [e|]; [apply sw_fail|]. intros Hs. right. by apply sw_ok. Qed.
End laws.

Section manager.
Context {D : Type} (store : StoreOps D).

Inductive manager_error := MNotFound | MNotActive (state : string) | MParse (s : string) | MPersist (e : string) | MList.

(** Persist and report, the tail of most methods. *)
Definition persist (d : D) (profile : string) (m : SessionMeta) : D * res manager_error unit :=
  match sw store d profile m with
  | (d, None) => (d, Ok tt)
  | (d, Some e) => (d, Err (MPersist e))
  end.

Definition AddPending (m : Sessions) (d : D) (profile addr pubkey priv : string) (scope : Scope)
    (master : string) (now : Time) : Sessions * D * res manager_error SessionMeta :=
  let mt := mkSession addr pubkey master priv false (AllowPaths scope) (AllowRun scope)
              (SpendLimit scope) (SpendLimit scope)
              (unix (time_add now (ExpiresIn scope))) (unix now) StatePending in
  match sw store d profile mt with
  | (d, Some e) => (m, d, Err (MPersist e))
  | (d, None) => (insertState m profile mt StatePending, d, Ok mt)
  end.

Definition UpdateSpend (m : Sessions) (d : D) (profile addr : string) (gasUsed : Z) :
    Sessions * D * res manager_error unit :=
  match getState m profile addr with
  | None => (m, d, Err MNotFound)
  | Some ss =>
      if negb (bool_decide (state ss = StateActive)) then (m, d, Err (MNotActive (state ss)))
      else match parseCoins (SpendRemaining (meta ss)) with
      | None => (m, d, Err (MParse (SpendRemaining (meta ss))))
      | Some (remaining, denom) =>
          let remaining := wrap64 (remaining - gasUsed) in
          let remaining := if remaining <? 0 then 0 else remaining in
          let mt := set_remaining (meta ss) (format_int remaining +:+ denom) in
          let '(d, r) := persist d profile mt in
          (setState m profile addr (mkState (state ss) mt), d, r)
      end
  end.

Definition setSpendRemaining (m : Sessions) (d : D) (profile addr remaining : string) :
    Sessions * D * res manager_error unit :=
  match getState m profile addr with
  | None => (m, d, Err MNotFound)
  | Some ss =>
      let mt := set_remaining (meta ss) remaining in
      let '(d, r) := persist d profile mt in
      (setState m profile addr (mkState (state ss) mt), d, r)
  end.

(** [QuerySession] is the client's. *)
Definition SettleSpend (m : Sessions) (d : D) (QuerySession : SessionQuery) (profile addr : string) (feeUgnot : Z) :
    Sessions * D * res manager_error unit :=
  let master := match getState m profile addr with Some ss => MasterAddress (meta ss) | None => "" end in
  if negb (bool_decide (master = "")) then
    match QuerySession master addr with
    | Ok st =>
        if Active st && negb (bool_decide (stSpendRemaining st = ""))
        then setSpendRemaining m d profile addr (stSpendRemaining st)
        else UpdateSpend m d profile addr feeUgnot
    | Err _ => UpdateSpend m d profile addr feeUgnot
    end
  else UpdateSpend m d profile addr feeUgnot.

Definition MarkActive (m : Sessions) (d : D) (profile addr : string) (st : SessionStatus) :
    Sessions * D * res manager_error unit :=
  match getState m profile addr with
  | None => (m, d, Err MNotFound)
  | Some ss =>
      let mt := applyStatus (meta ss) st in
      let '(d, r) := persist d profile mt in
      (setState m profile addr (mkState StateActive mt), d, r)
  end.

Definition MarkInactive (m : Sessions) (d : D) (profile addr st : string) :
    Sessions * D * res manager_error unit :=
  match getState m profile addr with
  | None => (m, d, Err MNotFound)
  | Some ss =>
      let mt := set_state (meta ss) st in
      let '(d, r) := persist d profile mt in
      (setState m profile addr (mkState st mt), d, r)
  end.

Definition ListForProfile (order : gmap string sessionState → list (string * sessionState))
    (m : Sessions) (profile : string) : list SessionMeta :=
  (λ e : string * sessionState, meta e.2) <$> order (default ∅ (m !! profile)).

Definition Get (m : Sessions) (profile addr : string) : option SessionMeta := meta <$> getState m profile addr.

(** *** [Hydrate] *)

(** One session read from disk; [answer] is [queryChain] for it. *)
Definition hydrate_one (m : Sessions) (d : D) (profile : string) (mt : SessionMeta)
    (answer : res string chainCheckResult) : Sessions * D :=
  match answer with
  | Err _ => (insertState m profile mt (mState mt), d)
  | Ok r =>
      if ckUnsupported r then (insertState m profile mt (mState mt), d)
      else if negb (ckActive r) then (m, fst (sd store d profile (SessionAddress mt)))
      else (insertState m profile (applyStatus mt (ckStatus r)) StateActive, d)
  end.

Definition hydrate_profile (answer : string → string → string → res string chainCheckResult)
    (m : Sessions) (d : D) (profile : string) (metas : list SessionMeta) : Sessions * D :=
  foldl (λ '(m, d) mt, hydrate_one m d profile mt (answer profile (MasterAddress mt) (SessionAddress mt))) (m, d) metas.

Fixpoint hydrate_profiles (answer : string → string → string → res string chainCheckResult)
    (m : Sessions) (d : D) (profiles : list string) : Sessions * D * res manager_error unit :=
  match profiles with
  | [] => (m, d, Ok tt)
  | profile :: profiles =>
      match slist store d profile with
      | Err _ => (m, d, Err MList)
      | Ok metas =>
          let '(m, d) := hydrate_profile answer m d profile metas in
          hydrate_profiles answer m d profiles
      end
  end.

Definition Hydrate (answer : string → string → string → res string chainCheckResult)
    (m : Sessions) (d : D) : Sessions * D * res manager_error unit :=
  match sprofiles store d with
  | Err _ => (m, d, Err MList)
  | Ok profiles => hydrate_profiles answer m d profiles
  end.
End manager.

(** ** Evaluation *)

Definition sess1 : SessionMeta :=
  mkSession "g1s" "gpub1s" "g1m" "priv" false ["gno.land/r/test"] false "50ugnot" "50ugnot" 100 1 StateActive.
Definition sess2 : SessionMeta :=
  mkSession "g1t" "gpub1t" "g1m" "priv" false ["gno.land/r/test"] true "50ugnot" "50ugnot" 100 2 StateActive.
Definition mgr1 : Sessions := insertState (insertState ∅ "p" sess1 StateActive) "p" sess2 StateActive.

Example pick_ex :
  snd (PickSessionForProfile map_to_list mgr1 "p" "gno.land/r/test/blog" (λ _ _, Err "") 50) = Ok (mkPicked "g1t" "priv" "g1m") ∧
  snd (PickSessionForProfile map_to_list mgr1 "p" "gno.land/r/testing" (λ _ _, Err "") 50) = Err (ErrScopeMismatch ["gno.land/r/test"]) ∧
  snd (PickSessionForProfile map_to_list mgr1 "p" "gno.land/r/test" (λ _ _, Err "") 101) = Err ErrNoActiveSession.
Proof. vm_compute. repeat split. Qed.

(** ** Facts on the map *)

Lemma getState_set m p a ss p' a' :
  getState (setState m p a ss) p' a' = if decide (p = p' ∧ a = a') then Some ss else getState m p' a'.
Proof.
  unfold getState, setState. rewrite lookup_insert. case_decide as E1; subst; simpl.
  - rewrite lookup_insert. case_decide as E2; subst.
    + by rewrite decide_True.
    + rewrite decide_False by naive_solver. by destruct (m !! p').
  - by rewrite decide_False by naive_solver.
Qed.

Lemma getState_insert m p mt st p' a' :
  getState (insertState m p mt st) p' a' =
  if decide (p = p' ∧ SessionAddress mt = a') then Some (mkState st mt) else getState m p' a'.
Proof. apply (getState_set m p (SessionAddress mt) (mkState st mt)). Qed.

Lemma usable_expire now ss : usable now (expire now ss) = usable now ss.
Proof.
  unfold usable, expire. destruct (bool_decide (state ss = StateActive)) eqn:E1; simpl; [|by rewrite E1].
  destruct (expired_at now ss) eqn:E2; simpl; [done|by rewrite E1, E2].
Qed.

Lemma expire_usable now ss : usable now ss = true → expire now ss = ss.
Proof.
  unfold usable, expire. intros H. apply andb_true_iff in H as [[H1 H2]%andb_true_iff _].
  rewrite H1. simpl. apply negb_true_iff in H2. by rewrite H2.
Qed.

(** [dedup] keeps the elements and drops the repetitions. *)
Lemma dedup_go_spec seen l :
  NoDup (dedup_go seen l) ∧ ∀ x, x ∈ dedup_go seen l ↔ x ∈ l ∧ x ∉ seen.
Proof.
  revert seen. induction l as [|s l IH]; intros seen; simpl.
  - split; [constructor|]. set_solver.
  - case_decide as Hs.
    + destruct (IH seen) as [H1 H2]. split; [done|]. intros x. rewrite H2. set_solver.
    + destruct (IH ({[s]} ∪ seen)) as [H1 H2]. split.
      * constructor; [rewrite H2; set_solver|done].
      * intros x. rewrite !elem_of_cons, H2. destruct (decide (x = s)); set_solver.
Qed.

Lemma most_recent_spec best l :
  most_recent best l ∈ best :: l ∧ ∀ ss, ss ∈ best :: l → CreatedAt (meta ss) ≤ CreatedAt (meta (most_recent best l)).
Proof.
  revert best. induction l as [|s l IH]; intros best; simpl.
  { split; [set_solver|]. intros ss ->%list_elem_of_singleton. lia. }
  destruct (Z.ltb_spec (CreatedAt (meta best)) (CreatedAt (meta s))) as [Hlt|Hge].
  - destruct (IH s) as [H1 H2]. split; [set_solver|]. intros ss Hss.
    apply elem_of_cons in Hss as [->|Hss]; [|auto].
    specialize (H2 s ltac:(set_solver)). lia.
  - destruct (IH best) as [H1 H2]. split; [set_solver|]. intros ss Hss.
    apply elem_of_cons in Hss as [->|[->|Hss]%elem_of_cons].
    + apply H2. set_solver.
    + specialize (H2 best ltac:(set_solver)). lia.
    + apply H2. set_solver.
Qed.

(** ** Coins that have been read *)

Lemma parse_udec_digits s v : parse_udec s = Some v → str_forall is_digit s = true.
Proof.
  destruct s as [|a s]; [done|]. unfold parse_udec. generalize 0.
  revert v. generalize (String a s). clear. induction s as [|b s IH]; intros v z; [done|]. simpl.
  destruct (is_digit b); [|done]. apply IH.
Qed.

Lemma parseCoins_bound s mag denom : parseCoins s = Some (mag, denom) → minInt64 ≤ mag ≤ maxInt64.
Proof.
  unfold parseCoins. case_bool_decide as Hne; [done|]. destruct (span is_digit s) as [digits r].
  destruct (_ || _); [done|]. intros H. apply bind_Some in H as (v & Hv & H). simplify_eq.
  unfold parse_int in Hv. destruct (split_sign digits) as [neg body].
  apply bind_Some in Hv as (z & _ & Hv). destruct (_ && _) eqn:E; [|done]. simplify_eq. b2p. lia.
Qed.

(** The denomination starts with a byte that is not a digit. *)
Lemma parseCoins_denom s mag denom :
  parseCoins s = Some (mag, denom) → match denom with String a _ => is_digit a = false | EmptyString => False end.
Proof.
  unfold parseCoins. case_bool_decide as Hne; [done|]. destruct (span is_digit s) as [digits r] eqn:Es.
  destruct (bool_decide (r = "")) eqn:Er; simpl; [done|]. destruct (bool_decide (digits = "")); [done|].
  intros H0. apply bind_Some in H0 as (v & Hv & H0). simplify_eq.
  apply bool_decide_eq_false in Er. clear -Es Er. revert digits Es.
  induction s as [|a s IH]; simpl; intros digits Es; [by simplify_eq|].
  destruct (is_digit a) eqn:E; [|by simplify_eq].
  destruct (span is_digit s) as [x y] eqn:E'. simplify_eq. by eapply IH.
Qed.

Lemma isZeroSpend_zero denom :
  match denom with String a _ => is_digit a = false | EmptyString => False end →
  isZeroSpend (format_int 0 +:+ denom) = true.
Proof.
  destruct denom as [|a denom]; [done|]. intros Ha. unfold isZeroSpend, parseCoins.
  rewrite bool_decide_eq_false_2 by done.
  rewrite (span_unique is_digit (format_int 0) (String a denom)) by done. reflexivity.
Qed.

(** ** What a pick returns *)

Section pick_facts.
Context (order : gmap string sessionState → list (string * sessionState)).
Context (Horder : ∀ ps, order ps ≡ₚ map_to_list ps).

Definition eligible (m : Sessions) (profile : string) (now : Z) (match_ : sessionState → bool) (ss : sessionState) : Prop :=
  (∃ addr, getState m profile addr = Some ss) ∧ usable now ss = true ∧ match_ ss = true.

Lemma elem_of_active ps now ss :
  ss ∈ filter (λ ss, usable now ss = true) (snd <$> order ps) ↔
  usable now ss = true ∧ ∃ addr, ps !! addr = Some ss.
Proof using Horder.
  rewrite list_elem_of_filter, Horder, list_elem_of_fmap. split; intros [Hu H]; split; try done.
  - destruct H as ([a ss'] & -> & H). exists a. by apply elem_of_map_to_list.
  - destruct H as [a H]. exists (a, ss). split; [done|]. by apply elem_of_map_to_list.
Qed.

(** The usable sessions after the pick are those before it. *)
Lemma pick_getState m p now ss :
  usable now ss = true →
  (∃ a, getState (<[p := expire now <$> default ∅ (m !! p)]> m) p a = Some ss) ↔
  (∃ a, default ∅ (m !! p) !! a = Some ss).
Proof using Type.
  intros Hu. unfold getState. rewrite lookup_insert_eq. simpl. split; intros [a Ha]; exists a.
  - rewrite lookup_fmap in Ha. destruct (_ !! a) as [s0|]; [|done]. simpl in Ha. simplify_eq.
    rewrite usable_expire in Hu. by rewrite expire_usable.
  - rewrite lookup_fmap, Ha. simpl. by rewrite expire_usable.
Qed.

Lemma pick_locked_spec m profile match_ now m' r :
  pick_locked order m profile match_ now = (m', r) →
  match r with
  | Ok pk => ∃ ss, eligible m' profile now match_ ss ∧
      pk = mkPicked (SessionAddress (meta ss)) (Privkey (meta ss)) (MasterAddress (meta ss)) ∧
      ∀ ss', eligible m' profile now match_ ss' → CreatedAt (meta ss') ≤ CreatedAt (meta ss)
  | Err ErrNoActiveSession =>
      ∀ ss, ¬ eligible m' profile now match_ ss ∧
            (eligible m' profile now (λ _, true) ss → mAllowPaths (meta ss) = [])
  | Err (ErrScopeMismatch paths) =>
      (∀ ss, ¬ eligible m' profile now match_ ss) ∧ NoDup paths ∧ paths ≠ [] ∧
      ∀ q, q ∈ paths ↔ ∃ ss, eligible m' profile now (λ _, true) ss ∧ q ∈ mAllowPaths (meta ss)
  end.
Proof using Horder.
  unfold pick_locked. case_bool_decide as Hemp.
  { intros [= <- <-]. assert (Hno : ∀ f ss, ¬ eligible m profile now f ss).
    { intros f ss [[a Ha] _]. unfold getState in Ha. destruct (m !! profile) as [ps|]; [|done]. simpl in *.
      by rewrite Hemp, lookup_empty in Ha. }
    intros ss. split; [apply Hno|]. intros H. by destruct (Hno _ _ H). }
  set (ps := default ∅ (m !! profile)) in *.
  set (active := filter (λ ss, usable now ss = true) _). set (avail := active ≫= _).
  set (m1 := <[profile := expire now <$> ps]> m).
  assert (Hel : ∀ f ss, eligible m1 profile now f ss ↔ ss ∈ filter (λ ss, f ss = true) active).
  { intros f ss. unfold eligible, active. rewrite list_elem_of_filter, elem_of_active.
    split; [intros (H & Hu & Hf)|intros (Hf & Hu & H)]; (split_and!; [done..|]) || (split_and!; [|done..]).
    - by eapply pick_getState.
    - by apply pick_getState. }
  assert (Hall : ∀ ss, eligible m1 profile now (λ _, true) ss ↔ ss ∈ active).
  { intros ss. rewrite Hel, list_elem_of_filter. tauto. }
  assert (Hav : ∀ q, q ∈ avail ↔ ∃ ss, eligible m1 profile now (λ _, true) ss ∧ q ∈ mAllowPaths (meta ss)).
  { intros q. unfold avail. rewrite list_elem_of_bind. split; intros (ss & H1 & H2); exists ss; by rewrite ?Hall in *. }
  destruct (filter (λ ss, match_ ss = true) active) as [|ss rest] eqn:Ec.
  - assert (Hnone : ∀ ss, ¬ eligible m1 profile now match_ ss).
    { intros ss. rewrite Hel, Ec. set_solver. }
    case_bool_decide as Ha; intros [= <- <-].
    + intros ss. split; [apply Hnone|]. intros He.
      destruct (mAllowPaths (meta ss)) as [|q l] eqn:Eq; [done|].
      assert (q ∈ avail) by (apply Hav; exists ss; rewrite Eq; set_solver). rewrite Ha in *. set_solver.
    + destruct (dedup_go_spec ∅ avail) as [Hnd Hin]. split_and!; [done|done| |].
      * destruct avail as [|q l]; [done|]. intros E. fold (dedup (q :: l)) in Hin. rewrite E in Hin.
        destruct (Hin q) as [_ Hq]. set_solver.
      * intros q. rewrite <- Hav. fold (dedup avail) in Hin. rewrite Hin. set_solver.
  - intros [= <- <-]. destruct (most_recent_spec ss rest) as [Hin Hmax]. rewrite <- Ec in *.
    exists (most_recent ss rest). split_and!; [by apply Hel|done|]. intros ss' He. apply Hmax, Hel, He.
Qed.
End pick_facts.

(** ** Interleavings *)

(** What the chain has reported active so far: profile, master, session. *)
Abbreviation Reported := (string → string → string → SessionStatus → Prop).

(** [snaps] are the pending sessions some [pickSession] has snapshotted for
    promotion, [copies] the activated metadata still to be written. *)
Record World (D : Type) := mkWorld {
  mem : Sessions;
  dsk : D;
  snaps : list (string * string * string);
  copies : list (string * SessionMeta);
  reported : Reported;
}.
Arguments mkWorld {D}. Arguments mem {D}. Arguments dsk {D}. Arguments snaps {D}. Arguments copies {D}. Arguments reported {D}.

(** A session's enforced scope is one the chain reported for it. *)
Definition confirmed (rep : Reported) (profile : string) (mt : SessionMeta) : Prop :=
  ∃ st, rep profile (MasterAddress mt) (SessionAddress mt) st ∧
    mAllowPaths mt = stAllowPaths st ∧ mAllowRun mt = stAllowRun st ∧ ExpiresAt mt = stExpiresAt st.

Definition add_report (rep : Reported) (profile master addr : string) (st : SessionStatus) : Reported :=
  λ p ma a s, rep p ma a s ∨ (p = profile ∧ ma = master ∧ a = addr ∧ s = st).

(** What the chain's answer to a query for a session reports: nothing, unless
    it says the session is active. *)
Definition add_answer (rep : Reported) (profile master addr : string) (answer : res string chainCheckResult) : Reported :=
  match answer with
  | Ok r => if ckActive r then add_report rep profile master addr (ckStatus r) else rep
  | Err _ => rep
  end.

Section steps.
Context {D : Type} (store : StoreOps D).

(** The critical sections of the manager's methods on the sessions it has, for
    any outcome of the disk, the chain and the clock. *)
Inductive ostep : World D → World D → Prop :=
  | m_snap w profile addr ss :
      getState (mem w) profile addr = Some ss → state ss = StatePending →
      ostep w (mkWorld (mem w) (dsk w) ((profile, addr, MasterAddress (meta ss)) :: snaps w) (copies w) (reported w))
  | m_promote w profile addr master answer m' c :
      (profile, addr, master) ∈ snaps w → promote (mem w) profile addr answer = (m', c) →
      ostep w (mkWorld m' (dsk w) (snaps w) (((λ mt, (profile, mt)) <$> option_list c) ++ copies w)
                 (add_answer (reported w) profile master addr answer))
  | m_persist w profile mt d' e :
      (profile, mt) ∈ copies w → sw store (dsk w) profile mt = (d', e) →
      ostep w (mkWorld (mem w) d' (snaps w) (copies w) (reported w))
  | m_pick w order profile match_ now m' r :
      pick_locked order (mem w) profile match_ now = (m', r) →
      ostep w (mkWorld m' (dsk w) (snaps w) (copies w) (reported w))
  | m_update w profile addr fee m' d' r :
      UpdateSpend store (mem w) (dsk w) profile addr fee = (m', d', r) →
      ostep w (mkWorld m' d' (snaps w) (copies w) (reported w))
  | m_settle w profile addr remaining m' d' r :
      setSpendRemaining store (mem w) (dsk w) profile addr remaining = (m', d', r) →
      ostep w (mkWorld m' d' (snaps w) (copies w) (reported w))
  | m_active w profile addr ss st m' d' r :
      getState (mem w) profile addr = Some ss → Active st = true →
      MarkActive store (mem w) (dsk w) profile addr st = (m', d', r) →
      ostep w (mkWorld m' d' (snaps w) (copies w)
                 (add_report (reported w) profile (MasterAddress (meta ss)) addr st))
  | m_inactive w profile addr st m' d' r :
      st ≠ StateActive →
      MarkInactive store (mem w) (dsk w) profile addr st = (m', d', r) →
      ostep w (mkWorld m' d' (snaps w) (copies w) (reported w))
  | m_restart w answer m' d' r :
      Hydrate store answer ∅ (dsk w) = (m', d', r) →
      ostep w (mkWorld m' d' [] []
                 (λ p ma a st, reported w p ma a st ∨
                    ∃ k, answer p ma a = Ok k ∧ ckActive k = true ∧ st = ckStatus k)).

(** With proposals, the manager's only source of new sessions. *)
Inductive mstep : World D → World D → Prop :=
  | m_add w profile addr pubkey priv scope master now m' d' r :
      getState (mem w) profile addr = None →
      AddPending store (mem w) (dsk w) profile addr pubkey priv scope master now = (m', d', r) →
      mstep w (mkWorld m' d' (snaps w) (copies w) (reported w))
  | m_own w w' : ostep w w' → mstep w w'.

Record winv (w : World D) : Prop := {
  wi_mem : ∀ p a ss, getState (mem w) p a = Some ss → SessionAddress (meta ss) = a ∧
    (state ss = StateActive ∨ mState (meta ss) = StateActive → confirmed (reported w) p (meta ss));
  wi_dsk : ∀ p a mt, sr store (dsk w) p a = Some mt → mState mt = StateActive → confirmed (reported w) p mt;
  wi_snaps : ∀ p a ma, (p, a, ma) ∈ snaps w → ∃ ss, getState (mem w) p a = Some ss ∧ MasterAddress (meta ss) = ma;
  wi_copies : ∀ p mt, (p, mt) ∈ copies w → mState mt = StateActive → confirmed (reported w) p mt;
}.

Lemma confirmed_mono (rep rep' : Reported) p mt :
  (∀ p ma a st, rep p ma a st → rep' p ma a st) → confirmed rep p mt → confirmed rep' p mt.
Proof using Type. intros H (st & Hr & ?). exists st. split; auto. Qed.

(** Same session, same scope: what [confirmed] depends on. *)
Definition same_scope (a b : SessionMeta) : Prop :=
  MasterAddress b = MasterAddress a ∧ SessionAddress b = SessionAddress a ∧
  mAllowPaths b = mAllowPaths a ∧ mAllowRun b = mAllowRun a ∧ ExpiresAt b = ExpiresAt a.

Lemma confirmed_same rep p a b : same_scope a b → confirmed rep p a → confirmed rep p b.
Proof using Type.
  intros (H1 & H2 & H3 & H4 & H5) (st & Hr & ?). exists st. by rewrite H1, H2, H3, H4, H5.
Qed.

Context `{!StoreLaws store}.

Definition dinv (rep : Reported) (d : D) : Prop :=
  ∀ p a mt, sr store d p a = Some mt → mState mt = StateActive → confirmed rep p mt.

(** A write of confirmed (or inactive) metadata keeps the disk confirmed. *)
Lemma dinv_write rep d p mt d' e :
  dinv rep d → (mState mt = StateActive → confirmed rep p mt) → sw store d p mt = (d', e) → dinv rep d'.
Proof using All.
  intros Hd Hmt Hw p' a mt' Hr Ha. destruct (sw_any store _ _ _ _ _ Hw) as [Hf|[Hm Ho]].
  { rewrite Hf in Hr. by eapply Hd. }
  destruct (decide ((p', a) = (p, SessionAddress mt))) as [E|E].
  - simplify_eq. eapply confirmed_same; [|by apply Hmt]. done.
  - rewrite (Ho _ _ E) in Hr. by eapply Hd.
Qed.

Lemma persist_dinv rep d p mt d' r :
  dinv rep d → (mState mt = StateActive → confirmed rep p mt) → persist store d p mt = (d', r) → dinv rep d'.
Proof using All.
  unfold persist. intros Hd Hmt. destruct (sw store d p mt) as [d1 [e|]] eqn:E; intros [= <- <-];
    by eapply dinv_write.
Qed.

(** Rewriting one session in place, its disk copy and perhaps a new report. *)
Lemma winv_set w p a ss ss' d' rep' :
  winv w → getState (mem w) p a = Some ss →
  SessionAddress (meta ss') = a → MasterAddress (meta ss') = MasterAddress (meta ss) →
  (∀ p ma a st, reported w p ma a st → rep' p ma a st) →
  (state ss' = StateActive ∨ mState (meta ss') = StateActive → confirmed rep' p (meta ss')) →
  dinv rep' d' → winv (mkWorld (setState (mem w) p a ss') d' (snaps w) (copies w) rep').
Proof using Type.
  intros [Hm Hd Hs Hc] Hg Ha Hma Hrep Hss Hd'. constructor; simpl; [|exact Hd'| |].
  - intros p' a' ss0. rewrite getState_set. case_decide as E.
    + destruct E as [<- <-]. intros [= <-]. by split.
    + intros H. destruct (Hm _ _ _ H) as [H1 H2]. split; [done|]. intros. eapply confirmed_mono; eauto.
  - intros p' a' ma Hin. rewrite getState_set. case_decide as E.
    + destruct E as [<- <-]. destruct (Hs _ _ _ Hin) as (s0 & H1 & H2). simplify_eq. eauto.
    + by apply Hs.
  - intros p' mt Hin Hst. eapply confirmed_mono; [|by apply Hc]. done.
Qed.

Lemma dinv_rep w rep' : winv w → (∀ p ma a st, reported w p ma a st → rep' p ma a st) → dinv rep' (dsk w).
Proof using Type.
  intros [_ Hd _ _] Hrep p a mt H1 H2. eapply confirmed_mono; [|by eapply Hd]. done.
Qed.

(** Operations that rewrite [meta ss] to a session of the same scope. *)
Lemma winv_rewrite w p a ss mt st d' r :
  winv w → getState (mem w) p a = Some ss → same_scope (meta ss) mt →
  (st = StateActive ∨ mState mt = StateActive → state ss = StateActive ∨ mState (meta ss) = StateActive) →
  persist store (dsk w) p mt = (d', r) →
  winv (mkWorld (setState (mem w) p a (mkState st mt)) d' (snaps w) (copies w) (reported w)).
Proof using All.
  intros Hi Hg Hsame Hst Hp. pose proof Hi as [Hm Hd _ _]. destruct (Hm _ _ _ Hg) as [Ha Hconf].
  assert (Hc : st = StateActive ∨ mState mt = StateActive → confirmed (reported w) p mt).
  { intros H. eapply confirmed_same; [exact Hsame|]. auto. }
  pose proof Hsame as (H1 & H2 & _).
  eapply winv_set; try done; [by simpl; rewrite H2|].
  eapply persist_dinv; [exact Hd| |exact Hp]. auto.
Qed.

(** *** Each method preserves the invariant *)

Lemma winv_add w profile addr pubkey priv scope master now m' d' r :
  winv w → getState (mem w) profile addr = None →
  AddPending store (mem w) (dsk w) profile addr pubkey priv scope master now = (m', d', r) →
  winv (mkWorld m' d' (snaps w) (copies w) (reported w)).
Proof using All.
  intros [Hm Hd Hs Hc] Hg. unfold AddPending. set (mt := mkSession _ _ _ _ _ _ _ _ _ _ _ _).
  destruct (sw store (dsk w) profile mt) as [d1 o] eqn:E. destruct o as [e|]; intros [= <- <- <-].
  { constructor; simpl; [assumption|refine (dinv_write _ _ _ _ _ _ Hd _ E); discriminate|assumption..]. }
  constructor; simpl; [|refine (dinv_write _ _ _ _ _ _ Hd _ E); discriminate| |done].
  - intros p a ss. rewrite getState_insert. case_decide as E'; [|apply Hm].
    destruct E' as [<- <-]. intros [= <-]. split; [done|]. by intros [?|?].
  - intros p a ma Hin. destruct (Hs _ _ _ Hin) as (ss & H1 & H2). exists ss. split; [|done].
    rewrite getState_insert. case_decide as E'; [|done]. destruct E' as [<- <-]. simpl in H1. congruence.
Qed.

Lemma winv_promote w profile addr master answer m' c :
  winv w → (profile, addr, master) ∈ snaps w → promote (mem w) profile addr answer = (m', c) →
  winv (mkWorld m' (dsk w) (snaps w) (((λ mt, (profile, mt)) <$> option_list c) ++ copies w)
          (add_answer (reported w) profile master addr answer)).
Proof using All.
  intros Hi Hsn. pose proof Hi as [Hm Hd Hs Hc]. destruct (Hs _ _ _ Hsn) as (ss & Hg & Hma).
  unfold promote, add_answer. destruct answer as [r|e]; [|intros [= <- <-]; by destruct w].
  destruct (ckActive r); simpl; [|intros [= <- <-]; by destruct w]. rewrite Hg.
  assert (Hrep : ∀ p ma a st, reported w p ma a st → add_report (reported w) profile master addr (ckStatus r) p ma a st)
    by (by left).
  case_bool_decide as Hst; simpl; intros [= <- <-]; simpl.
  - destruct (Hm _ _ _ Hg) as [Ha _].
    assert (Hcf : confirmed (add_report (reported w) profile master addr (ckStatus r)) profile (applyStatus (meta ss) (ckStatus r))).
    { exists (ckStatus r). split; [right; by simpl|done]. }
    pose proof (winv_set w profile addr ss (mkState StateActive (applyStatus (meta ss) (ckStatus r))) (dsk w)
      (add_report (reported w) profile master addr (ckStatus r)) Hi Hg Ha eq_refl Hrep
      (λ _, Hcf) (dinv_rep w _ Hi Hrep)) as [Hm' Hd' Hs' Hc'].
    constructor; simpl in *; [exact Hm'|exact Hd'|exact Hs'|].
    intros p mt [[= -> ->]|Hin]%elem_of_cons Hma'; [done|by apply Hc'].
  - constructor; simpl; [|by apply dinv_rep|done|].
    + intros p a s0 H0. destruct (Hm _ _ _ H0) as [H1 H2]. split; [done|]. intros. eapply confirmed_mono; eauto.
    + intros p mt Hin Hma'. eapply confirmed_mono; [|by apply Hc]. done.
Qed.

Lemma winv_pick w order profile match_ now m' r :
  winv w → pick_locked order (mem w) profile match_ now = (m', r) →
  winv (mkWorld m' (dsk w) (snaps w) (copies w) (reported w)).
Proof using Type.
  intros [Hm Hd Hs Hc] HP.
  assert (Hcase : m' = mem w ∨ m' = <[profile := expire now <$> default ∅ (mem w !! profile)]> (mem w)).
  { unfold pick_locked in HP. case_bool_decide; [simplify_eq; by left|right].
    by destruct (filter _ (filter _ _)); simplify_eq. }
  assert (Hget : ∀ p a, ∃ f, getState m' p a = f <$> getState (mem w) p a ∧ ∀ ss, f ss = ss ∨ f ss = expire now ss).
  { intros p a. destruct Hcase as [->| ->].
    - exists id. split; [by destruct (getState _ _ _)|by left].
    - unfold getState. destruct (decide (profile = p)) as [->|Hne].
      + exists (expire now). split; [|by right]. rewrite lookup_insert_eq. simpl. rewrite lookup_fmap.
        destruct (mem w !! p); simpl; [done|by rewrite lookup_empty].
      + exists id. split; [|by left]. rewrite lookup_insert_ne by done.
        by destruct (mem w !! p ≫= _). }
  assert (Hexp : ∀ (f : sessionState → sessionState) ss, f ss = ss ∨ f ss = expire now ss →
    meta (f ss) = meta ss ∧ (state (f ss) = StateActive → state ss = StateActive)).
  { intros f ss [->| ->]; [done|]. unfold expire. by case_match. }
  constructor; simpl; [|exact Hd| |exact Hc].
  - intros p a ss H. destruct (Hget p a) as (f & E & Hf). rewrite E in H.
    destruct (getState (mem w) p a) as [s0|] eqn:E0; [|done]. simpl in H. simplify_eq.
    destruct (Hexp f s0 (Hf s0)) as [H1 H2]. rewrite H1. destruct (Hm _ _ _ E0) as [H3 H4].
    split; [done|]. intros [H|H]; apply H4; auto.
  - intros p a ma Hin. destruct (Hs _ _ _ Hin) as (ss & H1 & H2). destruct (Hget p a) as (f & E & Hf).
    exists (f ss). rewrite E, H1. split; [done|]. by rewrite (proj1 (Hexp f ss (Hf ss))).
Qed.

Lemma winv_update w profile addr fee m' d' r :
  winv w → UpdateSpend store (mem w) (dsk w) profile addr fee = (m', d', r) →
  winv (mkWorld m' d' (snaps w) (copies w) (reported w)).
Proof using All.
  intros Hi. unfold UpdateSpend. destruct (getState (mem w) profile addr) as [ss|] eqn:Hg;
    [|intros [= <- <- <-]; by destruct w].
  case_bool_decide; simpl; [|intros [= <- <- <-]; by destruct w].
  destruct (parseCoins _) as [[rem denom]|]; [|intros [= <- <- <-]; by destruct w].
  set (mt := set_remaining _ _). destruct (persist store (dsk w) profile mt) as [d1 r1] eqn:Ep.
  intros [= <- <- <-]. eapply winv_rewrite; try done.
Qed.

Lemma winv_settle w profile addr rem m' d' r :
  winv w → setSpendRemaining store (mem w) (dsk w) profile addr rem = (m', d', r) →
  winv (mkWorld m' d' (snaps w) (copies w) (reported w)).
Proof using All.
  intros Hi. unfold setSpendRemaining. destruct (getState (mem w) profile addr) as [ss|] eqn:Hg;
    [|intros [= <- <- <-]; by destruct w].
  set (mt := set_remaining _ _). destruct (persist store (dsk w) profile mt) as [d1 r1] eqn:Ep.
  intros [= <- <- <-]. eapply winv_rewrite; try done.
Qed.

Lemma winv_inactive w profile addr st m' d' r :
  winv w → st ≠ StateActive → MarkInactive store (mem w) (dsk w) profile addr st = (m', d', r) →
  winv (mkWorld m' d' (snaps w) (copies w) (reported w)).
Proof using All.
  intros Hi Hst. unfold MarkInactive. destruct (getState (mem w) profile addr) as [ss|] eqn:Hg;
    [|intros [= <- <- <-]; by destruct w].
  set (mt := set_state _ _). destruct (persist store (dsk w) profile mt) as [d1 r1] eqn:Ep.
  intros [= <- <- <-]. eapply winv_rewrite; try done. by intros [?|?].
Qed.

Lemma winv_active w profile addr ss st m' d' r :
  winv w → getState (mem w) profile addr = Some ss →
  MarkActive store (mem w) (dsk w) profile addr st = (m', d', r) →
  winv (mkWorld m' d' (snaps w) (copies w) (add_report (reported w) profile (MasterAddress (meta ss)) addr st)).
Proof using All.
  intros Hi Hg. unfold MarkActive. rewrite Hg.
  set (mt := applyStatus _ _). destruct (persist store (dsk w) profile mt) as [d1 r1] eqn:Ep.
  intros [= <- <- <-]. pose proof Hi as [Hm _ _ _]. destruct (Hm _ _ _ Hg) as [Ha _].
  assert (Hrep : ∀ p ma a s, reported w p ma a s → add_report (reported w) profile (MasterAddress (meta ss)) addr st p ma a s)
    by (by left).
  assert (Hcf : confirmed (add_report (reported w) profile (MasterAddress (meta ss)) addr st) profile mt)
    by (exists st; split; [by right|done]).
  eapply winv_set; try done. eapply persist_dinv; [by apply dinv_rep|by intros _|exact Ep].
Qed.

Definition hinv (rep : Reported) (m : Sessions) (d : D) : Prop :=
  (∀ p a ss, getState m p a = Some ss → SessionAddress (meta ss) = a ∧
     (state ss = StateActive ∨ mState (meta ss) = StateActive → confirmed rep p (meta ss))) ∧ dinv rep d.

Lemma hinv_insert rep m d p mt st :
  hinv rep m d → (st = StateActive ∨ mState mt = StateActive → confirmed rep p mt) → hinv rep (insertState m p mt st) d.
Proof using Type.
  intros [Hm Hd] Hc. split; [|done]. intros p' a ss. rewrite getState_insert. case_decide as E; [|apply Hm].
  destruct E as [<- <-]. by intros [= <-].
Qed.

Lemma hydrate_one_inv rep m d p mt answer :
  hinv rep m d → (mState mt = StateActive → confirmed rep p mt) →
  (∀ k, answer = Ok k → ckActive k = true → rep p (MasterAddress mt) (SessionAddress mt) (ckStatus k)) →
  let '(m', d') := hydrate_one store m d p mt answer in hinv rep m' d'.
Proof using All.
  intros Hh Hc Hans. unfold hydrate_one.
  assert (Hlocal : hinv rep (insertState m p mt (mState mt)) d) by (apply hinv_insert; tauto).
  destruct answer as [k|e]; [|done]. destruct (ckUnsupported k); [done|].
  destruct (ckActive k) eqn:Ea; simpl.
  - apply hinv_insert; [done|]. intros _. exists (ckStatus k). split; [by apply Hans|done].
  - destruct Hh as [Hm Hd]. split; [done|]. intros p' a mt' Hr. eapply Hd, (sd_read store), Hr.
Qed.

Lemma hydrate_profile_inv rep answer m d p metas :
  (∀ p ma a k, answer p ma a = Ok k → ckActive k = true → rep p ma a (ckStatus k)) →
  hinv rep m d → Forall (λ mt, mState mt = StateActive → confirmed rep p mt) metas →
  let '(m', d') := hydrate_profile store answer m d p metas in hinv rep m' d'.
Proof using All.
  intros Hans Hh Hf. unfold hydrate_profile. revert m d Hh.
  induction Hf as [|mt metas Hmt Hf IH]; intros m d Hh; simpl; [done|].
  pose proof (hydrate_one_inv rep m d p mt (answer p (MasterAddress mt) (SessionAddress mt)) Hh Hmt
    (λ k, Hans _ _ _ k)) as H1.
  destruct (hydrate_one _ _ _ _ _ _) as [m1 d1]. by apply IH.
Qed.

Lemma Hydrate_inv rep answer d m' d' r :
  (∀ p ma a k, answer p ma a = Ok k → ckActive k = true → rep p ma a (ckStatus k)) →
  dinv rep d → Hydrate store answer ∅ d = (m', d', r) → hinv rep m' d'.
Proof using All.
  intros Hans Hd. unfold Hydrate.
  assert (Hh : hinv rep ∅ d).
  { split; [|done]. intros p a ss H. unfold getState in H. by rewrite lookup_empty in H. }
  destruct (sprofiles store d) as [profiles|]; [|intros [= <- <- <-]; done].
  clear Hd. revert Hh. generalize (∅ : Sessions) as m. revert d.
  induction profiles as [|p profiles IH]; intros d m Hh; simpl; [intros [= <- <- <-]; done|].
  destruct (slist store d p) as [metas|] eqn:El; [|intros [= <- <- <-]; done].
  pose proof (hydrate_profile_inv rep answer m d p metas Hans Hh) as H1.
  destruct (hydrate_profile _ _ _ _ _ _) as [m1 d1]. apply IH, H1.
  apply Forall_forall. intros mt Hin. destruct (slist_read store _ _ _ _ El Hin) as [a Ha].
  destruct Hh as [_ Hd]. by eapply Hd.
Qed.

Lemma winv_step w w' : mstep w w' → winv w → winv w'.
Proof using All.
  intros Hs Hi. destruct Hs as [|w w' Hs]; [by eapply winv_add|]. destruct Hs.
  - destruct Hi as [Hm Hd Hsn Hc]. constructor; simpl; [done..| |done].
    intros p a ma [[= -> -> ->]|Hin]%elem_of_cons; [eauto|by apply Hsn].
  - by eapply winv_promote.
  - destruct Hi as [Hm Hd Hsn Hc]. constructor; simpl; [done| |done|done].
    eapply dinv_write; [exact Hd| |eassumption]. by apply Hc.
  - by eapply winv_pick.
  - by eapply winv_update.
  - by eapply winv_settle.
  - by eapply winv_active.
  - by eapply winv_inactive.
  - pose proof Hi as [_ Hd _ _].
    destruct (Hydrate_inv (λ p ma a st, reported w p ma a st ∨
      ∃ k, answer p ma a = Ok k ∧ ckActive k = true ∧ st = ckStatus k) answer (dsk w) m' d' r) as [Hm Hd'].
    + eauto 10.
    + apply dinv_rep; [done|]. by left.
    + done.
    + constructor; simpl; [exact Hm|exact Hd'| |]; intros; set_solver.
Qed.

Lemma winv_steps w w' : rtc mstep w w' → winv w → winv w'.
Proof using All. induction 1; eauto using winv_step. Qed.
End steps.

(** ** The store implements its interface *)

Section store_ops.
Context (scrypt : string → string → option string) (new_gcm : string → bool).
Context (Seal : string → string → string → string) (Open : string → string → string → option string).
Context (marshal : SessionMeta → option string) (unmarshal : string → option SessionMeta).
Context (readdir : gmap string string → list (string * string)) (dirs : Store.Disk → list string).
Context (passphrase salt nonce : string) (o : Store.write_outcome) (delete_ok list_ok : bool).

(** The store under one outcome of the random source and of the file
    system: the laws hold under every outcome, so under any sequence. *)
Definition store_ops : StoreOps Store.Disk := {|
  sw d p m :=
    match Store.Write scrypt new_gcm Seal marshal passphrase (Some salt) (Some nonce) o d p m with
    | (d, Ok _) => (d, None)
    | (d, Err _) => (d, Some "session/store: write")
    end;
  sd d p a := if delete_ok then (Store.Delete d p a, None) else (d, Some "session/store: delete");
  sr d p a :=
    match Store.Read scrypt new_gcm Open unmarshal passphrase d p a with Ok m => Some m | Err _ => None end;
  slist d p := if list_ok then Ok (Store.List scrypt new_gcm Open unmarshal passphrase (readdir (default ∅ (d !! p)))) else Err "session/store: read dir";
  sprofiles d := if list_ok then Ok (dirs d) else Err "session/store: read dir";
|}.

Context `{!AeadLaws Seal Open}.
Context (Hjson : ∀ m b, marshal m = Some b → unmarshal b = Some m).
Context (Hsalt : String.length salt = saltLen) (Hnonce : String.length nonce = nonceLen).
Context (Hreaddir : ∀ files f b, (f, b) ∈ readdir files → files !! f = Some b).

Lemma decode_encode m bytes :
  Store.encode scrypt new_gcm Seal marshal passphrase (Some salt) (Some nonce) m = Ok bytes →
  Store.decode scrypt new_gcm Open unmarshal passphrase bytes = Ok (set_key m (Privkey m) false).
Proof using All.
  unfold Store.encode, Store.decode. case_bool_decide as Hp; intros H; apply bind_Ok in H as (m' & Hm & H).
  - simpl in Hm. unfold mret, res_ret in Hm. simplify_eq.
    destruct (marshal _) as [b|] eqn:E; [|done]. simpl in H. simplify_eq.
    rewrite (Hjson _ _ E). done.
  - simpl negb in Hm. cbv iota in Hm. apply bind_Ok in Hm as (k & Hk & Hm).
    apply map_err_Ok in Hk. unfold mret, res_ret in Hm. simplify_eq.
    destruct (marshal _) as [b|] eqn:E; [|done]. simpl in H. simplify_eq.
    rewrite (Hjson _ _ E). cbn [ok_or mbind res_bind set_key Encrypted Privkey].
    cbn [andb].
    by rewrite (proj1 (Encrypt_roundtrip _ _ _ _ _ _ _ _ _ _ Hsalt Hnonce Hk)).
Qed.

Lemma put_lookup d p f b p' f' :
  (Store.put d p f b !! p' ≫= λ files, files !! f') =
  if decide (p = p' ∧ f = f') then Some b else d !! p' ≫= λ files, files !! f'.
Proof using Type.
  unfold Store.put. rewrite lookup_insert. case_decide as E; subst; simpl.
  - rewrite lookup_insert. case_decide; subst; [by rewrite decide_True|].
    rewrite decide_False by naive_solver. by destruct (d !! p').
  - by rewrite decide_False by naive_solver.
Qed.

Lemma file_of_inj a b : Store.file_of a = Store.file_of b → a = b.
Proof using Type.
  unfold Store.file_of. intros H. apply (f_equal (cut_suffix ".key")) in H. rewrite !cut_suffix_app in H. congruence.
Qed.

(** A write puts the encoding in its file, or leaves every file as it was. *)
Lemma store_sw d p m d' e : sw store_ops d p m = (d', e) →
  (∃ b, Store.encode scrypt new_gcm Seal marshal passphrase (Some salt) (Some nonce) m = Ok b ∧
     d' = Store.put d p (Store.file_of (SessionAddress m)) b) ∨
  (e ≠ None ∧ ∀ p', default ∅ (d' !! p') = default ∅ (d !! p')).
Proof using Type.
  simpl. unfold Store.Write. destruct (Store.encode _ _ _ _ _ _ _ _) as [b|]; [|intros [= <- <-]; by right].
  destruct o as [| |[]]; intros [= <- <-]; [left; eauto..|right|by right].
  split; [done|]. intros p'. unfold Store.mkdir. rewrite lookup_insert. case_decide; subst; [done|done].
Qed.

Lemma sr_files d d' p a : default ∅ (d' !! p) = default ∅ (d !! p) → sr store_ops d' p a = sr store_ops d p a.
Proof using Type.
  intros H. simpl. unfold Store.Read.
  assert (Hd : ∀ d : Store.Disk, (d !! p ≫= λ files, files !! Store.file_of a) = default ∅ (d !! p) !! Store.file_of a)
    by (intros d0; by destruct (d0 !! p)).
  by rewrite !Hd, H.
Qed.

Lemma store_written d p m b :
  Store.encode scrypt new_gcm Seal marshal passphrase (Some salt) (Some nonce) m = Ok b →
  written store_ops d p m (Store.put d p (Store.file_of (SessionAddress m)) b).
Proof using All.
  intros Hb. split; simpl; unfold Store.Read.
  - rewrite put_lookup, decide_True by done. simpl. by rewrite (decode_encode _ _ Hb).
  - intros p' a Hne. rewrite put_lookup, decide_False; [done|]. intros [-> E%file_of_inj]. by subst.
Qed.

(** C15: the session store keeps its contract.  With a JSON codec that
    round-trips and the AEAD of [Secret], a session written is read back with
    its private key in the clear whatever the passphrase setting; a write that
    reports an error left every session as it was or, when only its directory
    could not be synced, wrote its own session whole; deletes only remove,
    every listed session is one that can be read, and no operation touches
    another session's file. *)
Theorem Store_refines : StoreLaws store_ops.
Proof using All.
  constructor.
  - intros d p m d' [(b & Hb & ->)|[? _]]%store_sw; [by apply store_written|done].
  - intros d p m d' e [(b & Hb & ->)|[_ Hf]]%store_sw; [right; by apply store_written|left].
    intros p' a. by apply sr_files.
  - intros d p a p' a' mt. simpl. destruct delete_ok; simpl; [|done]. unfold Store.Read, Store.Delete.
    destruct (decide (p = p')) as [->|Hp]; [|by rewrite lookup_alter_ne].
    rewrite lookup_alter_eq. destruct (d !! p') as [files|]; [|done]. simpl.
    destruct (decide (Store.file_of a = Store.file_of a')) as [->|Hf]; [by rewrite lookup_delete_eq|].
    by rewrite lookup_delete_ne.
  - intros d p l mt. simpl. destruct list_ok; [|done]. intros [= <-] Hin. unfold Store.List in Hin.
    apply list_elem_of_omap in Hin as ([f b] & Hfb & Hin). simpl in Hin.
    destruct (has_suffix f ".key") eqn:Hs; [|done]. apply has_suffix_spec in Hs as [a ->].
    exists a. unfold Store.Read. apply Hreaddir in Hfb.
    destruct (d !! p) as [files|] eqn:Ed; rewrite ?Ed in Hfb; simpl in Hfb; [|by rewrite lookup_empty in Hfb].
    simpl.
    unfold Store.file_of. rewrite Hfb. simpl. by destruct (Store.decode _ _ _ _ _ _).
Qed.
End store_ops.

(** ** Properties *)

(** the best usable session signs.  After the pending sessions were checked
    against the chain, a pick returns the key, address and master of a session
    that is active, unexpired and not spent, and whose scope covers the
    request, and no other such session is more recent; it refuses with the
    paths in scope exactly when none matches but some usable session names a
    path, each path once; and it reports no session only when no usable session
    could have been named.  Go's map order decides only between sessions of the
    same second. *)
Theorem pick_best order m profile answer match_ now m' writes r :
  (∀ ps, order ps ≡ₚ map_to_list ps) →
  pickSession order m profile answer match_ now = (m', writes, r) →
  match r with
  | Ok pk => ∃ ss, eligible m' profile now match_ ss ∧
      pk = mkPicked (SessionAddress (meta ss)) (Privkey (meta ss)) (MasterAddress (meta ss)) ∧
      ∀ ss', eligible m' profile now match_ ss' → CreatedAt (meta ss') ≤ CreatedAt (meta ss)
  | Err ErrNoActiveSession =>
      ∀ ss, ¬ eligible m' profile now match_ ss ∧
            (eligible m' profile now (λ _, true) ss → mAllowPaths (meta ss) = [])
  | Err (ErrScopeMismatch paths) =>
      (∀ ss, ¬ eligible m' profile now match_ ss) ∧ NoDup paths ∧ paths ≠ [] ∧
      ∀ q, q ∈ paths ↔ ∃ ss, eligible m' profile now (λ _, true) ss ∧ q ∈ mAllowPaths (meta ss)
  end.
Proof.
  intros Ho. unfold pickSession. destruct (foldl _ _ _) as [m1 w1].
  destruct (pick_locked order m1 profile match_ now) as [m2 r2] eqn:E. intros [= <- <- <-].
  exact (pick_locked_spec order Ho _ _ _ _ _ _ E).
Qed.

Lemma pick_best_witness :
  ∃ ss, eligible (fst (fst (PickSessionForProfile map_to_list mgr1 "p" "gno.land/r/test/blog" (λ _ _, Err "") 50)))
      "p" 50 (λ ss, bool_decide ("gno.land/r/test/blog" = "") || coversRealm (mAllowPaths (meta ss)) "gno.land/r/test/blog") ss ∧
    mkPicked "g1t" "priv" "g1m" = mkPicked (SessionAddress (meta ss)) (Privkey (meta ss)) (MasterAddress (meta ss)).
Proof.
  destruct (pick_best map_to_list mgr1 "p" (λ _ _, Err "")
    (λ ss, bool_decide ("gno.land/r/test/blog" = "") || coversRealm (mAllowPaths (meta ss)) "gno.land/r/test/blog") 50
    (fst (fst (PickSessionForProfile map_to_list mgr1 "p" "gno.land/r/test/blog" (λ _ _, Err "") 50))) []
    (Ok (mkPicked "g1t" "priv" "g1m")) (λ ps, reflexivity _)) as (ss & H1 & H2 & _).
  - vm_compute. reflexivity.
  - exists ss. split; [exact H1|exact H2].
Defined.

(** A path covers itself and what is below it, and nothing that merely
    shares its spelling. *)
Theorem coversRealm_spec paths realm :
  coversRealm paths realm = true ↔
  ∃ p, p ∈ paths ∧ (realm = p ∨ ∃ rest, realm = p +:+ "/" +:+ rest).
Proof.
  unfold coversRealm. rewrite existsb_exists. split; intros (p & Hp & H); exists p; rewrite list_elem_of_In in *;
    (split; [done|]); rewrite orb_true_iff, bool_decide_eq_true, has_prefix_spec in *.
  - destruct H as [->|[rest ->]]; [by left|right]. exists rest. by rewrite str_app_assoc.
  - destruct H as [->|[rest ->]]; [by left|right]. exists rest. by rewrite str_app_assoc.
Qed.

(** C1: no signature outside a scope the chain has reported.  Starting from an
    empty disk, through any interleaving of proposals, promotions, picks, spend
    updates, status refreshes, late disk writes, disk failures and restarts, a
    session that signs was reported active by the chain for that profile and
    master, and its allowed paths, run permission and expiry are those the
    chain reported.  A proposed session signs nothing before that. *)
Theorem signing_is_confirmed {D} (store : StoreOps D) d0 w order profile match_ now m' pk :
  StoreLaws store → (∀ p a, sr store d0 p a = None) →
  rtc (mstep store) (mkWorld ∅ d0 [] [] (λ _ _ _ _, False)) w →
  (∀ ps, order ps ≡ₚ map_to_list ps) →
  pick_locked order (mem w) profile match_ now = (m', Ok pk) →
  ∃ ss, match_ ss = true ∧ pk = mkPicked (SessionAddress (meta ss)) (Privkey (meta ss)) (MasterAddress (meta ss)) ∧
    confirmed (reported w) profile (meta ss).
Proof.
  intros HL Hd Hs Ho HP.
  assert (Hi : winv store w).
  { eapply winv_steps; [exact HL|exact Hs|]. constructor; simpl.
    - intros p a ss H. unfold getState in H. by rewrite lookup_empty in H.
    - intros p a mt H. by rewrite Hd in H.
    - set_solver.
    - set_solver. }
  assert (Hw : winv store (mkWorld m' (dsk w) (snaps w) (copies w) (reported w))) by (by eapply winv_pick).
  destruct Hw as [Hm _ _ _].
  pose proof (pick_locked_spec order Ho _ _ _ _ _ _ HP) as (ss & ([a Ha] & Hu & Hmatch) & -> & _).
  exists ss. split_and!; [done|done|]. apply (Hm _ _ _ Ha). left.
  unfold usable in Hu. apply andb_true_iff in Hu as [[Hu _]%andb_true_iff _].
  by apply bool_decide_eq_true in Hu.
Qed.

(** A store over a plain map, and a session proposed, authorized on chain and
    picked. *)
Definition toy_store : StoreOps (gmap (string * string) SessionMeta) := {|
  sw d p m := (<[(p, SessionAddress m) := set_key m (Privkey m) false]> d, None);
  sd d p a := (delete (p, a) d, None);
  sr d p a := d !! (p, a);
  slist d p := Ok (omap (λ e : (string * string) * SessionMeta, if bool_decide (e.1.1 = p) then Some e.2 else None) (map_to_list d));
  sprofiles d := Ok [];
|}.

#[export] Instance toy_store_laws : StoreLaws toy_store.
Proof.
  constructor; simpl.
  - intros d p m d' [= <-]. split; simpl; [by rewrite lookup_insert_eq|]. intros p' a H. by rewrite lookup_insert_ne by done.
  - done.
  - intros d p a p' a' mt H. by apply lookup_delete_Some in H as [_ H].
  - intros d p l mt [= <-] H. apply list_elem_of_omap in H as ([[p' a] m] & Hin & H). simpl in H.
    case_bool_decide; simplify_eq. exists a. by apply elem_of_map_to_list in Hin.
Qed.

Definition toy_status : SessionStatus := mkStatus true ["gno.land/r/a"] false "9ugnot" "9ugnot" 0.
Definition toy_world : World (gmap (string * string) SessionMeta) :=
  let '(m, d, _) := AddPending toy_store ∅ ∅ "p" "g1s" "gpub1s" "priv"
                      (mkScope "9ugnot" 0 0 ["gno.land/r/a"] false) "g1m" 0 in
  let w := mkWorld m d [("p", "g1s", "g1m")] [] (λ _ _ _ _, False) in
  let '(m', c) := promote (mem w) "p" "g1s" (Ok (mkCheck true false toy_status)) in
  mkWorld m' (dsk w) (snaps w) (((λ mt, ("p", mt)) <$> option_list c) ++ copies w)
    (add_report (reported w) "p" "g1m" "g1s" toy_status).

Lemma toy_reachable : rtc (mstep toy_store) (mkWorld ∅ ∅ [] [] (λ _ _ _ _, False)) toy_world.
Proof.
  eapply rtc_l.
  { eapply (m_add _ _ "p" "g1s" "gpub1s" "priv" (mkScope "9ugnot" 0 0 ["gno.land/r/a"] false) "g1m" 0);
      [vm_compute; reflexivity|unfold AddPending; reflexivity]. }
  eapply rtc_l.
  { eapply m_own, (m_snap _ _ "p" "g1s"); [vm_compute; reflexivity|reflexivity]. }
  eapply rtc_l; [|apply rtc_refl].
  eapply m_own, (m_promote _ _ "p" "g1s" "g1m" (Ok (mkCheck true false toy_status)));
    [apply list_elem_of_here|vm_compute; reflexivity].
Qed.

Lemma signing_is_confirmed_witness :
  ∃ ss, mAllowPaths (meta ss) = ["gno.land/r/a"] ∧ confirmed (reported toy_world) "p" (meta ss).
Proof.
  destruct (signing_is_confirmed toy_store ∅ toy_world map_to_list "p"
    (λ ss, bool_decide (mAllowPaths (meta ss) = ["gno.land/r/a"])) 5 (mem toy_world)
    (mkPicked "g1s" "priv" "g1m") toy_store_laws (λ p a, lookup_empty _) toy_reachable
    (λ ps, reflexivity _)) as (ss & H1 & _ & H2).
  - vm_compute. reflexivity.
  - exists ss. split; [by apply bool_decide_eq_true in H1|exact H2].
Defined.

#[export] Instance SessionMeta_eq_dec : EqDecision SessionMeta.
Proof. solve_decision. Defined.

(** A codec for one session file. *)
Definition toy_marshal (m : SessionMeta) : option string := if decide (m = sess1) then Some "{sess1}" else None.
Definition toy_unmarshal (b : string) : option SessionMeta := if decide (b = "{sess1}") then Some sess1 else None.

Lemma Store_refines_witness :
  let ops := store_ops (λ p s : string, Some (p +:+ s)) (λ _, true) toy_seal toy_open
    toy_marshal toy_unmarshal map_to_list (λ _, []) "" "saltsaltsaltsalt" "noncenonceno" Store.Written true true in
  StoreLaws ops ∧ sr ops (fst (sw ops ∅ "p" sess1)) "p" "g1s" = Some sess1.
Proof.
  split; [|vm_compute; reflexivity].
  apply (Store_refines (λ p s : string, Some (p +:+ s)) (λ _, true) toy_seal toy_open
    toy_marshal toy_unmarshal map_to_list (λ _, []) "" "saltsaltsaltsalt" "noncenonceno" Store.Written true true).
  - intros m b. unfold toy_marshal, toy_unmarshal. case_decide; [|done]. intros [= <-]. by subst.
  - reflexivity.
  - reflexivity.
  - intros files f b H. by apply elem_of_map_to_list in H.
Defined.

(** A write whose directory sync fails reports an error and its session is
    there. *)
Example unsynced_ex :
  let ops := store_ops (λ p s : string, Some (p +:+ s)) (λ _, true) toy_seal toy_open
    toy_marshal toy_unmarshal map_to_list (λ _, []) "" "saltsaltsaltsalt" "noncenonceno" Store.Unsynced true true in
  is_Some (sw ops ∅ "p" sess1).2 ∧ sr ops (sw ops ∅ "p" sess1).1 "p" "g1s" = Some sess1.
Proof. vm_compute. split; [by eexists|reflexivity]. Qed.

(** a write is charged to its session, and a spent session stops.
    [UpdateSpend] on an active session subtracts the fee and stops at zero, in
    memory and, when the write succeeds, on disk; it touches no other session;
    and a session whose budget the fee exhausts is unusable from then on. *)
Theorem UpdateSpend_charges {D} (store : StoreOps D) m d profile addr fee m' d' u :
  StoreLaws store → 0 ≤ fee ≤ maxInt64 →
  UpdateSpend store m d profile addr fee = (m', d', Ok u) →
  ∃ ss mag denom, getState m profile addr = Some ss ∧ state ss = StateActive ∧
    parseCoins (SpendRemaining (meta ss)) = Some (mag, denom) ∧
    (0 ≤ mag → ∃ ss', getState m' profile addr = Some ss' ∧
       SpendRemaining (meta ss') = format_int (Z.max 0 (mag - fee)) +:+ denom ∧
       sr store d' profile (SessionAddress (meta ss)) = Some (set_key (meta ss') (Privkey (meta ss)) false) ∧
       (mag ≤ fee → ∀ now, usable now ss' = false)) ∧
    ∀ p' a', (p', a') ≠ (profile, addr) → getState m' p' a' = getState m p' a'.
Proof.
  intros HL Hf HU. unfold UpdateSpend in HU.
  destruct (getState m profile addr) as [ss|] eqn:Hg; [|done].
  case_bool_decide as Hst; simpl in HU; [|done].
  destruct (parseCoins (SpendRemaining (meta ss))) as [[mag denom]|] eqn:Ep; [|done].
  set (mt := set_remaining _ _) in HU. unfold persist in HU.
  destruct (sw store d profile mt) as [d1 [e|]] eqn:Es; simplify_eq.
  exists ss, mag, denom. split_and!; try done.
  - intros Hm. exists (mkState (state ss) mt). rewrite getState_set, decide_True by done.
    pose proof (parseCoins_bound _ _ _ Ep) as Hb.
    assert (Hrem : SpendRemaining mt = format_int (Z.max 0 (mag - fee)) +:+ denom).
    { simpl. rewrite wrap64_id by (unfold int64, minInt64, maxInt64 in *; lia).
      f_equal. f_equal. destruct (Z.ltb_spec (mag - fee) 0); lia. }
    split_and!; [done|done|exact (proj1 (sw_ok store _ _ _ _ Es))|].
    intros Hle now. unfold usable. simpl meta. rewrite Hrem.
    replace (Z.max 0 (mag - fee)) with 0 by lia.
    rewrite (isZeroSpend_zero denom) by (by eapply parseCoins_denom). by rewrite andb_false_r.
  - intros p' a' Hne. rewrite getState_set, decide_False; [done|]. intros [<- <-]. done.
Qed.

Lemma UpdateSpend_charges_witness :
  ∃ ss', getState (fst (fst (UpdateSpend toy_store mgr1 ∅ "p" "g1t" 70))) "p" "g1t" = Some ss' ∧
    SpendRemaining (meta ss') = "0ugnot" ∧ usable 0 ss' = false.
Proof.
  destruct (UpdateSpend_charges toy_store mgr1 ∅ "p" "g1t" 70
    (fst (fst (UpdateSpend toy_store mgr1 ∅ "p" "g1t" 70)))
    (snd (fst (UpdateSpend toy_store mgr1 ∅ "p" "g1t" 70))) tt toy_store_laws) as (ss & mag & denom & H1 & _ & H2 & H3 & _).
  - unfold maxInt64. lia.
  - vm_compute. reflexivity.
  - vm_compute in H1. injection H1 as <-. vm_compute in H2. injection H2 as <- <-.
    destruct H3 as (ss' & H4 & H5 & _ & H6); [lia|]. exists ss'.
    split; [exact H4|]. split; [exact H5|]. apply H6. lia.
Defined.
