(* ===== verification/GoPath.v ===== *)
(** * Lexical paths

    [path/filepath] on a Unix system: [Clean], [Join] of two elements and
    [Dir], with the normal form they share.  The stores build every on-disk
    name with them, so the facts here are what keeps a name inside its root. *)
From S2P Require Import Prelude GoText.
From stdpp Require Import prelude strings list.
From Stdlib Require Import ZArith Lia Ascii String.

Definition slash : ascii := "/"%char.
Definition not_slash (a : ascii) : bool := negb (Ascii.eqb a slash).
Definition no_slash (s : string) : bool := str_forall not_slash s.

Definition is_abs (s : string) : bool := has_prefix s "/".

(** One element met by [Clean]; the elements kept so far are in reverse. *)
Definition push (rooted : bool) (st : list string) (seg : string) : list string :=
  if bool_decide (seg = "") || bool_decide (seg = ".") then st
  else if bool_decide (seg = "..") then
    match st with
    | t :: st' => if bool_decide (t = "..") then ".." :: st else st'
    | [] => if rooted then [] else [".."]
    end
  else seg :: st.

Definition clean_stack (rooted : bool) (s : string) : list string :=
  foldl (push rooted) [] (split_byte slash s).

Definition render (rooted : bool) (elems : list string) : string :=
  if rooted then "/" +:+ GoText.join "/" elems
  else match elems with [] => "." | _ => GoText.join "/" elems end.

Definition Clean (s : string) : string := render (is_abs s) (reverse (clean_stack (is_abs s) s)).

(** [filepath.Join(a, b)] *)
Definition Join (a b : string) : string :=
  if bool_decide (a = "") then (if bool_decide (b = "") then "" else Clean b)
  else Clean (a +:+ "/" +:+ b).

Definition upto_slash (s : string) : string := str_rev (snd (span not_slash (str_rev s))).

Definition Dir (s : string) : string := Clean (upto_slash s).

Example Clean_ex : Clean "/a/./b//../c/" = "/a/c" ∧ Clean "../../x/.." = "../.." ∧ Clean "" = "." ∧ Clean "/.." = "/".
Proof. repeat split; reflexivity. Qed.

Example Join_Dir_ex : Join "/keys" "p" = "/keys/p" ∧ Dir "/keys/p/default.key" = "/keys/p" ∧ Dir "x" = ".".
Proof. repeat split; reflexivity. Qed.

(** ** The normal form *)

(** A plain path element: what a file or directory name is. *)
Definition seg_ok (s : string) : Prop := no_slash s = true ∧ s ≠ "" ∧ s ≠ "." ∧ s ≠ "..".

(** The reversed elements of a cleaned path: plain names over leading ".."s,
    which only a relative path keeps. *)
Fixpoint good_stack (rooted : bool) (st : list string) : Prop :=
  match st with
  | [] => True
  | t :: st' =>
      (seg_ok t ∨ (t = ".." ∧ rooted = false ∧ match st' with [] => True | u :: _ => u = ".." end))
      ∧ good_stack rooted st'
  end.

Lemma push_ok r st seg : seg_ok seg → push r st seg = seg :: st.
Proof. intros (_ & ? & ? & ?). unfold push. by rewrite !bool_decide_eq_false_2. Qed.

Lemma push_empty r st : push r st "" = st.
Proof. done. Qed.

Lemma push_good r st seg : no_slash seg = true → good_stack r st → good_stack r (push r st seg).
Proof.
  intros Hs Hg. unfold push. repeat case_bool_decide; simpl; try done.
  - destruct st as [|t st']; [destruct r; simpl; auto|].
    case_bool_decide; simplify_eq/=; [|tauto].
    destruct Hg as [[(_ & _ & _ & ?)|(_ & ? & ?)] ?]; [done|]. auto 10.
  - split; [left; by split_and!|done].
Qed.

Lemma split_no_slash s : Forall (λ x, no_slash x = true) (split_byte slash s).
Proof.
  induction s as [|a s IH]; simpl; [by repeat constructor|].
  destruct (Ascii.eqb a slash) eqn:E; [by constructor|].
  destruct (split_byte slash s) as [|x r]; inversion IH; subst; repeat constructor; try done;
    unfold no_slash in *; simpl; unfold not_slash at 1; by rewrite E.
Qed.

Lemma clean_stack_good r s : good_stack r (clean_stack r s).
Proof.
  unfold clean_stack. pose proof (split_no_slash s) as HF. revert HF.
  assert (Hnil : good_stack r []) by done. revert Hnil. generalize (@nil string).
  induction (split_byte slash s) as [|x l IH]; intros st Hst HF; [done|].
  apply Forall_cons in HF as [Hx HF]. simpl. apply IH; [by apply push_good|done].
Qed.

Lemma good_no_slash r st : good_stack r st → Forall (λ x, no_slash x = true) st.
Proof.
  induction st as [|t st IH]; [constructor|]. intros [Ht Hst]. constructor; [|auto].
  destruct Ht as [(? & _)|(-> & _)]; done.
Qed.

(** Cleaning the elements of a cleaned path changes nothing. *)
Lemma refold_good r st : good_stack r st → foldl (push r) [] (reverse st) = st.
Proof.
  induction st as [|t st IH]; [done|]. intros [Ht Hst].
  rewrite reverse_cons, foldl_app, IH by done. simpl.
  destruct Ht as [Ht|(-> & -> & Hu)]; [by apply push_ok|].
  unfold push. simpl. destruct st as [|u st]; [done|]. by subst u.
Qed.

Lemma join_cons_cons sep x y l : GoText.join sep (x :: y :: l) = x +:+ sep +:+ GoText.join sep (y :: l).
Proof. done. Qed.

Lemma join_snoc sep l x : l ≠ [] → GoText.join sep (l ++ [x]) = GoText.join sep l +:+ sep +:+ x.
Proof.
  induction l as [|y l IH]; [done|]. intros _. destruct l as [|z l]; [done|].
  change ((y :: z :: l) ++ [x]) with (y :: z :: (l ++ [x])). rewrite !join_cons_cons.
  change (z :: l ++ [x]) with ((z :: l) ++ [x]). rewrite IH by done. by rewrite !str_app_assoc.
Qed.

Lemma render_abs r st : good_stack r st → is_abs (render r (reverse st)) = r.
Proof.
  intros Hg. unfold render, is_abs. destruct r.
  { apply has_prefix_spec. by eexists. }
  destruct (reverse st) as [|x l] eqn:E; [done|].
  assert (Hin : x ∈ st) by (apply elem_of_reverse; rewrite E; left).
  assert (Hx : no_slash x = true ∧ x ≠ "").
  { clear E. induction st as [|t st IH]; [by apply elem_of_nil in Hin|].
    destruct Hg as [Ht Hst]. apply elem_of_cons in Hin as [->|Hin]; [|auto].
    destruct Ht as [(? & ? & _)|(-> & _)]; done. }
  destruct Hx as [Hx Hne]. destruct x as [|a x]; [done|].
  destruct (has_prefix _ _) eqn:Hp; [|done]. apply has_prefix_spec in Hp as (s & Hs).
  rewrite str_app_cons in Hs.
  assert (a = slash) as ->.
  { destruct l; [simpl in Hs|rewrite join_cons_cons, str_app_cons in Hs]; by injection Hs. }
  unfold no_slash in Hx. simpl in Hx. done.
Qed.

Lemma split_render r st : good_stack r st →
  foldl (push r) [] (split_byte slash (render r (reverse st))) = st.
Proof.
  intros Hg. rewrite <- (refold_good r st Hg) at 2.
  assert (HF : Forall (λ x, no_slash x = true) (reverse st)) by (rewrite Forall_reverse; by eapply good_no_slash).
  unfold render. destruct r.
  - rewrite str_app_cons, str_app_nil_l. simpl. destruct (reverse st) as [|x l]; [done|].
    unfold slash. rewrite split_byte_join by done. done.
  - destruct (reverse st) as [|x l]; [done|]. unfold slash. by rewrite split_byte_join.
Qed.

Lemma clean_render r st : good_stack r st → Clean (render r (reverse st)) = render r (reverse st).
Proof. intros Hg. unfold Clean. rewrite render_abs by done. unfold clean_stack. by rewrite split_render. Qed.

Lemma render_inj r r' st st' : good_stack r st → good_stack r' st' →
  render r (reverse st) = render r' (reverse st') → r = r' ∧ st = st'.
Proof.
  intros Hg Hg' H.
  assert (r = r') as <- by (rewrite <- (render_abs r st Hg), H; by apply render_abs).
  split; [done|]. rewrite <- (split_render r st Hg), H. by apply split_render.
Qed.

(** ** [Join] and [Dir] on plain names *)

Lemma is_abs_app a b : a ≠ "" → is_abs (a +:+ b) = is_abs a.
Proof.
  intros Ha. destruct a as [|c a]; [done|]. rewrite str_app_cons. unfold is_abs, has_prefix. simpl.
  by destruct (Ascii.eqb _ _).
Qed.

(** The elements of [root] as [Clean] keeps them, reversed. *)
Abbreviation elems root := (clean_stack (is_abs root) root).

Lemma Join_spec root seg : root ≠ "" → seg_ok seg →
  Join root seg = render (is_abs root) (reverse (seg :: elems root)).
Proof.
  intros Hr Hs. unfold Join, Clean. rewrite bool_decide_eq_false_2, is_abs_app by done.
  unfold clean_stack. change ("/" +:+ seg) with (String slash seg). rewrite split_byte_app, foldl_app.
  rewrite (split_byte_none slash seg) by apply Hs. simpl. by rewrite push_ok.
Qed.

Lemma render_nonempty r l : Forall (λ x, x ≠ "") l → render r l ≠ "".
Proof.
  unfold render. destruct r; [done|]. destruct l as [|x l]; [done|]. intros [Hx _]%Forall_cons.
  destruct x; [done|]. destruct l; [done|]. by rewrite join_cons_cons, str_app_cons.
Qed.

Lemma good_nonempty r st : good_stack r st → Forall (λ x, x ≠ "") (reverse st).
Proof.
  intros Hg. rewrite Forall_reverse. revert Hg. induction st as [|t st IH]; [constructor|]. intros [Ht Hst].
  constructor; [|auto]. destruct Ht as [(_ & ? & _)|(-> & _)]; done.
Qed.

Lemma Join_render r st seg : good_stack r st → seg_ok seg →
  Join (render r (reverse st)) seg = render r (reverse (seg :: st)).
Proof.
  intros Hg Hs. rewrite Join_spec; [|by eapply render_nonempty, good_nonempty|done].
  rewrite render_abs by done. unfold clean_stack. by rewrite split_render.
Qed.

Lemma span_all p s : str_forall p s = true → span p s = (s, "").
Proof.
  induction s as [|a s IH]; [done|]. simpl. intros [Ha Hs]%andb_true_iff.
  rewrite Ha, IH by done. done.
Qed.

Lemma span_stop p x a y : str_forall p x = true → p a = false → span p (x +:+ String a y) = (x, String a y).
Proof.
  intros Hx Ha. induction x as [|b x IH].
  { rewrite str_app_nil_l. simpl. by rewrite Ha. }
  simpl in Hx. apply andb_true_iff in Hx as [Hb Hx]. rewrite str_app_cons. simpl.
  rewrite Hb, IH by done. done.
Qed.

Lemma str_forall_rev p s : str_forall p (str_rev s) = str_forall p s.
Proof.
  induction s as [|a s IH]; [done|]. unfold str_rev. simpl. rewrite str_rev_app_spec, str_forall_app, IH.
  simpl. rewrite andb_true_r. apply andb_comm.
Qed.

Lemma upto_slash_app d x : no_slash x = true → upto_slash (d +:+ String slash x) = d +:+ "/".
Proof.
  intros Hx. unfold upto_slash. rewrite str_rev_append.
  change (String slash x) with ("/" +:+ x). rewrite str_rev_append, str_app_assoc.
  change (str_rev "/" +:+ str_rev d) with (String slash (str_rev d)).
  rewrite span_stop; [|by rewrite str_forall_rev|done]. simpl.
  change (String slash (str_rev d)) with ("/" +:+ str_rev d). rewrite str_rev_append, str_rev_involutive. done.
Qed.

Lemma upto_slash_none x : no_slash x = true → upto_slash x = "".
Proof. intros Hx. unfold upto_slash. by rewrite span_all by by rewrite str_forall_rev. Qed.

Lemma render_snoc r l x : l ≠ [] → render r (l ++ [x]) = render r l +:+ String slash x.
Proof.
  intros Hl. unfold render. destruct r; rewrite ?str_app_assoc.
  - by rewrite join_snoc.
  - destruct l as [|y l]; [done|]. change ((y :: l) ++ [x]) with (y :: (l ++ [x])) at 1.
    cbv iota. by rewrite join_snoc.
Qed.

Lemma Dir_render r st seg : good_stack r st → no_slash seg = true →
  Dir (render r (reverse (seg :: st))) = render r (reverse st).
Proof.
  intros Hg Hns. unfold Dir. rewrite reverse_cons.
  destruct (decide (reverse st = [])) as [E|Hne].
  { rewrite E. simpl. unfold render. destruct r; [|by rewrite upto_slash_none].
    change ("/" +:+ GoText.join "/" [seg]) with ("" +:+ String slash seg). by rewrite upto_slash_app. }
  rewrite render_snoc, upto_slash_app by done. unfold Clean.
  assert (Hr : render r (reverse st) ≠ "") by by eapply render_nonempty, good_nonempty.
  rewrite is_abs_app, render_abs by done. f_equal. f_equal. unfold clean_stack.
  change "/" with (String slash ""). rewrite split_byte_app, foldl_app, split_render by done. done.
Qed.

(** A name joined to a root is inside it, and different names give different
    files. *)
Lemma Join_inside root seg : root ≠ "" → seg_ok seg → Dir (Join root seg) = Clean root.
Proof. intros Hr Hs. rewrite Join_spec, Dir_render by (done || apply clean_stack_good || apply Hs). done. Qed.

Lemma Join_inj root a b : root ≠ "" → seg_ok a → seg_ok b → Join root a = Join root b → a = b.
Proof.
  intros Hr Ha Hb H. rewrite !Join_spec in H by done.
  apply render_inj in H as [_ H]; [congruence| |]; (split; [by left|apply clean_stack_good]).
Qed.

Lemma Dir_root r : Dir (render r []) = render r [].
Proof. by destruct r. Qed.
