(* ===== verification/FsUtil.v ===== *)
(** * Crash-safe file writes

    [internal/fsutil/fsutil.go].  A program is run on a file system and
    yields every state the file system passes through, one per effect of a
    system call, so a crash leaves one of them behind; any call may fail, and
    a failing [Write] may have written a part of the data. *)
From S2P Require Import Prelude GoText GoPath.
From stdpp Require Import prelude strings gmap list.
From Stdlib Require Import ZArith Lia Ascii String.

(** ** File systems *)

Inductive node := File (perm : Z) (data : string) | Directory.

Abbreviation fs := (gmap string node).

Inductive cause := CauseNotExist | CauseExist | CauseOther.

(** The step of the write that failed: what the source's wrapper names. *)
Inductive stage := SMkdir | SCreateTemp | SChmod | SWriteTemp | SSyncTemp | SCloseTemp | SRename | SLink | SSyncDir | SRemove.

Record fs_error := mkFsErr { err_stage : stage; err_cause : cause }.

#[export] Instance node_eq_dec : EqDecision node.
Proof. solve_decision. Defined.
#[export] Instance stage_eq_dec : EqDecision stage.
Proof. solve_decision. Defined.
#[export] Instance cause_eq_dec : EqDecision cause.
Proof. solve_decision. Defined.
#[export] Instance fs_error_eq_dec : EqDecision fs_error.
Proof. solve_decision. Defined.

(** [errors.Is(err, os.ErrExist)] *)
Definition IsErrExist (e : fs_error) : bool := bool_decide (err_cause e = CauseExist).

(** The system calls that may fail. *)
Inductive call :=
  | CMkdir (d : string) | CCreate | CChmod | CWrite | CSync | CClose | CMove | CRemove | COpenDir | CSyncDir.

(** ** Programs *)

Definition prog (A : Type) : Type := fs → list fs * res fs_error A.

Definition final (s : fs) (seen : list fs) : fs := default s (last seen).

#[export] Instance prog_ret : MRet prog := λ A a s, ([], Ok a).
#[export] Instance prog_bind : MBind prog := λ A B f p s,
  let '(t, r) := p s in
  match r with
  | Ok a => let '(t', r') := f a (final s t) in (t ++ t', r')
  | Err e => (t, Err e)
  end.

Definition fail {A} (e : fs_error) : prog A := λ s, ([], Err e).

(** Read the current state. *)
Definition get : prog fs := λ s, ([], Ok s).

(** [defer c]: [c] runs whatever [p] answers, and its own result is dropped. *)
Definition defer {A} (c : prog unit) (p : prog A) : prog A := λ s,
  let '(t, r) := p s in let '(t', _) := c (final s t) in (t ++ t', r).

(** The [cleanup] of [writeTemp]: [c] runs only when [p] fails. *)
Definition on_error {A} (c : prog unit) (p : prog A) : prog A := λ s,
  let '(t, r) := p s in
  match r with
  | Ok a => (t, Ok a)
  | Err e => let '(t', _) := c (final s t) in (t ++ t', Err e)
  end.

Section write.
(** Which calls fail, how much of the data a [Write] puts down before it is
    complete, and the random part of the temp name. *)
Context (fault : call → bool) (short : nat) (rnd : string).

Definition sys (c : call) (st : stage) (f : fs → cause + fs) : prog unit := λ s,
  if fault c then ([], Err (mkFsErr st CauseOther))
  else match f s with
  | inl e => ([], Err (mkFsErr st e))
  | inr s' => ([s'], Ok tt)
  end.

Definition set_file (name : string) (upd : Z → string → node) (s : fs) : cause + fs :=
  match s !! name with
  | Some (File p d) => inr (<[name := upd p d]> s)
  | _ => inl CauseOther
  end.

Definition Remove (name : string) : prog unit :=
  sys CRemove SRemove (λ s, match s !! name with None => inl CauseNotExist | Some _ => inr (delete name s) end).

(** [os.MkdirAll]: every missing directory on the way to [d]. *)
Fixpoint MkdirAll (n : nat) (d : string) : prog unit :=
  s ← get;
  match s !! d with
  | Some Directory => mret tt
  | Some (File _ _) => fail (mkFsErr SMkdir CauseOther)
  | None =>
      _ ← match n with
          | O => mret tt
          | S n => if bool_decide (Dir d = d) then mret tt else MkdirAll n (Dir d)
          end;
      sys (CMkdir d) SMkdir (λ s, match s !! d with None => inr (<[d := Directory]> s) | Some _ => inl CauseExist end)
  end.

Definition tempName (path : string) : string := GoPath.Join (Dir path) (".tmp-" +:+ rnd).

(** [os.CreateTemp(dir, ".tmp-*")]: exclusive creation with mode 0600 (384). *)
Definition CreateTemp (path : string) : prog string :=
  let name := tempName path in
  _ ← sys CCreate SCreateTemp (λ s, match s !! name with
        | None => inr (<[name := File 384 ""]> s)
        | Some _ => inl CauseExist
        end);
  mret name.

(** The data reaches the file in two steps; a failing [Write] stops after the
    first. *)
Definition WriteAll (name data : string) : prog unit := λ s,
  match set_file name (λ p _, File p (str_take short data)) s with
  | inl e => ([], Err (mkFsErr SWriteTemp e))
  | inr s1 =>
      let '(t, r) := sys CWrite SWriteTemp (set_file name (λ p _, File p data)) s1 in (s1 :: t, r)
  end.

Definition writeTemp (path data : string) (perm : Z) : prog string :=
  _ ← MkdirAll (String.length (Dir path)) (Dir path);
  name ← CreateTemp path;
  _ ← on_error (Remove name) (
        _ ← sys CChmod SChmod (set_file name (λ _ d, File perm d));
        _ ← WriteAll name data;
        _ ← sys CSync SSyncTemp inr;
        sys CClose SCloseTemp inr);
  mret name.

(** A directory that cannot be opened is not synced. *)
Definition syncDir : prog unit :=
  if fault COpenDir then mret tt else sys CSyncDir SSyncDir inr.

Definition Rename (tmp path : string) : prog unit :=
  sys CMove SRename (λ s, match s !! tmp, s !! path with
    | Some nd, (None | Some (File _ _)) => inr (<[path := nd]> (delete tmp s))
    | _, _ => inl CauseOther
    end).

Definition Link (tmp path : string) : prog unit :=
  sys CMove SLink (λ s, match s !! tmp, s !! path with
    | Some nd, None => inr (<[path := nd]> s)
    | _, Some _ => inl CauseExist
    | None, None => inl CauseNotExist
    end).

Definition WriteFileAtomic (path data : string) (perm : Z) : prog unit :=
  tmp ← writeTemp path data perm;
  defer (Remove tmp) (_ ← Rename tmp path; syncDir).

Definition WriteFileExclusive (path data : string) (perm : Z) : prog unit :=
  tmp ← writeTemp path data perm;
  defer (Remove tmp) (_ ← Link tmp path; syncDir).
End write.

(** The directories [MkdirAll] may create. *)
Fixpoint parents (n : nat) (d : string) : list string :=
  d :: match n with O => [] | S n => parents n (Dir d) end.

(** ** A logic of programs

    [triple I P p Q E]: from a state in [P], every state [p] passes through is
    in [I], and it ends in [Q] or, with an error, in [E]. *)
Definition triple {A} (I P : fs → Prop) (p : prog A) (Q : A → fs → Prop) (E : fs_error → fs → Prop) : Prop :=
  ∀ s, P s →
    Forall I (fst (p s)) ∧
    match snd (p s) with
    | Ok a => Q a (final s (fst (p s)))
    | Err e => E e (final s (fst (p s)))
    end.

Lemma final_app s t t' : final s (t ++ t') = final (final s t) t'.
Proof. unfold final. rewrite last_app. by destruct (last t'). Qed.

Lemma get_bind {A} (f : fs → prog A) s : (get ≫= f) s = f s s.
Proof. unfold mbind, prog_bind, get. change (final s []) with s. by destruct (f s s). Qed.

Section logic.
Context {A B : Type} (I : fs → Prop).

Lemma triple_ret (P : fs → Prop) (a : A) E : triple I P (mret a) (λ b s, b = a ∧ P s) E.
Proof using Type. intros s Hs. by split; [constructor|]. Qed.

Lemma triple_conseq (P P' : fs → Prop) (p : prog A) (Q Q' : A → fs → Prop) (E E' : fs_error → fs → Prop) :
  triple I P p Q E → (∀ s, P' s → P s) → (∀ a s, Q a s → Q' a s) → (∀ e s, E e s → E' e s) → triple I P' p Q' E'.
Proof using Type.
  intros H HP HQ HE s Hs. destruct (H s (HP s Hs)) as [H1 H2]. split; [done|]. case_match; auto.
Qed.

Lemma triple_bind (P : fs → Prop) (p : prog A) (f : A → prog B) R Q E :
  triple I P p R E → (∀ a, triple I (R a) (f a) Q E) → triple I P (p ≫= f) Q E.
Proof using Type.
  intros Hp Hf s Hs. destruct (Hp s Hs) as [H1 H2]. unfold mbind, prog_bind.
  destruct (p s) as [t [a|e]]; simpl in *; [|done].
  destruct (Hf a _ H2) as [H3 H4]. destruct (f a (final s t)) as [t' r]; simpl in *.
  rewrite final_app. split; [by apply Forall_app|done].
Qed.

Lemma triple_defer (P : fs → Prop) (c : prog unit) (p : prog A) Q E Q' E' :
  triple I P p Q E →
  (∀ a, triple I (Q a) c (λ _, Q' a) (λ _, Q' a)) → (∀ e, triple I (E e) c (λ _, E' e) (λ _, E' e)) →
  triple I P (defer c p) Q' E'.
Proof using Type.
  intros Hp HQ HE s Hs. destruct (Hp s Hs) as [H1 H2]. unfold defer.
  destruct (p s) as [t [a|e]]; simpl in *.
  - destruct (HQ a _ H2) as [H3 H4]. destruct (c (final s t)) as [t' r]; simpl in *.
    rewrite final_app. split; [by apply Forall_app|by destruct r].
  - destruct (HE e _ H2) as [H3 H4]. destruct (c (final s t)) as [t' r]; simpl in *.
    rewrite final_app. split; [by apply Forall_app|by destruct r].
Qed.

Lemma triple_on_error (P : fs → Prop) (c : prog unit) (p : prog A) Q E E' :
  triple I P p Q E → (∀ e, triple I (E e) c (λ _, E' e) (λ _, E' e)) → triple I P (on_error c p) Q E'.
Proof using Type.
  intros Hp HE s Hs. destruct (Hp s Hs) as [H1 H2]. unfold on_error.
  destruct (p s) as [t [a|e]]; simpl in *; [done|].
  destruct (HE e _ H2) as [H3 H4]. destruct (c (final s t)) as [t' r]; simpl in *.
  rewrite final_app. split; [by apply Forall_app|by destruct r].
Qed.
End logic.

Lemma triple_sys (fault : call → bool) I (P : fs → Prop) c st f (Q : unit → fs → Prop) (E : fs_error → fs → Prop) :
  (∀ s, P s → fault c = true → E (mkFsErr st CauseOther) s) →
  (∀ s, P s → fault c = false → match f s with inl e => E (mkFsErr st e) s | inr s' => I s' ∧ Q tt s' end) →
  triple I P (sys fault c st f) Q E.
Proof.
  intros Ht Hf s Hs. specialize (Ht s Hs). specialize (Hf s Hs). unfold sys.
  destruct (fault c); simpl; [by split; [constructor|auto]|].
  specialize (Hf eq_refl). destruct (f s); simpl; [by split; [constructor|]|].
  destruct Hf. split; [by repeat constructor|done].
Qed.

(** ** The writes *)

(** What a target path must satisfy: it is not the temp file, nor one of the
    directories above it. *)
Record target (rnd path : string) : Prop := {
  target_tmp : tempName rnd path ≠ path;
  target_path : path ∉ parents (String.length (Dir path)) (Dir path);
  target_parents : tempName rnd path ∉ parents (String.length (Dir path)) (Dir path);
}.

Section writes.
Context (fault : call → bool) (short : nat) (rnd path data : string) (perm : Z) (s0 : fs).
Context (Ht : target rnd path).
(** What must hold for the target to be replaced at all. *)
Context (φ : Prop).

Abbreviation tmp := (tempName rnd path).
Abbreviation new := (File perm data).

(** Nothing that was there before, the target apart, has changed, and nothing
    but the target, the temp file and directories is new. *)
Definition keep (s : fs) : Prop :=
  (∀ q nd, s0 !! q = Some nd → q ≠ path → s !! q = Some nd) ∧
  (∀ q nd, s !! q = Some nd → q = path ∨ q = tmp ∨ nd = Directory ∨ s0 !! q = Some nd).

Definition at_ (pv tv : option node) (s : fs) : Prop := keep s ∧ s !! path = pv ∧ s !! tmp = tv.

(** The invariant of every state the write passes through. *)
Definition whole (s : fs) : Prop := keep s ∧ (s !! path = s0 !! path ∨ (φ ∧ s !! path = Some new)).

(** The temp file is as it was before the write. *)
Definition settled (pv : option node) (s : fs) : Prop :=
  keep s ∧ s !! path = pv ∧ (fault CRemove = false → s !! tmp = s0 !! tmp).

Lemma keep_insert q nd s : s0 !! q = None ∨ q = path → q = path ∨ q = tmp ∨ nd = Directory →
  keep s → keep (<[q := nd]> s).
Proof using Type.
  intros Hq Hnd [Hk Hn]. split; intros q' nd' H.
  - intros Hne. rewrite lookup_insert_ne; [by apply Hk|]. intros ->. destruct Hq; congruence.
  - destruct (decide (q = q')) as [->|Hne]; [rewrite lookup_insert_eq in H; naive_solver|].
    rewrite lookup_insert_ne in H by done. by apply Hn.
Qed.

Lemma keep_delete q s : s0 !! q = None ∨ q = path → keep s → keep (delete q s).
Proof using Type.
  intros Hq [Hk Hn]. split; intros q' nd' H.
  - intros Hne. rewrite lookup_delete_ne; [by apply Hk|]. intros ->. destruct Hq; congruence.
  - apply lookup_delete_Some in H as [_ H]. by apply Hn.
Qed.

Lemma at_whole tv s : at_ (s0 !! path) tv s → whole s.
Proof using Type. intros (? & ? & _). split; auto. Qed.

Lemma at_new_whole tv s : φ → at_ (Some new) tv s → whole s.
Proof using Type. intros Hφ (? & ? & _). split; auto. Qed.

Abbreviation before := (at_ (s0 !! path)).

Lemma keep_absent q s : keep s → q ≠ path → s !! q = None → s0 !! q = None.
Proof using Type.
  intros [Hk _] Hne Hs. destruct (s0 !! q) as [nd|] eqn:E; [|done]. rewrite (Hk q nd) in Hs by done. done.
Qed.

Lemma MkdirAll_spec n d : path ∉ parents n d → tmp ∉ parents n d →
  triple whole (before (s0 !! tmp)) (MkdirAll fault n d) (λ _, before (s0 !! tmp))
    (λ e s, err_stage e = SMkdir ∧ before (s0 !! tmp) s).
Proof using Type.
  revert d. induction n as [|n IH]; intros d Hp Hq.
  all: assert (Hd : d ≠ path ∧ d ≠ tmp) by (split; intros ->; [apply Hp|apply Hq]; left); destruct Hd as [Hdp Hdt].
  all: assert (Hmk : triple whole (before (s0 !! tmp))
        (sys fault (CMkdir d) SMkdir (λ s, match s !! d with None => inr (<[d := Directory]> s) | Some _ => inl CauseExist end))
        (λ _, before (s0 !! tmp)) (λ e s, err_stage e = SMkdir ∧ before (s0 !! tmp) s)).
  1, 3: apply triple_sys; [done|]; intros s Hs _; destruct (s !! d) eqn:Es; [done|];
    destruct Hs as (Hk & Hpv & Htv);
    assert (Hs' : before (s0 !! tmp) (<[d := Directory]> s)) by
      (split; [apply keep_insert; [left; by eapply keep_absent|auto|done]|by rewrite !lookup_insert_ne by done]);
    split; [by eapply at_whole|done].
  all: intros s Hs; simpl; rewrite get_bind; destruct (s !! d) as [[? ?|]|]; simpl; [by split; [constructor|]..|].
  all: refine (triple_bind whole (before (s0 !! tmp)) _ _ (λ _, before (s0 !! tmp)) _ _ _ (λ _, Hmk) s Hs).
  all: assert (Hret : triple whole (before (s0 !! tmp)) (mret tt) (λ _, before (s0 !! tmp))
        (λ e s, err_stage e = SMkdir ∧ before (s0 !! tmp) s)) by (intros s' Hs'; by split; [constructor|]).
  { done. }
  case_bool_decide; [done|]. apply IH; intros Hin; [apply Hp|apply Hq]; by right.
Qed.

Lemma set_file_spec name upd pv p d s : name = tmp → s0 !! tmp = None →
  at_ pv (Some (File p d)) s →
  ∃ s', set_file name upd s = inr s' ∧ at_ pv (Some (upd p d)) s'.
Proof using Ht.
  intros -> Hn (Hk & Hp & Hq). exists (<[tmp := upd p d]> s). split; [unfold set_file; by rewrite Hq|].
  pose proof (target_tmp _ _ Ht). split; [apply keep_insert; auto|].
  by rewrite lookup_insert_eq, lookup_insert_ne.
Qed.

(** One change to the temp file. *)
Lemma set_file_step c st upd p d : s0 !! tmp = None →
  triple whole (before (Some (File p d))) (sys fault c st (set_file tmp upd))
    (λ _, before (Some (upd p d))) (λ e s, err_stage e = st ∧ before (Some (File p d)) s).
Proof using Ht.
  intros Hn. apply triple_sys; [done|]. intros s Hs _.
  destruct (set_file_spec tmp upd _ p d s eq_refl Hn Hs) as (s' & -> & Hs').
  split; [by eapply at_whole|done].
Qed.

Lemma sync_step c st pv tv : (∀ s, at_ pv tv s → whole s) →
  triple whole (at_ pv tv) (sys fault c st inr) (λ _, at_ pv tv) (λ e s, err_stage e = st ∧ at_ pv tv s).
Proof using Type. intros Hw. apply triple_sys; [done|]. intros s Hs _. split; auto. Qed.

Lemma Remove_spec pv tv : (∀ tv s, at_ pv tv s → whole s) → s0 !! tmp = None →
  triple whole (at_ pv tv) (Remove fault tmp) (λ _, settled pv) (λ _, settled pv).
Proof using Ht.
  intros Hw Hn. pose proof (target_tmp _ _ Ht). apply triple_sys.
  - intros s (? & ? & _) Hf. split_and!; [done..|congruence].
  - intros s (Hk & Hp & Hq) _. destruct (s !! tmp) eqn:Es.
    2: { split_and!; [done..|]. intros _. congruence. }
    assert (Hd : at_ pv None (delete tmp s)) by
      (split_and!; [apply keep_delete; auto|by rewrite lookup_delete_ne|by rewrite lookup_delete_eq]).
    split; [by eapply Hw|]. destruct Hd as (? & ? & Hd). split_and!; [done..|]. intros _. congruence.
Qed.

Definition write_stage (e : fs_error) : Prop := err_stage e ≠ SSyncDir ∧ err_stage e ≠ SLink ∧ err_stage e ≠ SRename.

Lemma WriteAll_spec p d : s0 !! tmp = None →
  triple whole (before (Some (File p d))) (WriteAll fault short tmp data)
    (λ _, before (Some (File p data))) (λ e s, write_stage e ∧ ∃ tv, before (Some tv) s).
Proof using Ht.
  intros Hn s Hs. unfold WriteAll.
  destruct (set_file_spec tmp (λ p _, File p (str_take short data)) _ p d s eq_refl Hn Hs) as (s1 & -> & Hs1).
  destruct (set_file_step CWrite SWriteTemp (λ p _, File p data) p (str_take short data) Hn s1 Hs1) as [H1 H2].
  destruct (sys fault CWrite _ _ s1) as [t r]; simpl in *.
  change (s1 :: t) with ([s1] ++ t). rewrite final_app. simpl.
  split; [constructor; [by eapply at_whole|done]|].
  destruct r; [done|]. destruct H2 as [E H2]. split; [unfold write_stage; by rewrite E|eauto].
Qed.

Lemma before_settled s : before (s0 !! tmp) s → settled (s0 !! path) s.
Proof using Type. by intros (? & ? & ?). Qed.

(** The temp file is complete, or nothing is left behind. *)
Lemma writeTemp_spec :
  triple whole (before (s0 !! tmp)) (writeTemp fault short rnd path data perm)
    (λ name s, name = tmp ∧ s0 !! tmp = None ∧ before (Some new) s)
    (λ e s, write_stage e ∧ settled (s0 !! path) s).
Proof using Ht.
  pose proof (target_tmp _ _ Ht) as Hne. unfold writeTemp. eapply triple_bind.
  { eapply triple_conseq; [apply MkdirAll_spec; apply Ht|done|exact (λ _ _ H, H)|].
    intros e s [He Hs]. split; [unfold write_stage; by rewrite He|by apply before_settled]. }
  intros []. eapply triple_bind with (R := λ name s, name = tmp ∧ s0 !! tmp = None ∧ before (Some (File 384 "")) s).
  { unfold CreateTemp. eapply triple_bind
      with (R := λ _ s, s0 !! tmp = None ∧ before (Some (File 384 "")) s).
    - apply triple_sys; intros s Hs _; [split; [by split_and!|by apply before_settled]|].
      destruct (s !! tmp) eqn:Es; [split; [by split_and!|by apply before_settled]|].
      destruct Hs as (Hk & Hp & Hq). pose proof (keep_absent _ _ Hk Hne Es) as Hn.
      assert (Hs' : before (Some (File 384 "")) (<[tmp := File 384 ""]> s)) by
        (split_and!; [apply keep_insert; auto|by rewrite lookup_insert_ne|by rewrite lookup_insert_eq]).
      split; [by eapply at_whole|by split].
    - intros []. eapply triple_conseq; [apply triple_ret|exact (λ _ H, H)|naive_solver|intros e s H; exact H]. }
  intros name s (-> & Hn & Hs).
  refine (triple_bind whole (before (Some (File 384 ""))) _ _ (λ _, before (Some new))
    (λ name s, name = tmp ∧ s0 !! tmp = None ∧ before (Some new) s)
    (λ e s, write_stage e ∧ settled (s0 !! path) s) _ _ s Hs); clear s Hs.
  - eapply triple_on_error with (E := λ e s, write_stage e ∧ ∃ tv, before (Some tv) s).
    + assert (Hst : ∀ st p d e s, st ≠ SSyncDir → st ≠ SLink → st ≠ SRename →
          err_stage e = st ∧ before (Some (File p d)) s → write_stage e ∧ ∃ tv, before (Some tv) s).
      { intros st p d e s ? ? ? [<- ?]. split; [by split_and!|eauto]. }
      eapply triple_bind; [eapply triple_conseq; [by apply set_file_step|exact (λ _ H, H)|intros a s H; exact H|intros e s H; by refine (Hst _ _ _ e s _ _ _ H)]|].
      intros []. eapply triple_bind; [by apply WriteAll_spec|]. intros [].
      eapply triple_bind; [eapply triple_conseq;
        [apply sync_step; intros s; by apply at_whole|exact (λ _ H, H)|intros a s H; exact H|intros e s H; by refine (Hst _ _ _ e s _ _ _ H)]|].
      intros []. eapply triple_conseq;
        [apply sync_step; intros s; by apply at_whole|exact (λ _ H, H)|intros a s H; exact H|intros e s H; by refine (Hst _ _ _ e s _ _ _ H)].
    + intros e s [He (tv & Hs)].
      destruct (Remove_spec (s0 !! path) (Some tv)) with (s := s) as [H1 H2]; try done.
      { intros tv' s' H. by eapply at_whole. }
      split; [done|]. by destruct (snd _).
  - intros []. eapply triple_conseq; [apply triple_ret|exact (λ _ H, H)|naive_solver|intros e s H; exact H].
Qed.

Lemma syncDir_spec pv tv : (∀ s, at_ pv tv s → whole s) →
  triple whole (at_ pv tv) (syncDir fault) (λ _, at_ pv tv) (λ e s, err_stage e = SSyncDir ∧ at_ pv tv s).
Proof using Type.
  intros Hw. unfold syncDir. destruct (fault COpenDir); [|by apply sync_step].
  intros s Hs. by split; [constructor|].
Qed.

(** What a finished write leaves at its target. *)
Definition outcome (r : res fs_error unit) : option node :=
  match r with
  | Ok _ => Some new
  | Err e => if bool_decide (err_stage e = SSyncDir) then Some new else s0 !! path
  end.

(** The part the two writes share: move the finished temp file with [mv],
    sync the directory, and remove the temp name.  [ε] is what a failed
    move reports. *)
Lemma place_spec (mv : string → prog unit) tv (ε : fs_error → Prop) :
  (s0 !! tmp = None →
   triple whole (before (Some new)) (mv tmp) (λ _ s, φ ∧ at_ (Some new) tv s)
     (λ e s, (err_stage e ≠ SSyncDir ∧ ε e) ∧ before (Some new) s)) →
  triple whole (before (s0 !! tmp))
    (tmp' ← writeTemp fault short rnd path data perm; defer (Remove fault tmp') (_ ← mv tmp'; syncDir fault))
    (λ a s, φ ∧ settled (outcome (Ok a)) s)
    (λ e s, (write_stage e ∨ (err_stage e = SSyncDir ∧ φ) ∨ ε e) ∧ settled (outcome (Err e)) s).
Proof using Ht.
  intros Hmv. eapply triple_bind.
  { eapply triple_conseq; [apply writeTemp_spec|done|exact (λ _ _ H, H)|].
    intros e s [He Hs]. simpl. rewrite bool_decide_eq_false_2 by apply He. auto. }
  intros name s (-> & Hn & Hs). specialize (Hmv Hn).
  assert (Hw : φ → ∀ tv s, at_ (Some new) tv s → whole s) by (intros Hφ tv' s'; by apply at_new_whole).
  assert (Hb : ∀ tv s, at_ (s0 !! path) tv s → whole s) by (intros tv' s'; apply at_whole).
  assert (Hrm : ∀ (ψ : Prop) pv tv, (ψ → ∀ tv s, at_ pv tv s → whole s) →
    triple whole (λ s, ψ ∧ at_ pv tv s) (Remove fault tmp) (λ _ s, ψ ∧ settled pv s) (λ _ s, ψ ∧ settled pv s)).
  { intros ψ pv tv' Hpv s' [Hψ Hs']. destruct (Remove_spec pv tv' (Hpv Hψ) Hn s' Hs').
    split; [done|]. by destruct (snd _). }
  refine (triple_defer whole (before (Some new)) _ _ (λ _ s, φ ∧ at_ (Some new) tv s)
    (λ e s, ((err_stage e = SSyncDir ∧ φ) ∧ at_ (Some new) tv s) ∨ ((err_stage e ≠ SSyncDir ∧ ε e) ∧ before (Some new) s))
    (λ a s, φ ∧ settled (outcome (Ok a)) s)
    (λ e s, (write_stage e ∨ (err_stage e = SSyncDir ∧ φ) ∨ ε e) ∧ settled (outcome (Err e)) s)
    _ _ _ s Hs); clear s Hs.
  - eapply triple_bind.
    + eapply triple_conseq; [exact Hmv|done|exact (λ _ _ H, H)|intros e s H; by right].
    + intros [] s [Hφ Hs]. destruct (syncDir_spec _ _ (Hw Hφ tv) s Hs) as [H1 H2].
      split; [done|]. destruct (snd _); naive_solver.
  - intros []. by apply Hrm.
  - intros e s [[[He Hφ] Hs]|[[He Hε] Hs]]; simpl.
    + rewrite bool_decide_eq_true_2 by done.
      destruct (Hrm (err_stage e = SSyncDir ∧ φ) _ tv (λ H, Hw (proj2 H)) s (conj (conj He Hφ) Hs)) as [H1 H2].
      split; [done|]. destruct (snd _); destruct H2; auto.
    + rewrite bool_decide_eq_false_2 by done.
      destruct (Hrm (ε e) _ (Some new) (λ _, Hb) s (conj Hε Hs)) as [H1 H2].
      split; [done|]. destruct (snd _); destruct H2; auto.
Qed.

Lemma Rename_spec : φ → s0 !! tmp = None →
  triple whole (before (Some new)) (Rename fault tmp path) (λ _ s, φ ∧ at_ (Some new) None s)
    (λ e s, (err_stage e ≠ SSyncDir ∧ True) ∧ before (Some new) s).
Proof using Ht.
  intros Hφ Hn. pose proof (target_tmp _ _ Ht) as Hne. apply triple_sys; [done|].
  intros s Hs _. pose proof Hs as (Hk & Hp & Hq). rewrite Hq.
  destruct (s !! path) as [[? ?|]|] eqn:Es; [|done|];
    (assert (Hs' : at_ (Some new) None (<[path := new]> (delete tmp s)));
     [split_and!; [apply keep_insert; auto; apply keep_delete; auto|by rewrite lookup_insert_eq
       |by rewrite lookup_insert_ne, lookup_delete_eq]
     |split; [by eapply at_new_whole|done]]).
Qed.

Lemma Link_spec : (s0 !! path = None → φ) → s0 !! tmp = None →
  triple whole (before (Some new)) (Link fault tmp path) (λ _ s, φ ∧ at_ (Some new) (Some new) s)
    (λ e s, (err_stage e ≠ SSyncDir ∧
              err_stage e = SLink ∧ (fault CMove = false → IsErrExist e = true ∧ s0 !! path ≠ None))
            ∧ before (Some new) s).
Proof using Ht.
  intros Hφ Hn. pose proof (target_tmp _ _ Ht) as Hne. apply triple_sys; [by intros s Hs ->|].
  intros s Hs _. pose proof Hs as (Hk & Hp & Hq). rewrite Hq.
  destruct (s !! path) as [nd|] eqn:Es; [split; [|done]; split_and!; try done; intros _; split; [done|by rewrite <- Hp]|].
  assert (Hψ : φ) by (apply Hφ; congruence).
  assert (Hs' : at_ (Some new) (Some new) (<[path := new]> s)) by
    (split_and!; [apply keep_insert; auto|by rewrite lookup_insert_eq|by rewrite lookup_insert_ne]).
  split; [by eapply at_new_whole|by split].
Qed.

Lemma before_start : before (s0 !! tmp) s0.
Proof using Type. split_and!; [split|..]; auto. Qed.
End writes.

Section results.
Context (fault : call → bool) (short : nat) (rnd path data : string) (perm : Z) (s : fs).
Context (Ht : target rnd path).

Lemma Atomic_spec :
  let '(seen, r) := WriteFileAtomic fault short rnd path data perm s in
  Forall (whole rnd path data perm s True) seen ∧
  settled fault rnd path s (outcome path data perm s r) (final s seen).
Proof using Ht.
  destruct (place_spec fault short rnd path data perm s Ht True (λ t, Rename fault t path) None (λ _, True)
    (Rename_spec fault rnd path data perm s Ht True Logic.I) s (before_start rnd path s)) as [H1 H2].
  unfold WriteFileAtomic. destruct (@mbind prog _ _ _ _ _ s) as [seen [[]|e]]; simpl in *; (split; [done|apply H2]).
Qed.

Lemma Exclusive_spec :
  let '(seen, r) := WriteFileExclusive fault short rnd path data perm s in
  Forall (whole rnd path data perm s (s !! path = None)) seen ∧
  settled fault rnd path s (outcome path data perm s r) (final s seen) ∧
  match r with
  | Ok _ => s !! path = None
  | Err e => (err_stage e = SSyncDir → s !! path = None) ∧
             (err_stage e = SLink → fault CMove = false → IsErrExist e = true ∧ s !! path ≠ None)
  end.
Proof using Ht.
  destruct (place_spec fault short rnd path data perm s Ht (s !! path = None) (λ t, Link fault t path) _ _
    (Link_spec fault rnd path data perm s Ht _ (λ H, H)) s (before_start rnd path s)) as [H1 H2].
  unfold WriteFileExclusive. destruct (@mbind prog _ _ _ _ _ s) as [seen [[]|e]]; simpl in *; (split; [done|]).
  - by destruct H2.
  - destruct H2 as [He Hs]. split; [done|]. destruct He as [(Ha & Hb & _)|[[Ha Hb]|[Ha Hb]]].
    + by split.
    + split; [done|]. intros Hl. rewrite Ha in Hl. done.
    + split; [intros Hs'; rewrite Ha in Hs'; done|]. intros _. exact Hb.
Qed.
End results.

(** ** The directory of the target *)

Section directory.
Context (fault : call → bool) (short : nat) (rnd path data : string) (perm : Z).
Context (Ht : target rnd path).

Definition has_dir (s : fs) : Prop := s !! Dir path = Some Directory.

Lemma dir_not_target : Dir path ≠ path ∧ Dir path ≠ tempName rnd path.
Proof using Ht.
  pose proof (target_path _ _ Ht) as H1. pose proof (target_parents _ _ Ht) as H2.
  assert (Hin : Dir path ∈ parents (String.length (Dir path)) (Dir path)) by (destruct (String.length _); left).
  split; intros E; [apply H1|apply H2]; rewrite <- E at 1; exact Hin.
Qed.

Abbreviation stable p := (triple (λ _, True) has_dir p (λ _, has_dir) (λ _, has_dir)).

Lemma stable_bind {A B} (p : prog A) (f : A → prog B) : stable p → (∀ a, stable (f a)) → stable (p ≫= f).
Proof using Type. intros Hp Hf. by eapply triple_bind. Qed.

Lemma stable_sys c st f : (∀ s s', has_dir s → f s = inr s' → has_dir s') → stable (sys fault c st f).
Proof using Type. intros H. apply triple_sys; [done|]. intros s Hs _. destruct (f s) eqn:E; eauto. Qed.

Lemma stable_set c st upd : stable (sys fault c st (set_file (tempName rnd path) upd)).
Proof using Ht.
  apply stable_sys. intros s s' Hs. unfold set_file, has_dir. destruct (s !! tempName rnd path) as [[? ?|]|]; [|done..].
  intros [= <-]. rewrite lookup_insert_ne; [done|]. intros E. by apply dir_not_target.
Qed.

Lemma stable_Remove : stable (Remove fault (tempName rnd path)).
Proof using Ht.
  apply stable_sys. intros s s' Hs. destruct (s !! _); [|done]. intros [= <-]. unfold has_dir.
  rewrite lookup_delete_ne; [done|]. intros E. by apply dir_not_target.
Qed.

Lemma MkdirAll_dir n d : triple (λ _, True) (λ _, True) (MkdirAll fault n d) (λ _ s, s !! d = Some Directory) (λ _ _, True).
Proof using Type.
  assert (Hmk : ∀ d, triple (λ _, True) (λ _, True)
      (sys fault (CMkdir d) SMkdir (λ s, match s !! d with None => inr (<[d := Directory]> s) | Some _ => inl CauseExist end))
      (λ _ s, s !! d = Some Directory) (λ _ _, True)).
  { intros d'. apply triple_sys; [done|]. intros s _ _. destruct (s !! d'); [done|]. by rewrite lookup_insert_eq. }
  revert d. induction n as [|n IH]; intros d s _; simpl; rewrite get_bind;
    (destruct (s !! d) as [[? ?|]|] eqn:Es; simpl; [by split; [constructor|]..|]).
  all: refine (triple_bind (λ _, True) (λ _, True) _ _ (λ _ _, True) _ (λ _ _, True) _ (λ _, Hmk d) s Logic.I).
  all: assert (Hret : triple (λ _, True) (λ _, True) (mret tt) (λ (_ : unit) _, True) (λ _ _, True))
    by (intros s' _; by split; [constructor|]).
  { done. }
  case_bool_decide; [done|]. eapply triple_conseq; [apply IH|done..].
Qed.

Lemma stable_writeTemp : triple (λ _, True) (λ _, True) (writeTemp fault short rnd path data perm)
  (λ name s, name = tempName rnd path ∧ has_dir s) (λ _ _, True).
Proof using Ht.
  assert (Hw : ∀ {A} (p : prog A), stable p → triple (λ _, True) has_dir p (λ _, has_dir) (λ _ _, True)).
  { intros A p Hp. by eapply triple_conseq. }
  assert (Hsync : ∀ c st, stable (sys fault c st inr)).
  { intros c st. apply stable_sys. by intros s s' Hs [= <-]. }
  unfold writeTemp. eapply triple_bind; [apply MkdirAll_dir|]. intros [].
  eapply triple_bind with (R := λ name s, name = tempName rnd path ∧ has_dir s).
  { unfold CreateTemp. eapply triple_bind with (R := λ _, has_dir).
    - apply Hw, stable_sys. intros s s' Hs. destruct (s !! _); [done|]. intros [= <-]. unfold has_dir.
      rewrite lookup_insert_ne; [done|]. intros E. by apply dir_not_target.
    - intros [] s Hs. by split; [constructor|]. }
  intros name s [-> Hs].
  refine (triple_bind (λ _, True) has_dir _ _ (λ _, has_dir) (λ name s, name = tempName rnd path ∧ has_dir s)
    (λ _ _, True) _ _ s Hs); clear s Hs; [|intros [] s Hs; by split; [constructor|]].
  eapply triple_on_error with (E := λ _, has_dir); [|intros e; eapply triple_conseq; [apply stable_Remove|done..]].
  apply stable_bind; [apply stable_set|]. intros _. apply stable_bind; [|intros _; by apply stable_bind].
  intros s Hs. unfold WriteAll. destruct (set_file _ _ s) as [|s1] eqn:Es; [by split; [constructor|]|].
  assert (Hs1 : has_dir s1).
  { destruct (stable_set CWrite SWriteTemp (λ p _, File p (str_take short data)) s Hs) as [_ H].
    unfold set_file in Es. destruct (s !! tempName rnd path) as [[? ?|]|]; [|done..]. injection Es as <-.
    unfold has_dir. rewrite lookup_insert_ne; [done|]. intros E. by apply dir_not_target. }
  destruct (stable_set CWrite SWriteTemp (λ p _, File p data) s1 Hs1) as [H1 H2].
  destruct (sys fault CWrite _ _ s1) as [t r]; simpl in *. change (s1 :: t) with ([s1] ++ t).
  rewrite final_app. split; [by constructor|done].
Qed.

(** A write that succeeded left its directory in place. *)
Lemma Exclusive_dir s : let '(seen, r) := WriteFileExclusive fault short rnd path data perm s in
  is_ok r = true → has_dir (final s seen).
Proof using Ht.
  assert (H : triple (λ _, True) (λ _, True) (WriteFileExclusive fault short rnd path data perm) (λ _, has_dir) (λ _ _, True)).
  { unfold WriteFileExclusive. eapply triple_bind; [apply stable_writeTemp|]. intros name s0 [-> Hs0].
    refine (triple_defer (λ _, True) has_dir _ _ (λ _, has_dir) (λ _, has_dir) (λ _, has_dir) (λ _ _, True) _ _ _ s0 Hs0).
    - apply stable_bind.
      + apply stable_sys. intros s1 s' Hs. destruct (s1 !! tempName rnd path), (s1 !! path); try done. intros [= <-].
        unfold has_dir. rewrite lookup_insert_ne; [done|]. intros E. destruct dir_not_target as [Hd _]. by apply Hd.
      + intros []. unfold syncDir. destruct (fault COpenDir); [intros s1 Hs; by split; [constructor|]|].
        apply stable_sys. by intros s1 s' Hs [= <-].
    - intros _. apply stable_Remove.
    - intros _. eapply triple_conseq; [apply stable_Remove|done..]. }
  destruct (H s Logic.I) as [_ H2]. destruct (WriteFileExclusive _ _ _ _ _ _ s) as [seen [[]|e]]; [by intros _|done].
Qed.
End directory.

(** ** Runs that succeed *)

Definition runs {A} (p : prog A) (s : fs) (a : A) (s' : fs) : Prop :=
  ∃ t, p s = (t, Ok a) ∧ final s t = s'.

Lemma runs_ret {A} (a : A) s : runs (mret a) s a s.
Proof. by exists []. Qed.

Lemma runs_bind {A B} (p : prog A) (f : A → prog B) s a s' b s'' :
  runs p s a s' → runs (f a) s' b s'' → runs (p ≫= f) s b s''.
Proof.
  intros (t & E & Hs) (t' & E' & Hs'). exists (t ++ t'). unfold mbind, prog_bind.
  rewrite E, Hs, E', final_app, Hs. done.
Qed.

Lemma runs_sys fault c st f s s' : fault c = false → f s = inr s' → runs (sys fault c st f) s tt s'.
Proof. intros Hf E. exists [s']. unfold sys. by rewrite Hf, E. Qed.

Lemma runs_on_error {A} c (p : prog A) s a s' : runs p s a s' → runs (on_error c p) s a s'.
Proof. intros (t & E & Hs). exists t. unfold on_error. by rewrite E. Qed.

Lemma runs_defer {A} c (p : prog A) s a s' : runs p s a s' → snd (defer c p s) = Ok a.
Proof. intros (t & E & Hs). unfold defer. rewrite E. by destruct (c _). Qed.

(** With every call working, a free temp name and the directory in place, the
    writes succeed. *)
Section live.
Context (fault : call → bool) (short : nat) (rnd path data : string) (perm : Z) (s : fs).
Context (Ht : target rnd path) (Hf : ∀ c, fault c = false).
Context (Hdir : s !! Dir path = Some Directory) (Hfree : s !! tempName rnd path = None).

Abbreviation tmp := (tempName rnd path).

Lemma MkdirAll_present n d : s !! d = Some Directory → runs (MkdirAll fault n d) s tt s.
Proof using Type. intros Hd. exists []. destruct n; simpl; rewrite get_bind, Hd; done. Qed.

Lemma runs_set st c upd p d s' : s' !! tmp = Some (File p d) →
  runs (sys fault c st (set_file tmp upd)) s' tt (<[tmp := upd p d]> s').
Proof using Hf. intros Hs. apply runs_sys; [done|]. unfold set_file. by rewrite Hs. Qed.

Lemma runs_write p d s' : s' !! tmp = Some (File p d) →
  runs (WriteAll fault short tmp data) s' tt (<[tmp := File p data]> s').
Proof using Hf.
  intros Hs. set (s1 := <[tmp := File p (str_take short data)]> s').
  destruct (runs_set SWriteTemp CWrite (λ p _, File p data) p (str_take short data) s1) as (t & E & Ht1).
  { apply lookup_insert_eq. }
  exists (s1 :: t). unfold WriteAll, set_file at 1. rewrite Hs. fold s1. rewrite E. split; [done|].
  change (s1 :: t) with ([s1] ++ t). rewrite final_app. change (final s' [s1]) with s1.
  rewrite Ht1. apply insert_insert_eq.
Qed.

Lemma writeTemp_live : runs (writeTemp fault short rnd path data perm) s tmp (<[tmp := File perm data]> s).
Proof using Hdir Hf Hfree.
  unfold writeTemp. eapply runs_bind; [by apply MkdirAll_present|]. simpl.
  eapply runs_bind; [eapply runs_bind; [apply runs_sys; [done|by rewrite Hfree]|apply runs_ret]|].
  eapply runs_bind; [apply runs_on_error|apply runs_ret].
  eapply runs_bind; [apply (runs_set _ _ _ 384 ""), lookup_insert_eq|].
  eapply runs_bind; [apply (runs_write perm ""), lookup_insert_eq|].
  rewrite !insert_insert_eq.
  eapply runs_bind; by apply runs_sys.
Qed.

Lemma runs_syncDir s' : runs (syncDir fault) s' tt s'.
Proof using Hf. unfold syncDir. rewrite Hf. by apply runs_sys. Qed.

Lemma Atomic_live : s !! path ≠ Some Directory → snd (WriteFileAtomic fault short rnd path data perm s) = Ok tt.
Proof using Ht Hdir Hf Hfree.
  intros Hp. destruct writeTemp_live as (t & E & Hs). unfold WriteFileAtomic, mbind, prog_bind. rewrite E, Hs.
  match goal with |- snd (let '(_, _) := defer ?c ?p ?s in _) = _ => assert (snd (defer c p s) = Ok tt) as H end.
  { eapply runs_defer, runs_bind; [|apply runs_syncDir]. apply runs_sys; [done|].
    rewrite lookup_insert_eq, lookup_insert_ne by apply Ht. by destruct (s !! path) as [[? ?|]|]. }
  by destruct (defer _ _ _).
Qed.

Lemma Exclusive_live : s !! path = None → snd (WriteFileExclusive fault short rnd path data perm s) = Ok tt.
Proof using Ht Hdir Hf Hfree.
  intros Hp. destruct writeTemp_live as (t & E & Hs). unfold WriteFileExclusive, mbind, prog_bind. rewrite E, Hs.
  match goal with |- snd (let '(_, _) := defer ?c ?p ?s in _) = _ => assert (snd (defer c p s) = Ok tt) as H end.
  { eapply runs_defer, runs_bind; [|apply runs_syncDir]. apply runs_sys; [done|].
    rewrite lookup_insert_eq, lookup_insert_ne by apply Ht. by rewrite Hp. }
  by destruct (defer _ _ _).
Qed.
End live.

(** ** Theorems *)

(** [WriteFileAtomic] is all or nothing.  Whatever system calls fail and
    wherever a crash stops it, the target holds its old content or the whole
    new one with the requested mode, and nothing else that existed changes;
    on return the target is the new file exactly when the write succeeded or
    only the final directory sync failed, and the temp file is gone; and with
    working calls the write succeeds. *)
Theorem WriteFileAtomic_all_or_nothing fault short rnd path data perm s :
  target rnd path →
  let '(seen, r) := WriteFileAtomic fault short rnd path data perm s in
  (∀ s', s' ∈ seen → s' !! path = s !! path ∨ s' !! path = Some (File perm data)) ∧
  (∀ s' q nd, s' ∈ seen → s !! q = Some nd → q ≠ path → s' !! q = Some nd) ∧
  final s seen !! path =
    match r with
    | Ok _ => Some (File perm data)
    | Err e => if bool_decide (err_stage e = SSyncDir) then Some (File perm data) else s !! path
    end ∧
  (fault CRemove = false → final s seen !! tempName rnd path = s !! tempName rnd path) ∧
  ((∀ c, fault c = false) → s !! Dir path = Some Directory → s !! tempName rnd path = None →
   s !! path ≠ Some Directory → r = Ok tt).
Proof.
  intros Ht. pose proof (Atomic_spec fault short rnd path data perm s Ht) as H.
  pose proof (Atomic_live fault short rnd path data perm s Ht) as Hl.
  destruct (WriteFileAtomic _ _ _ _ _ _ s) as [seen r]. destruct H as (HF & Hk & Hp & Hr).
  rewrite Forall_forall in HF. split_and!; [|intros s' q nd Hs'; apply HF, Hs'|done|done|by auto].
  intros s' Hs'. destruct (HF s' Hs') as [_ [?|[_ ?]]]; auto.
Qed.

(** A key file under an existing directory. *)
Definition demo_path : string := "/keys/p/default.key".
Definition demo_fs : fs := {[ "/" := Directory; "/keys" := Directory; "/keys/p" := Directory ]}.
Definition demo_old : fs := <[demo_path := File 384 "old"]> demo_fs.

Lemma demo_target : target "42" demo_path.
Proof.
  split; [by vm_compute|..]; apply (bool_decide_eq_false_1 (_ ∈ _)); vm_compute; reflexivity.
Qed.

Lemma demo_dir (s : fs) : s = demo_fs ∨ s = demo_old → s !! Dir demo_path = Some Directory.
Proof. intros [-> | ->]; vm_compute; reflexivity. Qed.

Lemma WriteFileAtomic_all_or_nothing_witness :
  let '(seen, r) := WriteFileAtomic (λ _, false) 1 "42" demo_path "new" 384 demo_old in
  final demo_old seen !! demo_path = match r with
    | Ok _ => Some (File 384 "new")
    | Err e => if bool_decide (err_stage e = SSyncDir) then Some (File 384 "new") else Some (File 384 "old")
    end ∧ r = Ok tt.
Proof.
  pose proof (WriteFileAtomic_all_or_nothing (λ _, false) 1 "42" demo_path "new" 384 demo_old demo_target) as H.
  destruct (WriteFileAtomic _ _ _ _ _ _ _) as [seen r]. destruct H as (_ & _ & Hf & _ & Hl).
  split; [exact Hf|]. apply Hl; [done|by apply demo_dir; right|vm_compute; reflexivity|by vm_compute].
Defined.

(** [WriteFileExclusive] never touches an existing target: if the path is
    taken its node is the same in every state passed through and the write
    fails, with [os.ErrExist] when it is the link that fails; if it is free it
    ends up absent or whole; the rest of the file system is unchanged, the temp
    file is gone, and with working calls a free path is written. *)
Theorem WriteFileExclusive_never_overwrites fault short rnd path data perm s :
  target rnd path →
  let '(seen, r) := WriteFileExclusive fault short rnd path data perm s in
  (∀ nd, s !! path = Some nd →
     is_ok r = false ∧ (∀ s', s' ∈ seen → s' !! path = Some nd) ∧ final s seen !! path = Some nd) ∧
  (s !! path = None → ∀ s', s' ∈ seen → s' !! path = None ∨ s' !! path = Some (File perm data)) ∧
  (∀ e, r = Err e → err_stage e = SLink → fault CMove = false → IsErrExist e = true) ∧
  (r = Ok tt → s !! path = None ∧ final s seen !! path = Some (File perm data)) ∧
  (∀ s' q nd, s' ∈ seen → s !! q = Some nd → q ≠ path → s' !! q = Some nd) ∧
  (fault CRemove = false → final s seen !! tempName rnd path = s !! tempName rnd path) ∧
  ((∀ c, fault c = false) → s !! Dir path = Some Directory → s !! tempName rnd path = None →
   s !! path = None → r = Ok tt).
Proof.
  intros Ht. pose proof (Exclusive_spec fault short rnd path data perm s Ht) as H.
  pose proof (Exclusive_live fault short rnd path data perm s Ht) as Hl.
  destruct (WriteFileExclusive _ _ _ _ _ _ s) as [seen r]. destruct H as (HF & (Hk & Hp & Hr) & He).
  rewrite Forall_forall in HF.
  split_and!; [| | | | |done|by auto].
  - intros nd Hnd. split_and!.
    + destruct r; [congruence|done].
    + intros s' Hs'. destruct (HF s' Hs') as [_ [?|[? _]]]; congruence.
    + rewrite Hp. destruct r as [u|e]; simpl; [congruence|].
      case_bool_decide as E; [|done]. rewrite (proj1 He E) in Hnd. done.
  - intros Hn s' Hs'. destruct (HF s' Hs') as [_ [?|[_ ?]]]; [left; congruence|auto].
  - intros e -> Hst Hf. by apply He.
  - by intros ->.
  - intros s' q nd Hs'. apply HF, Hs'.
Qed.

Lemma WriteFileExclusive_never_overwrites_witness :
  (let '(seen, r) := WriteFileExclusive (λ _, false) 1 "42" demo_path "new" 384 demo_old in
   is_ok r = false ∧ final demo_old seen !! demo_path = Some (File 384 "old")) ∧
  snd (WriteFileExclusive (λ _, false) 1 "42" demo_path "new" 384 demo_fs) = Ok tt.
Proof.
  split.
  - pose proof (WriteFileExclusive_never_overwrites (λ _, false) 1 "42" demo_path "new" 384 demo_old demo_target) as H.
    destruct (WriteFileExclusive _ _ _ _ _ _ _) as [seen r]. destruct H as (H & _).
    destruct (H (File 384 "old")) as (? & _ & ?); [vm_compute; reflexivity|by split].
  - pose proof (WriteFileExclusive_never_overwrites (λ _, false) 1 "42" demo_path "new" 384 demo_fs demo_target) as H.
    destruct (WriteFileExclusive _ _ _ _ _ _ _) as [seen r]. simpl. apply H;
      [done|by apply demo_dir; left|vm_compute; reflexivity|by vm_compute].
Defined.
