(* ===== verification/Keystore.v ===== *)
(** * The agent keystore

    [internal/keystore/keystore.go]: the agent's own signing identities, one
    mnemonic file per profile and key name.  Deriving a signer, BIP-39 and
    the random source belong to other packages and are arguments. *)
From S2P Require Import Prelude GoText GoPath Regex Profiles Secret FsUtil.
From stdpp Require Import prelude strings gmap list sorting.
From Stdlib Require Import ZArith Lia Ascii String.

Definition Test1Mnemonic : string :=
  "source bonus chronic canvas draft south burst lottery vacant surface solve popular case indicate oppose farm nothing bullet exhibit title speed wink action roast".

Definition DefaultKeyName : string := "default".
Definition keyFileExt : string := ".key".

Definition key_char (a : ascii) : bool := lower_alnum a || one_of "_-" a.

Definition keyNameRE : re := RSeq (RClass lower_alnum) (RUpTo 31 (RClass key_char)).

Inductive load_error := LNoKeyDir | LRead (c : cause) | LDecrypt (e : secret_error).

Inductive ks_error :=
  | ErrInvalidProfileName (profile : string)
  | EReadOnly (chainID : string)
  | ErrKeyGenTestnetOnly (profile : string)
  | ErrNoKeyDir
  | ErrInvalidKeyName (key : string)
  | ErrNoAgentKey
  | ErrKeyExists (profile key : string)
  | ErrKeyCapReached (profile : string) (count max : Z)
  | ELoad (profile key : string) (e : load_error)
  | EDeriveSigner
  | ESignerInfo
  | EStat (profile key : string)
  | ECount (profile : string)
  | EList (profile : string)
  | EDelete (profile key : string)
  | EEntropy
  | EMnemonic
  | EEncrypt (e : secret_error)
  | EWriteKey (e : fs_error).

Record KeyInfo := mkKey { Name : string; Address : string; KeyErr : string }.

(** What one call sees of the operating system besides the files. *)
Record IO := mkIO {
  io_write : call → bool;       (* failing system calls of a write *)
  io_short : nat;
  io_rnd : string;              (* the temp name's random digits *)
  io_unreadable : string → bool; (* files that cannot be read *)
  io_stat : bool;               (* [os.Stat] fails *)
  io_readdir : bool;            (* [os.ReadDir] fails *)
  io_unlink : bool;             (* [os.Remove] fails *)
}.

Section keystore.
Context {Signer : Type}.
(** [gnoclient.SignerFromBip39] for account 0, index 0, and the address of
    [Signer.Info]. *)
Context (SignerFromBip39 : string → string → option Signer).
Context (Info : Signer → option string).
(** [bip39.NewMnemonic] *)
Context (NewMnemonic : string → option string).
(** What [secret.go] calls. *)
Context (scrypt : string → string → option string) (new_gcm : string → bool).
Context (Seal : string → string → string → string) (Open : string → string → string → option string).

Record Keystore := mkKeystore { rootDir : string; passphrase : string; maxKeys : Z }.

Context (k : Keystore).

Definition deriveSigner (mnemonic chainID : string) : option Signer := SignerFromBip39 mnemonic chainID.

Definition requireValidProfileName (profileName : string) : res ks_error unit :=
  check (ValidProfileName profileName) (ErrInvalidProfileName profileName).

Definition resolveKeyName (keyName : string) : res ks_error string :=
  let keyName := if bool_decide (keyName = "") then DefaultKeyName else keyName in
  _ ← check (matches keyNameRE keyName) (ErrInvalidKeyName keyName);
  mret keyName.

Definition profileDir (profileName : string) : string := GoPath.Join (rootDir k) profileName.

Definition keyPath (profileName keyName : string) : string :=
  GoPath.Join (profileDir profileName) (keyName +:+ keyFileExt).

Definition ReadFile (io : IO) (s : fs) (path : string) : res cause string :=
  match s !! path with
  | None => Err CauseNotExist
  | Some Directory => Err CauseOther
  | Some (File _ data) => if io_unreadable io path then Err CauseOther else Ok data
  end.

Definition loadMnemonic (io : IO) (s : fs) (profileName keyName : string) : res load_error string :=
  if bool_decide (rootDir k = "") then Err LNoKeyDir
  else
    raw ← map_err LRead (ReadFile io s (keyPath profileName keyName));
    map_err LDecrypt (Decrypt scrypt new_gcm Open raw (passphrase k)).

Definition SignerForProfile (io : IO) (s : fs) (profileName keyName : string) (p : Profile) : res ks_error Signer :=
  _ ← requireValidProfileName profileName;
  _ ← check (negb (IsReadOnly p)) (EReadOnly (ChainID p));
  if IsLocal p then ok_or EDeriveSigner (deriveSigner Test1Mnemonic (ChainID p))
  else
    keyName ← resolveKeyName keyName;
    match loadMnemonic io s profileName keyName with
    | Err (LRead CauseNotExist) => Err ErrNoAgentKey
    | Err e => Err (ELoad profileName keyName e)
    | Ok mnemonic => ok_or EDeriveSigner (deriveSigner mnemonic (ChainID p))
    end.

Definition AgentAddress (io : IO) (s : fs) (profileName keyName : string) (p : Profile) : res ks_error string :=
  signer ← SignerForProfile io s profileName keyName p;
  ok_or ESignerInfo (Info signer).

(** The entry name of [path] in directory [d] (never the root directory). *)
Definition entry_in (d path : string) : option string :=
  n ← cut_prefix (d +:+ "/") path;
  if no_slash n && negb (bool_decide (n = "")) then Some n else None.

(** [os.ReadDir], in some order: the callers count or sort. *)
Definition entries (s : fs) (d : string) : list (string * node) :=
  (λ pn : string * node, (default "" (entry_in d pn.1), pn.2)) <$>
  map_to_list (filter (λ pn : string * node, is_Some (entry_in d pn.1)) s).

Definition ReadDir (io : IO) (s : fs) (d : string) : res cause (list (string * node)) :=
  match s !! d with
  | None => Err CauseNotExist
  | Some (File _ _) => Err CauseOther
  | Some Directory => if io_readdir io then Err CauseOther else Ok (entries s d)
  end.

Definition is_dir (nd : node) : bool := match nd with Directory => true | File _ _ => false end.

Definition key_entry (e : string * node) : bool := negb (is_dir e.2) && has_suffix e.1 keyFileExt.

(** [errors.As(err, *os.PathError)] *)
Definition is_path_error (e : ks_error) : bool :=
  match e with ELoad _ _ (LRead _) => true | _ => false end.

Definition unreadableReason (e : ks_error) : string :=
  if is_path_error e then "unreadable (I/O or permission error)"
  else "could not decrypt (passphrase mismatch or corrupt file)".

Definition list_entry (io : IO) (s : fs) (profileName : string) (p : Profile) (e : string * node) : option KeyInfo :=
  if is_dir e.2 || negb (has_suffix e.1 keyFileExt) then None
  else
    let name := trim_suffix e.1 keyFileExt in
    match AgentAddress io s profileName name p with
    | Err err => Some (mkKey name "" (unreadableReason err))
    | Ok addr => Some (mkKey name addr "")
    end.

Definition ListKeys (io : IO) (s : fs) (profileName : string) (p : Profile) : res ks_error (list KeyInfo) :=
  _ ← requireValidProfileName profileName;
  _ ← check (negb (IsReadOnly p)) (EReadOnly (ChainID p));
  if IsLocal p then
    addr ← AgentAddress io s profileName DefaultKeyName p;
    mret [mkKey DefaultKeyName addr ""]
  else
    _ ← check (negb (bool_decide (rootDir k = ""))) ErrNoKeyDir;
    match ReadDir io s (profileDir profileName) with
    | Err CauseNotExist => Ok []
    | Err _ => Err (EList profileName)
    | Ok es => Ok (sort_by Name (omap (list_entry io s profileName p) es))
    end.

Definition keyExists (io : IO) (s : fs) (profileName keyName : string) : res ks_error bool :=
  if io_stat io then Err (EStat profileName keyName)
  else Ok (bool_decide (is_Some (s !! keyPath profileName keyName))).

Definition countKeys (io : IO) (s : fs) (profileName : string) : res ks_error Z :=
  match ReadDir io s (profileDir profileName) with
  | Err CauseNotExist => Ok 0%Z
  | Err _ => Err (ECount profileName)
  | Ok es => Ok (Z.of_nat (List.length (filter key_entry es)))
  end.

Definition newMnemonic (entropy : option string) : res ks_error string :=
  entropy ← ok_or EEntropy entropy;
  ok_or EMnemonic (NewMnemonic entropy).

(** Mode 0600 is 384. *)
Definition saveMnemonic (io : IO) (salt nonce : option string) (s : fs)
    (profileName keyName mnemonic : string) : fs * res ks_error unit :=
  match Encrypt scrypt new_gcm Seal salt nonce mnemonic (passphrase k) with
  | Err e => (s, Err (EEncrypt e))
  | Ok enc =>
      let '(seen, r) := WriteFileExclusive (io_write io) (io_short io) (io_rnd io) (keyPath profileName keyName) enc 384 s in
      (final s seen,
       match r with
       | Ok _ => Ok tt
       | Err e => if IsErrExist e then Err (ErrKeyExists profileName keyName) else Err (EWriteKey e)
       end)
  end.

(** [GenerateForProfile] up to the write: everything that only reads. *)
Definition generate_checks (io : IO) (entropy : option string) (s : fs) (profileName keyName : string) (p : Profile)
    : res ks_error (string * string * string) :=
  _ ← requireValidProfileName profileName;
  _ ← check (negb (IsReadOnly p)) (EReadOnly (ChainID p));
  _ ← check (IsTestnet p) (ErrKeyGenTestnetOnly profileName);
  _ ← check (negb (bool_decide (rootDir k = ""))) ErrNoKeyDir;
  keyName ← resolveKeyName keyName;
  exists_ ← keyExists io s profileName keyName;
  _ ← check (negb exists_) (ErrKeyExists profileName keyName);
  count ← countKeys io s profileName;
  _ ← check (negb ((0 <? maxKeys k)%Z && (maxKeys k <=? count)%Z)) (ErrKeyCapReached profileName count (maxKeys k));
  mnemonic ← newMnemonic entropy;
  signer ← ok_or EDeriveSigner (deriveSigner mnemonic (ChainID p));
  addr ← ok_or ESignerInfo (Info signer);
  mret (keyName, mnemonic, addr).

Definition GenerateForProfile (io : IO) (entropy salt nonce : option string) (s : fs)
    (profileName keyName : string) (p : Profile) : fs * res ks_error string :=
  match generate_checks io entropy s profileName keyName p with
  | Err e => (s, Err e)
  | Ok (keyName, mnemonic, addr) =>
      let '(s, r) := saveMnemonic io salt nonce s profileName keyName mnemonic in
      (s, match r with Ok _ => Ok addr | Err e => Err e end)
  end.

Definition delete_checks (io : IO) (s : fs) (profileName keyName : string) (p : Profile)
    : res ks_error (string * string) :=
  _ ← requireValidProfileName profileName;
  _ ← check (IsTestnet p) (ErrKeyGenTestnetOnly profileName);
  _ ← check (negb (bool_decide (rootDir k = ""))) ErrNoKeyDir;
  keyName ← resolveKeyName keyName;
  addr ← AgentAddress io s profileName keyName p;
  mret (keyName, addr).

Definition DeleteForProfile (io : IO) (s : fs) (profileName keyName : string) (p : Profile)
    : fs * res ks_error string :=
  match delete_checks io s profileName keyName p with
  | Err e => (s, Err e)
  | Ok (keyName, addr) =>
      let path := keyPath profileName keyName in
      if io_unlink io then (s, Err (EDelete profileName keyName))
      else match s !! path with
      | None => (s, Err ErrNoAgentKey)
      | Some _ => (delete path s, Ok addr)
      end
  end.
End keystore.

(** ** Names and paths *)

Lemma key_char_not a : key_char a = true → not_slash a = true.
Proof. intros H. by apply (class_sub_spec key_char not_slash a). Qed.

Lemma key_name_seg s : str_forall key_char s = true → s ≠ "" → seg_ok s.
Proof.
  intros Hs Hne. split_and!; [|done|by intros ->..].
  apply (str_forall_impl key_char); [|done]. intros a Ha. by apply key_char_not.
Qed.

Lemma no_slash_app a b : no_slash (a +:+ b) = no_slash a && no_slash b.
Proof. apply str_forall_app. Qed.

(** A file name with the key suffix is a plain name. *)
Lemma key_file_seg n : no_slash n = true → seg_ok (n +:+ keyFileExt).
Proof.
  intros Hn. split; [by rewrite no_slash_app, Hn|].
  assert (Hl : (4 ≤ String.length (n +:+ keyFileExt))%nat) by (rewrite str_length_app; simpl; lia).
  split_and!; intros E; rewrite E in Hl; simpl in Hl; lia.
Qed.

Lemma ValidProfileName_seg p : ValidProfileName p = true → seg_ok p.
Proof.
  intros H. apply key_name_seg.
  - by apply (matches_over key_char profileNameRE).
  - apply matches_lang, (lang_first lower_alnum) in H as (c & t & -> & _); done.
Qed.

Lemma resolveKeyName_ok n n' : resolveKeyName n = Ok n' →
  n' = (if bool_decide (n = "") then DefaultKeyName else n) ∧ str_forall key_char n' = true ∧ n' ≠ "".
Proof.
  unfold resolveKeyName. destruct (matches keyNameRE _) eqn:Hm; [|done]. intros [= <-].
  split_and!; [done| |].
  - by apply (matches_over key_char keyNameRE).
  - apply matches_lang, (lang_first lower_alnum) in Hm as (c & t & -> & _); done.
Qed.

(** *** Directory listings *)

Lemma elem_of_entries s d f nd : (f, nd) ∈ entries s d ↔ ∃ q, entry_in d q = Some f ∧ s !! q = Some nd.
Proof.
  unfold entries. rewrite list_elem_of_fmap. split.
  - intros ([q nd'] & E & H). apply elem_of_map_to_list, map_lookup_filter_Some in H as [Hs [f' Hf]].
    simpl in *. rewrite Hf in E. simplify_eq/=. eauto.
  - intros (q & Hq & Hs). exists (q, nd). simpl. rewrite Hq. split; [done|].
    apply elem_of_map_to_list, map_lookup_filter_Some. split; [done|]. simpl. eauto.
Qed.

Lemma NoDup_entries s d : NoDup (entries s d).*1.
Proof.
  unfold entries. rewrite <- list_fmap_compose. apply NoDup_fmap_2_strong; [|apply NoDup_map_to_list].
  intros [q nd] [q' nd'] H H' E.
  apply elem_of_map_to_list, map_lookup_filter_Some in H as [Hs [f Hf]].
  apply elem_of_map_to_list, map_lookup_filter_Some in H' as [Hs' [f' Hf']].
  simpl in *. rewrite Hf, Hf' in E. simpl in E. subst f'.
  assert (q = q') as ->; [|congruence].
  unfold entry_in in Hf, Hf'. apply bind_Some in Hf as (n & Hn & Hf), Hf' as (n' & Hn' & Hf').
  apply cut_prefix_Some in Hn as ->, Hn' as ->. repeat case_match; simplify_eq. done.
Qed.

Lemma NoDup_key_entries s d : NoDup (filter key_entry (entries s d)).
Proof. apply NoDup_filter, NoDup_fmap_1 with fst, NoDup_entries. Qed.

Lemma parents_render r n st q : good_stack r st → q ∈ parents n (render r (reverse st)) →
  ∃ st', good_stack r st' ∧ (List.length st' ≤ List.length st)%nat ∧ q = render r (reverse st').
Proof.
  revert st. induction n as [|n IH]; intros st Hg Hq; simpl in Hq; apply elem_of_cons in Hq as [->|Hq]; eauto.
  { by apply elem_of_nil in Hq. }
  destruct st as [|t st].
  - change (reverse []) with (@nil string) in Hq. rewrite Dir_root in Hq. by apply (IH []).
  - pose proof (good_no_slash _ _ Hg) as Hn. apply Forall_cons in Hn as [Hn _].
    rewrite Dir_render in Hq by (done || apply Hg).
    destruct (IH st) as (st' & Hg' & Hl & ->); [apply Hg|done|]. exists st'. split_and!; [done|simpl; lia|done].
Qed.

Definition temp_name (rnd : string) : string := ".tmp-" +:+ rnd.

Lemma temp_seg rnd : str_forall is_digit rnd = true → seg_ok (temp_name rnd).
Proof.
  intros H. split; [|by unfold temp_name; rewrite !str_app_cons].
  unfold temp_name. rewrite no_slash_app. simpl. apply (str_forall_impl is_digit); [|done].
  intros a. by apply (class_sub_spec is_digit not_slash).
Qed.

(** The temp file of a write is no key. *)
Lemma temp_not_key rnd n : str_forall is_digit rnd = true → temp_name rnd ≠ n +:+ keyFileExt.
Proof.
  intros H E. apply (f_equal (str_forall (λ a, negb (Ascii.eqb a "y"%char)))) in E.
  unfold temp_name in E. rewrite !str_forall_app in E. simpl in E. rewrite !andb_false_r in E.
  assert (str_forall (λ a, negb (Ascii.eqb a "y")) rnd = true); [|congruence].
  apply (str_forall_impl is_digit); [|done]. intros a. by apply (class_sub_spec is_digit (λ a, negb (Ascii.eqb a "y"%char))).
Qed.

Lemma resolveKeyName_idem n key : resolveKeyName n = Ok key → resolveKeyName key = Ok key.
Proof.
  intros Ek. destruct (resolveKeyName_ok _ _ Ek) as (_ & _ & Hne). unfold resolveKeyName in *.
  rewrite (bool_decide_eq_false_2 (key = "")) by done.
  destruct (matches keyNameRE (if bool_decide (n = "") then DefaultKeyName else n)) eqn:Em; [|done].
  injection Ek as E. by rewrite <- E, Em.
Qed.

Section paths.
Context (k : Keystore) (Hroot : rootDir k ≠ "").

Abbreviation rooted := (is_abs (rootDir k)).
Abbreviation stack := (elems (rootDir k)).

Lemma profileDir_render p : seg_ok p → profileDir k p = render rooted (reverse (p :: stack)).
Proof using Hroot. intros Hp. by apply Join_spec. Qed.

Lemma good_profile p : seg_ok p → good_stack rooted (p :: stack).
Proof using Type. intros Hp. split; [by left|apply clean_stack_good]. Qed.

Lemma good_file p f : seg_ok p → seg_ok f → good_stack rooted (f :: p :: stack).
Proof using Type. intros Hp Hf. split; [by left|by apply good_profile]. Qed.

(** The path of a file of a profile. *)
Lemma file_render p f : seg_ok p → seg_ok f →
  GoPath.Join (profileDir k p) f = render rooted (reverse (f :: p :: stack)).
Proof using Hroot. intros Hp Hf. rewrite profileDir_render, Join_render by (done || by apply good_profile). done. Qed.

Lemma file_dir p f : seg_ok p → seg_ok f →
  Dir (GoPath.Join (profileDir k p) f) = profileDir k p ∧ Dir (profileDir k p) = Clean (rootDir k).
Proof using Hroot.
  intros Hp Hf. rewrite file_render, profileDir_render by done.
  rewrite !Dir_render by (by apply good_profile || by apply clean_stack_good || apply Hp || apply Hf). done.
Qed.

Lemma file_inj p f p' f' : seg_ok p → seg_ok f → seg_ok p' → seg_ok f' →
  GoPath.Join (profileDir k p) f = GoPath.Join (profileDir k p') f' → p = p' ∧ f = f'.
Proof using Hroot.
  intros Hp Hf Hp' Hf' H. rewrite !file_render in H by done.
  apply render_inj in H as [_ H]; [by simplify_eq|by apply good_file..].
Qed.

Lemma file_app p f : seg_ok p → seg_ok f →
  GoPath.Join (profileDir k p) f = profileDir k p +:+ "/" +:+ f.
Proof using Hroot.
  intros Hp Hf. rewrite file_render, profileDir_render by done. rewrite (reverse_cons _ f), render_snoc; [done|].
  rewrite reverse_cons. by destruct (reverse stack).
Qed.

(** What a directory entry is the path of. *)
Lemma entry_in_spec p q f : seg_ok p → f ≠ "." → f ≠ ".." →
  entry_in (profileDir k p) q = Some f ↔ seg_ok f ∧ q = GoPath.Join (profileDir k p) f.
Proof using Hroot.
  intros Hp H1 H2. unfold entry_in. split.
  - intros H. apply bind_Some in H as (n & Hc & H). case_match eqn:E; [|done]. injection H as ->.
    apply andb_true_iff in E as [Hn He]. apply negb_true_iff, bool_decide_eq_false in He.
    apply cut_prefix_Some in Hc. assert (Hf : seg_ok f) by by split_and!.
    split; [done|]. by rewrite file_app, Hc, str_app_assoc.
  - intros [Hf ->]. rewrite file_app, <- str_app_assoc, cut_prefix_app by done. simpl.
    rewrite (proj1 Hf). rewrite bool_decide_eq_false_2 by apply Hf. done.
Qed.

(** The key entries of a profile are its key files. *)
Lemma elem_of_key_entries s p f nd : seg_ok p →
  (f, nd) ∈ filter key_entry (entries s (profileDir k p)) ↔
  ∃ n perm data, no_slash n = true ∧ f = n +:+ keyFileExt ∧ nd = File perm data ∧ s !! keyPath k p n = Some nd.
Proof using Hroot.
  intros Hp. rewrite list_elem_of_filter, elem_of_entries. unfold key_entry. simpl. split.
  - intros [Hk (q & Hq & Hs)]. apply Is_true_true, andb_true_iff in Hk as [Hd Hsuf].
    destruct nd as [perm data|]; [|done]. apply has_suffix_spec in Hsuf as (n & ->).
    assert (Hq' : seg_ok (n +:+ ".key") ∧ q = GoPath.Join (profileDir k p) (n +:+ ".key")).
    { apply entry_in_spec; try done; intros E; apply (f_equal String.length) in E;
        rewrite str_length_app in E; simpl in E; lia. }
    destruct Hq' as [Hf ->]. exists n, perm, data. split_and!; try done.
    pose proof (proj1 Hf) as Hn. rewrite no_slash_app in Hn. by apply andb_true_iff in Hn as [? _].
  - intros (n & perm & data & Hn & -> & -> & Hs). pose proof (key_file_seg n Hn) as Hf. split.
    { apply Is_true_true. simpl. apply has_suffix_spec. by exists n. }
    exists (keyPath k p n). split; [|done]. apply entry_in_spec; try done; apply Hf.
Qed.

(** *** Writing a key *)

Lemma tempName_key p n rnd : seg_ok p → no_slash n = true →
  tempName rnd (keyPath k p n) = GoPath.Join (profileDir k p) (temp_name rnd).
Proof using Hroot.
  intros Hp Hn. unfold tempName, keyPath. by destruct (file_dir p (n +:+ keyFileExt) Hp (key_file_seg n Hn)) as [-> _].
Qed.

Lemma key_target p n rnd : seg_ok p → no_slash n = true → str_forall is_digit rnd = true →
  target rnd (keyPath k p n).
Proof using Hroot.
  intros Hp Hn Hr. pose proof (key_file_seg n Hn) as Hf. pose proof (temp_seg rnd Hr) as Ht.
  assert (Hout : ∀ f, seg_ok f → GoPath.Join (profileDir k p) f ∉ parents (String.length (profileDir k p)) (profileDir k p)).
  { intros f Hs Hin. rewrite profileDir_render in Hin at 2 3 by done. 
    apply parents_render in Hin as (st' & Hg & Hl & E); [|by apply good_profile].
    rewrite file_render in E by done. apply render_inj in E as [_ <-]; [simpl in Hl; lia|by apply good_file|done]. }
  pose proof (tempName_key p n rnd Hp Hn) as E.
  destruct (file_dir p (n +:+ keyFileExt) Hp Hf) as [Hd _].
  split; unfold keyPath in *; rewrite ?Hd, ?E; auto.
  intros H. apply file_inj in H as [_ H]; try done. by eapply temp_not_key.
Qed.
End paths.

Section write_key.
Context (k : Keystore) (Hroot : rootDir k ≠ "") (fault : call → bool) (short : nat) (rnd enc : string) (p n : string) (s : fs).
Context (Hp : seg_ok p) (Hn : no_slash n = true) (Hrnd : str_forall is_digit rnd = true).

Abbreviation path := (keyPath k p n).

(** What persisting one key does to the files of the keystore. *)
Lemma write_key_post :
  let '(seen, r) := WriteFileExclusive fault short rnd path enc 384 s in
  (∀ q nd, s !! q = Some nd → final s seen !! q = Some nd) ∧
  match r with
  | Ok _ => s !! path = None ∧ final s seen !! path = Some (File 384 enc) ∧
            final s seen !! profileDir k p = Some Directory ∧
            filter key_entry (entries (final s seen) (profileDir k p)) ≡ₚ
              (n +:+ keyFileExt, File 384 enc) :: filter key_entry (entries s (profileDir k p))
  | Err e => err_stage e = SSyncDir ∨ final s seen !! path = s !! path
  end.
Proof using All.
  pose proof (key_target k Hroot p n rnd Hp Hn Hrnd) as Ht.
  pose proof (Exclusive_spec fault short rnd path enc 384 s Ht) as H.
  pose proof (Exclusive_dir fault short rnd path enc 384 Ht s) as Hd.
  destruct (WriteFileExclusive _ _ _ _ _ _ s) as [seen r]. destruct H as (_ & ([Hk Hnew] & Hpath & _) & Hr).
  assert (Hkeep : ∀ q nd, s !! q = Some nd → final s seen !! q = Some nd).
  { intros q nd Hq. destruct (decide (q = path)) as [->|]; [|by apply Hk]. rewrite Hpath.
    destruct r as [u|e]; simpl; [congruence|]. case_bool_decide as E; [|done]. by rewrite (proj1 Hr E) in Hq. }
  split; [done|]. destruct r as [u|e]; simpl in Hpath.
  2: { case_bool_decide; auto. }
  split_and!; [done|done| |].
  { pose proof (Hd eq_refl) as Hd'. unfold has_dir in Hd'.
    unfold keyPath in Hd' at 1. by rewrite (proj1 (file_dir k Hroot p _ Hp (key_file_seg n Hn))) in Hd'. }
  apply NoDup_Permutation; [apply NoDup_key_entries| |].
  { apply NoDup_cons. split; [|apply NoDup_key_entries]. intros Hin.
    apply (elem_of_key_entries k Hroot) in Hin as (n' & perm & data & Hn' & E & _ & Hs); [|done].
    apply (f_equal (cut_suffix keyFileExt)) in E. rewrite !cut_suffix_app in E. injection E as <-. congruence. }
  intros [f nd]. rewrite elem_of_cons, !(elem_of_key_entries k Hroot) by done. split.
  - intros (n' & perm & data & Hn' & -> & -> & Hs). destruct (Hnew _ _ Hs) as [E|[E|[E|E]]].
    + apply file_inj in E as [_ E]; try done; try by apply key_file_seg. left.
      apply (f_equal (cut_suffix keyFileExt)) in E. rewrite !cut_suffix_app in E. injection E as ->.
      congruence.
    + exfalso. rewrite tempName_key in E by done. apply file_inj in E as [_ E]; try done; [|by apply key_file_seg|by apply temp_seg].
      symmetry in E. by eapply temp_not_key.
    + done.
    + right. eauto 10.
  - intros [[= -> ->]|(n' & perm & data & Hn' & -> & -> & Hs)]; [eauto 10|]. exists n', perm, data. auto.
Qed.
End write_key.

Section theorems.
Context {Signer : Type} (SignerFromBip39 : string → string → option Signer) (Info : Signer → option string).
Context (NewMnemonic : string → option string).
Context (scrypt : string → string → option string) (new_gcm : string → bool).
Context (Seal : string → string → string → string) (Open : string → string → string → option string).
Context (k : Keystore).

Abbreviation signer_for := (SignerForProfile SignerFromBip39 scrypt new_gcm Open k).
Abbreviation address := (AgentAddress SignerFromBip39 Info scrypt new_gcm Open k).
Abbreviation list_keys := (ListKeys SignerFromBip39 Info scrypt new_gcm Open k).
Abbreviation generate := (GenerateForProfile SignerFromBip39 Info NewMnemonic scrypt new_gcm Seal k).
Abbreviation delete_key := (DeleteForProfile SignerFromBip39 Info scrypt new_gcm Open k).

Lemma load_ok io s pn kn m : loadMnemonic scrypt new_gcm Open k io s pn kn = Ok m ↔
  rootDir k ≠ "" ∧ io_unreadable io (keyPath k pn kn) = false ∧
  ∃ perm raw, s !! keyPath k pn kn = Some (File perm raw) ∧ Decrypt scrypt new_gcm Open raw (passphrase k) = Ok m.
Proof using Type.
  unfold loadMnemonic, ReadFile. case_bool_decide as Hr; [split; [done|by intros [? _]]|].
  destruct (s !! keyPath k pn kn) as [[perm raw|]|]; simpl; cycle 1.
  1, 2: split; [done|]; intros (_ & _ & perm & raw & [=] & _).
  destruct (io_unreadable io _); simpl; [split; [done|by intros (_ & ? & _)]|].
  split.
  - intros H. apply map_err_Ok in H. eauto 10.
  - intros (_ & _ & perm' & raw' & [= <- <-] & H). by apply map_err_Ok.
Qed.

Lemma tier_exclusive p : IsTestnet p = true → IsReadOnly p = false ∧ IsLocal p = false.
Proof using Type. unfold IsTestnet, IsReadOnly. intros [H1 H2]%andb_true_iff. rewrite H1. by apply negb_true_iff in H2. Qed.

Lemma not_local_testnet p : IsReadOnly p = false → IsLocal p = false → IsTestnet p = true.
Proof using Type. unfold IsTestnet, IsReadOnly. intros H1%negb_false_iff H2. by rewrite H1, H2. Qed.

(** The signer of a testnet profile. *)
Lemma signer_testnet io s pn kn p : ValidProfileName pn = true → IsTestnet p = true →
  signer_for io s pn kn p =
    (key ← resolveKeyName kn;
     match loadMnemonic scrypt new_gcm Open k io s pn key with
     | Err (LRead CauseNotExist) => Err ErrNoAgentKey
     | Err e => Err (ELoad pn key e)
     | Ok mnemonic => ok_or EDeriveSigner (SignerFromBip39 mnemonic (ChainID p))
     end).
Proof using Type.
  intros Hv Ht. apply tier_exclusive in Ht as [Hr Hl]. unfold SignerForProfile, requireValidProfileName.
  by rewrite Hv, Hr, Hl.
Qed.

(** C24: the tier decides the signer, and no name leads outside the keystore.
    [SignerForProfile] answers only for a valid profile name and never for a
    read-only chain; a local chain always gets test1, whatever the name and
    the disk; a testnet chain gets the signer of the mnemonic decrypted from
    the one file [root/profile/key.key], which is two levels below the
    keystore root. *)
Theorem SignerForProfile_tiers io s pn kn p signer :
  SignerForProfile SignerFromBip39 scrypt new_gcm Open k io s pn kn p = Ok signer →
  ValidProfileName pn = true ∧ IsReadOnly p = false ∧
  (IsLocal p = true → SignerFromBip39 Test1Mnemonic (ChainID p) = Some signer ∧
     ∀ io' s' kn', SignerForProfile SignerFromBip39 scrypt new_gcm Open k io' s' pn kn' p = Ok signer) ∧
  (IsLocal p = false → ∃ key perm raw mnemonic,
     resolveKeyName kn = Ok key ∧
     s !! keyPath k pn key = Some (File perm raw) ∧
     Decrypt scrypt new_gcm Open raw (passphrase k) = Ok mnemonic ∧
     SignerFromBip39 mnemonic (ChainID p) = Some signer ∧
     Dir (keyPath k pn key) = profileDir k pn ∧ Dir (profileDir k pn) = Clean (rootDir k)).
Proof.
  intros H.
  assert (Hv : ValidProfileName pn = true).
  { unfold SignerForProfile, requireValidProfileName in H. by destruct (ValidProfileName pn). }
  assert (Hr : IsReadOnly p = false).
  { unfold SignerForProfile, requireValidProfileName in H. rewrite Hv in H. simpl in H. by destruct (IsReadOnly p). }
  split_and!; [done|done| |].
  - intros Hl. assert (E : ∀ io' s' kn', signer_for io' s' pn kn' p = ok_or EDeriveSigner (SignerFromBip39 Test1Mnemonic (ChainID p))).
    { intros io' s' kn'. unfold SignerForProfile, requireValidProfileName. by rewrite Hv, Hr, Hl. }
    rewrite E in H. split; [by destruct (SignerFromBip39 _ _); simplify_eq/=|]. intros io' s' kn'. by rewrite E.
  - intros Hl. rewrite signer_testnet in H by (done || by apply not_local_testnet).
    destruct (resolveKeyName kn) as [key|] eqn:Ek; [|done]. simpl in H.
    destruct (loadMnemonic _ _ _ _ _ _ _ _) as [m|[|[]|]] eqn:El; try done.
    apply load_ok in El as (Hroot & _ & perm & raw & Hs & Hd).
    destruct (SignerFromBip39 m _) eqn:Em; [|done]. simpl in H. injection H as ->.
    destruct (resolveKeyName_ok _ _ Ek) as (_ & Hc & Hne). exists key, perm, raw, m. split_and!; try done.
    all: apply (file_dir k Hroot pn (key +:+ keyFileExt)); [by apply ValidProfileName_seg|apply key_file_seg].
    all: by apply key_name_seg.
Qed.

(** *** Generation *)

Lemma generate_checks_ok io entropy s pn kn p key mnemonic addr :
  generate_checks SignerFromBip39 Info NewMnemonic k io entropy s pn kn p = Ok (key, mnemonic, addr) →
  ValidProfileName pn = true ∧ IsTestnet p = true ∧ rootDir k ≠ "" ∧ resolveKeyName kn = Ok key ∧
  s !! keyPath k pn key = None ∧ newMnemonic NewMnemonic entropy = Ok mnemonic ∧
  (∃ signer, SignerFromBip39 mnemonic (ChainID p) = Some signer ∧ Info signer = Some addr) ∧
  ∃ count, countKeys k io s pn = Ok count ∧ ((0 < maxKeys k)%Z → (count < maxKeys k)%Z).
Proof using Type.
  unfold generate_checks, requireValidProfileName, keyExists, deriveSigner. intros H.
  destruct (ValidProfileName pn) eqn:Hv; [|done]. simpl in H.
  destruct (IsReadOnly p); [done|]. simpl in H. destruct (IsTestnet p) eqn:Ht; [|done]. simpl in H.
  case_bool_decide as Hr; [done|]. simpl in H.
  destruct (resolveKeyName kn) as [key'|] eqn:Ek; [|done]. simpl in H.
  destruct (io_stat io); [done|]. simpl in H. case_bool_decide as He; [done|]. simpl in H.
  destruct (countKeys k io s pn) as [count|] eqn:Ec; [|done]. simpl in H.
  destruct (_ && _)%bool eqn:Hcap; [done|]. simpl in H.
  destruct (newMnemonic _ _) as [m|] eqn:Em; [|done]. simpl in H.
  destruct (SignerFromBip39 m _) as [sg|] eqn:Es; [|done]. simpl in H.
  destruct (Info sg) as [a|] eqn:Ei; [|done]. injection H as -> -> ->.
  rewrite eq_None_not_Some. split_and!; try done; eauto. exists count. split; [done|]. intros Hm.
  apply andb_false_iff in Hcap as [Hc|Hc]; b2p; lia.
Qed.

Lemma countKeys_dir io s pn : io_readdir io = false → s !! profileDir k pn = Some Directory →
  countKeys k io s pn = Ok (Z.of_nat (List.length (filter key_entry (entries s (profileDir k pn))))).
Proof using Type. intros Hio Hd. unfold countKeys, ReadDir. by rewrite Hd, Hio. Qed.

(** What is in a profile's directory is in a directory that exists. *)
Definition tree (s : fs) : Prop := ∀ q f nd pn, ValidProfileName pn = true →
  s !! q = Some nd → entry_in (profileDir k pn) q = Some f → s !! profileDir k pn = Some Directory.

Lemma countKeys_entries io s pn count : tree s → ValidProfileName pn = true → countKeys k io s pn = Ok count →
  count = Z.of_nat (List.length (filter key_entry (entries s (profileDir k pn)))).
Proof using Type.
  intros Hwf Hv. unfold countKeys, ReadDir. destruct (s !! profileDir k pn) as [[? ?|]|] eqn:Ed; [done| |].
  { destruct (io_readdir io); [done|]. by intros [= <-]. }
  intros [= <-]. destruct (filter key_entry (entries s (profileDir k pn))) as [|[f nd] l] eqn:E; [done|].
  assert (Hin : (f, nd) ∈ filter key_entry (entries s (profileDir k pn))) by (rewrite E; left).
  apply list_elem_of_filter in Hin as [_ Hin]. apply elem_of_entries in Hin as (q & Hq & Hs).
  rewrite (Hwf _ _ _ _ Hv Hs Hq) in Ed. done.
Qed.

(** [GenerateForProfile] is purely additive and its key works.  When it
    answers an address, the profile is on a testnet and the (resolved) name
    was free; exactly one key file appears, mode 0600, so the profile now
    holds one key more and at most the cap; from then on the profile's
    address under that name is the answered one.  Whatever it answers, every
    file that existed is unchanged, so no key is ever overwritten. *)
Theorem GenerateForProfile_additive io entropy salt nonce s pn kn p :
  AeadLaws Seal Open → String.length salt = saltLen → String.length nonce = nonceLen →
  str_forall is_digit (io_rnd io) = true → tree s →
  let '(s', r) := GenerateForProfile SignerFromBip39 Info NewMnemonic scrypt new_gcm Seal k
                    io entropy (Some salt) (Some nonce) s pn kn p in
  (∀ q nd, s !! q = Some nd → s' !! q = Some nd) ∧
  ∀ addr, r = Ok addr →
    IsTestnet p = true ∧
    ∃ key, resolveKeyName kn = Ok key ∧ s !! keyPath k pn key = None ∧
      (∃ blob, s' !! keyPath k pn key = Some (File 384 blob)) ∧
      (∀ io', io_unreadable io' (keyPath k pn key) = false →
         AgentAddress SignerFromBip39 Info scrypt new_gcm Open k io' s' pn key p = Ok addr) ∧
      (∀ io', io_readdir io' = false → ∃ count, countKeys k io s pn = Ok count ∧
         countKeys k io' s' pn = Ok (count + 1)%Z ∧ ((0 < maxKeys k)%Z → (count + 1 <= maxKeys k)%Z)).
Proof.
  intros Hl Hsl Hnl Hrnd Hwf. unfold GenerateForProfile.
  destruct (generate_checks _ _ _ _ _ _ _ _ _ _) as [[[key mnemonic] addr]|e] eqn:Eg; [|done].
  apply generate_checks_ok in Eg as (Hv & Ht & Hr & Ek & Hnone & _ & (sg & Hsg & Hinfo) & count & Hc & Hcap).
  destruct (resolveKeyName_ok _ _ Ek) as (_ & Hkc & Hkne).
  assert (Hn : no_slash key = true) by apply (key_name_seg key Hkc Hkne).
  unfold saveMnemonic. destruct (Encrypt _ _ _ _ _ _ _) as [enc|e] eqn:Ee; [|done].
  pose proof (write_key_post k Hr (io_write io) (io_short io) (io_rnd io) enc pn key s
    (ValidProfileName_seg pn Hv) Hn Hrnd) as Hw.
  destruct (WriteFileExclusive _ _ _ _ _ _ s) as [seen r]. destruct Hw as [Hkeep Hpost].
  split; [exact Hkeep|]. intros a Ha. destruct r as [[]|e]; [|by destruct (IsErrExist e)]. injection Ha as <-.
  destruct Hpost as (_ & Hpath & Hdir & Hperm).
  split; [done|]. exists key. split_and!; try done; [eauto| |].
  - intros io' Hio. unfold AgentAddress. rewrite signer_testnet by done.
    rewrite (resolveKeyName_idem _ _ Ek). simpl.
    assert (Eload : loadMnemonic scrypt new_gcm Open k io' (final s seen) pn key = Ok mnemonic).
    { apply load_ok. split_and!; [done|done|]. exists 384%Z, enc. split; [done|].
      by apply (Encrypt_roundtrip scrypt new_gcm Seal Open salt nonce). }
    rewrite Eload. simpl. rewrite Hsg. simpl. by rewrite Hinfo.
  - intros io' Hio. exists count. split; [done|]. rewrite countKeys_dir by done. rewrite Hperm.
    rewrite (countKeys_entries io s pn count Hwf Hv Hc). simpl. split; [f_equal; lia|].
    intros Hm. specialize (Hcap Hm). rewrite (countKeys_entries io s pn count Hwf Hv Hc) in Hcap. lia.
Qed.

(** *** Deletion *)

(** [DeleteForProfile] removes the one named key and nothing else.  It
    answers the address that key signed with; afterwards the profile has no
    such key, and every other file is as it was, so a key of another name or
    profile keeps its address.  If it fails nothing is removed. *)
Theorem DeleteForProfile_exact io s pn kn p :
  let '(s', r) := DeleteForProfile SignerFromBip39 Info scrypt new_gcm Open k io s pn kn p in
  match r with
  | Err _ => s' = s
  | Ok addr =>
      IsTestnet p = true ∧ ∃ key, resolveKeyName kn = Ok key ∧
      AgentAddress SignerFromBip39 Info scrypt new_gcm Open k io s pn key p = Ok addr ∧
      s' = delete (keyPath k pn key) s ∧ is_Some (s !! keyPath k pn key) ∧
      AgentAddress SignerFromBip39 Info scrypt new_gcm Open k io s' pn key p = Err ErrNoAgentKey ∧
      (∀ io' pn' kn' key' p', ValidProfileName pn' = true → IsTestnet p' = true → resolveKeyName kn' = Ok key' →
         (pn', key') ≠ (pn, key) →
         AgentAddress SignerFromBip39 Info scrypt new_gcm Open k io' s' pn' kn' p' =
         AgentAddress SignerFromBip39 Info scrypt new_gcm Open k io' s pn' kn' p')
  end.
Proof.
  unfold DeleteForProfile. destruct (delete_checks _ _ _ _ _ _ _ _ _ _ _) as [[key addr]|e] eqn:Ed; [|done].
  destruct (io_unlink io); [done|]. destruct (s !! keyPath k pn key) as [nd|] eqn:Es; [|done].
  unfold delete_checks, requireValidProfileName in Ed.
  destruct (ValidProfileName pn) eqn:Hv; [|done]. simpl in Ed. destruct (IsTestnet p) eqn:Ht; [|done]. simpl in Ed.
  case_bool_decide as Hr; [done|]. simpl in Ed.
  destruct (resolveKeyName kn) as [key'|] eqn:Ek; [|done]. simpl in Ed.
  destruct (AgentAddress _ _ _ _ _ _ _ _ _ _ _) as [a|] eqn:Ea; [|done]. injection Ed as -> ->.
  destruct (resolveKeyName_ok _ _ Ek) as (_ & Hkc & Hkne).
  split; [done|]. exists key. split_and!; try done.
  - unfold AgentAddress. rewrite signer_testnet, (resolveKeyName_idem _ _ Ek) by done. simpl. unfold loadMnemonic, ReadFile.
    rewrite bool_decide_eq_false_2 by done. by rewrite lookup_delete_eq.
  - intros io' pn' kn' key' p' Hv' Ht' Ek' Hne. unfold AgentAddress. rewrite !signer_testnet, Ek' by done. simpl.
    destruct (resolveKeyName_ok _ _ Ek') as (_ & Hkc' & Hkne').
    unfold loadMnemonic, ReadFile. rewrite lookup_delete_ne; [done|]. intros E. apply Hne.
    apply (file_inj k Hr) in E as [-> E]; try (by apply ValidProfileName_seg);
      try (apply key_file_seg; by apply key_name_seg).
    apply (f_equal (cut_suffix keyFileExt)) in E. rewrite !cut_suffix_app in E. by injection E as ->.
Qed.

(** *** Listing *)

(** The entry reported for a key of a given name. *)
Definition info_of (io : IO) (s : fs) (pn name : string) (p : Profile) : KeyInfo :=
  match address io s pn name p with
  | Err err => mkKey name "" (unreadableReason err)
  | Ok addr => mkKey name addr ""
  end.

Lemma info_of_name io s pn name p : Name (info_of io s pn name p) = name.
Proof using Type. unfold info_of. by destruct (AgentAddress _ _ _ _ _ _ _ _ _ _ _). Qed.

Lemma omap_list_entry io s pn p (es : list (string * node)) :
  omap (list_entry SignerFromBip39 Info scrypt new_gcm Open k io s pn p) es =
  (λ e : string * node, info_of io s pn (trim_suffix e.1 keyFileExt) p) <$> filter key_entry es.
Proof using Type.
  induction es as [|e es IH]; [done|]. rewrite filter_cons. simpl. unfold omap in IH. rewrite IH.
  unfold list_entry, key_entry, info_of. destruct (is_dir e.2); [done|]. simpl.
  destruct (has_suffix e.1 keyFileExt); simpl; [|done].
  by destruct (AgentAddress _ _ _ _ _ _ _ _ _ _ _).
Qed.

Lemma trim_suffix_app n x : trim_suffix (n +:+ x) x = n.
Proof using Type. unfold trim_suffix. by rewrite cut_suffix_app. Qed.

(** [ListKeys] lists every key of a testnet profile and survives a bad
    one.  With the directory readable it answers a list sorted by name without
    duplicates, naming exactly the key files present; each entry carries the
    address signing under that name would use, or, if that key cannot be used,
    one of two fixed reasons, so one damaged file neither hides the others nor
    leaks its path. *)
Theorem ListKeys_complete io s pn p :
  ValidProfileName pn = true → IsTestnet p = true → rootDir k ≠ "" →
  io_readdir io = false → s !! profileDir k pn = Some Directory →
  ∃ l, ListKeys SignerFromBip39 Info scrypt new_gcm Open k io s pn p = Ok l ∧
    StronglySorted (by_key Name) l ∧ NoDup (Name <$> l) ∧
    (∀ n, no_slash n = true →
       n ∈ Name <$> l ↔ ∃ perm data, s !! keyPath k pn n = Some (File perm data)) ∧
    (∀ info, info ∈ l →
       match AgentAddress SignerFromBip39 Info scrypt new_gcm Open k io s pn (Name info) p with
       | Ok addr => info = mkKey (Name info) addr ""
       | Err e => Address info = "" ∧
           (KeyErr info = "unreadable (I/O or permission error)" ∨
            KeyErr info = "could not decrypt (passphrase mismatch or corrupt file)")
       end).
Proof.
  intros Hv Ht Hr Hio Hd. pose proof (tier_exclusive _ Ht) as [Hro Hlo].
  pose proof (ValidProfileName_seg _ Hv) as Hseg.
  set (ks := filter key_entry (entries s (profileDir k pn))).
  exists (sort_by Name ((λ e : string * node, info_of io s pn (trim_suffix e.1 keyFileExt) p) <$> ks)).
  assert (Hname : ∀ l : list (string * node), Name <$> ((λ e : string * node, info_of io s pn (trim_suffix e.1 keyFileExt) p) <$> l) =
                       (λ e : string * node, trim_suffix e.1 keyFileExt) <$> l).
  { intros l. rewrite <- list_fmap_compose. apply list_fmap_ext. intros i e _. simpl. apply info_of_name. }
  split_and!.
  - unfold ListKeys, requireValidProfileName. rewrite Hv, Hro, Hlo. simpl.
    rewrite bool_decide_eq_false_2 by done. simpl. unfold ReadDir. rewrite Hd, Hio. by rewrite omap_list_entry.
  - apply sort_by_sorted.
  - rewrite (fmap_Permutation Name _ _ (sort_by_perm Name _)), Hname.
    apply NoDup_fmap_2_strong; [|apply NoDup_key_entries]. intros [f nd] [f' nd'] H H' E.
    apply (elem_of_key_entries k Hr) in H as (n & ? & ? & _ & -> & -> & Hs), H' as (n' & ? & ? & _ & -> & -> & Hs'); [|done..].
    simpl in E. rewrite !trim_suffix_app in E. subst n'. congruence.
  - intros n Hn. rewrite (fmap_Permutation Name _ _ (sort_by_perm Name _)), Hname, list_elem_of_fmap. split.
    + intros ([f nd] & -> & H). apply (elem_of_key_entries k Hr) in H as (n' & ? & ? & _ & -> & -> & Hs); [|done].
      simpl. rewrite trim_suffix_app. eauto.
    + intros (perm & data & Hs). exists (n +:+ keyFileExt, File perm data). split; [simpl; by rewrite trim_suffix_app|].
      apply (elem_of_key_entries k Hr); eauto 10.
  - intros info. rewrite elem_of_sort_by, list_elem_of_fmap. intros ([f nd] & -> & _). rewrite info_of_name.
    unfold info_of. destruct (AgentAddress _ _ _ _ _ _ _ _ _ _ _) as [a|e]; simpl; [done|].
    split; [done|]. unfold unreadableReason. destruct (is_path_error e); auto.
Qed.
End theorems.

(** ** Witnesses *)

Definition toy_from_bip39 (m chain : string) : option string := Some (m +:+ "@" +:+ chain).
Definition toy_info (sg : string) : option string := Some ("g1" +:+ sg).
Definition toy_scrypt (p s : string) : option string := Some (p +:+ s).
Definition toy_keystore : Keystore := mkKeystore "/keys" "pw" 5.
Definition toy_io : IO := mkIO (λ _, false) 1 "42" (λ _, false) false false false.
Definition toy_profile : Profile := endpoint "https://rpc.test5.gno.land" "test5".
Definition toy_blob : string := String schemeScrypt ("saltsaltsaltsalt" +:+ "noncenonceno" +:+ toy_tag +:+ "words").
Definition toy_keys : fs := <[demo_path := File 384 toy_blob]> demo_fs.

Lemma demo_tree : tree toy_keystore demo_fs.
Proof.
  intros q f nd pn Hv Hq He. exfalso. pose proof (ValidProfileName_seg _ Hv) as Hp.
  unfold entry_in in He. apply bind_Some in He as (n & Hc & He). case_match eqn:E; [|done]. clear He.
  apply andb_true_iff in E as [_ Hne]. apply negb_true_iff, bool_decide_eq_false in Hne.
  apply cut_prefix_Some in Hc. rewrite (profileDir_render toy_keystore) in Hc by done.
  change (render _ _) with ("/keys/" +:+ pn) in Hc. apply (f_equal String.length) in Hc.
  rewrite !str_length_app in Hc. simpl in Hc.
  assert (0 < String.length pn)%nat by (destruct pn; [by destruct Hp as (_ & ? & _)|simpl; lia]).
  assert (0 < String.length n)%nat by (destruct n; [done|simpl; lia]).
  assert (Hq' : q = "/" ∨ q = "/keys" ∨ q = "/keys/p").
  { unfold demo_fs in Hq. rewrite !lookup_insert_Some, lookup_singleton_Some in Hq. naive_solver. }
  destruct Hq' as [-> |[-> | ->]]; simpl in Hc; lia.
Qed.

Lemma SignerForProfile_tiers_witness :
  SignerForProfile toy_from_bip39 toy_scrypt (λ _, true) toy_open toy_keystore toy_io toy_keys "p" "" toy_profile = Ok "words@test5" ∧
  ∃ key perm raw, resolveKeyName "" = Ok key ∧ toy_keys !! keyPath toy_keystore "p" key = Some (File perm raw) ∧
    Dir (profileDir toy_keystore "p") = "/keys".
Proof.
  assert (H : SignerForProfile toy_from_bip39 toy_scrypt (λ _, true) toy_open toy_keystore toy_io toy_keys "p" "" toy_profile = Ok "words@test5")
    by (vm_compute; reflexivity).
  split; [exact H|]. destruct (SignerForProfile_tiers _ _ _ _ _ _ _ _ _ _ _ H) as (_ & _ & _ & Hn).
  destruct (Hn eq_refl) as (key & perm & raw & m & H1 & H2 & _ & _ & _ & H3). exists key, perm, raw. auto.
Defined.

Lemma GenerateForProfile_additive_witness :
  let '(s', r) := GenerateForProfile toy_from_bip39 toy_info (λ e, Some e) toy_scrypt (λ _, true) toy_seal toy_keystore
                    toy_io (Some "words") (Some "saltsaltsaltsalt") (Some "noncenonceno") demo_fs "p" "" toy_profile in
  r = Ok "g1words@test5" ∧ ∃ key, resolveKeyName "" = Ok key ∧
    AgentAddress toy_from_bip39 toy_info toy_scrypt (λ _, true) toy_open toy_keystore toy_io s' "p" key toy_profile = Ok "g1words@test5".
Proof.
  pose proof (GenerateForProfile_additive toy_from_bip39 toy_info (λ e, Some e) toy_scrypt (λ _, true) toy_seal toy_open
    toy_keystore toy_io (Some "words") "saltsaltsaltsalt" "noncenonceno" demo_fs "p" "" toy_profile
    toy_aead eq_refl eq_refl eq_refl demo_tree) as H.
  assert (Hr : snd (GenerateForProfile toy_from_bip39 toy_info (λ e, Some e) toy_scrypt (λ _, true) toy_seal toy_keystore
                    toy_io (Some "words") (Some "saltsaltsaltsalt") (Some "noncenonceno") demo_fs "p" "" toy_profile)
    = Ok "g1words@test5") by (vm_compute; reflexivity).
  destruct (GenerateForProfile _ _ _ _ _ _ _ _ _ _ _ _ _ _ _) as [s' r]. simpl in Hr.
  destruct H as [_ H]. split; [exact Hr|]. destruct (H _ Hr) as (_ & key & H1 & _ & _ & H2 & _).
  exists key. split; [exact H1|]. apply H2. reflexivity.
Defined.

Lemma ListKeys_complete_witness :
  ∃ l, ListKeys toy_from_bip39 toy_info toy_scrypt (λ _, true) toy_open toy_keystore toy_io toy_keys "p" toy_profile = Ok l ∧
    NoDup (Name <$> l).
Proof.
  destruct (ListKeys_complete toy_from_bip39 toy_info toy_scrypt (λ _, true) toy_open toy_keystore toy_io toy_keys "p" toy_profile)
    as (l & H1 & _ & H2 & _); [vm_compute; reflexivity..| |vm_compute; reflexivity|vm_compute; reflexivity|].
  - vm_compute. discriminate.
  - exists l. split; [exact H1|exact H2].
Defined.
