(* ===== verification/SessionDisk.v ===== *)
(** * The session store on its file system

    [SessionManager.Store] keeps a session file per profile and address in a
    map and says how a write may end.  Here those outcomes are those of
    [fsutil.WriteFileAtomic] run over [FsUtil]'s file systems at the path the
    store computes, crashes included. *)
From S2P Require Import Prelude GoText GoPath FsUtil Keystore SessionManager.
From stdpp Require Import prelude strings gmap list.
From Stdlib Require Import ZArith Lia Ascii String.
Local Open Scope Z_scope.

Section session_disk.
Context (rootDir : string).

(** [Store.profileDir] and [Store.keyPath]. *)
Definition profileDir (profile : string) : string := GoPath.Join rootDir profile.
Definition keyPath (profile sessionAddr : string) : string := GoPath.Join (profileDir profile) (Store.file_of sessionAddr).

(** What [os.ReadFile] finds at a path. *)
Definition read_file (s : fs) (path : string) : option string :=
  match s !! path with Some (File _ data) => Some data | _ => None end.

(** The file system holds the sessions of [d]. *)
Definition on_disk (s : fs) (d : Store.Disk) : Prop :=
  ∀ p a, seg_ok p → no_slash a = true → read_file s (keyPath p a) = (d !! p ≫= λ files, files !! Store.file_of a).

Context (Hroot : rootDir ≠ "").

(** The layout is the keystore's, so its facts on paths apply. *)
Abbreviation ks := (mkKeystore rootDir "" 0).

Lemma session_target p a rnd : seg_ok p → no_slash a = true → str_forall is_digit rnd = true → target rnd (keyPath p a).
Proof using Hroot. exact (key_target ks Hroot p a rnd). Qed.

Lemma keyPath_inj p a p' a' : seg_ok p → no_slash a = true → seg_ok p' → no_slash a' = true →
  keyPath p a = keyPath p' a' → p = p' ∧ a = a'.
Proof using Hroot.
  intros Hp Ha Hp' Ha' H. apply (file_inj ks Hroot) in H as [-> H]; try done; try by apply key_file_seg.
  split; [done|]. by apply file_of_inj.
Qed.

Lemma keyPath_not_temp p a p' a' rnd : seg_ok p → no_slash a = true → seg_ok p' → no_slash a' = true →
  str_forall is_digit rnd = true → keyPath p' a' ≠ tempName rnd (keyPath p a).
Proof using Hroot.
  intros Hp Ha Hp' Ha' Hr E. change (keyPath p a) with (Keystore.keyPath ks p a) in E.
  rewrite (tempName_key ks Hroot) in E by done.
  apply (file_inj ks Hroot) in E as [_ E]; try done; [|by apply key_file_seg|by apply temp_seg].
  symmetry in E. by eapply temp_not_key.
Qed.

Section write.
Context (rnd p a bytes : string) (s0 : fs) (d : Store.Disk).
Context (Hp : seg_ok p) (Ha : no_slash a = true) (Hrnd : str_forall is_digit rnd = true) (Hd : on_disk s0 d).

Abbreviation path := (keyPath p a).

(** A state the write passes through holds the sessions there were, but for
    what is at its target. *)
Lemma keep_others s p' a' : keep rnd path s0 s → seg_ok p' → no_slash a' = true → keyPath p' a' ≠ path →
  read_file s (keyPath p' a') = read_file s0 (keyPath p' a').
Proof using Hroot Hp Ha Hrnd.
  intros [Hk Hn] Hp' Ha' Hne. unfold read_file. destruct (s0 !! keyPath p' a') as [nd|] eqn:E0.
  { by rewrite (Hk _ _ E0 Hne). }
  destruct (s !! keyPath p' a') as [nd|] eqn:E; [|done].
  destruct (Hn _ _ E) as [?|[Ht|[->|?]]]; [done| |done|congruence].
  by destruct (keyPath_not_temp p a p' a' rnd Hp Ha Hp' Ha' Hrnd).
Qed.

Lemma keep_old s : keep rnd path s0 s → s !! path = s0 !! path → on_disk s d.
Proof using Hroot Hp Ha Hrnd Hd.
  intros Hk E p' a' Hp' Ha'. rewrite <- Hd by done. destruct (decide (keyPath p' a' = path)) as [Ep|Hne].
  - unfold read_file. by rewrite Ep, E.
  - by apply keep_others.
Qed.

Lemma keep_new s : keep rnd path s0 s → s !! path = Some (File 384 bytes) → on_disk s (Store.put d p (Store.file_of a) bytes).
Proof using Hroot Hp Ha Hrnd Hd.
  intros Hk E p' a' Hp' Ha'. rewrite put_lookup. case_decide as Hc.
  - destruct Hc as [<- <-%file_of_inj]. unfold read_file. by rewrite E.
  - rewrite <- Hd by done. apply keep_others; [done..|]. intros H.
    apply keyPath_inj in H as [-> ->]; [|done..]. by apply Hc.
Qed.

(** Writing a session is one of the outcomes [Store.WriteFileAtomic] has, and a
    crash at any moment leaves every session as it was, or the new one whole:
    whatever calls fail, and however much of the data one of them wrote. *)
Theorem write_outcomes fault short :
  let '(seen, r) := FsUtil.WriteFileAtomic fault short rnd path bytes 384 s0 in
  (∃ o, on_disk (final s0 seen) (Store.WriteFileAtomic o d p (Store.file_of a) bytes).1 ∧
        is_ok (Store.WriteFileAtomic o d p (Store.file_of a) bytes).2 = is_ok r) ∧
  Forall (λ s, on_disk s d ∨ on_disk s (Store.put d p (Store.file_of a) bytes)) seen.
Proof using All.
  pose proof (Atomic_spec fault short rnd path bytes 384 s0 (session_target p a rnd Hp Ha Hrnd)) as H.
  destruct (FsUtil.WriteFileAtomic _ _ _ _ _ _ s0) as [seen r]. destruct H as [Hs (Hk & Ho & _)]. split.
  - destruct r as [u|e]; simpl in Ho; [exists Store.Written; split; [by apply keep_new|done]|].
    case_bool_decide; [exists Store.Unsynced; split; [by apply keep_new|done]|].
    exists (Store.NotWritten false). split; [by apply keep_old|done].
  - eapply Forall_impl; [exact Hs|]. intros s [Hk' [E|[_ E]]]; [left; by apply keep_old|right; by apply keep_new].
Qed.

(** [Store.Delete] on the file system: the file is gone, or the call failed
    and nothing changed. *)
Theorem delete_outcomes fault :
  let '(seen, r) := Remove fault path s0 in
  on_disk (final s0 seen) (if fault CRemove then d else Store.Delete d p a).
Proof using Hroot Hp Ha Hd.
  unfold Remove, sys. destruct (fault CRemove); [done|].
  assert (Hdel : ∀ s, (∀ q, q ≠ path → s !! q = s0 !! q) → read_file s path = None → on_disk s (Store.Delete d p a)).
  { intros s Hs Hn p' a' Hp' Ha'. unfold Store.Delete. destruct (decide (keyPath p' a' = path)) as [E|Hne].
    - apply keyPath_inj in E as E'; [|done..]. destruct E' as [-> ->]. rewrite Hn, lookup_alter_eq.
      destruct (d !! p); [|done]. simpl. by rewrite lookup_delete_eq.
    - transitivity (read_file s0 (keyPath p' a')); [unfold read_file; by rewrite Hs|]. rewrite Hd by done.
      destruct (decide (p = p')) as [<-|Hpp]; [|by rewrite lookup_alter_ne].
      rewrite lookup_alter_eq. destruct (d !! p); [|done]. simpl. rewrite lookup_delete_ne; [done|].
      intros E%file_of_inj. subst. by apply Hne. }
  destruct (s0 !! path) eqn:E; [change (on_disk (delete path s0) (Store.Delete d p a))|change (on_disk s0 (Store.Delete d p a))]; apply Hdel.
  - intros q Hq. by rewrite lookup_delete_ne by congruence.
  - unfold read_file. by rewrite lookup_delete_eq.
  - done.
  - unfold read_file. by rewrite E.
Qed.
End write.
End session_disk.

(** A directory that cannot be synced: the write reports an error and the new
    session is in place. *)
Example unsynced_write :
  let fault c := match c with CSyncDir => true | _ => false end in
  let '(seen, r) := FsUtil.WriteFileAtomic fault 3 "17" (keyPath "/s" "p" "g1s") "{}" 384 {["/" := Directory; "/s" := Directory]} in
  is_ok r = false ∧ read_file (final ∅ seen) "/s/p/g1s.key" = Some "{}".
Proof. vm_compute. split; reflexivity. Qed.
