(* ===== verification/ChainClient.v ===== *)
(** * The chain client

    [internal/chain/real.go], [package.go], [vmparams.go], [status.go] and
    [gnokeycmd.go]: the write pipelines (session-signed and agent-signed), the
    session query, and the reads.  gnoclient, amino, the coin arithmetic and
    the ante's own spend check belong to gno and are arguments.  A client call
    is a computation over the history of what was asked of the signer and the
    node so far, on which every answer may depend. *)
From S2P Require Import Prelude GoText GasPrice ChainTypes SessionManager.
From stdpp Require Import prelude strings list sorting.
From Stdlib Require Import ZArith Lia Ascii String.
Local Open Scope Z_scope.

(** ** Data *)

(** [std.Coin], [std.Coins], [std.MemFile] *)
Record Coin := mkCoin { Denom : string; Amount : Z }.
Abbreviation Coins := (list Coin).
Record MemFile := mkFile { FileName : string; Body : string }.

(** [gnoclient.BaseTxCfg] *)
Record TxCfg := mkCfg { CfgGasFee : string; CfgGasWanted : Z }.

Definition baseTxCfg (feeUgnot gasWanted : Z) : TxCfg := mkCfg (format_int feeUgnot +:+ "ugnot") gasWanted.

(** The messages gnomcp sends; addresses are bech32 strings once parsed. *)
Inductive Msg :=
  | MsgCall (caller : string) (send : Coins) (pkgPath func : string) (args : list string)
  | MsgRun (caller : string) (files : list MemFile)
  | MsgAddPackage (creator path : string) (files : list MemFile) (maxDeposit : Coins)
  | MsgSend (from to : string) (amount : Coins).

Record Signature := mkSig { PubKey : string; SigBytes : string; SessionAddr : string }.

(** [std.Tx] *)
Record Tx := mkTx { Msgs : list Msg; GasFee : Coin; GasLimit : Z; Signatures : list Signature }.

Definition set_sigs (tx : Tx) (sigs : list Signature) : Tx := mkTx (Msgs tx) (GasFee tx) (GasLimit tx) sigs.

(** [gnoland.GnoSessionAccount] *)
Record SessionAccount := mkAcc {
  AccountNumber : Z;
  AccSequence : Z;
  AccAllowPaths : list string;
  SpendLimit : Coins;
  SpendUsed : Coins;
  AccExpiresAt : Z;
}.

(** [abci.ResponseDeliverTx] and [ResultBroadcastTxCommit] *)
Record DeliverTx := mkDeliver { dt_gas : Z; dt_data : string; dt_error : option string }.
Record Broadcast := mkBroadcast { br_hash : string; br_height : Z; br_deliver : DeliverTx }.

(** [chain.Signer] *)
Record SessionSigner := mkSigner { sg_address : string; sg_pubkey : string; sg_sign : string → option string }.

Definition txOutcome : Type := TxResult.

(** ** Computations *)

Inductive event :=
  | EvQuery (path data : string)
  | EvSign (payload : string)
  | EvAgentSign (tx : Tx)
  | EvSimulate (tx : Tx)
  | EvGasPrice
  | EvBroadcast (tx : Tx)                    (* a session-signed tx *)
  | EvAgentBroadcast (cfg : TxCfg) (m : Msg). (* gnoclient signs and sends *)

Abbreviation history := (list event).

Inductive step_error :=
  | NoSigner | NoMaster | BadMaster (a : string) | BadSession (a : string)
  | QueryAccount (e : string) | BuildTx | SpendCheck (total limit used : string) | SignTx (e : string)
  | Simulate (e : string) | Fee (e : price_error) | BroadcastTx (e : string)
  | SignerInfo | BadAmount (n : Z) | BadRecipient (a : string) | ParseSend (s : string).

(** [fmt.Errorf("%s: ...: %w", errPrefix, err)] *)
Record chain_error := mkErr { err_op : string; err_step : step_error }.

Definition M (A : Type) : Type := history → history * res chain_error A.

#[export] Instance M_ret : MRet M := λ A a h, (h, Ok a).
#[export] Instance M_bind : MBind M := λ A B f m h,
  let '(h, r) := m h in match r with Ok a => f a h | Err e => (h, Err e) end.

Definition raise {A} (op : string) (e : step_error) : M A := λ h, (h, Err (mkErr op e)).
Definition lift {A} (op : string) (e : step_error) (o : option A) : M A :=
  match o with Some a => mret a | None => raise op e end.

Section client.
(** ** What gno provides *)
Context (chainID : string).
(** The canonical form of a bech32 address. *)
Context (AddressFromBech32 : string → option string).
Context (NewTx : TxCfg → Msg → option Tx).
Context (GetSignBytes : Tx → string → Z → Z → option string).
Context (SpendForSigner : Msg → option (string → Coins)).
Context (coins_add coins_sub : Coins → Coins → Coins) (coins_string : Coins → string).
Context (ParseCoins : string → option Coins).
Context (CheckSessionSpend : SessionAccount → Coins → Z → bool).
Context (decodeSessionAccount : string → option SessionAccount).
Context (decode_price : string → option GasPrice).
(** An agent signer is known by its address ([Signer.Info]). *)
Context {AgentSigner : Type} (Info : AgentSigner → option string) (SignAgent : AgentSigner → Tx → option Tx).

(** The node and the clock, answering after a history. *)
Record Node := {
  n_query : history → string → string → res string string;
  n_gasprice : history → option string;
  n_simulate : history → Tx → res string DeliverTx;
  n_broadcast : history → Tx → res string Broadcast;
  n_agent_broadcast : history → TxCfg → Msg → res string Broadcast;
  n_now : history → Z;
}.
Context (node : Node).

Definition ask {A} (op : string) (wrap : string → step_error) (ev : event) (answer : history → res string A) : M A := λ h,
  (h ++ [ev], match answer h with Ok a => Ok a | Err e => Err (mkErr op (wrap e)) end).

(** ** Pricing *)

Definition dryRun (op : string) (tx : Tx) : M DeliverTx :=
  ask op Simulate (EvSimulate tx) (λ h,
    match n_simulate node h tx with
    | Err e => Err e
    | Ok r => match dt_error r with Some e => Err e | None => Ok r end
    end).

Definition price_now (op : string) (gasWanted : Z) : M Z := λ h,
  (h ++ [EvGasPrice],
   match currentGasFee (Fetch (n_gasprice node h) decode_price) gasWanted with
   | Ok fee => Ok fee
   | Err e => Err (mkErr op (Fee e))
   end).

(** ** Session-signed transactions *)

Definition session_path (master sessionAddr : string) : string :=
  "auth/accounts/" +:+ master +:+ "/session/" +:+ sessionAddr.

Definition decode_answer (r : res string string) : res string SessionAccount :=
  match r with
  | Err e => Err e
  | Ok data =>
      if bool_decide (data = "") || bool_decide (data = "null") then Err "session not found"
      else ok_or "decode session account" (decodeSessionAccount data)
  end.

Definition querySessionAccount (op master sessionAddr : string) : M SessionAccount :=
  ask op QueryAccount (EvQuery (session_path master sessionAddr) "")
    (λ h, decode_answer (n_query node h (session_path master sessionAddr) "")).

(** The total outflow the ante computes for a transaction. *)
Definition tx_total (tx : Tx) (master : string) : Coins :=
  foldl (λ total m, match SpendForSigner m with Some est => coins_add total (est master) | None => total end)
    (if Amount (GasFee tx) =? 0 then [] else coins_add [] [GasFee tx]) (Msgs tx).

Definition checkSessionSpendForTx (op : string) (acc : SessionAccount) (tx : Tx) (master : string) : M unit := λ h,
  let total := tx_total tx master in
  if CheckSessionSpend acc total (n_now node h) then (h, Ok tt)
  else (h, Err (mkErr op (SpendCheck (coins_string total) (coins_string (SpendLimit acc)) (coins_string (SpendUsed acc))))).

Definition pubKeySize : Z := 32.

Definition signTxForSession (op : string) (unsignedTx : Tx) (signer : SessionSigner) (acc : SessionAccount) (sessionAddr : string) : M Tx :=
  signBytes ← lift op (SignTx "get sign bytes") (GetSignBytes unsignedTx chainID (AccountNumber acc) (AccSequence acc));
  sig ← ask op SignTx (EvSign signBytes) (λ _, ok_or "session sign" (sg_sign signer signBytes));
  if negb (len (sg_pubkey signer) =? pubKeySize) then raise op (SignTx "invalid session pubkey length")
  else mret (set_sigs unsignedTx [mkSig (sg_pubkey signer) sig sessionAddr]).

(** What the measuring leg hands to the delivery leg. *)
Record priced := mkPriced { p_signer : SessionSigner; p_session : string; p_acc : SessionAccount; p_deliver : DeliverTx; p_gas : Z; p_fee : Z; p_tx : Tx }.

(** [asUserTx] up to the point where a simulation stops. *)
Definition user_measure (signer : option SessionSigner) (master op : string) (buildTx : string → TxCfg → option Tx) : M priced :=
  signer ← lift op NoSigner signer;
  _ ← (if bool_decide (master = "") then raise op NoMaster else mret tt);
  masterAddr ← lift op (BadMaster master) (AddressFromBech32 master);
  sessionAddr ← lift op (BadSession (sg_address signer)) (AddressFromBech32 (sg_address signer));
  acc ← querySessionAccount op masterAddr sessionAddr;
  measureTx ← lift op BuildTx (buildTx masterAddr (baseTxCfg DefaultGasFeeUgnot gasEstimateCeiling));
  _ ← checkSessionSpendForTx op acc measureTx masterAddr;
  signedMeasure ← signTxForSession op measureTx signer acc sessionAddr;
  deliver ← dryRun op signedMeasure;
  let gasWanted := gasWantedFor (dt_gas deliver) in
  fee ← price_now op gasWanted;
  finalTx ← lift op BuildTx (buildTx masterAddr (baseTxCfg fee gasWanted));
  _ ← checkSessionSpendForTx op acc finalTx masterAddr;
  mret (mkPriced signer sessionAddr acc deliver gasWanted fee finalTx).

Definition asUserTx (signer : option SessionSigner) (master op : string) (buildTx : string → TxCfg → option Tx) (simulate : bool) : M txOutcome :=
  p ← user_measure signer master op buildTx;
  if simulate then
    mret (ChainTypes.mkTx "" 0 (dt_data (p_deliver p)) (dt_gas (p_deliver p)) (p_gas p) (p_fee p) true)
  else
    signedFinal ← signTxForSession op (p_tx p) (p_signer p) (p_acc p) (p_session p);
    res ← ask op BroadcastTx (EvBroadcast signedFinal) (λ h, n_broadcast node h signedFinal);
    mret (ChainTypes.mkTx (br_hash res) (br_height res) (dt_data (br_deliver res)) (dt_gas (br_deliver res)) (p_gas p) (p_fee p) false).

Definition parseSendCoins (send : string) : option Coins :=
  if bool_decide (send = "") then Some [] else ParseCoins send.

Definition ValidateSendCoins (send : string) : bool := bool_decide (is_Some (parseSendCoins send)).

Definition CallAsUser (signer : option SessionSigner) (master realm fn : string) (args : list string) (send : string) (simulate : bool) : M txOutcome :=
  sendCoins ← lift "" (ParseSend send) (parseSendCoins send);
  asUserTx signer master "call as user" (λ masterAddr cfg, NewTx cfg (MsgCall masterAddr sendCoins realm fn args)) simulate.

Definition RunAsUser (signer : option SessionSigner) (master code : string) (simulate : bool) : M txOutcome :=
  asUserTx signer master "run as user" (λ masterAddr cfg, NewTx cfg (MsgRun masterAddr [mkFile "main.gno" code])) simulate.

(** ** Agent-signed transactions *)

Definition agentTxSetup (signer : option AgentSigner) (op : string) : M (string * AgentSigner) :=
  signer ← lift op NoSigner signer;
  addr ← lift op SignerInfo (Info signer);
  mret (addr, signer).

Definition agentSimulate (signer : AgentSigner) (op : string) (buildTx : option Tx) : M txOutcome :=
  unsigned ← lift op BuildTx buildTx;
  signed ← ask op SignTx (EvAgentSign unsigned) (λ _, ok_or "sign" (SignAgent signer unsigned));
  deliver ← dryRun op signed;
  mret (ChainTypes.mkTx "" 0 (dt_data deliver) (dt_gas deliver) 0 0 true).

Definition agentMeasure (signer : AgentSigner) (op : string) (buildTx : TxCfg → option Tx) : M txOutcome :=
  out ← agentSimulate signer op (buildTx (baseTxCfg DefaultGasFeeUgnot gasEstimateCeiling));
  let gasWanted := gasWantedFor (GasUsed out) in
  fee ← price_now op gasWanted;
  mret (ChainTypes.mkTx (TxHash out) (Height out) (Data out) (GasUsed out) gasWanted fee (Simulated out)).

(** The shape [Call], [Run] and [AddPackage] share: measure, then stop or
    broadcast at the measured price.  [data] says whether the result carries
    the deliver data ([AddPackageResult] has none). *)
Definition agent_write (signer : AgentSigner) (op : string) (msg : Msg) (data : bool) (simulate : bool) : M txOutcome :=
  out ← agentMeasure signer op (λ cfg, NewTx cfg msg);
  let keep d := if data then d else "" in
  if simulate then mret (ChainTypes.mkTx "" 0 (keep (Data out)) (GasUsed out) (GasWanted out) (ChainTypes.GasFee out) true)
  else
    let cfg := baseTxCfg (ChainTypes.GasFee out) (GasWanted out) in
    res ← ask op BroadcastTx (EvAgentBroadcast cfg msg) (λ h, n_agent_broadcast node h cfg msg);
    mret (ChainTypes.mkTx (br_hash res) (br_height res) (keep (dt_data (br_deliver res))) (dt_gas (br_deliver res)) (GasWanted out) (ChainTypes.GasFee out) false).

Definition Call (signer : option AgentSigner) (realm fn : string) (args : list string) (send : string) (simulate : bool) : M txOutcome :=
  '(caller, signer) ← agentTxSetup signer "call";
  sendCoins ← lift "" (ParseSend send) (parseSendCoins send);
  agent_write signer "call" (MsgCall caller sendCoins realm fn args) true simulate.

Definition Run (signer : option AgentSigner) (code : string) (simulate : bool) : M txOutcome :=
  '(caller, signer) ← agentTxSetup signer "run";
  agent_write signer "run" (MsgRun caller [mkFile "main.gno" code]) true simulate.

Definition DefaultMaxDepositUgnot : Z := 50000000.

Definition AddPackage (signer : option AgentSigner) (deployPath : string) (files : list MemFile) (simulate : bool) : M txOutcome :=
  '(creator, signer) ← agentTxSetup signer "addpackage";
  agent_write signer "addpackage"
    (MsgAddPackage creator deployPath (sort_by FileName files) [mkCoin ugnot DefaultMaxDepositUgnot]) false simulate.

Definition Send (signer : option AgentSigner) (toAddr : string) (amountUgnot : Z) : M txOutcome :=
  _ ← (if amountUgnot <=? 0 then raise "send" (BadAmount amountUgnot) else mret tt);
  '(from, signer) ← agentTxSetup signer "send";
  to ← lift "send" (BadRecipient toAddr) (AddressFromBech32 toAddr);
  let msg := MsgSend from to [mkCoin ugnot amountUgnot] in
  fee ← price_now "send" DefaultGasWanted;
  let cfg := baseTxCfg fee DefaultGasWanted in
  res ← ask "send" BroadcastTx (EvAgentBroadcast cfg msg) (λ h, n_agent_broadcast node h cfg msg);
  mret (ChainTypes.mkTx (br_hash res) (br_height res) "" (dt_gas (br_deliver res)) 0 fee false).

(** ** Session status *)

(** Permission entries outside the grammar are dropped. *)
Definition splitAllowPaths (chainPaths : list string) : list string * bool :=
  (omap (cut_prefix "vm/exec:") chainPaths,
   existsb (λ p, negb (bool_decide (is_Some (cut_prefix "vm/exec:" p))) && bool_decide (p = "vm/run")) chainPaths).

Definition spendRemaining (limit used : Coins) : string :=
  let out := filter (λ c, 0 < Amount c) (coins_sub limit used) in
  match out, limit with
  | [], c :: _ => "0" +:+ Denom c
  | _, _ => coins_string out
  end.

Definition isSessionNotFoundErr (err : string) : bool := contains err "session not found".

Definition QuerySession (h : history) (master sessionAddr : string) : res query_error SessionStatus :=
  if bool_decide (master = "") || bool_decide (sessionAddr = "") then Err ErrSessionQueryUnsupported
  else
    match n_query node h (session_path master sessionAddr) "" with
    | Err err => if isSessionNotFoundErr err then Ok inactive else Err ErrSessionQueryUnsupported
    | Ok data =>
        if bool_decide (data = "") || bool_decide (data = "null") then Ok inactive
        else match decodeSessionAccount data with
        | None => Err ErrSessionQueryUnsupported
        | Some acc =>
            let '(realmPaths, allowRun) := splitAllowPaths (AccAllowPaths acc) in
            Ok (mkStatus true realmPaths allowRun (coins_string (SpendLimit acc))
                  (spendRemaining (SpendLimit acc) (SpendUsed acc)) (AccExpiresAt acc))
        end
    end.

(** ** Reads *)

(** The names or paths of a newline-separated answer. *)
Definition name_lines (data : string) : list string :=
  filter (λ s, s ≠ "") (trim_space <$> split_byte "010"%char data).

Definition File (h : history) (realm file : string) : res string string :=
  if bool_decide (file = "") then Err "vm/qfile: file name must not be empty; use ListFiles for listings"
  else map_err (λ e, "vm/qfile: " +:+ e) (n_query node h "vm/qfile" (realm +:+ "/" +:+ file)).

Definition ListFiles (h : history) (realm : string) : res string (list string) :=
  data ← map_err (λ e, "vm/qfile: " +:+ e) (n_query node h "vm/qfile" realm);
  mret (name_lines data).

Definition ListPaths (h : history) (target : string) (limit : Z) : res string (list string) :=
  let qpath := if 0 <? limit then "vm/qpaths?limit=" +:+ format_int limit else "vm/qpaths" in
  data ← map_err (λ e, "vm/qpaths: " +:+ e) (n_query node h qpath target);
  mret (name_lines data).

Definition Doc (h : history) (realm : string) : res string string :=
  map_err (λ e, "vm/qdoc: " +:+ e) (n_query node h "vm/qdoc" realm).

Fixpoint read_files (h : history) (pkgPath : string) (names : list string) : res string (list MemFile) :=
  match names with
  | [] => Ok []
  | name :: names =>
      body ← map_err (λ e, "read " +:+ pkgPath +:+ "/" +:+ name +:+ ": " +:+ e) (File h pkgPath name);
      files ← read_files h pkgPath names;
      mret (mkFile name body :: files)
  end.

Definition ReadPackageFiles (h : history) (pkgPath : string) : res string (list MemFile) :=
  names ← ListFiles h pkgPath;
  files ← read_files h pkgPath names;
  mret (sort_by FileName files).

(** ** Accounts *)

Record AccountInfo := mkInfo { InfoCoins : Coins; InfoSequence : Z; InfoNumber : Z; Exists : bool }.

(** The answer of [gnoclient.QueryAccount]; an address without a record is
    [std.UnknownAddressError]. *)
Inductive account_answer := UnknownAddress | AccountFailed (e : string) | AccountFound (coins : Coins) (sequence number : Z).

Context (QueryAccount : string → account_answer) (AmountOf : Coins → string → Z).

Definition Account (bech32 : string) : res string AccountInfo :=
  addr ← ok_or ("account: addr " +:+ bech32) (AddressFromBech32 bech32);
  match QueryAccount addr with
  | UnknownAddress => Ok (mkInfo [] 0 0 false)
  | AccountFailed e => Err ("account: query " +:+ bech32 +:+ ": " +:+ e)
  | AccountFound coins sequence number => Ok (mkInfo coins sequence number true)
  end.

Definition Balance (bech32 : string) : res string Z :=
  info ← map_err (λ e, "balance: " +:+ e) (Account bech32);
  mret (AmountOf (InfoCoins info) ugnot).
End client.

(** ** Chain parameters ([vmparams.go]) *)

Definition maxPackageReason : nat := 256.
Definition truncatedMark : string := "…(truncated)".

(** [strings.ToValidUTF8(s, "")]: the fuel is the length, a step drops at
    least one byte. *)
Fixpoint to_valid_utf8 (fuel : nat) (s : string) : string :=
  match fuel, s with
  | S fuel, String a rest =>
      match decode_rune s with
      | Some (_, rest') => str_take (String.length s - String.length rest') s +:+ to_valid_utf8 fuel rest'
      | None => to_valid_utf8 fuel rest
      end
  | _, _ => ""
  end.

(** [json] is the decoded object, [None] for malformed JSON. *)
Definition decodePackageMeta (json : string → option PackageMeta) (data : string) : res string PackageMeta :=
  m ← ok_or "decode package meta" (json data);
  if bool_decide (Status m = "") then Err "decode package meta: no status"
  else if (maxPackageReason <? String.length (Reason m))%nat then
    Ok (mkMeta (Status m) (to_valid_utf8 maxPackageReason (str_take maxPackageReason (Reason m)) +:+ truncatedMark) (Pending m))
  else Ok m.

(** A JSON string or null: [Some None] is null. *)
Definition decodeSubmissionPolicy (json : string → option (option string)) (data : string) : res string string :=
  if bool_decide (data = "") then Ok ""
  else policy ← ok_or "decode code_submission_policy" (json data); mret (default "" policy).

Definition decodeAddressList (json : string → option (list string)) (data : string) : res string (list string) :=
  if bool_decide (data = "") then Ok [] else ok_or "decode address list" (json data).

(** [Real.SubmissionPolicy], [Real.RunSubmitters], [Real.PackageMeta] *)
Section params.
Context (node : Node) (json_policy : string → option (option string)) (json_addrs : string → option (list string))
  (json_meta : string → option PackageMeta).

Definition SubmissionPolicy (h : history) : res string string :=
  data ← n_query node h "params/vm:p:code_submission_policy" "";
  decodeSubmissionPolicy json_policy data.

Definition RunSubmitters (h : history) : res string (list string) :=
  data ← n_query node h "params/vm:p:run_submitters" "";
  decodeAddressList json_addrs data.

Definition QueryPackageMeta (h : history) (pkgPath : string) : res string PackageMeta :=
  data ← n_query node h "vm/qpkgmeta_json" pkgPath;
  decodePackageMeta json_meta data.
End params.

(** ** The echoed command ([gnokeycmd.go]) *)

Record GnokeyCmd := mkCmd {
  Sub : string; PkgPath : string; Func : string; Args : list string; To : string; SendAmt : string;
  PkgDir : string; MaxDeposit : string; RPC : string; CmdChainID : string; SignerAddr : string; Master : string;
  CmdSimulate : bool; CmdGasFee : Z; CmdGasWanted : Z;
}.

Definition or_default (z d : Z) : Z := if z =? 0 then d else z.

Definition cmd_parts (g : GnokeyCmd) : list string :=
  ["gnokey"; "maketx"; Sub g]
  ++ (if bool_decide (Sub g = "call") then
        ["-pkgpath"; PkgPath g; "-func"; Func g] ++ (a ← Args g; ["-args"; a])
      else if bool_decide (Sub g = "addpkg") then
        ["-pkgpath"; PkgPath g; "-pkgdir"; if bool_decide (PkgDir g = "") then "<your-source-dir>" else PkgDir g]
      else [])
  ++ (if bool_decide (SendAmt g = "") then [] else ["-send"; SendAmt g])
  ++ (if bool_decide (Sub g = "send") && negb (bool_decide (To g = "")) then ["-to"; To g] else [])
  ++ (if bool_decide (MaxDeposit g = "") then [] else ["-max-deposit"; MaxDeposit g])
  ++ ["-gas-fee"; format_int (or_default (CmdGasFee g) DefaultGasFeeUgnot) +:+ "ugnot";
      "-gas-wanted"; format_int (or_default (CmdGasWanted g) DefaultGasWanted);
      "-remote"; RPC g; "-chainid"; CmdChainID g]
  ++ (if CmdSimulate g then ["-simulate"; "only"] else ["-broadcast"])
  ++ (if bool_decide (Master g = "") then [] else ["-master"; Master g])
  ++ [SignerAddr g]
  ++ (if bool_decide (Sub g = "run") then ["<your-script.gno>"] else []).

Definition cmd_String (g : GnokeyCmd) : string := GoText.join " " (cmd_parts g).

(** ** Traces *)

Definition is_broadcast (ev : event) : bool :=
  match ev with EvBroadcast _ | EvAgentBroadcast _ _ => true | _ => false end.

(** A computation only extends the history, by events of [G]. *)
Definition emits {A} (G : event → Prop) (m : M A) : Prop :=
  ∀ h, ∃ evs, fst (m h) = h ++ evs ∧ Forall G evs.

Section traces.
Context (G : event → Prop).

Lemma emits_ret {A} (a : A) : emits G (mret a).
Proof using Type. intros h. exists []. by rewrite app_nil_r. Qed.

Lemma emits_raise {A} op e : emits G (raise (A := A) op e).
Proof using Type. intros h. exists []. by rewrite app_nil_r. Qed.

Lemma emits_lift {A} op e (o : option A) : emits G (lift op e o).
Proof using Type. destruct o; [apply emits_ret|apply emits_raise]. Qed.

Lemma emits_bind {A B} (m : M A) (f : A → M B) : emits G m → (∀ a, emits G (f a)) → emits G (m ≫= f).
Proof using Type.
  intros Hm Hf h. destruct (Hm h) as (evs & E & HG). unfold mbind, M_bind.
  destruct (m h) as [h' [a|e]]; simpl in *; subst h'; [|eauto].
  destruct (Hf a (h ++ evs)) as (evs' & E' & HG'). exists (evs ++ evs'). rewrite app_assoc. split; [done|by apply Forall_app].
Qed.

Lemma emits_ask {A} op w ev (f : history → res string A) : G ev → emits G (ask op w ev f).
Proof using Type. intros Hev h. exists [ev]. split; [done|by constructor]. Qed.

Lemma emits_if {A} (b : bool) (m m' : M A) : emits G m → emits G m' → emits G (if b then m else m').
Proof using Type. by destruct b. Qed.
End traces.

Create HintDb emits.
#[export] Hint Resolve emits_ret emits_raise emits_lift emits_bind emits_ask emits_if : emits.

Lemma M_bind_Ok {A B} (m : M A) (f : A → M B) h h' b :
  (m ≫= f) h = (h', Ok b) ↔ ∃ h1 a, m h = (h1, Ok a) ∧ f a h1 = (h', Ok b).
Proof. unfold mbind, M_bind. destruct (m h) as [h1 [a|e]]; naive_solver. Qed.

Lemma lift_Ok {A} op e (o : option A) h h' a : lift op e o h = (h', Ok a) ↔ o = Some a ∧ h' = h.
Proof. destruct o; unfold lift, raise, mret, M_ret; naive_solver. Qed.

Lemma ask_Ok {A} op w ev (f : history → res string A) h h' a :
  ask op w ev f h = (h', Ok a) ↔ f h = Ok a ∧ h' = h ++ [ev].
Proof. unfold ask. destruct (f h); naive_solver. Qed.

(** Invert a client computation that answered. *)
Ltac inv_M :=
  repeat match goal with
  | H : (_ ≫= _) _ = (_, Ok _) |- _ => apply M_bind_Ok in H; destruct H as (? & ? & ? & H)
  | H : lift _ _ _ _ = (_, Ok _) |- _ => apply lift_Ok in H; destruct H as [? ->]
  | H : ask _ _ _ _ _ = (_, Ok _) |- _ => apply ask_Ok in H; destruct H as [? ->]
  | H : mret _ _ = (_, Ok _) |- _ => injection H as ? ?; subst
  | H : raise _ _ _ = (_, Ok _) |- _ => discriminate H
  end.

Section honesty.
Context (chainID : string) (AddressFromBech32 : string → option string) (NewTx : TxCfg → Msg → option Tx).
Context (GetSignBytes : Tx → string → Z → Z → option string) (SpendForSigner : Msg → option (string → Coins)).
Context (coins_add : Coins → Coins → Coins) (coins_string : Coins → string).
Context (CheckSessionSpend : SessionAccount → Coins → Z → bool).
Context (decodeSessionAccount : string → option SessionAccount) (decode_price : string → option GasPrice).
Context {AgentSigner : Type} (SignAgent : AgentSigner → Tx → option Tx).
Context (node : Node).

Abbreviation as_user := (asUserTx chainID AddressFromBech32 GetSignBytes SpendForSigner coins_add coins_string
  CheckSessionSpend decodeSessionAccount decode_price node).
Abbreviation measure := (user_measure chainID AddressFromBech32 GetSignBytes SpendForSigner coins_add coins_string
  CheckSessionSpend decodeSessionAccount decode_price node).
Abbreviation total := (tx_total SpendForSigner coins_add).
Abbreviation agent := (agent_write NewTx decode_price SignAgent node).

Definition quiet (ev : event) : Prop := is_broadcast ev = false.

Lemma emits_price op g : emits quiet (price_now decode_price node op g).
Proof using Type. intros h. exists [EvGasPrice]. split; [done|by constructor]. Qed.

Lemma emits_check op acc tx m :
  emits quiet (checkSessionSpendForTx SpendForSigner coins_add coins_string CheckSessionSpend node op acc tx m).
Proof using Type.
  intros h. exists []. rewrite app_nil_r. split; [|constructor]. unfold checkSessionSpendForTx. by destruct (CheckSessionSpend _ _ _).
Qed.

Lemma emits_sign op tx sg acc a : emits quiet (signTxForSession chainID GetSignBytes op tx sg acc a).
Proof using Type.
  unfold signTxForSession. apply emits_bind; [apply emits_lift|intros]. apply emits_bind; [by apply emits_ask|intros].
  apply emits_if; auto with emits.
Qed.

Lemma emits_measure sg master op build : emits quiet (measure sg master op build).
Proof using Type.
  unfold user_measure.
  repeat first [apply emits_ret | apply emits_raise | apply emits_lift | apply emits_price | apply emits_check | apply emits_sign
    | apply emits_if | apply emits_bind; [|intros ?] | by apply emits_ask].
Qed.

(** What a price is good for: the delivery transaction was built for the fee
    and the gas limit, which come from a dry run and the live price. *)
Definition priced_tx (build : TxCfg → option Tx) (gas fee : Z) (tx : Tx) : Prop :=
  build (baseTxCfg fee gas) = Some tx ∧
  (∃ h, currentGasFee (Fetch (n_gasprice node h) decode_price) gas = Ok fee) ∧
  ∃ tx0 signed h deliver, build (baseTxCfg DefaultGasFeeUgnot gasEstimateCeiling) = Some tx0 ∧
    n_simulate node h signed = Ok deliver ∧ dt_error deliver = None ∧ gas = gasWantedFor (dt_gas deliver).

Lemma dryRun_Ok op tx h h' d : dryRun node op tx h = (h', Ok d) →
  n_simulate node h tx = Ok d ∧ dt_error d = None.
Proof using Type.
  unfold dryRun. intros [H _]%ask_Ok. destruct (n_simulate node h tx) as [r|]; [|done].
  destruct (dt_error r) eqn:E; [done|]. by injection H as <-.
Qed.

Lemma price_Ok op g h h' fee : price_now decode_price node op g h = (h', Ok fee) →
  currentGasFee (Fetch (n_gasprice node h) decode_price) g = Ok fee.
Proof using Type. unfold price_now. destruct (currentGasFee _ _); [|done]. by intros [= _ <-]. Qed.

Lemma check_Ok_spend op acc tx m h h' u :
  checkSessionSpendForTx SpendForSigner coins_add coins_string CheckSessionSpend node op acc tx m h = (h', Ok u) →
  CheckSessionSpend acc (total tx m) (n_now node h) = true.
Proof using Type. unfold checkSessionSpendForTx. by destruct (CheckSessionSpend _ _ _). Qed.

Lemma sign_Ok op tx sg acc a h h' tx' : signTxForSession chainID GetSignBytes op tx sg acc a h = (h', Ok tx') →
  ∃ payload sig, GetSignBytes tx chainID (AccountNumber acc) (AccSequence acc) = Some payload ∧
    sg_sign sg payload = Some sig ∧ tx' = set_sigs tx [mkSig (sg_pubkey sg) sig a].
Proof using Type.
  unfold signTxForSession. intros H. inv_M. case_match; inv_M.
  match goal with H : ok_or _ _ = Ok _ |- _ => destruct (sg_sign sg _) eqn:E; [|discriminate H]; injection H as -> end.
  eauto.
Qed.

(** What a measuring leg that answered has established. *)
Lemma measure_Ok sg master op build h h' p : measure sg master op build h = (h', Ok p) →
  ∃ masterAddr, sg = Some (p_signer p) ∧ master ≠ "" ∧ AddressFromBech32 master = Some masterAddr ∧
    AddressFromBech32 (sg_address (p_signer p)) = Some (p_session p) ∧
    priced_tx (build masterAddr) (p_gas p) (p_fee p) (p_tx p) ∧
    ∃ h1, CheckSessionSpend (p_acc p) (total (p_tx p) masterAddr) (n_now node h1) = true.
Proof using Type.
  unfold user_measure. intros H.
  apply M_bind_Ok in H as (h1 & s & Hs & H). apply lift_Ok in Hs as [-> ->].
  apply M_bind_Ok in H as (h1 & [] & Hm & H). case_bool_decide as Hne; [done|].
  apply M_bind_Ok in H as (h2 & ma & Ha & H). apply lift_Ok in Ha as [Ha ->].
  apply M_bind_Ok in H as (h2 & sa & Hsa & H). apply lift_Ok in Hsa as [Hsa ->].
  apply M_bind_Ok in H as (h3 & acc & _ & H).
  apply M_bind_Ok in H as (h4 & tx0 & Ht0 & H). apply lift_Ok in Ht0 as [Ht0 ->].
  apply M_bind_Ok in H as (h5 & [] & _ & H). apply M_bind_Ok in H as (h6 & signed & _ & H).
  apply M_bind_Ok in H as (h7 & d & Hd & H). apply dryRun_Ok in Hd as [Hd He].
  apply M_bind_Ok in H as (h8 & fee & Hf & H). apply price_Ok in Hf.
  apply M_bind_Ok in H as (h9 & tx & Ht & H). apply lift_Ok in Ht as [Ht ->].
  apply M_bind_Ok in H as (h10 & [] & Hc & H). apply check_Ok_spend in Hc. injection H as <- <-. simpl.
  exists ma. split_and!; try done; [|eauto]. split_and!; eauto 10.
Qed.

Definition broadcasts (evs : history) : history := filter (λ ev, is_broadcast ev = true) evs.

Lemma broadcasts_quiet evs : Forall quiet evs → broadcasts evs = [].
Proof using Type. intros H. apply filter_none. eapply Forall_impl; [done|]. unfold quiet. by intros ev ->. Qed.

Lemma broadcasts_snoc evs ev : Forall quiet evs → is_broadcast ev = true → broadcasts (evs ++ [ev]) = [ev].
Proof using Type.
  intros H Hev. unfold broadcasts. rewrite filter_app. fold (broadcasts evs). rewrite broadcasts_quiet by done.
  by rewrite filter_cons_True.
Qed.

Definition deliver_tx (op : string) (p : priced) : M txOutcome :=
  signedFinal ← signTxForSession chainID GetSignBytes op (p_tx p) (p_signer p) (p_acc p) (p_session p);
  res ← ask op BroadcastTx (EvBroadcast signedFinal) (λ h, n_broadcast node h signedFinal);
  mret (ChainTypes.mkTx (br_hash res) (br_height res) (dt_data (br_deliver res)) (dt_gas (br_deliver res)) (p_gas p) (p_fee p) false).

Lemma as_user_fails sg master op build simulate h h1 e : measure sg master op build h = (h1, Err e) →
  as_user sg master op build simulate h = (h1, Err e).
Proof using Type. unfold asUserTx. unfold mbind at 1, M_bind at 1. by intros ->. Qed.

Lemma as_user_simulates sg master op build h h1 p : measure sg master op build h = (h1, Ok p) →
  as_user sg master op build true h =
    (h1, Ok (ChainTypes.mkTx "" 0 (dt_data (p_deliver p)) (dt_gas (p_deliver p)) (p_gas p) (p_fee p) true)).
Proof using Type. unfold asUserTx. unfold mbind at 1, M_bind at 1. by intros ->. Qed.

Lemma as_user_delivers sg master op build h h1 p : measure sg master op build h = (h1, Ok p) →
  as_user sg master op build false h = deliver_tx op p h1.
Proof using Type. unfold asUserTx. unfold mbind at 1, M_bind at 1. by intros ->. Qed.

(** the session write pipeline is honest.  A simulation broadcasts
    nothing.  A write broadcasts at most one transaction, and that one is what
    [buildTx] makes for the master at a gas limit measured by a dry run and the
    fee the live price asks for it, has passed the session's spend check, and
    carries the session key's signature alone.  A write that answers did
    broadcast it and reports its gas limit and fee, and simulating at the same
    point would have reported the same two numbers. *)
Theorem asUserTx_honest sg master op build simulate h :
  let '(h', r) := asUserTx chainID AddressFromBech32 GetSignBytes SpendForSigner coins_add coins_string
    CheckSessionSpend decodeSessionAccount decode_price node sg master op build simulate h in
  ∃ evs, h' = h ++ evs ∧
  (broadcasts evs = [] ∨ simulate = false ∧
     ∃ s masterAddr sessionAddr acc gas fee tx payload sig h1,
       broadcasts evs = [EvBroadcast (set_sigs tx [mkSig (sg_pubkey s) sig sessionAddr])] ∧
       sg = Some s ∧ AddressFromBech32 master = Some masterAddr ∧ AddressFromBech32 (sg_address s) = Some sessionAddr ∧
       priced_tx (build masterAddr) gas fee tx ∧
       CheckSessionSpend acc (tx_total SpendForSigner coins_add tx masterAddr) (n_now node h1) = true ∧
       GetSignBytes tx chainID (AccountNumber acc) (AccSequence acc) = Some payload ∧ sg_sign s payload = Some sig ∧
       ∀ o, r = Ok o → GasWanted o = gas ∧ ChainTypes.GasFee o = fee) ∧
  ∀ o, r = Ok o → Simulated o = simulate ∧ (simulate = false → broadcasts evs ≠ []) ∧
    ∃ o', snd (asUserTx chainID AddressFromBech32 GetSignBytes SpendForSigner coins_add coins_string
      CheckSessionSpend decodeSessionAccount decode_price node sg master op build true h) = Ok o' ∧
      GasWanted o' = GasWanted o ∧ ChainTypes.GasFee o' = ChainTypes.GasFee o.
Proof.
  destruct (emits_measure sg master op build h) as (evs & E & Hq).
  destruct (measure sg master op build h) as [h1 [p|e]] eqn:Em; simpl in E; subst h1.
  2: { rewrite (as_user_fails _ _ _ _ _ _ _ _ Em). exists evs. split; [done|].
       split; [left; by apply broadcasts_quiet|done]. }
  pose proof (as_user_simulates _ _ _ _ _ _ _ Em) as Hsim. destruct simulate.
  { rewrite Hsim. exists evs. split; [done|]. split; [left; by apply broadcasts_quiet|]. intros o [= <-].
    split_and!; [done|done|]. eexists. split; [reflexivity|done]. }
  rewrite (as_user_delivers _ _ _ _ _ _ _ Em), Hsim.
  apply measure_Ok in Em as (ma & -> & _ & Hma & Hsa & Hp & h2 & Hc).
  destruct (emits_sign op (p_tx p) (p_signer p) (p_acc p) (p_session p) (h ++ evs)) as (evs' & E & Hq').
  unfold deliver_tx, mbind, M_bind.
  destruct (signTxForSession _ _ _ _ _ _ _ (h ++ evs)) as [h3 [stx|e]] eqn:Es; simpl in E; subst h3.
  2: { exists (evs ++ evs'). rewrite app_assoc. split; [done|].
       split; [left; apply broadcasts_quiet; by apply Forall_app|done]. }
  apply sign_Ok in Es as (payload & sig & Hpl & Hsig & ->).
  set (stx := set_sigs _ _). set (ev := EvBroadcast stx).
  assert (Hb : broadcasts ((evs ++ evs') ++ [ev]) = [ev]) by (apply broadcasts_snoc; [by apply Forall_app|done]).
  unfold ask. destruct (n_broadcast node _ stx) as [res|e]; exists ((evs ++ evs') ++ [ev]); rewrite Hb, !app_assoc.
  all: split; [done|]; split; [right; split; [done|];
    exists (p_signer p), ma, (p_session p), (p_acc p), (p_gas p), (p_fee p), (p_tx p), payload, sig, h2;
    split_and!; try done|].
  - by intros o [= <-].
  - intros o [= <-]. split_and!; [done|done|]. eexists. split; [reflexivity|done].
  - done.
Qed.

Lemma emits_agentMeasure sg op build : emits quiet (agentMeasure decode_price SignAgent node sg op build).
Proof using Type.
  unfold agentMeasure, agentSimulate.
  repeat first [apply emits_ret | apply emits_lift | apply emits_price | apply emits_bind; [|intros ?] | by apply emits_ask].
Qed.

Lemma agentMeasure_Ok sg op build h h' o : agentMeasure decode_price SignAgent node sg op build h = (h', Ok o) →
  (∃ tx0 signed h1 d, build (baseTxCfg DefaultGasFeeUgnot gasEstimateCeiling) = Some tx0 ∧ SignAgent sg tx0 = Some signed ∧
     n_simulate node h1 signed = Ok d ∧ dt_error d = None ∧ GasWanted o = gasWantedFor (dt_gas d)) ∧
  (∃ h1, currentGasFee (Fetch (n_gasprice node h1) decode_price) (GasWanted o) = Ok (ChainTypes.GasFee o)).
Proof using Type.
  unfold agentMeasure, agentSimulate. intros H.
  apply M_bind_Ok in H as (h1 & o1 & H1 & H). apply M_bind_Ok in H1 as (h2 & tx0 & Ht & H1). apply lift_Ok in Ht as [Ht ->].
  apply M_bind_Ok in H1 as (h3 & signed & Hs & H1). apply ask_Ok in Hs as [Hs ->].
  apply M_bind_Ok in H1 as (h4 & d & Hd & H1). apply dryRun_Ok in Hd as [Hd He]. injection H1 as <- <-. simpl in H.
  apply M_bind_Ok in H as (h5 & fee & Hf & H). apply price_Ok in Hf. injection H as <- <-. simpl.
  destruct (SignAgent sg tx0) eqn:E; [|done]. injection Hs as ->. split; [|eauto].
  exists tx0, signed, (h ++ [EvAgentSign tx0]), d. auto.
Qed.

Definition agent_deliver (op : string) (msg : Msg) (data : bool) (out : txOutcome) : M txOutcome :=
  let cfg := baseTxCfg (ChainTypes.GasFee out) (GasWanted out) in
  res ← ask op BroadcastTx (EvAgentBroadcast cfg msg) (λ h, n_agent_broadcast node h cfg msg);
  mret (ChainTypes.mkTx (br_hash res) (br_height res) (if data then dt_data (br_deliver res) else "")
    (dt_gas (br_deliver res)) (GasWanted out) (ChainTypes.GasFee out) false).

Lemma agent_fails sg op msg data simulate h h1 e :
  agentMeasure decode_price SignAgent node sg op (λ cfg, NewTx cfg msg) h = (h1, Err e) →
  agent sg op msg data simulate h = (h1, Err e).
Proof using Type. unfold agent_write. unfold mbind at 1, M_bind at 1. by intros ->. Qed.

Lemma agent_simulates sg op msg data h h1 o :
  agentMeasure decode_price SignAgent node sg op (λ cfg, NewTx cfg msg) h = (h1, Ok o) →
  agent sg op msg data true h =
    (h1, Ok (ChainTypes.mkTx "" 0 (if data then Data o else "") (GasUsed o) (GasWanted o) (ChainTypes.GasFee o) true)).
Proof using Type. unfold agent_write. unfold mbind at 1, M_bind at 1. by intros ->. Qed.

Lemma agent_delivers sg op msg data h h1 o :
  agentMeasure decode_price SignAgent node sg op (λ cfg, NewTx cfg msg) h = (h1, Ok o) →
  agent sg op msg data false h = agent_deliver op msg data o h1.
Proof using Type. unfold agent_write. unfold mbind at 1, M_bind at 1. by intros ->. Qed.

(** the agent write pipeline ([Call], [Run], [AddPackage]) is honest in
    the same way: a simulation hands nothing to the broadcast; a write hands
    over exactly one message, the caller's, at the gas limit a dry run of it
    measured and the fee the live price asks for that limit; and both report
    those numbers. *)
Theorem agent_write_honest sg op msg data simulate h :
  let '(h', r) := agent_write NewTx decode_price SignAgent node sg op msg data simulate h in
  ∃ evs, h' = h ++ evs ∧
  (broadcasts evs = [] ∨ simulate = false ∧ ∃ gas fee tx0 signed h1 d,
     broadcasts evs = [EvAgentBroadcast (baseTxCfg fee gas) msg] ∧
     NewTx (baseTxCfg DefaultGasFeeUgnot gasEstimateCeiling) msg = Some tx0 ∧ SignAgent sg tx0 = Some signed ∧
     n_simulate node h1 signed = Ok d ∧ dt_error d = None ∧ gas = gasWantedFor (dt_gas d) ∧
     (∃ h2, currentGasFee (Fetch (n_gasprice node h2) decode_price) gas = Ok fee) ∧
     ∀ o, r = Ok o → GasWanted o = gas ∧ ChainTypes.GasFee o = fee) ∧
  ∀ o, r = Ok o → Simulated o = simulate ∧ (simulate = false → broadcasts evs ≠ []) ∧
    ∃ o', snd (agent_write NewTx decode_price SignAgent node sg op msg data true h) = Ok o' ∧
      GasWanted o' = GasWanted o ∧ ChainTypes.GasFee o' = ChainTypes.GasFee o.
Proof.
  destruct (emits_agentMeasure sg op (λ cfg, NewTx cfg msg) h) as (evs & E & Hq).
  destruct (agentMeasure decode_price SignAgent node sg op (λ cfg, NewTx cfg msg) h) as [h1 [p|e]] eqn:Em; simpl in E; subst h1.
  2: { rewrite (agent_fails _ _ _ _ _ _ _ _ Em). exists evs. split; [done|].
       split; [left; by apply broadcasts_quiet|done]. }
  pose proof (agent_simulates _ _ _ data _ _ _ Em) as Hsim. destruct simulate.
  { rewrite Hsim. exists evs. split; [done|]. split; [left; by apply broadcasts_quiet|]. intros o [= <-].
    split_and!; [done|done|]. eexists. split; [reflexivity|done]. }
  rewrite (agent_delivers _ _ _ data _ _ _ Em), Hsim.
  apply agentMeasure_Ok in Em as [(tx0 & signed & h1 & d & Ht & Hs & Hd & He & Hg) Hf].
  unfold agent_deliver, mbind, M_bind. set (cfg := baseTxCfg (ChainTypes.GasFee p) (GasWanted p)).
  set (ev := EvAgentBroadcast cfg msg).
  assert (Hb : broadcasts (evs ++ [ev]) = [ev]) by by apply broadcasts_snoc.
  unfold ask. destruct (n_agent_broadcast node _ cfg msg) as [res|e]; exists (evs ++ [ev]); rewrite Hb, !app_assoc.
  all: split; [done|]; split; [right; split; [done|];
    exists (GasWanted p), (ChainTypes.GasFee p), tx0, signed, h1, d; split_and!; try done|].
  - by intros o [= <-].
  - intros o [= <-]. split_and!; [done|done|]. eexists. split; [reflexivity|done].
  - done.
Qed.
End honesty.

(** ** The session query *)

(** [Coins.String] is empty on the empty set only. *)
Class CoinsLaws (coins_string : Coins → string) : Prop := {
  coins_string_empty : ∀ c, coins_string c = "" → c = [];
}.

(** Coin denominations start with a letter. *)
Definition denom_ok (d : string) : Prop :=
  match d with String a _ => is_digit a = false | EmptyString => False end.

Section query.
Context (coins_sub : Coins → Coins → Coins) (coins_string : Coins → string).
Context (decodeSessionAccount : string → option SessionAccount) (node : Node).

Lemma spendRemaining_empty limit used : CoinsLaws coins_string →
  spendRemaining coins_sub coins_string limit used = "" → limit = [].
Proof using Type.
  intros HL. unfold spendRemaining. destruct (filter _ _) as [|c out] eqn:E.
  - destruct limit as [|c l]; [done|]. by rewrite str_app_cons.
  - intros H%coins_string_empty. done.
Qed.

Lemma spendRemaining_spent limit used c l : limit = c :: l → denom_ok (Denom c) →
  Forall (λ c, Amount c ≤ 0) (coins_sub limit used) →
  isZeroSpend (spendRemaining coins_sub coins_string limit used) = true.
Proof using Type.
  intros -> Hd HF. unfold spendRemaining. rewrite filter_none.
  - by apply isZeroSpend_zero.
  - eapply Forall_impl; [exact HF|]. intros x Hx. cbv beta in *. lia.
Qed.

Lemma splitAllowPaths_spec ps p :
  p ∈ fst (splitAllowPaths ps) ↔ "vm/exec:" +:+ p ∈ ps.
Proof using Type.
  unfold splitAllowPaths. cbn [fst]. rewrite list_elem_of_omap. split.
  - intros (x & Hx & H). apply cut_prefix_Some in H as ->. done.
  - intros H. eexists. split; [done|]. apply cut_prefix_app.
Qed.

Lemma splitAllowPaths_run ps : snd (splitAllowPaths ps) = true ↔ "vm/run" ∈ ps.
Proof using Type.
  unfold splitAllowPaths. cbn [snd]. rewrite existsb_exists. split.
  - intros (x & Hx & H). apply andb_true_iff in H as [_ H]. b2p. subst x. by apply list_elem_of_In.
  - intros H. exists "vm/run". split; [by apply list_elem_of_In|]. done.
Qed.

(** C31: a session query never wipes a session on a flake and never widens
    one.  [QuerySession] reports an inactive session only on the chain's own
    "session not found" or empty answer; every other failure is
    [ErrSessionQueryUnsupported], for which [queryChain] leaves the local
    state authoritative.  An active answer carries exactly the chain's
    vm/exec paths and vm/run permission and its expiry; a missing spend
    remainder means the session has no limit, and a session with nothing left
    is one the manager refuses to sign with. *)
Theorem QuerySession_conservative h master sessionAddr :
  CoinsLaws coins_string → master ≠ "" →
  let q := QuerySession coins_sub coins_string decodeSessionAccount node h master sessionAddr in
  let answer := n_query node h (session_path master sessionAddr) "" in
  match q with
  | Err e => e = ErrSessionQueryUnsupported ∧
      queryChain (Some (QuerySession coins_sub coins_string decodeSessionAccount node h)) master sessionAddr
      = Ok (mkCheck false true inactive)
  | Ok st =>
      if Active st then ∃ data acc, answer = Ok data ∧ decodeSessionAccount data = Some acc ∧
        (∀ p, p ∈ stAllowPaths st ↔ "vm/exec:" +:+ p ∈ AccAllowPaths acc) ∧
        (stAllowRun st = true ↔ "vm/run" ∈ AccAllowPaths acc) ∧
        stExpiresAt st = AccExpiresAt acc ∧
        (stSpendRemaining st = "" → SpendLimit acc = []) ∧
        (∀ c l, SpendLimit acc = c :: l → denom_ok (Denom c) →
           Forall (λ c, Amount c ≤ 0) (coins_sub (SpendLimit acc) (SpendUsed acc)) →
           isZeroSpend (stSpendRemaining st) = true)
      else answer = Ok "" ∨ answer = Ok "null" ∨
        ∃ err, answer = Err err ∧ contains err "session not found" = true
  end.
Proof.
  intros HL Hm q answer.
  assert (Hq : q = Err ErrSessionQueryUnsupported ∨ ∃ st, q = Ok st ∧
    (Active st = false ∧ (answer = Ok "" ∨ answer = Ok "null" ∨ ∃ err, answer = Err err ∧ contains err "session not found" = true)
     ∨ ∃ data acc, answer = Ok data ∧ decodeSessionAccount data = Some acc ∧
         st = mkStatus true (fst (splitAllowPaths (AccAllowPaths acc))) (snd (splitAllowPaths (AccAllowPaths acc)))
           (coins_string (SpendLimit acc)) (spendRemaining coins_sub coins_string (SpendLimit acc) (SpendUsed acc)) (AccExpiresAt acc))).
  { unfold q, answer, QuerySession, isSessionNotFoundErr.
    destruct (bool_decide (master = "") || bool_decide (sessionAddr = "")); [by left|].
    destruct (n_query _ _ _ _) as [data|err].
    - destruct (decide (data = "")) as [->|H1]; [right; eexists; split; [reflexivity|auto]|].
      destruct (decide (data = "null")) as [->|H2]; [right; eexists; split; [reflexivity|auto]|].
      rewrite !bool_decide_eq_false_2 by done. cbn [orb].
      destruct (decodeSessionAccount data) as [acc|] eqn:Ed; [|by left]. right. eauto 10.
    - destruct (contains err "session not found") eqn:Ec; [right; eexists; split; [reflexivity|left; eauto 10]|by left]. }
  destruct Hq as [E|(st & E & Hst)].
  { rewrite E. split; [done|]. unfold queryChain. rewrite bool_decide_eq_false_2 by done. unfold q in E. by rewrite E. }
  rewrite E. destruct Hst as [[-> H]|(data & acc & Ha & Hd & ->)]; [done|]. cbn [Active stAllowPaths stAllowRun stExpiresAt stSpendRemaining].
  exists data, acc. split_and!; try done.
  - intros p. apply splitAllowPaths_spec.
  - apply splitAllowPaths_run.
  - by apply spendRemaining_empty.
  - intros c l Hc Hdn HF. by eapply spendRemaining_spent.
Qed.
End query.

(** ** A concrete node *)

Definition toy_string (c : Coins) : string :=
  match c with [] => "" | c :: _ => String "#" (format_int (Amount c) +:+ Denom c) end.
Definition toy_sub (limit used : Coins) : Coins :=
  match limit, used with [c], [u] => [mkCoin (Denom c) (Amount c - Amount u)] | _, _ => limit end.

#[export] Instance toy_coins : CoinsLaws toy_string.
Proof. constructor. by intros [|c l]. Qed.

Definition toy_acc (used : Z) : SessionAccount :=
  mkAcc 7 3 ["vm/exec:gno.land/r/demo/boards"; "vm/run"; "bank/send"] [mkCoin "ugnot" 500000] [mkCoin "ugnot" used] 99.
Definition toy_decode (data : string) : option SessionAccount :=
  if bool_decide (data = "acc") then Some (toy_acc 100) else if bool_decide (data = "spent") then Some (toy_acc 500000) else None.
Definition toy_node (answer : res string string) : Node := {|
  n_query := λ _ _ _, answer;
  n_gasprice := λ _, Some "";
  n_simulate := λ _ _, Ok (mkDeliver 20000000 "dry" None);
  n_broadcast := λ _ _, Ok (mkBroadcast "HASH" 42 (mkDeliver 19000000 "done" None));
  n_agent_broadcast := λ _ _ _, Ok (mkBroadcast "HASH" 42 (mkDeliver 19000000 "done" None));
  n_now := λ _, 5;
|}.
Definition toy_signer : SessionSigner := mkSigner "g1s" "0123456789abcdef0123456789abcdef" (λ p, Some ("sig:" +:+ p)).
Definition toy_NewTx (cfg : TxCfg) (m : Msg) : option Tx := Some (mkTx [m] (mkCoin "ugnot" 10000) (CfgGasWanted cfg) []).

(** A heavy call: measured at twenty million gas, broadcast at thirty. *)
Example CallAsUser_ex :
  CallAsUser "dev" (λ a, Some a) toy_NewTx (λ _ _ _ _, Some "bytes") (λ _, None) (λ a b, a ++ b) toy_string (λ _, None)
    (λ _ _ _, true) toy_decode (λ _, None) (toy_node (Ok "acc")) (Some toy_signer) "g1m" "gno.land/r/demo/boards" "Post" ["hi"] "" false []
  = ([EvQuery "auth/accounts/g1m/session/g1s" ""; EvSign "bytes";
      EvSimulate (mkTx [MsgCall "g1m" [] "gno.land/r/demo/boards" "Post" ["hi"]] (mkCoin "ugnot" 10000) 1000000000
                    [mkSig (sg_pubkey toy_signer) "sig:bytes" "g1s"]);
      EvGasPrice; EvSign "bytes";
      EvBroadcast (mkTx [MsgCall "g1m" [] "gno.land/r/demo/boards" "Post" ["hi"]] (mkCoin "ugnot" 10000) 30000000
                    [mkSig (sg_pubkey toy_signer) "sig:bytes" "g1s"])],
     Ok (ChainTypes.mkTx "HASH" 42 "done" 19000000 30000000 10000 false)).
Proof. vm_compute. reflexivity. Qed.

Lemma QuerySession_conservative_witness :
  (∃ st, QuerySession toy_sub toy_string toy_decode (toy_node (Ok "spent")) [] "g1m" "g1s" = Ok st ∧
     Active st = true ∧ isZeroSpend (stSpendRemaining st) = true) ∧
  queryChain (Some (QuerySession toy_sub toy_string toy_decode (toy_node (Err "timeout")) [])) "g1m" "g1s"
    = Ok (mkCheck false true inactive).
Proof.
  split.
  - pose proof (QuerySession_conservative toy_sub toy_string toy_decode (toy_node (Ok "spent")) [] "g1m" "g1s"
      toy_coins ltac:(discriminate)) as H.
    exists (mkStatus true ["gno.land/r/demo/boards"] true "#500000ugnot" "0ugnot" 99).
    assert (E : QuerySession toy_sub toy_string toy_decode (toy_node (Ok "spent")) [] "g1m" "g1s"
      = Ok (mkStatus true ["gno.land/r/demo/boards"] true "#500000ugnot" "0ugnot" 99)) by (vm_compute; reflexivity).
    cbv zeta in H. rewrite E in H. destruct H as (data & acc & Ha & Hd & _ & _ & _ & _ & Hz).
    split; [exact E|]. split; [reflexivity|]. injection Ha as <-. injection Hd as <-.
    apply (Hz (mkCoin "ugnot" 500000) []); [reflexivity|reflexivity|]. repeat constructor. simpl. lia.
  - pose proof (QuerySession_conservative toy_sub toy_string toy_decode (toy_node (Err "timeout")) [] "g1m" "g1s"
      toy_coins ltac:(discriminate)) as H.
    cbv zeta in H. destruct H as [_ H]. exact H.
Defined.
