(* ===== verification/ServerCore.v ===== *)
(** * The MCP server core

    [internal/server] (argument readers, the profile schema, the tool
    registry, the server's mutable configuration), [internal/audit], and the
    adapter of [cmd/gnomcp/main.go] between the MCP SDK and the tools.  JSON
    encoding is an argument; a tool's handler is any function of its arguments
    and the server state, and may answer, fail or panic. *)
From S2P Require Import Prelude GoText Untrusted Profiles.
From stdpp Require Import prelude strings gmap list sorting.
From Stdlib Require Import ZArith Lia Ascii String.
Local Open Scope Z_scope.

(** ** Arguments ([args.go]) *)

(** A decoded JSON value; numbers keep their literal. *)
Inductive json :=
  | JNull
  | JBool (b : bool)
  | JNum (lit : string)
  | JStr (s : string)
  | JArr (l : list json)
  | JObj (l : list (string * json)).

Abbreviation Args := (gmap string json).

Inductive arg_error := EArgType (name : string) | EArgElem (name : string) (i : nat).

Definition StringArg (args : Args) (name : string) : res arg_error string :=
  match args !! name with
  | None => Ok ""
  | Some (JStr s) => Ok s
  | Some _ => Err (EArgType name)
  end.

Definition BoolArg (args : Args) (name : string) : res arg_error bool :=
  match args !! name with
  | None => Ok false
  | Some (JBool b) => Ok b
  | Some _ => Err (EArgType name)
  end.

Fixpoint string_elems (name : string) (i : nat) (l : list json) : res arg_error (list string) :=
  match l with
  | [] => Ok []
  | JStr s :: l => rest ← string_elems name (S i) l; mret (s :: rest)
  | _ :: _ => Err (EArgElem name i)
  end.

(** A missing key is nil. *)
Definition StringSliceArg (args : Args) (name : string) : res arg_error (option (list string)) :=
  match args !! name with
  | None => Ok None
  | Some (JArr l) => out ← string_elems name 0 l; mret (Some out)
  | Some _ => Err (EArgType name)
  end.

(** ** The profile argument ([schema.go]) *)

Record ProfileSchema := mkSchema { Enum : list string; Default : string; Required : bool }.

Definition sorted_names {A} (m : gmap string A) : list string := sort_by id (map_to_list m).*1.

Definition ProfileChainList (cfg : Config) (names : list string) : string :=
  GoText.join ", " ((λ n,
    let p := default (endpoint "" "") (cfg !! n) in
    let label := if IsReadOnly p then ", read-only" else if Sunset p then ", sunset" else "" in
    n +:+ " (chain " +:+ ChainID p +:+ label +:+ ")") <$> names).

Definition ProfileArgSchema (cfg : Config) (discoveredLocal : string) : ProfileSchema :=
  let names := sorted_names cfg in
  let discoveredLocal :=
    if negb (bool_decide (discoveredLocal = "")) && bool_decide (is_Some (cfg !! discoveredLocal)) then discoveredLocal else "" in
  match names with
  | [] => mkSchema [] "" true
  | first :: _ =>
      if negb (bool_decide (discoveredLocal = "")) then mkSchema names discoveredLocal false
      else mkSchema names (if bool_decide ("testnet" ∈ names) then "testnet" else first) false
  end.

(** ** Server configuration ([server.go]) *)

Inductive profile_add_error :=
  | ErrProfileNameInvalid (name : string)
  | ErrProfileReserved
  | ErrProfileImmutable (name : string).

Record Server := mkServer {
  cfg : Config;
  initNames : gset string;
  discoveredLocal : string;
}.

Definition NewServer (c : Config) (discovered : string) : Server := mkServer c (dom c) discovered.

Definition CheckDynamicProfileName (s : Server) (name : string) : res profile_add_error unit :=
  _ ← check (ValidProfileName name) (ErrProfileNameInvalid name);
  _ ← check (negb (bool_decide (name = "default"))) ErrProfileReserved;
  check (negb (bool_decide (name ∈ initNames s))) (ErrProfileImmutable name).

(** The configuration is replaced, never mutated. *)
Definition AddDynamicProfile (s : Server) (name : string) (p : Profile) : Server * res profile_add_error unit :=
  match CheckDynamicProfileName s name with
  | Err e => (s, Err e)
  | Ok _ => (mkServer (<[name := p]> (cfg s)) (initNames s) (discoveredLocal s), Ok tt)
  end.

Definition AnyProfileHasIndexer (s : Server) : bool :=
  existsb (λ np : string * Profile, negb (bool_decide (TxIndexerURL np.2 = ""))) (map_to_list (cfg s)).

Definition AnyProfileTestnet (s : Server) : bool :=
  existsb (λ np : string * Profile, IsTestnet np.2) (map_to_list (cfg s)).

Definition Schema (s : Server) : ProfileSchema := ProfileArgSchema (cfg s) (discoveredLocal s).

(** Any sequence of dynamic adds, accepted or not. *)
Inductive adds : Server → Server → Prop :=
  | adds_nil s : adds s s
  | adds_step s s' name p : adds s s' → adds s (fst (AddDynamicProfile s' name p)).

(** ** Tools ([registry.go]) *)

Inductive Capability := CapBaseRead | CapIndexerRead | CapWrite | CapWritePrep | CapSessionRead | CapA2A.
#[export] Instance Capability_eq_dec : EqDecision Capability.
Proof. solve_decision. Defined.

Inductive OutputKind := OutputText | OutputResource.

Record Annotations := mkAnn { ReadOnly : bool; Destructive : bool; Idempotent : bool; OpenWorld : bool }.

Definition AnnotationsValid (a : Annotations) : bool := negb (ReadOnly a && Destructive a).

Record Result := mkResult {
  Text : string; ResourceURI : string; ResourceBody : string; ResourceMIME : string;
  StructuredContent : list (string * json);
}.

(** A handler's error: a [ToolError], or any other with its text. *)
Inductive tool_err :=
  | ToolError (code message : string) (extra : gmap string json)
  | PlainError (text : string).

(** [Error()]; of the extra fields only the keys, sorted. *)
Definition tool_err_text (e : tool_err) : string :=
  match e with
  | PlainError text => text
  | ToolError code message extra =>
      "tool error [" +:+ code +:+ "]: " +:+ message +:+
      (if bool_decide (extra = ∅) then "" else " extra=[" +:+ GoText.join " " (sort_by id (map_to_list extra).*1) +:+ "]")
  end.

Inductive outcome := Returned (r : Result) | Failed (e : tool_err) | Panicked (what : string).

Section server.
(** The rest of the process a handler can touch. *)
Context {W : Type}.
Context (is_print : Z → bool).

Record Entry := mkEntry { EntryTool : string; EntryProfile : string; EntryArgs : string; EntryResult : string; EntrySession : string }.

(** The server, the audit log (newest last) and the rest. *)
Record State := mkState { srv : Server; audit : list Entry; world : W }.

Record Tool := mkTool {
  ToolName : string;
  InputProps : gset string; (* the properties its input schema declares *)
  Kind : OutputKind;
  Cap : Capability;
  SelfAudited : bool;
  Handler : option (Args → State → State * outcome);
}.

Abbreviation Registry := (gmap string Tool).

Definition Add (r : Registry) (t : Tool) : Registry := <[ToolName t := t]> r.
Definition Get (r : Registry) (name : string) : option Tool := r !! name.
Definition All (r : Registry) : list Tool := sort_by ToolName (map_to_list r).*2.
Definition WithCapability (r : Registry) (c : Capability) : list Tool :=
  sort_by ToolName (filter (λ t, Cap t = c) (map_to_list r).*2).

(** [Registry.Call]: a panic in the handler becomes its error. *)
Definition Call (r : Registry) (name : string) (args : Args) (st : State) : State * (Result + tool_err) :=
  match r !! name with
  | None => (st, inr (PlainError ("unknown tool: " +:+ name)))
  | Some t =>
      match Handler t with
      | None => (st, inr (PlainError ("tool " +:+ quote is_print name +:+ " has no handler")))
      | Some h =>
          let '(st, o) := h args st in
          (st, match o with
               | Returned res => inl res
               | Failed e => inr e
               | Panicked what => inr (PlainError ("tool " +:+ quote is_print name +:+ " panicked: " +:+ what))
               end)
      end
  end.

(** ** The adapter ([makeHandler]) *)

(** What the client receives. *)
Record ToolResult := mkToolResult {
  Content : string + (string * string * string); (* text, or uri, mime and body *)
  Structured : list (string * json);
  IsError : bool;
}.

Definition text_result (s : string) (err : bool) : ToolResult := mkToolResult (inl s) [] err.

Definition toolAcceptsProfile (t : Tool) : bool := bool_decide ("profile" ∈ InputProps t).

Definition applyProfileDefault (t : Tool) (s : Server) (args : Args) : Args :=
  let def := Default (Schema s) in
  if bool_decide (def = "") || negb (toolAcceptsProfile t) then args
  else
    match args !! "profile" with
    | Some (JStr "") | None => <["profile" := JStr def]> args
    | Some _ => args
    end.

Definition shouldAuditAtAdapter (capability : Capability) (selfAudited auditReads : bool) : bool :=
  if selfAudited then false
  else bool_decide (capability = CapWrite) || bool_decide (capability = CapWritePrep) || auditReads.

Definition safeArgKeys : gset string := list_to_set [
  "profile"; "realm"; "func"; "path"; "file"; "deploy_path"; "simulate"; "identity"; "limit"; "since"; "until";
  "namespace"; "tag"; "category"; "allow_run"; "expires_in"; "gnoweb_url"; "name"; "address";
  "rpc_url"; "chain_id"; "tx_indexer_url"; "faucet_service_url"; "faucet_url"].

Context (marshal : Args → option string).

Definition redact (args : Args) : Args :=
  map_imap (λ k v, Some (if bool_decide (k ∈ safeArgKeys) then v else JStr "[redacted]")) args.

Definition argsSummary (args : Args) : string :=
  if bool_decide (args = ∅) then ""
  else match marshal (redact args) with
  | None => ""
  | Some s => if (200 <? String.length s)%nat then str_take 200 s +:+ "..." else s
  end.

Definition argString (args : Args) (key : string) : string :=
  match args !! key with Some (JStr s) => s | _ => "" end.

Definition formatResult (res : Result) (kind : OutputKind) : ToolResult :=
  mkToolResult
    (match kind with
     | OutputResource =>
         inr (ResourceURI res, (if bool_decide (ResourceMIME res = "") then "text/markdown" else ResourceMIME res), ResourceBody res)
     | OutputText => inl (Text res)
     end) (StructuredContent res) false.

Definition toolErrorResult (e : tool_err) : ToolResult :=
  match e with
  | ToolError code message extra =>
      mkToolResult (inl (Neutralize message)) (map_to_list (<["code" := JStr code]> extra)) true
  | PlainError text => text_result (Neutralize text) true
  end.

(** The request's arguments: absent, malformed (with the decoder's message),
    or a decoded object ([null] decodes to an empty one). *)
Inductive raw_args := RawAbsent | RawBad (msg : string) | RawArgs (args : Args).

Definition decode_args (raw : raw_args) : string + Args :=
  match raw with
  | RawAbsent => inr ∅
  | RawBad msg => inl msg
  | RawArgs args => inr args
  end.

Definition makeHandler (reg : State → Registry) (t : Tool) (auditReads : bool) (raw : raw_args) (st : State) : State * ToolResult :=
  match decode_args raw with
  | inl msg => (st, text_result ("invalid arguments: " +:+ msg) true)
  | inr args =>
      let args := applyProfileDefault t (srv st) args in
      let '(st, r) := Call (reg st) (ToolName t) args st in
      let st :=
        if shouldAuditAtAdapter (Cap t) (SelfAudited t) auditReads then
          mkState (srv st)
            (audit st ++ [mkEntry (ToolName t) (argString args "profile") (argsSummary args)
                            (match r with inl _ => "ok" | inr _ => "tool_err" end) ""]) (world st)
        else st in
      (st, match r with inl res => formatResult res (Kind t) | inr e => toolErrorResult e end)
  end.
End server.

(** ** The initialize-time instructions *)

Definition maxMCPTextLen : nat := 2048.

(** [utf8.RuneCountInString]: an invalid byte counts for one. *)
Fixpoint rune_count_go (fuel : nat) (s : string) : nat :=
  match fuel, s with
  | S fuel, String a rest =>
      S (rune_count_go fuel (match decode_rune s with Some (_, rest') => rest' | None => rest end))
  | _, _ => O
  end.

Definition rune_count (s : string) : nat := rune_count_go (String.length s) s.

Definition dq : string := String DQ EmptyString.

Definition serverInstructions : string :=
  GoText.join NL [
    "Indexer and faucet tools exist only for profiles that provide them.";
    "- IDENTITY: keys and mnemonics never enter the conversation; never request key material. The agent key signs agent writes. Writing AS the user needs a session the user approves with their own gnokey: gno_session_propose (with no profile master-address, pass the user's PUBLIC g1 address as master_address), the user runs the printed command, then retry with identity=session. Sessions cover gno_call and gno_run; gno_addpkg is not session-signed.";
    "- DISCOVER: never guess a package path; gno_packages lists a prefix or @namespace. gno_profile_list maps a chain the user names (" +:+ dq +:+ "on onyx" +:+ dq +:+ ") to a profile. A gnoweb URL names its chain: resolve it with gno_profile_add (gnoweb_url=...), never read it on the ambient profile.";
    "- READ: gno_read (outline by default; symbols=[...] or full=true for source), gno_render, gno_eval. An outline is navigation, not evidence.";
    "- WRITE (testnet): gno_key_generate once, gno_faucet_fund, then gno_call / gno_run / gno_addpkg; the key arg picks among several agent keys. On cla_unsigned, show the user gno_cla_info's agreement URL, then gno_cla_sign once they confirm. A deploy is callable only once gno_addpkg reports package_status live. Where deploys park (onyx), a parked path fails with package_parked, and gno_run fails with run_not_allowed.";
    "- RECOVER: tool errors carry their repair; perform it when the user's request already authorizes it, and hand back only the steps that need the user (gnokey, a client restart).";
    "Report which identity signed every write.";
    ""].

Definition startupLine : string :=
  "Profiles at startup, what exists, not what is reachable (gno_profile_list is current):" +:+ NL.

Definition profileLine (name : string) (p : Profile) : string :=
  "- " +:+ name +:+ ": " +:+ ChainID p +:+ " at " +:+ RPCURL p +:+ ", " +:+ Profiles.Kind p
  +:+ (if IsReadOnly p then " (read tools only)"
       else if Sunset p then " (sunset: still fully writable, prefer the current testnet)" else "")
  +:+ (if bool_decide (MasterAddress p = "") then "" else ", write-as-user")
  +:+ (if bool_decide (GnowebURL p = "") then "" else ", gnoweb " +:+ GnowebURL p)
  +:+ NL.

Definition moreProfilesLine (n : nat) : string :=
  "- " +:+ format_int (Z.of_nat n) +:+ " more: gno_profile_list lists every profile." +:+ NL.

Fixpoint instructions_go (profs : Config) (names : list string) (b : string) : string :=
  match names with
  | [] => b
  | name :: rest =>
      let line := profileLine name (default (endpoint "" "") (profs !! name)) in
      let reserve := match rest with [] => O | _ => rune_count (moreProfilesLine (List.length rest)) end in
      if (maxMCPTextLen <? rune_count b + rune_count line + reserve)%nat
      then b +:+ moreProfilesLine (List.length names)
      else instructions_go profs rest (b +:+ line)
  end.

Definition buildServerInstructions (profs : Config) : string :=
  instructions_go profs (sorted_names profs) (serverInstructions +:+ startupLine).

(** ** The configuration *)

Lemma elem_of_sorted_names {A} (m : gmap string A) n : n ∈ sorted_names m ↔ is_Some (m !! n).
Proof.
  unfold sorted_names. rewrite elem_of_sort_by, list_elem_of_fmap. split.
  - intros ([n' a] & -> & H). apply elem_of_map_to_list in H. eauto.
  - intros [a Ha]. exists (n, a). split; [done|]. by apply elem_of_map_to_list.
Qed.

Lemma sorted_names_sorted {A} (m : gmap string A) : StronglySorted String.le (sorted_names m) ∧ NoDup (sorted_names m).
Proof.
  split; [apply (sort_by_sorted id)|]. unfold sorted_names.
  rewrite (sort_by_perm id). apply NoDup_fst_map_to_list.
Qed.

Lemma ProfileArgSchema_enum c d : Enum (ProfileArgSchema c d) = sorted_names c.
Proof. unfold ProfileArgSchema. destruct (sorted_names c); [done|]. by destruct (negb _). Qed.

(** The default, if any, is a loaded profile; there is one unless no profile
    is loaded. *)
Lemma ProfileArgSchema_default c d :
  is_Some (c !! Default (ProfileArgSchema c d)) ∨ Default (ProfileArgSchema c d) = "" ∧ c = ∅.
Proof.
  unfold ProfileArgSchema. destruct (sorted_names c) as [|first l] eqn:E.
  { right. split; [done|]. apply map_empty. intros n. destruct (c !! n) eqn:En; [|done].
    assert (n ∈ sorted_names c) by (apply elem_of_sorted_names; eauto). rewrite E in *. by apply elem_of_nil in H. }
  left. destruct (negb (bool_decide (d = "")) && bool_decide (is_Some (c !! d))) eqn:Ed.
  - apply andb_true_iff in Ed as [H1 H2]. rewrite H1. simpl. by b2p.
  - change (negb (bool_decide ("" = ""))) with false. cbv iota. cbn [Default].
    apply elem_of_sorted_names. rewrite E. destruct (bool_decide ("testnet" ∈ first :: l)) eqn:Et; [by b2p|left].
Qed.

(** Added names are valid, unreserved and not startup names. *)
Lemma AddDynamicProfile_cases s name p :
  AddDynamicProfile s name p = (s, snd (AddDynamicProfile s name p)) ∧ is_ok (snd (AddDynamicProfile s name p)) = false ∨
  ValidProfileName name = true ∧ name ≠ "default" ∧ name ∉ initNames s ∧
  AddDynamicProfile s name p = (mkServer (<[name := p]> (cfg s)) (initNames s) (discoveredLocal s), Ok tt).
Proof.
  unfold AddDynamicProfile, CheckDynamicProfileName.
  destruct (ValidProfileName name); simpl; [|by left].
  destruct (decide (name = "default")) as [->|H1]; [by left|]. rewrite (bool_decide_eq_false_2 _ H1). simpl.
  destruct (decide (name ∈ initNames s)) as [H2|H2]; [rewrite (bool_decide_eq_true_2 _ H2); by left|].
  rewrite (bool_decide_eq_false_2 _ H2). right. by split_and!.
Qed.

Lemma adds_inv c d s : adds (NewServer c d) s →
  initNames s = dom c ∧ discoveredLocal s = d ∧
  (∀ n p, c !! n = Some p → cfg s !! n = Some p) ∧
  (∀ n, is_Some (cfg s !! n) → is_Some (c !! n) ∨ ValidProfileName n = true ∧ n ≠ "default").
Proof.
  remember (NewServer c d) as s0 eqn:E0. induction 1 as [s|s s' name p H IH]; subst s.
  { simpl. split_and!; auto. }
  destruct (IH eq_refl) as (Hi & Hd & Hk & Hn).
  destruct (AddDynamicProfile_cases s' name p) as [[E _]|(Hv & Hne & Hni & E)]; rewrite E; [done|]. simpl.
  split_and!; [done|done| |].
  - intros n q Hq. rewrite lookup_insert_ne; [by apply Hk|]. intros ->. apply Hni. rewrite Hi. by apply elem_of_dom_2 in Hq.
  - intros n Hn'. destruct (decide (name = n)) as [<-|Hne']; [by right|]. rewrite lookup_insert_ne in Hn' by done. auto.
Qed.

(** startup profiles are fixed.  After any sequence of dynamic adds every
    profile loaded at startup is as it was loaded, every other profile has a
    valid, unreserved name, the profile argument lists exactly the loaded
    names in order, and its default, when there is one, is a loaded profile:
    the discovered local profile whenever it is loaded, else "testnet" if
    loaded. *)
Theorem startup_profiles_fixed c d s :
  adds (NewServer c d) s →
  (∀ n p, c !! n = Some p → cfg s !! n = Some p) ∧
  (∀ n, is_Some (cfg s !! n) → is_Some (c !! n) ∨ ValidProfileName n = true ∧ n ≠ "default") ∧
  StronglySorted String.le (Enum (Schema s)) ∧ NoDup (Enum (Schema s)) ∧
  (∀ n, n ∈ Enum (Schema s) ↔ is_Some (cfg s !! n)) ∧
  (Default (Schema s) ≠ "" → Default (Schema s) ∈ Enum (Schema s)) ∧
  (d ≠ "" → is_Some (c !! d) → Default (Schema s) = d) ∧
  ((d = "" ∨ cfg s !! d = None) → is_Some (cfg s !! "testnet") → Default (Schema s) = "testnet").
Proof.
  intros H. destruct (adds_inv _ _ _ H) as (_ & Hd & Hk & Hn). unfold Schema. rewrite Hd, ProfileArgSchema_enum.
  destruct (sorted_names_sorted (cfg s)) as [Hs Hnd].
  split_and!; [done|done|done|done|intros n; apply elem_of_sorted_names| | |].
  - intros Hne. apply elem_of_sorted_names. by destruct (ProfileArgSchema_default (cfg s) d) as [?|[? _]].
  - intros Hne [p Hp]. unfold ProfileArgSchema. pose proof (Hk _ _ Hp) as Hp'.
    assert (Hin : d ∈ sorted_names (cfg s)) by (apply elem_of_sorted_names; eauto).
    destruct (sorted_names (cfg s)); [by apply elem_of_nil in Hin|].
    rewrite (bool_decide_eq_true_2 (is_Some (cfg s !! d))) by eauto.
    rewrite (bool_decide_eq_false_2 (d = "")) by done. simpl. by rewrite bool_decide_eq_false_2.
  - intros Hno Ht. apply elem_of_sorted_names in Ht. unfold ProfileArgSchema.
    assert (E : negb (bool_decide (d = "")) && bool_decide (is_Some (cfg s !! d)) = false).
    { destruct Hno as [->|Hno]; [done|]. rewrite Hno. rewrite andb_comm. done. }
    rewrite E. destruct (sorted_names (cfg s)) as [|f l]; [by apply elem_of_nil in Ht|]. simpl.
    by rewrite bool_decide_eq_true_2.
Qed.

(** Re-adding a dynamic profile replaces it, so a registration gate can go
    back to false; the registry keeps the tool. *)
Lemma gate_can_flip_back :
  let p := mkProfile "https://rpc" "test5" "https://indexer" "" "" "" false "" "" "" false in
  let s0 := NewServer ∅ "" in
  let s1 := fst (AddDynamicProfile s0 "mine" p) in
  let s2 := fst (AddDynamicProfile s1 "mine" (endpoint "https://rpc" "test5")) in
  adds s0 s2 ∧ AnyProfileHasIndexer s1 = true ∧ AnyProfileHasIndexer s2 = false.
Proof.
  cbv zeta. split; [apply adds_step, adds_step, adds_nil|]. split; vm_compute; reflexivity.
Qed.

Lemma startup_profiles_fixed_witness :
  let s := fst (AddDynamicProfile (NewServer {["testnet" := endpoint "https://rpc" "test5"]} "") "mine" (endpoint "u" "dev")) in
  cfg s !! "testnet" = Some (endpoint "https://rpc" "test5") ∧ Default (Schema s) = "testnet".
Proof.
  cbv zeta. assert (H : adds (NewServer {["testnet" := endpoint "https://rpc" "test5"]} "")
    (fst (AddDynamicProfile (NewServer {["testnet" := endpoint "https://rpc" "test5"]} "") "mine" (endpoint "u" "dev"))))
    by (apply adds_step, adds_nil).
  destruct (startup_profiles_fixed _ _ _ H) as (H1 & _ & _ & _ & _ & _ & _ & H2). split.
  - apply H1. reflexivity.
  - apply H2; [by left|]. vm_compute. eauto.
Defined.

(** ** The adapter *)

Section adapter.
Context {W : Type} (is_print : Z → bool) (marshal : Args → option string).

Definition args_of (raw : raw_args) : Args := match raw with RawArgs args => args | _ => ∅ end.

Lemma applyProfileDefault_loaded (t : Tool (W := W)) s args :
  "profile" ∈ InputProps t → cfg s ≠ ∅ → cfg s !! "" = None →
  args !! "profile" = None ∨ args !! "profile" = Some (JStr "") →
  ∃ n, applyProfileDefault t s args !! "profile" = Some (JStr n) ∧ is_Some (cfg s !! n).
Proof using Type.
  intros Hp Hne Hnn Ha. unfold applyProfileDefault, toolAcceptsProfile.
  destruct (ProfileArgSchema_default (cfg s) (discoveredLocal s)) as [Hd|[_ Hd]]; [|done].
  fold (Schema s) in Hd. assert (Default (Schema s) ≠ "") by (intros E; rewrite E, Hnn in Hd; by destruct Hd).
  rewrite bool_decide_eq_false_2, bool_decide_eq_true_2 by done. simpl.
  exists (Default (Schema s)). split; [|done].
  destruct Ha as [E|E]; rewrite E; apply lookup_insert_eq.
Qed.

Lemma applyProfileDefault_explicit (t : Tool (W := W)) s args :
  (∀ v, args !! "profile" = Some v → v ≠ JStr "") → args !! "profile" ≠ None → applyProfileDefault t s args = args.
Proof using Type.
  intros Hv Hn. unfold applyProfileDefault. destruct (_ || _); [done|].
  destruct (args !! "profile") as [v|]; [|done]. specialize (Hv v eq_refl). by destruct v as [| | |[]| |].
Qed.

(** What the adapter makes of a finished handler. *)
Definition deliver (t : Tool (W := W)) (auditReads : bool) (args : Args) (fin : State (W := W) * outcome) : State (W := W) * ToolResult :=
  let '(st, o) := fin in
  let r : Result + tool_err := match o with
           | Returned res => inl res
           | Failed e => inr e
           | Panicked what => inr (PlainError ("tool " +:+ quote is_print (ToolName t) +:+ " panicked: " +:+ what))
           end in
  let st :=
    if shouldAuditAtAdapter (Cap t) (SelfAudited t) auditReads then
      mkState (srv st)
        (audit st ++ [mkEntry (ToolName t) (argString args "profile") (argsSummary marshal args)
                        (match r with inl _ => "ok" | inr _ => "tool_err" end) ""]) (world st)
    else st in
  (st, match r with inl res => formatResult res (Kind t) | inr e => toolErrorResult e end).

Lemma Call_runs (reg : State (W := W) → gmap string (Tool (W := W))) t h args (st : State (W := W)) :
  reg st !! ToolName t = Some t → Handler t = Some h →
  Call is_print (reg st) (ToolName t) args st =
    (fst (h args st),
     match snd (h args st) with
     | Returned res => inl res
     | Failed e => inr e
     | Panicked what => inr (PlainError ("tool " +:+ quote is_print (ToolName t) +:+ " panicked: " +:+ what))
     end).
Proof using Type. intros Hr Hh. unfold Call. rewrite Hr, Hh. by destruct (h args st). Qed.

Lemma toolErrorResult_clean e :
  IsError (toolErrorResult e) = true ∧ ∃ text, Content (toolErrorResult e) = inl text ∧ tags text = [].
Proof using Type.
  destruct e as [code msg extra|msg]; simpl; (split; [done|]); eexists; (split; [reflexivity|]);
    rewrite Neutralize_escape; apply escape_tags_clean.
Qed.

(** What the record of a call says, read without the adapter's helpers. The
    profile is the string the arguments give; the summary is the arguments
    encoded, every value outside the safe list replaced, cut to 200 bytes. *)
Definition hides (args shown : Args) : Prop :=
  dom shown = dom args ∧ (∀ k, k ∈ safeArgKeys → shown !! k = args !! k) ∧
  (∀ k v, k ∉ safeArgKeys → shown !! k = Some v → v = JStr "[redacted]").
Definition records_profile (args : Args) (profile : string) : Prop :=
  args !! "profile" = Some (JStr profile) ∨ (profile = "" ∧ ∀ s, args !! "profile" ≠ Some (JStr s)).
Definition records_args (args : Args) (summary : string) : Prop :=
  (args = ∅ ∧ summary = "") ∨
  (args ≠ ∅ ∧ ∃ shown, hides args shown ∧
     match marshal shown with
     | None => summary = ""
     | Some s => ((String.length s ≤ 200)%nat ∧ summary = s) ∨ ((200 < String.length s)%nat ∧ summary = str_take 200 s +:+ "...")
     end).
Definition records_call (t : Tool (W := W)) (args : Args) (auditReads failed : bool) (recorded : list Entry) : Prop :=
  if decide (SelfAudited t = false ∧ (Cap t = CapWrite ∨ Cap t = CapWritePrep ∨ auditReads = true))
  then ∃ profile summary, records_profile args profile ∧ records_args args summary ∧
         recorded = [mkEntry (ToolName t) profile summary (if failed then "tool_err" else "ok") ""]
  else recorded = [].

Lemma redact_hides args : hides args (redact args).
Proof using Type.
  unfold redact. split_and!.
  - apply set_eq. intros k. rewrite !elem_of_dom, map_lookup_imap. destruct (args !! k); simpl; [|done].
    split; intros; by eexists.
  - intros k Hk. rewrite map_lookup_imap. destruct (args !! k); simpl; [|done]. by rewrite bool_decide_eq_true_2.
  - intros k v Hk. rewrite map_lookup_imap. destruct (args !! k); simpl; [|done].
    rewrite bool_decide_eq_false_2 by done. by intros [= <-].
Qed.

Lemma argString_records args : records_profile args (argString args "profile").
Proof using Type.
  unfold records_profile, argString. destruct (args !! "profile") as [v|]; [|right; split; [done|by intros s]].
  destruct v; [right..|left|right|right]; try (split; [done|by intros ?]). done.
Qed.

Lemma argsSummary_records args : records_args args (argsSummary marshal args).
Proof using Type.
  unfold records_args, argsSummary. case_bool_decide; [by left|]. right. split; [done|].
  exists (redact args). split; [apply redact_hides|]. destruct (marshal _) as [s|]; [|done].
  destruct (Nat.ltb_spec 200 (String.length s)); [right|left]; split; done || lia.
Qed.

Lemma audited_iff (t : Tool (W := W)) auditReads :
  shouldAuditAtAdapter (Cap t) (SelfAudited t) auditReads = true ↔
  SelfAudited t = false ∧ (Cap t = CapWrite ∨ Cap t = CapWritePrep ∨ auditReads = true).
Proof using Type.
  unfold shouldAuditAtAdapter. destruct (SelfAudited t); [split; [done|by intros []]|].
  rewrite !orb_true_iff, !bool_decide_eq_true. tauto.
Qed.

Lemma deliver_spec (t : Tool (W := W)) auditReads args (fin : State (W := W) * outcome) :
  let '(st', out) := deliver t auditReads args fin in
  let '(st1, o) := fin in
  srv st' = srv st1 ∧ world st' = world st1 ∧
  (∃ recorded, audit st' = audit st1 ++ recorded ∧ records_call t args auditReads (IsError out) recorded) ∧
  (IsError out = false ↔ ∃ r, o = Returned r) ∧
  (IsError out = true → ∃ text, Content out = inl text ∧ tags text = []).
Proof using Type.
  destruct fin as [st1 o]. unfold deliver.
  set (r := match o with Returned res => inl res | Failed e => inr e | Panicked what => inr _ end : Result + tool_err).
  set (out := match r with inl res => formatResult res (Kind t) | inr e => toolErrorResult e end).
  assert (Hout : IsError out = match r with inl _ => false | inr _ => true end).
  { unfold out. destruct r as [res|e]; [done|apply toolErrorResult_clean]. }
  split_and!; [by destruct (shouldAuditAtAdapter _ _ _)..| | |].
  - rewrite Hout. unfold records_call. destruct (decide _) as [Ha|Ha]; rewrite <- audited_iff in Ha.
    + rewrite Ha. eexists. split; [reflexivity|]. eexists _, _. split; [apply argString_records|].
      split; [apply argsSummary_records|by destruct r].
    + apply not_true_is_false in Ha. rewrite Ha. exists []. by rewrite app_nil_r.
  - rewrite Hout. unfold r. destruct o; naive_solver.
  - unfold out. destruct r as [res|e]; [done|]. intros _. apply toolErrorResult_clean.
Qed.

(** C32: the adapter contains a tool.  Malformed arguments are refused before
    the tool runs and change nothing; otherwise the handler runs exactly once,
    on the given arguments except that an omitted profile is filled with a
    loaded one and an explicit profile is left alone; whatever it does, return,
    fail or panic, a result goes back, marked as an error exactly when the
    handler did not return, whose error text holds no envelope tag; and the
    adapter adds one audit record exactly for a tool that does not audit itself
    and writes, prepares writes or has its reads audited. The record names the
    tool, the profile the call ran with, its arguments with every value outside
    the safe list replaced and the encoding cut at 200 bytes, and the outcome. *)
Theorem makeHandler_contains reg (t : Tool (W := W)) auditReads raw st h :
  reg st !! ToolName t = Some t → Handler t = Some h →
  let args := applyProfileDefault t (srv st) (args_of raw) in
  let '(st', out) := makeHandler is_print marshal reg t auditReads raw st in
  let '(st1, o) := h args st in
  match raw with
  | RawBad _ => st' = st ∧ IsError out = true
  | _ =>
      srv st' = srv st1 ∧ world st' = world st1 ∧
      (∃ recorded, audit st' = audit st1 ++ recorded ∧ records_call t args auditReads (IsError out) recorded) ∧
      (IsError out = false ↔ ∃ r, o = Returned r) ∧
      (IsError out = true → ∃ text, Content out = inl text ∧ tags text = []) ∧
      ("profile" ∈ InputProps t → cfg (srv st) ≠ ∅ → cfg (srv st) !! "" = None →
       args_of raw !! "profile" = None ∨ args_of raw !! "profile" = Some (JStr "") →
       ∃ n, args !! "profile" = Some (JStr n) ∧ is_Some (cfg (srv st) !! n)) ∧
      ((∀ v, args_of raw !! "profile" = Some v → v ≠ JStr "") → args_of raw !! "profile" ≠ None → args = args_of raw)
  end.
Proof.
  intros Hreg Hh args.
  assert (Hrun : ∀ args0, decode_args raw = inr args0 → args = applyProfileDefault t (srv st) args0 →
    makeHandler is_print marshal reg t auditReads raw st = deliver t auditReads args (h args st)).
  { intros args0 E ->. unfold makeHandler. rewrite E. cbv zeta.
    rewrite (Call_runs reg t h _ st) by done. unfold deliver. by destruct (h _ st). }
  pose proof (deliver_spec t auditReads args (h args st)) as Hd.
  destruct raw as [|msg|a].
  2: { unfold makeHandler. simpl. destruct (h args st). done. }
  all: rewrite (Hrun _ eq_refl eq_refl); destruct (deliver t auditReads args (h args st)) as [st' out], (h args st) as [st1 o];
    destruct Hd as (? & ? & ? & ? & ?); split_and!; try done.
  all: first [by apply applyProfileDefault_explicit | intros ????; by apply applyProfileDefault_loaded].
Qed.
End adapter.

(** ** Redaction *)

(** the audit summary leaks no argument outside the safe list.  Two calls
    that pass the same keys and agree on the safe ones have the same summary,
    whatever their other values are, and a summary is at most 203 bytes. *)
Theorem argsSummary_redacts (marshal : Args → option string) (a b : Args) :
  dom a = dom b → (∀ k, k ∈ safeArgKeys → a !! k = b !! k) →
  argsSummary marshal a = argsSummary marshal b ∧ (String.length (argsSummary marshal a) ≤ 203)%nat.
Proof.
  intros Hd Hs. split.
  - assert (Hr : redact a = redact b).
    { apply map_eq. intros k. unfold redact. rewrite !map_lookup_imap.
      destruct (decide (k ∈ safeArgKeys)) as [Hk|Hk].
      { rewrite Hs by done. done. }
      assert (Hk' : is_Some (a !! k) ↔ is_Some (b !! k)) by (by rewrite <- !elem_of_dom, Hd).
      destruct (a !! k) as [v|], (b !! k) as [w|]; simpl; try done.
      - by rewrite bool_decide_eq_false_2.
      - destruct Hk' as [H _]. destruct H; [eauto|done].
      - destruct Hk' as [_ H]. destruct H; [eauto|done]. }
    assert (He : a = ∅ ↔ b = ∅).
    { by rewrite <- !dom_empty_iff_L, Hd. }
    unfold argsSummary. rewrite Hr. by rewrite (bool_decide_ext _ _ He).
  - unfold argsSummary. case_bool_decide; [simpl; lia|]. destruct (marshal _) as [s|]; [|simpl; lia].
    destruct (200 <? String.length s)%nat eqn:E; b2p; [|lia].
    rewrite str_length_app. assert (Hl : ∀ n s, (String.length (str_take n s) ≤ n)%nat).
    { induction n as [|n IH]; intros [|c t]; simpl; try lia. specialize (IH t). lia. }
    specialize (Hl 200%nat s). simpl String.length at 2. lia.
Qed.

Lemma argsSummary_redacts_witness :
  let marshal := λ m : Args, Some (GoText.join "," ((λ kv : string * json,
    kv.1 +:+ "=" +:+ match kv.2 with JStr s => s | _ => "?" end) <$> map_to_list m)) in
  let a : Args := {["realm" := JStr "gno.land/r/x"; "code" := JStr "secret"]} in
  let b : Args := {["realm" := JStr "gno.land/r/x"; "code" := JStr "public"]} in
  argsSummary marshal a = argsSummary marshal b ∧ argsSummary marshal a ≠ "".
Proof.
  cbv zeta. split; [|vm_compute; discriminate].
  refine (proj1 (argsSummary_redacts _ _ _ _ _)).
  - reflexivity.
  - intros k Hk.
    destruct (decide (k = "realm")) as [->|H1]; [reflexivity|].
    destruct (decide (k = "code")) as [->|H2]; [vm_compute in Hk; discriminate|].
    rewrite !lookup_insert_ne, !lookup_singleton_ne by congruence. reflexivity.
Defined.

(** ** Counting runes *)

Lemma byte_in_cont (lo hi : Z) a : (128 ≤ lo)%Z → (hi ≤ 191)%Z → byte_in lo hi a = true → cont a = true.
Proof. unfold cont, byte_in. intros ? ? H. b2p. apply andb_true_iff. split; apply Z.leb_le; lia. Qed.

(** A decoded rune is its first byte and continuation bytes, whatever follows. *)
Lemma decode_rune_split a t r rest : decode_rune (String a t) = Some (r, rest) →
  ∃ x, t = x +:+ rest ∧ str_forall cont x = true ∧ ∀ rest2, decode_rune (String a (x +:+ rest2)) = Some (r, rest2).
Proof.
  cbn [decode_rune]. set (lo := if _ =? 224 then _ else _). set (hi := if _ =? 237 then _ else _).
  assert (Hlo : 128 ≤ lo) by (unfold lo; repeat case_match; lia).
  assert (Hhi : hi ≤ 191) by (unfold hi; repeat case_match; lia).
  destruct (byte_val a <? 128) eqn:E1; [intros [= <- <-]; by exists ""|].
  destruct (byte_val a <? 194) eqn:E2; [done|]. destruct t as [|b t]; [done|].
  destruct (byte_val a <? 224) eqn:E3.
  { destruct (cont b) eqn:Eb; [|done]. intros [= <- <-]. exists (String b ""). simpl. by rewrite Eb. }
  destruct (byte_in lo hi b) eqn:Eb; simpl; [|done]. pose proof (byte_in_cont _ _ _ Hlo Hhi Eb) as Hb.
  destruct t as [|c t]; [done|]. destruct (cont c) eqn:Ec; simpl; [|done].
  destruct (byte_val a <? 240) eqn:E4.
  { intros [= <- <-]. exists (String b (String c "")). simpl. rewrite Hb, Ec. split_and!; [done|done|].
    intros rest2. fold lo hi. by rewrite Eb. }
  destruct (244 <? byte_val a) eqn:E5; [done|]. destruct t as [|d t]; [done|]. destruct (cont d) eqn:Ed; [|done].
  intros [= <- <-]. exists (String b (String c (String d ""))). simpl. rewrite Hb, Ec, Ed. split_and!; [done|done|].
  intros rest2. fold lo hi. by rewrite Eb.
Qed.

Lemma cont_not_rune a t : cont a = true → decode_rune (String a t) = None.
Proof.
  unfold cont, byte_in. intros H. b2p. cbn [decode_rune].
  rewrite (proj2 (Z.ltb_ge _ _)) by lia. by rewrite (proj2 (Z.ltb_lt _ _)) by lia.
Qed.

(** More fuel than bytes changes nothing. *)
Lemma rune_count_fuel n s : (String.length s ≤ n)%nat → rune_count_go n s = rune_count s.
Proof.
  unfold rune_count. revert n. induction s as [s IH] using (induction_ltof1 _ String.length). unfold ltof in IH.
  intros n Hn. destruct s as [|a t]; [by destruct n|].
  destruct n as [|n]; [simpl in Hn; lia|]. simpl String.length. cbn [rune_count_go].
  assert (Hl : ∀ r rest, decode_rune (String a t) = Some (r, rest) → (String.length rest ≤ String.length t)%nat).
  { intros r rest H. apply decode_rune_split in H as (x & -> & _). rewrite str_length_app. lia. }
  simpl in Hn. destruct (decode_rune (String a t)) as [[r rest]|] eqn:E.
  - specialize (Hl _ _ eq_refl). assert (Hr : (String.length rest < String.length (String a t))%nat) by (simpl; lia).
    rewrite (IH rest Hr n), (IH rest Hr (String.length t)) by lia. done.
  - assert (Hr : (String.length t < String.length (String a t))%nat) by (simpl; lia).
    by rewrite (IH t Hr n) by lia.
Qed.

Lemma rune_count_cons a t : rune_count (String a t) =
  S (rune_count (match decode_rune (String a t) with Some (_, rest) => rest | None => t end)).
Proof.
  unfold rune_count at 1. simpl String.length. cbn [rune_count_go]. f_equal. apply rune_count_fuel.
  destruct (decode_rune (String a t)) as [[r rest]|] eqn:E; [|done].
  apply decode_rune_split in E as (x & -> & _). rewrite str_length_app. lia.
Qed.

Lemma rune_count_conts x b : str_forall cont x = true → rune_count (x +:+ b) = (String.length x + rune_count b)%nat.
Proof.
  induction x as [|a x IH]; [done|]. simpl. intros [Ha Hx]%andb_true_iff.
  rewrite str_app_cons, rune_count_cons, cont_not_rune by done. by rewrite IH.
Qed.

(** Appending never makes runes: the count is subadditive. *)
Lemma rune_count_app a b : (rune_count (a +:+ b) ≤ rune_count a + rune_count b)%nat.
Proof.
  induction a as [a IH] using (induction_ltof1 _ String.length). unfold ltof in IH.
  destruct a as [|c a]; [by rewrite str_app_nil_l|]. rewrite str_app_cons, !rune_count_cons.
  destruct (decode_rune (String c a)) as [[r rest]|] eqn:E.
  - pose proof E as E'. apply decode_rune_split in E' as (x & -> & _ & Hall).
    rewrite str_app_assoc, Hall. simpl. apply le_n_S, IH. simpl. rewrite str_length_app. lia.
  - destruct (decode_rune (String c (a +:+ b))) as [[r rest]|] eqn:E2.
    2: { apply le_n_S, IH. simpl. lia. }
    apply decode_rune_split in E2 as (x & Hx & Hc & Hall).
    (* The rune ends in [b], so [b] starts with the rest of its bytes. *)
    assert (Hb : ∃ y, b = y +:+ rest ∧ str_forall cont y = true).
    { clear IH. revert x Hx Hc Hall E. 
      assert (Hgen : ∀ a x, a +:+ b = x +:+ rest → str_forall cont x = true →
        (∃ y, b = y +:+ rest ∧ str_forall cont y = true) ∨ ∃ z, a = x +:+ z).
      { clear. induction a as [|d a IH]; intros x Hx Hc; [left; eauto|].
        destruct x as [|e x]; [right; by exists (String d a)|].
        rewrite !str_app_cons in Hx. injection Hx as -> Hx. simpl in Hc. apply andb_true_iff in Hc as [_ Hc].
        destruct (IH x Hx Hc) as [?|[z ->]]; [by left|]. right. exists z. by rewrite str_app_cons. }
      intros x Hx Hc Hall E. destruct (Hgen a x Hx Hc) as [?|[z ->]]; [done|]. by rewrite Hall in E. }
    destruct Hb as (y & -> & Hy). rewrite (rune_count_conts y rest) by done. lia.
Qed.

(** ** The instructions *)

Lemma rune_count_le_length s : (rune_count s ≤ String.length s)%nat.
Proof.
  induction s as [s IH] using (induction_ltof1 _ String.length). unfold ltof in IH.
  destruct s as [|a t]; [done|]. rewrite rune_count_cons. cbn [String.length]. apply le_n_S.
  destruct (decode_rune (String a t)) as [[r rest]|] eqn:E.
  - apply decode_rune_split in E as (x & -> & _). rewrite str_length_app.
    transitivity (String.length rest); [|lia]. apply IH. simpl. rewrite str_length_app. lia.
  - apply IH. simpl. lia.
Qed.

Lemma format_digits_length fuel z acc :
  (String.length (format_digits fuel z acc) ≤ fuel + String.length acc)%nat.
Proof.
  revert z acc. induction fuel as [|n IH]; intros z acc; [simpl; lia|]. cbn [format_digits].
  destruct (z / 10 =? 0); [simpl; lia|]. etrans; [apply IH|]. simpl. lia.
Qed.

Lemma moreProfilesLine_length n : (String.length (moreProfilesLine n) ≤ 70)%nat.
Proof.
  unfold moreProfilesLine. rewrite !str_length_app.
  assert (String.length (format_int (Z.of_nat n)) ≤ 20)%nat.
  { unfold format_int. rewrite (proj2 (Z.ltb_ge _ _)) by lia. etrans; [apply format_digits_length|]. simpl. lia. }
  simpl. lia.
Qed.

Definition header : string := serverInstructions +:+ startupLine.

Lemma header_length : (String.length header + 70 ≤ maxMCPTextLen)%nat.
Proof. apply Nat.leb_le. vm_compute. reflexivity. Qed.

Definition lines_of (profs : Config) (names : list string) : string :=
  foldr (λ n acc, profileLine n (default (endpoint "" "") (profs !! n)) +:+ acc) "" names.

Definition tail_of (rest : list string) : string :=
  match rest with [] => "" | _ => moreProfilesLine (List.length rest) end.

Lemma instructions_go_spec profs names b :
  (rune_count b + rune_count (tail_of names) ≤ maxMCPTextLen)%nat →
  ∃ shown rest, names = shown ++ rest ∧ instructions_go profs names b = b +:+ lines_of profs shown +:+ tail_of rest ∧
    (rune_count (instructions_go profs names b) ≤ maxMCPTextLen)%nat.
Proof.
  revert b. induction names as [|n names IH]; intros b Hb.
  { exists [], []. simpl. rewrite !str_app_nil_r. split_and!; [done|done|lia]. }
  cbn [instructions_go]. set (line := profileLine n _).
  destruct (_ <? _)%nat eqn:E; b2p.
  - exists [], (n :: names). split_and!; [done|done|]. etrans; [apply rune_count_app|]. exact Hb.
  - destruct (IH (b +:+ line)) as (shown & rest & -> & Ht & Hc).
    { etrans; [apply Nat.add_le_mono_r, rune_count_app|]. unfold tail_of. destruct names; [change (rune_count "") with O|]; lia. }
    exists (n :: shown), rest. split_and!; [done| |done]. rewrite Ht. simpl. fold line. by rewrite !str_app_assoc.
Qed.

(** the server's instructions survive the client's cut.  For any
    configuration the text is at most 2048 characters; it is the static
    guidance and its startup line, then the lines of the first profiles in
    name order, then, exactly when some profile did not fit, one line saying
    how many more there are. *)
Theorem buildServerInstructions_fits profs :
  ∃ shown rest, sorted_names profs = shown ++ rest ∧
    buildServerInstructions profs = header +:+ lines_of profs shown +:+ tail_of rest ∧
    (rune_count (buildServerInstructions profs) ≤ maxMCPTextLen)%nat.
Proof.
  apply instructions_go_spec. pose proof header_length as Hh. pose proof (rune_count_le_length header) as Hr.
  assert (rune_count (tail_of (sorted_names profs)) ≤ 70)%nat.
  { etrans; [apply rune_count_le_length|]. unfold tail_of. destruct (sorted_names profs); [simpl; lia|apply moreProfilesLine_length]. }
  fold header. lia.
Qed.

(** ** A tool that panics *)

Definition boom : Tool (W := unit) :=
  mkTool "boom" {["profile"]} OutputText CapWrite false (Some (λ _ st, (st, Panicked "nil <untrusted_content>"))).
Definition boom_state : State (W := unit) :=
  mkState (NewServer {["testnet" := endpoint "https://rpc" "test5"]} "") [] tt.

Lemma makeHandler_contains_witness :
  let '(st', out) := makeHandler (λ _, true) (λ _, Some "{}") (λ _, {["boom" := boom]}) boom false RawAbsent boom_state in
  IsError out = true ∧ (∃ text, Content out = inl text ∧ tags text = []) ∧
  ∃ profile summary, audit st' = [mkEntry "boom" profile summary "tool_err" ""].
Proof.
  pose proof (makeHandler_contains (λ _, true) (λ _, Some "{}") (λ _, {["boom" := boom]}) boom false RawAbsent boom_state
    (λ _ st, (st, Panicked "nil <untrusted_content>")) eq_refl eq_refl) as H.
  cbv zeta in H. destruct (makeHandler _ _ _ _ _ _ _) as [st' out]. cbv iota beta in H.
  destruct H as (_ & _ & (recorded & Ha & Hr) & He & Ht & _). unfold records_call in Hr.
  destruct (decide _) as [_|Hn] in Hr; [|exfalso; apply Hn; split; [reflexivity|left; reflexivity]].
  destruct Hr as (profile & summary & _ & _ & ->).
  destruct (IsError out) eqn:E.
  - split; [reflexivity|]. split; [apply Ht; reflexivity|]. exists profile, summary. exact Ha.
  - destruct (proj1 He eq_refl) as [r Hr]. discriminate Hr.
Defined.
