(* ===== verification/Handlers.v ===== *)
(** * Tool handlers

    What the handlers of [internal/tools] share: the effects they have on the
    chain, the sessions and the clock, a monad for handlers that audit
    themselves, and the argument readers of [internal/tools/write/args.go].
    What the outside answers is a function of the effects so far, the trace. *)
From S2P Require Import Prelude GoText GoTime Profiles ChainClient ServerCore.
From stdpp Require Import prelude strings gmap list.
From Stdlib Require Import ZArith Lia Ascii String SpecFloat.
Local Open Scope Z_scope.

(** ** Effects *)

Inductive effect :=
  | EfPrecheck (addr : string)              (* a dispatch's precheck *)
  | EfBalance (addr : string)
  | EfPick                                  (* picking a session *)
  | EfAgentOp (addr : string)               (* a dispatched operation, agent-signed *)
  | EfSessionOp (addr master : string)      (* a dispatched operation, session-signed *)
  | EfSettle (addr : string) (fee : Z)
  | EfPolicy                                (* reading the code-submission policy *)
  | EfAddPkg (signer path : string) (files : list MemFile) (simulate : bool)
  | EfCall (signer realm fn : string) (args : list string)
  | EfSend (signer to : string) (amount : Z)
  | EfMeta (path : string)                  (* reading a package's status *)
  | EfSubmitters                            (* reading run_submitters *)
  | EfGasFee
  | EfRender (realm path : string)
  | EfEval (path expr : string)
  | EfPaths (target : string) (limit : Z)
  | EfAccount (addr : string)
  | EfStatus                                (* the node's status *)
  | EfListFiles (path : string)
  | EfFile (path file : string)
  | EfDiscover (url : string)               (* fetching a gnoweb page *)
  | EfLimits (url : string)                 (* the faucet service's policy *)
  | EfIndexer (realm : string)              (* a tx-indexer query *)
  | EfFaucet (addr : string)                (* asking the faucet service *)
  | EfSleep (d : Z).

#[export] Instance MemFile_eq_dec : EqDecision MemFile.
Proof. solve_decision. Defined.
#[export] Instance effect_eq_dec : EqDecision effect.
Proof. solve_decision. Defined.

Abbreviation trace := (list effect).

(** ** Handlers *)

(** The trace, and the cells of the deferred audit record. *)
Record St := mkSt { hist : trace; cell : Entry }.

Definition tool (A : Type) : Type := St → St * res tool_err A.

#[export] Instance tool_ret : MRet tool := λ A a st, (st, Ok a).
#[export] Instance tool_bind : MBind tool := λ A B f m st,
  let '(st, r) := m st in match r with Ok a => f a st | Err e => (st, Err e) end.

Definition stop {A} (e : tool_err) : tool A := λ st, (st, Err e).
Definition of_res {A} (r : res tool_err A) : tool A := λ st, (st, r).

(** One effect, and what it answers. *)
Definition ask {A} (ev : effect) (answer : trace → A) : tool A := λ st,
  (mkSt (hist st ++ [ev]) (cell st), Ok (answer (hist st))).

(** What the outside says without an effect: the clock, a done context. *)
Definition look {A} (answer : trace → A) : tool A := λ st, (st, Ok (answer (hist st))).

(** A computation on the trace alone. *)
Definition on_trace {A} (f : trace → trace * res tool_err A) : tool A := λ st,
  let '(tr, r) := f (hist st) in (mkSt tr (cell st), r).

Definition set_cell (f : Entry → Entry) : tool unit := λ st, (mkSt (hist st) (f (cell st)), Ok tt).

Definition set_profile (x : string) : tool unit :=
  set_cell (λ e, mkEntry (EntryTool e) x (EntryArgs e) (EntryResult e) (EntrySession e)).
Definition set_args (x : string) : tool unit :=
  set_cell (λ e, mkEntry (EntryTool e) (EntryProfile e) x (EntryResult e) (EntrySession e)).
Definition set_result (x : string) : tool unit :=
  set_cell (λ e, mkEntry (EntryTool e) (EntryProfile e) (EntryArgs e) x (EntrySession e)).
Definition set_session (x : string) : tool unit :=
  set_cell (λ e, mkEntry (EntryTool e) (EntryProfile e) (EntryArgs e) (EntryResult e) x).

(** A self-audited handler: the record starts as a denial and is written on
    every return path. *)
Definition audited {A} (name : string) (m : tool A) (tr : trace) : trace * Entry * res tool_err A :=
  let '(st, r) := m (mkSt tr (mkEntry name "" "" "tool_err" "")) in (hist st, cell st, r).

(** Time goes forward, and a sleep that is not cut short lasts: what the
    waiting handlers need of the clock [now] and of the call's context, which
    is [done_] when it has ended. *)
Class Clock (now : trace → Time) (done_ : trace → bool) : Prop := {
  clock_mono tr evs : now tr ≤ now (tr ++ evs);
  clock_sleep tr d : done_ (tr ++ [EfSleep d]) = false → now tr + d ≤ now (tr ++ [EfSleep d]);
}.

(** A clock that only sleeps move, for examples. *)
Definition slept (tr : trace) : Z := fold_right (λ e n, match e with EfSleep d => Z.max 0 d + n | _ => n end) 0 tr.

Lemma slept_app a b : slept (a ++ b) = slept a + slept b.
Proof. induction a as [|[] a IH]; simpl; lia. Qed.

Lemma slept_nonneg a : 0 ≤ slept a.
Proof. induction a as [|[] a IH]; simpl; lia. Qed.

#[export] Instance slept_clock : Clock slept (λ _, false).
Proof.
  split; intros; rewrite slept_app; [pose proof (slept_nonneg evs); lia|simpl; lia].
Qed.

(** ** Reasoning *)

(** [wp m Q st]: running [m] from [st] ends in [Q]. *)
Definition wp {A} (m : tool A) (Q : St → res tool_err A → Prop) (st : St) : Prop :=
  let '(st', r) := m st in Q st' r.

Section wp.
Context {A B : Type}.

Lemma wp_ret (a : A) Q st : Q st (Ok a) → wp (mret a) Q st.
Proof. done. Qed.
Lemma wp_stop e (Q : St → res tool_err A → Prop) st : Q st (Err e) → wp (stop e) Q st.
Proof. done. Qed.
Lemma wp_of_res (r : res tool_err A) Q st : Q st r → wp (of_res r) Q st.
Proof. done. Qed.
Lemma wp_ask ev (f : trace → A) Q st : Q (mkSt (hist st ++ [ev]) (cell st)) (Ok (f (hist st))) → wp (ask ev f) Q st.
Proof. done. Qed.
Lemma wp_look (f : trace → A) Q st : Q st (Ok (f (hist st))) → wp (look f) Q st.
Proof. done. Qed.
Lemma wp_set_cell f Q st : Q (mkSt (hist st) (f (cell st))) (Ok tt) → wp (set_cell f) Q st.
Proof. done. Qed.

Lemma wp_on_trace (f : trace → trace * res tool_err A) Q st :
  (let '(tr, r) := f (hist st) in Q (mkSt tr (cell st)) r) → wp (on_trace f) Q st.
Proof. unfold wp, on_trace. by destruct (f (hist st)). Qed.

Lemma wp_bind (m : tool A) (f : A → tool B) Q st :
  wp m (λ st' r, match r with Ok a => wp (f a) Q st' | Err e => Q st' (Err e) end) st → wp (m ≫= f) Q st.
Proof. unfold wp, mbind, tool_bind. destruct (m st) as [st' [a|e]]; done. Qed.

Lemma wp_mono (m : tool A) (Q Q' : St → res tool_err A → Prop) st :
  wp m Q st → (∀ st' r, Q st' r → Q' st' r) → wp m Q' st.
Proof. unfold wp. destruct (m st). auto. Qed.

Lemma wp_elim (m : tool A) (Q : St → res tool_err A → Prop) st :
  wp m Q st → let '(st', r) := m st in Q st' r.
Proof. done. Qed.

End wp.

(** An audited run is a run from a fresh record. *)
Lemma audited_wp {A} name (m : tool A) (P : trace → Entry → res tool_err A → Prop) tr :
  wp m (λ st r, P (hist st) (cell st) r) (mkSt tr (mkEntry name "" "" "tool_err" "")) →
  let '(tr', entry, r) := audited name m tr in P tr' entry r.
Proof. unfold wp, audited. by destruct (m _). Qed.

(** One step of symbolic execution. *)
Ltac wp_step :=
  lazymatch goal with
  | |- wp (_ ≫= _) _ _ => apply wp_bind
  | |- wp (mret _) _ _ => apply wp_ret
  | |- wp (stop _) _ _ => apply wp_stop
  | |- wp (of_res _) _ _ => apply wp_of_res
  | |- wp (ask _ _) _ _ => apply wp_ask
  | |- wp (look _) _ _ => apply wp_look
  | |- wp (set_profile _) _ _ => apply wp_set_cell
  | |- wp (set_args _) _ _ => apply wp_set_cell
  | |- wp (set_result _) _ _ => apply wp_set_cell
  | |- wp (set_session _) _ _ => apply wp_set_cell
  end; cbn [hist cell EntryTool EntryProfile EntryArgs EntryResult EntrySession fst snd].

(** One early return, when the postcondition asks nothing of errors. *)
Tactic Notation "wp_res" ident(x) ident(E) :=
  wp_step; wp_step;
  lazymatch goal with |- match ?r with Ok _ => _ | Err _ => _ end => destruct r as [x|] eqn:E; [|intros ?; discriminate] end.

(** ** Arguments ([args.go]) *)

Definition extra1 (k : string) (v : string) : gmap string json := {[k := JStr v]}.
Definition extra2 (k v k' v' : string) : gmap string json := {[k := JStr v; k' := JStr v']}.

Section args.
Context (is_print : Z → bool) (arg_text : arg_error → string).

Definition arg_err {A} (r : res arg_error A) : res tool_err A := map_err (λ e, PlainError (arg_text e)) r.

Definition requireProfile (args : Args) (s : Server) : res tool_err (string * Profile) :=
  name ← arg_err (StringArg args "profile");
  if bool_decide (name = "") then Err (PlainError "profile: required — pick one of the configured profiles")
  else match cfg s !! name with
  | None => Err (PlainError ("profile " +:+ quote is_print name +:+ ": not found"))
  | Some p => Ok (name, p)
  end.

(** The argument readers of a handler's body, and its early returns. *)
Definition str_arg (args : Args) (name : string) : tool string := of_res (arg_err (StringArg args name)).
Definition need (b : bool) (e : string) : tool unit := of_res (check b (PlainError e)).

Definition keyArg (args : Args) : res tool_err string := arg_err (StringArg args "key").

(** [int64(v)] of a float64, as amd64 converts. *)
Definition f64_to_int64 (v : float64) : Z :=
  let n := f64_trunc v in if (minInt64 <=? n) && (n <=? maxInt64) then n else minInt64.

(** [strconv.ParseFloat] on a number's literal.  Both the wrong type and a
    fraction are [EArgType] here. *)
Context (parse_float : string → float64).

Definition Int64Arg (args : Args) (name : string) : res arg_error Z :=
  match args !! name with
  | None => Ok 0
  | Some (JNum lit) =>
      let v := parse_float lit in
      let n := f64_to_int64 v in
      if SpecFloat.SFeqb v (f64_of_int n) then Ok n else Err (EArgType name)
  | Some _ => Err (EArgType name)
  end.

(** What it reads fits an int64, and is the number the float holds. *)
Lemma Int64Arg_range args name n : Int64Arg args name = Ok n → int64 n.
Proof.
  unfold Int64Arg, f64_to_int64, int64, minInt64, maxInt64. intros H. repeat case_match; simplify_eq/=; b2p; lia.
Qed.

Lemma arg_err_Ok {A} (r : res arg_error A) a : arg_err r = Ok a ↔ r = Ok a.
Proof. apply map_err_Ok. Qed.

Lemma requireProfile_Ok args s name p : requireProfile args s = Ok (name, p) →
  StringArg args "profile" = Ok name ∧ name ≠ "" ∧ cfg s !! name = Some p.
Proof.
  unfold requireProfile, arg_err. intros H. inv_ok. case_bool_decide; [done|].
  case_match; [|done]. by injection H0 as <- <-.
Qed.
End args.
