(* ===== verification/WriteTools.v ===== *)
(** * The write tools

    [internal/tools/write]: the dispatch pipeline every write transaction goes
    through ([dispatch.go], [identity.go]), the gno_call and gno_run handlers
    on top of it, and gno_key_delete with its sweep.  What the tools call, the
    keystore, the chain client and the session manager, answers as a function
    of the effects performed so far, which the trace records. *)
From S2P Require Import Prelude GoText Profiles ChainTypes SessionManager FsUtil Keystore ServerCore Handlers.
From stdpp Require Import prelude strings gmap list.
From Stdlib Require Import ZArith Lia Ascii String.
Local Open Scope Z_scope.

(** ** Operations *)

Inductive op_error := ErrSimulateUnsupported | OpFailed (text : string).

(** The effects that sign or charge. *)
Definition is_op (e : effect) : bool :=
  match e with EfAgentOp _ | EfSessionOp _ _ | EfSettle _ _ => true | _ => false end.

(** ** Identities ([identity.go]) *)

Definition signedByLine (identity signerAddr master : string) (local : bool) : string :=
  if bool_decide (identity = "session") then "Signed by: session " +:+ signerAddr +:+ " on behalf of master " +:+ master
  else if local then "Signed by: agent test1 (" +:+ signerAddr +:+ ")"
  else "Signed by: agent (" +:+ signerAddr +:+ ")".

Section dispatch.
Context (is_print : Z → bool).

Definition agentKeyToolError (err : ks_error) (profileName noKeyHint : string) : option tool_err :=
  match err with
  | ErrNoAgentKey =>
      Some (ToolError "agent_identity_unavailable"
        ("no agent key for profile " +:+ quote is_print profileName +:+ " — " +:+ noKeyHint) (extra1 "profile" profileName))
  | ErrNoKeyDir | ELoad _ _ LNoKeyDir =>
      Some (ToolError "key_storage_unconfigured"
        "the agent keystore has no storage directory configured; set GNOMCP_AGENT_KEYS_PATH (or use the default) so agent keys can be persisted and loaded"
        (extra1 "profile" profileName))
  | _ => None
  end.

(** The text of a keystore error. *)
Context (ks_text : ks_error → string).
Context {Signer : Type}.

Definition agentSigner (tool noKeyHint profileName : string) (signer : res ks_error Signer) (info : Signer → res string string)
    : res tool_err (Signer * string) :=
  match signer with
  | Err e => Err (default (PlainError (tool +:+ ": signer: " +:+ ks_text e)) (agentKeyToolError e profileName noKeyHint))
  | Ok signer =>
      match info signer with
      | Err e => Err (PlainError (tool +:+ ": signer info: " +:+ e))
      | Ok addr => Ok (signer, addr)
      end
  end.

Definition requireFunded (balance : trace → string → res string Z) (tool profileName addr : string) (profile : Profile) (simulate : bool)
    (tr : trace) : trace * option tool_err :=
  if negb (IsTestnet profile) || simulate then (tr, None)
  else
    (tr ++ [EfBalance addr],
     match balance tr addr with
     | Err e => Some (PlainError (tool +:+ ": balance check: " +:+ e))
     | Ok bal =>
         if bal =? 0 then
           Some (ToolError "insufficient_funds"
             ("agent testnet account " +:+ addr +:+ " is unfunded — run gno_faucet_fund (or send it ugnot), then retry")
             (extra2 "profile" profileName "address" addr))
         else None
     end).

Definition acquireAgentSigner (balance : trace → string → res string Z) (tool noKeyHint profileName : string)
    (signer : res ks_error Signer) (info : Signer → res string string) (profile : Profile) (simulate : bool) (tr : trace)
    : trace * res tool_err (Signer * string) :=
  match agentSigner tool noKeyHint profileName signer info with
  | Err e => (tr, Err e)
  | Ok (signer, addr) =>
      let '(tr, e) := requireFunded balance tool profileName addr profile simulate tr in
      (tr, match e with Some e => Err e | None => Ok (signer, addr) end)
  end.

(** What the closures' operations yield for their caller. *)
Context {Out : Type}.

(** The parameters of one dispatch; the ops, the pick, the balance and the
    precheck answer after a trace. *)
Record writeTxDispatch := mkDispatch {
  d_tool : string;
  d_noKeyHint : string;
  d_profileName : string;
  d_keyName : string;
  d_profile : Profile;
  d_simulate : bool;
  d_signer : res ks_error Signer;           (* [ks.SignerForProfile] *)
  d_info : Signer → res string string;      (* [signer.Info], the address *)
  d_balance : trace → string → res string Z;
  d_pick : trace → res pick_error Picked;
  d_pick_text : pick_error → string;
  d_mapPickErr : pick_error → option tool_err;
  d_agentOp : trace → Signer → res op_error Out;
  d_sessionOp : trace → Picked → string → res op_error (Out * Z); (* with the fee it offered *)
  d_precheck : option (trace → string → option tool_err);
}.

(** What a dispatch leaves: its results, the handler's audit cells and
    the variable its operation assigned. *)
Record dispatched := mkDispatched {
  r_identity : string; r_signer : string; r_master : string; r_err : option tool_err;
  r_audit : string; r_session : string;
  r_out : option Out;
}.

Context (d : writeTxDispatch).

Definition precheck (addr : string) (tr : trace) : trace * option tool_err :=
  match d_precheck d with
  | None => (tr, None)
  | Some p => (tr ++ [EfPrecheck addr], p tr addr)
  end.

Definition op_text (e : op_error) : string :=
  match e with ErrSimulateUnsupported => "chain: simulate not supported by current gnoclient" | OpFailed t => t end.

(** [txError]: the error and the audit outcome. *)
Definition txError (e : op_error) : tool_err * string :=
  if d_simulate d then (PlainError (d_tool d +:+ " simulate: " +:+ op_text e), "sim_err")
  else (PlainError (d_tool d +:+ " broadcast: " +:+ op_text e), "broadcast_err").

(** The audit outcome of a success. *)
Definition succeeded : string := if d_simulate d then "sim" else "ok".

(** A return before or without a chain outcome: the audit cell keeps its
    initial value. *)
Definition refuse (identity signer master : string) (e : tool_err) (sess : string) : dispatched :=
  mkDispatched identity signer master (Some e) "tool_err" sess None.

Definition dispatch_agent (identity : string) (tr : trace) : trace * dispatched :=
  match agentSigner (d_tool d) (d_noKeyHint d) (d_profileName d) (d_signer d) (d_info d) with
  | Err e => (tr, refuse identity "" "" e "")
  | Ok (signer, addr) =>
      let '(tr, e) := precheck addr tr in
      match e with
      | Some e => (tr, refuse identity "" "" e "")
      | None =>
          let '(tr, e) := requireFunded (d_balance d) (d_tool d) (d_profileName d) addr (d_profile d) (d_simulate d) tr in
          match e with
          | Some e => (tr, refuse identity "" "" e "")
          | None =>
              (tr ++ [EfAgentOp addr],
               match d_agentOp d tr signer with
               | Err e => let '(err, audit) := txError e in mkDispatched identity addr "" (Some err) audit "" None
               | Ok out => mkDispatched identity addr "" None succeeded "" (Some out)
               end)
          end
      end
  end.

Definition dispatch_session (identity : string) (tr : trace) : trace * dispatched :=
  if negb (bool_decide (d_keyName d = "")) then
    (tr, refuse identity "" ""
      (ToolError "key_ignored_for_session"
        "the key arg selects an agent key and does not apply to identity=session (the session signer is used)"
        (extra2 "profile" (d_profileName d) "key" (d_keyName d))) "")
  else
    let tr' := tr ++ [EfPick] in
    match d_pick d tr with
    | Err e =>
        (tr', refuse identity "" "" (default (PlainError (d_tool d +:+ ": pick session: " +:+ d_pick_text d e)) (d_mapPickErr d e)) "")
    | Ok picked =>
        let addr := pk_addr picked in
        let master := pk_master picked in
        let '(tr, e) := precheck master tr' in
        match e with
        | Some e => (tr, refuse identity addr master e addr)
        | None =>
            let tr' := tr ++ [EfSessionOp addr master] in
            match d_sessionOp d tr picked master with
            | Ok (out, fee) =>
                (if d_simulate d then tr' else tr' ++ [EfSettle addr fee], mkDispatched identity addr master None succeeded addr (Some out))
            | Err e =>
                (tr',
                 match d_simulate d, e with
                 | true, ErrSimulateUnsupported =>
                     refuse identity addr master
                       (ToolError "simulate_unsupported" "this chain client does not support simulate; retry without simulate=true"
                          (extra1 "profile" (d_profileName d))) addr
                 | _, _ => let '(err, audit) := txError e in mkDispatched identity addr master (Some err) audit addr None
                 end)
            end
        end
    end.

Definition dispatchWriteTx (identityArg : string) (tr : trace) : trace * dispatched :=
  let identity := if bool_decide (identityArg = "") then "agent" else identityArg in
  if bool_decide (identity = "agent") then dispatch_agent identity tr
  else if bool_decide (identity = "session") then dispatch_session identity tr
  else (tr, refuse identity "" "" (PlainError ("identity: must be " +:+ dq +:+ "agent" +:+ dq +:+ " or " +:+ dq +:+ "session" +:+ dq +:+ ", got " +:+ quote is_print identity)) "").
End dispatch.

(** ** Results *)

(** [m[k] = v] on a result's structured content. *)
Definition set_field (l : list (string * json)) (k : string) (v : json) : list (string * json) :=
  filter (λ kv, kv.1 ≠ k) l ++ [(k, v)].

Definition with_text (out : Result) (text : string) (sc : list (string * json)) : Result :=
  mkResult text (ResourceURI out) (ResourceBody out) (ResourceMIME out) sc.

Definition attachGnokeyCmd (out : Result) (cmd : string) : Result :=
  if bool_decide (cmd = "") then out
  else with_text out
    (Text out +:+ NL +:+ NL +:+
     "gnokey equivalent (illustrative — gnomcp already signed and broadcast this; " +:+
     "the signing key lives in gnomcp's keystore, not gnokey's):" +:+ NL +:+ "  " +:+ cmd)
    (set_field (StructuredContent out) "gnokey_command" (JStr cmd)).

Definition decorateWriteResult (out : Result) (identity signerAddr master : string) (local : bool) : Result :=
  let sc := set_field (set_field (StructuredContent out) "identity" (JStr identity)) "signer_address" (JStr signerAddr) in
  with_text out (signedByLine identity signerAddr master local +:+ NL +:+ NL +:+ Text out)
    (if bool_decide (identity = "session") then set_field sc "master_address" (JStr master) else sc).

(** ** Signers and funding *)

Section funding.
Context (is_print : Z → bool) (ks_text : ks_error → string) {Signer : Type}.
Context (balance : trace → string → res string Z).

(** The account that pays holds something, where that is checked. *)
Definition funded (profile : Profile) (simulate : bool) (tr : trace) (addr : string) : Prop :=
  IsTestnet profile = true → simulate = false → ∃ bal, balance tr addr = Ok bal ∧ bal ≠ 0.

Definition balance_read (profile : Profile) (simulate : bool) (addr : string) : trace :=
  if negb (IsTestnet profile) || simulate then [] else [EfBalance addr].

Lemma requireFunded_spec tool pn addr profile simulate tr :
  ∃ e, requireFunded balance tool pn addr profile simulate tr = (tr ++ balance_read profile simulate addr, e) ∧
       (e = None → funded profile simulate tr addr).
Proof.
  unfold requireFunded, balance_read, funded.
  destruct (negb (IsTestnet profile) || simulate) eqn:E; eexists; split; try done.
  - by rewrite app_nil_r.
  - intros _ Ht Hs. by rewrite Ht, Hs in E.
  - intros Hb _ _. destruct (balance tr addr) as [bal|] eqn:Hbal; [|done]. exists bal. split; [done|].
    intros ->. by rewrite Z.eqb_refl in Hb.
Qed.

Lemma agentSigner_Ok tool hint pn (sg : res ks_error Signer) info signer addr :
  agentSigner is_print ks_text tool hint pn sg info = Ok (signer, addr) → sg = Ok signer ∧ info signer = Ok addr.
Proof. unfold agentSigner. intros H. repeat case_match; naive_solver. Qed.

Lemma acquireAgentSigner_spec tool hint pn (sg : res ks_error Signer) info profile simulate tr :
  let '(tr', r) := acquireAgentSigner is_print ks_text balance tool hint pn sg info profile simulate tr in
  (∃ addr, tr' = tr ∨ tr' = tr ++ balance_read profile simulate addr) ∧
  (∀ signer addr, r = Ok (signer, addr) → sg = Ok signer ∧ info signer = Ok addr ∧
     tr' = tr ++ balance_read profile simulate addr ∧ funded profile simulate tr addr).
Proof.
  unfold acquireAgentSigner. destruct (agentSigner _ _ _ _ _ _ _) as [[signer addr]|] eqn:Es.
  2: { split; [exists ""; by left|done]. }
  apply agentSigner_Ok in Es as [Hs Hi]. destruct (requireFunded_spec tool pn addr profile simulate tr) as (e & -> & Hf).
  split; [exists addr; by right|]. destruct e; [done|]. intros ? ? [= <- <-]. auto.
Qed.

Lemma quiet_balance profile simulate addr : filter (λ e, is_op e = true) (balance_read profile simulate addr) = [].
Proof. unfold balance_read. by case_match. Qed.
End funding.

(** ** The dispatch accounts for what it did *)

Section accounts.
Context (is_print : Z → bool) (ks_text : ks_error → string) {Signer Out : Type}.
Context (d : writeTxDispatch (Signer := Signer) (Out := Out)).

Abbreviation acts evs := (filter (λ e, is_op e = true) evs).

(** The precheck was asked about [addr] after [tr], and passed. *)
Definition cleared (tr : trace) (addr : string) : Prop :=
  ∀ p, d_precheck d = Some p → p tr addr = None.

(** What is reported of an operation that answered [o]. *)
Definition reported (o : res op_error Out) (r : dispatched (Out := Out)) : Prop :=
  match o with
  | Ok out => r_err r = None ∧ r_audit r = succeeded d ∧ r_out r = Some out
  | Err e =>
      r_err r ≠ None ∧
      if d_simulate d then r_audit r = "sim_err" ∨ e = ErrSimulateUnsupported ∧ r_audit r = "tool_err"
      else r_audit r = "broadcast_err"
  end.

(** The questions asked before an operation. *)
Definition prechecked (addr : string) : trace := if d_precheck d is Some _ then [EfPrecheck addr] else [].
Abbreviation d_read := (balance_read (d_profile d) (d_simulate d)).

(** What [dispatchWriteTx] promises to the tools: [tr] is the trace it starts
    from, [evs] what it did, [r] what it left. *)
Inductive accounts (idArg : string) (tr evs : trace) (r : dispatched (Out := Out)) : Prop :=
  | Refused :
      acts evs = [] → r_err r ≠ None → r_audit r = "tool_err" → accounts idArg tr evs r
  | ByAgent pre signer addr :
      idArg = "" ∨ idArg = "agent" →
      d_signer d = Ok signer → d_info d signer = Ok addr →
      pre = prechecked addr ++ d_read addr → evs = pre ++ [EfAgentOp addr] →
      cleared tr addr → funded (d_balance d) (d_profile d) (d_simulate d) (tr ++ prechecked addr) addr →
      r_identity r = "agent" → r_signer r = addr → r_master r = "" → r_session r = "" →
      reported (d_agentOp d (tr ++ pre) signer) r → accounts idArg tr evs r
  | BySession pre pk settle o :
      idArg = "session" → d_keyName d = "" → d_pick d tr = Ok pk →
      pre = EfPick :: prechecked (pk_master pk) →
      evs = pre ++ EfSessionOp (pk_addr pk) (pk_master pk) :: settle →
      cleared (tr ++ [EfPick]) (pk_master pk) →
      d_sessionOp d (tr ++ pre) pk (pk_master pk) = o →
      settle = match o with Ok (_, fee) => if d_simulate d then [] else [EfSettle (pk_addr pk) fee] | Err _ => [] end →
      r_identity r = "session" → r_signer r = pk_addr pk → r_master r = pk_master pk → r_session r = pk_addr pk →
      reported (fst <$> o) r → accounts idArg tr evs r.

Lemma precheck_spec addr tr : ∃ e, precheck d addr tr = (tr ++ prechecked addr, e) ∧ (e = None → cleared tr addr).
Proof.
  unfold precheck, prechecked, cleared. destruct (d_precheck d) as [p|]; eexists; split; try done.
  - intros E q [= <-]. done.
  - by rewrite app_nil_r.
Qed.

Lemma quiet_precheck addr : acts (prechecked addr) = [].
Proof. unfold prechecked. by case_match. Qed.

Lemma dispatch_agent_accounts idArg tr : idArg = "" ∨ idArg = "agent" →
  let '(tr', r) := dispatch_agent is_print ks_text d "agent" tr in ∃ evs, tr' = tr ++ evs ∧ accounts idArg tr evs r.
Proof.
  intros Hid. unfold dispatch_agent. destruct (agentSigner _ _ _ _ _ _ _) as [[signer addr]|e] eqn:Es.
  2: { exists []. rewrite app_nil_r. split; [done|]. by apply Refused. }
  apply agentSigner_Ok in Es as [Hsg Hinfo]. pose proof (quiet_precheck addr) as Hq1.
  pose proof (quiet_balance (d_profile d) (d_simulate d) addr) as Hq2.
  destruct (precheck_spec addr tr) as ([e|] & -> & Hc).
  { eexists. split; [done|]. by apply Refused. }
  destruct (requireFunded_spec (d_balance d) (d_tool d) (d_profileName d) addr (d_profile d) (d_simulate d) (tr ++ prechecked addr))
    as ([e|] & -> & Hf); rewrite <- !app_assoc.
  { eexists. split; [done|]. apply Refused; [|done..]. by rewrite filter_app, Hq1, Hq2. }
  eexists. split; [done|].
  destruct (d_agentOp d (tr ++ prechecked addr ++ d_read addr) signer) as [out|e] eqn:Eo;
    (eapply ByAgent; [done|done|done|done|by rewrite <- app_assoc|by auto|by auto|..]); rewrite ?Eo; try done.
  all: unfold txError, reported; destruct (d_simulate d); simpl; auto.
Qed.

Lemma dispatch_session_accounts tr :
  let '(tr', r) := dispatch_session d "session" tr in ∃ evs, tr' = tr ++ evs ∧ accounts "session" tr evs r.
Proof.
  unfold dispatch_session. destruct (decide (d_keyName d = "")) as [Hk|Hk].
  2: { rewrite bool_decide_eq_false_2 by done. exists []. rewrite app_nil_r. split; [done|]. by apply Refused. }
  rewrite bool_decide_eq_true_2 by done. simpl. destruct (d_pick d tr) as [pk|e] eqn:Hp.
  2: { eexists. split; [done|]. by apply Refused. }
  pose proof (quiet_precheck (pk_master pk)) as Hq.
  destruct (precheck_spec (pk_master pk) (tr ++ [EfPick])) as ([e|] & -> & Hc); rewrite <- !app_assoc.
  { eexists. split; [done|]. apply Refused; [|done..]. by rewrite filter_app, Hq. }
  destruct (d_sessionOp d (tr ++ [EfPick] ++ prechecked (pk_master pk)) pk (pk_master pk)) as [[out fee]|e] eqn:Eo.
  - destruct (d_simulate d) eqn:Hs; [|rewrite <- !app_assoc]; eexists; (split; [done|]);
      (eapply BySession; [done|done|done|done|done|by auto|exact Eo|by rewrite Hs|..]); done.
  - eexists. split; [done|].
    eapply BySession; [done|done|done|done|done|by auto|exact Eo|done|..].
    all: unfold txError, reported, refuse; destruct (d_simulate d), e; simpl; auto.
Qed.

Lemma dispatchWriteTx_spec identityArg tr :
  let '(tr', r) := dispatchWriteTx is_print ks_text d identityArg tr in
  ∃ evs, tr' = tr ++ evs ∧ accounts identityArg tr evs r.
Proof.
  unfold dispatchWriteTx. destruct (decide (identityArg = "")) as [->|Hne].
  { exact (dispatch_agent_accounts "" tr (or_introl eq_refl)). }
  rewrite (bool_decide_eq_false_2 (identityArg = "")) by done.
  destruct (decide (identityArg = "agent")) as [->|Ha].
  { exact (dispatch_agent_accounts "agent" tr (or_intror eq_refl)). }
  rewrite (bool_decide_eq_false_2 (identityArg = "agent")) by done.
  destruct (decide (identityArg = "session")) as [->|Hs]; [exact (dispatch_session_accounts tr)|].
  rewrite (bool_decide_eq_false_2 (identityArg = "session")) by done.
  exists []. rewrite app_nil_r. split; [done|]. by apply Refused.
Qed.

(** C26: one [dispatchWriteTx] signs at most once and accounts for it.  Either
    nothing was signed, an error goes back and the audit record says "tool_err";
    or the agent's own key signed one operation, as the explicit or default
    identity asks, after the precheck passed for its address and, for a real
    write to a testnet, its balance read non-zero; or the picked session signed
    one operation for the master it was issued under, only when the caller asked
    for the session and named no agent key.  The session is charged, once and
    with the fee the operation reported, exactly when a real write succeeded.
    The returned signer, master and session are the ones that signed, and the
    audit record tells success, simulation and failure apart. *)
Theorem dispatchWriteTx_accounts identityArg tr :
  let '(tr', r) := dispatchWriteTx is_print ks_text d identityArg tr in
  ∃ evs, tr' = tr ++ evs ∧ accounts identityArg tr evs r.
Proof. exact (dispatchWriteTx_spec identityArg tr). Qed.
End accounts.

(** A testnet write by the agent, and one by a session, on concrete answers. *)
Definition toy_dispatch (sim : bool) (bal : Z) : writeTxDispatch (Signer := string) (Out := unit) :=
  mkDispatch "gno_call" "hint" "p" "" (endpoint "https://rpc.test5.gno.land" "test5") sim (Ok "sg") (λ sg, Ok ("g1" +:+ sg))
    (λ _ _, Ok bal) (λ _, Ok (mkPicked "g1s" "priv" "g1m")) (λ _, "pick") (λ _, None)
    (λ _ _, Ok tt) (λ _ _ _, Ok (tt, 2000)) (Some (λ _ _, None)).

Example toy_dispatch_runs :
  fst (dispatchWriteTx (λ _, true) (λ _, "") (toy_dispatch false 7) "" []) = [EfPrecheck "g1sg"; EfBalance "g1sg"; EfAgentOp "g1sg"] ∧
  fst (dispatchWriteTx (λ _, true) (λ _, "") (toy_dispatch false 0) "agent" []) = [EfPrecheck "g1sg"; EfBalance "g1sg"] ∧
  fst (dispatchWriteTx (λ _, true) (λ _, "") (toy_dispatch false 0) "session" []) =
    [EfPick; EfPrecheck "g1m"; EfSessionOp "g1s" "g1m"; EfSettle "g1s" 2000] ∧
  fst (dispatchWriteTx (λ _, true) (λ _, "") (toy_dispatch true 0) "session" []) = [EfPick; EfPrecheck "g1m"; EfSessionOp "g1s" "g1m"] ∧
  r_err (snd (dispatchWriteTx (λ _, true) (λ _, "") (toy_dispatch false 0) "master" [])) ≠ None.
Proof. by vm_compute. Qed.
