(* ===== verification/KeyTools.v ===== *)
(** * Deleting an agent key

    [internal/tools/write/keydelete.go]: gno_key_delete with its balance check and sweep, over the
    keystore of [Keystore] and a chain client that answers as a function of
    the questions and transfers made so far. *)
From S2P Require Import Prelude GoText Profiles Secret FsUtil Keystore ServerCore Handlers WriteTools.
From stdpp Require Import prelude strings gmap list.
From Stdlib Require Import ZArith Lia Ascii String.
Local Open Scope Z_scope.

Section keydelete.
Context (is_print : Z → bool).
Context {Signer : Type} (SignerFromBip39 : string → string → option Signer) (Info : Signer → option string).
Context (scrypt : string → string → option string) (new_gcm : string → bool).
Context (Open : string → string → string → option string).
(** The texts of the keystore's and of the argument readers' errors. *)
Context (ks_text : ks_error → string) (arg_text : arg_error → string).
Context (k : Keystore).

(** ** The chain client *)

Inductive kd_event := KBalance (addr : string) | KGasFee | KSend (signer : Signer) (to : string) (amount : Z).

Abbreviation kd_trace := (list kd_event).

(** [chain.Client]; [c_send] answers the error of a failed transfer. *)
Record Client := mkClient {
  c_balance : kd_trace → string → res string Z;
  c_gasFee : kd_trace → res string Z;
  c_send : kd_trace → Signer → string → Z → option string;
}.

(** ** The sweep *)

Abbreviation address := (AgentAddress SignerFromBip39 Info scrypt new_gcm Open k).
Abbreviation signer_for := (SignerForProfile SignerFromBip39 scrypt new_gcm Open k).
Abbreviation list_keys := (ListKeys SignerFromBip39 Info scrypt new_gcm Open k).

Definition ks_tool_error (profileName hint prefix : string) (e : ks_error) : tool_err :=
  default (PlainError (prefix +:+ ks_text e)) (agentKeyToolError is_print e profileName hint).

Definition sweepBeforeDelete (io : IO) (s : fs) (c : Client) (profileName keyName sweepToKey : string) (bal : Z) (p : Profile)
    (tr : kd_trace) : kd_trace * res tool_err Z :=
  if bool_decide (sweepToKey = keyName) then
    (tr, Err (ToolError "invalid_sweep_target"
      ("sweep_to " +:+ quote is_print sweepToKey +:+ " is the key being deleted — choose a different key to receive the funds")
      (extra2 "profile" profileName "key" keyName)))
  else match address io s profileName sweepToKey p with
  | Err e => (tr, Err (ks_tool_error profileName
      ("sweep_to key " +:+ quote is_print sweepToKey +:+ " does not exist — create it or name another")
      ("gno_key_delete: resolve sweep_to " +:+ quote is_print sweepToKey +:+ ": ") e))
  | Ok toAddr =>
      let tr' := tr ++ [KGasFee] in
      match c_gasFee c tr with
      | Err e => (tr', Err (PlainError ("gno_key_delete: query gas fee: " +:+ e)))
      | Ok fee =>
          if bal <=? fee then (tr', Ok 0)
          else match signer_for io s profileName keyName p with
          | Err e => (tr', Err (PlainError ("gno_key_delete: signer for " +:+ quote is_print keyName +:+ ": " +:+ ks_text e)))
          | Ok signer =>
              let amount := wrap64 (bal - fee) in
              (tr' ++ [KSend signer toAddr amount],
               match c_send c tr' signer toAddr amount with
               | Some e => Err (PlainError ("gno_key_delete: sweep to " +:+ quote is_print sweepToKey +:+ " failed (key NOT deleted): " +:+ e))
               | None => Ok amount
               end)
          end
      end
  end.

Fixpoint sweep_pick (keyName first : string) (keys : list KeyInfo) : string :=
  match keys with
  | [] => first
  | key :: keys =>
      if bool_decide (Name key = keyName) then sweep_pick keyName first keys
      else if bool_decide (Name key = DefaultKeyName) then Name key
      else sweep_pick keyName (if bool_decide (first = "") then Name key else first) keys
  end.

Definition sweepTarget (io : IO) (s : fs) (profileName keyName : string) (p : Profile) : string :=
  sweep_pick keyName "" (match list_keys io s profileName p with Ok keys => keys | Err _ => [] end).

Definition keyHasFundsError (io : IO) (s : fs) (profileName keyName addr : string) (bal : Z) (p : Profile) : tool_err :=
  let extra : gmap string json :=
    {["profile" := JStr profileName; "key" := JStr keyName; "address" := JStr addr; "balance_ugnot" := JNum (format_int bal)]} in
  let target := sweepTarget io s profileName keyName p in
  if negb (bool_decide (target = "")) then
    ToolError "key_has_funds"
      ("key " +:+ quote is_print keyName +:+ " holds " +:+ format_int bal +:+
       " ugnot — deleting it makes those funds permanently unreachable. " +:+
       "Recover them in one step: re-run with sweep_to=" +:+ quote is_print target +:+
       " to move the full balance to that key and delete. (Or pass force=true to delete and abandon the funds.)")
      (<["sweep_target" := JStr target]> extra)
  else
    ToolError "key_has_funds"
      ("key " +:+ quote is_print keyName +:+ " holds " +:+ format_int bal +:+
       " ugnot and is the only key in this profile, so there is no other key to sweep to. " +:+
       "Pass force=true to delete and permanently abandon the funds, or keep the key.") extra.

(** ** The handler *)

Definition deleted_note (keyName addr : string) : string :=
  "Deleted key " +:+ quote is_print keyName +:+ " (address " +:+ addr +:+ ")".

(** The [switch]: what becomes of the funds, with the text and the structured
    fields that report it. *)
Definition settle_funds (io : IO) (s : fs) (c : Client) (profileName keyName sweepToKey : string) (force : bool) (addr : string) (bal : Z) (p : Profile)
    (tr : kd_trace) : kd_trace * res tool_err (string * list (string * json)) :=
  let note := deleted_note keyName addr in
  if negb (bool_decide (sweepToKey = "")) then
    let '(tr, r) := sweepBeforeDelete io s c profileName keyName sweepToKey bal p tr in
    (tr, match r with
         | Err e => Err e
         | Ok swept =>
             Ok (if 0 <? swept then
                   ("Swept " +:+ format_int swept +:+ " ugnot to key " +:+ quote is_print sweepToKey +:+ ", then deleted key " +:+
                    quote is_print keyName +:+ " (address " +:+ addr +:+ ").",
                    [("swept_ugnot", JNum (format_int swept)); ("swept_to", JStr sweepToKey)])
                 else if 0 <? bal then
                   (note +:+ "; its balance of " +:+ format_int bal +:+
                    " ugnot was at or below the gas fee, so it could not be swept and is now unreachable.",
                    [("abandoned_balance_ugnot", JNum (format_int bal))])
                 else (note +:+ ".", []))
         end)
  else if (0 <? bal) && negb force then (tr, Err (keyHasFundsError io s profileName keyName addr bal p))
  else if 0 <? bal then
    (tr, Ok (note +:+ ", abandoning " +:+ format_int bal +:+ " ugnot — those funds are now permanently unreachable.",
             [("abandoned_balance_ugnot", JNum (format_int bal))]))
  else (tr, Ok (note +:+ ".", [])).

Record delete_request := mkRequest { q_profile : string; q_p : Profile; q_key : string; q_force : bool; q_sweep : string }.

(** The arguments, read and checked. *)
Definition delete_args (args : Args) (srv : Server) : res tool_err delete_request :=
  np ← requireProfile is_print arg_text args srv;
  keyName ← keyArg arg_text args;
  _ ← check (negb (bool_decide (keyName = ""))) (PlainError "key: required — name the key to delete (no default, to avoid deleting the wrong key)");
  force ← arg_err arg_text (BoolArg args "force");
  sweepToKey ← arg_err arg_text (StringArg args "sweep_to");
  _ ← check (IsTestnet np.2) (ToolError "key_deletion_unsupported"
        ("gno_key_delete is testnet-only; profile " +:+ quote is_print np.1 +:+ " is not a testnet profile") (extra1 "profile" np.1));
  mret (mkRequest np.1 np.2 keyName force sweepToKey).

Definition keyDeleteHandler (args : Args) (srv : Server) (resolver : string → option Client) (io : IO)
    (tr : kd_trace) (s : fs) : kd_trace * fs * res tool_err Result :=
  match delete_args args srv with
  | Err e => (tr, s, Err e)
  | Ok (mkRequest profileName p keyName force sweepToKey) =>
      let hint := "no key named " +:+ quote is_print keyName +:+ " to delete" in
      match address io s profileName keyName p with
      | Err e => (tr, s, Err (ks_tool_error profileName hint "gno_key_delete: " e))
      | Ok addr =>
          match resolver profileName with
          | None => (tr, s, Err (PlainError ("profile " +:+ quote is_print profileName +:+ ": no chain client available")))
          | Some c =>
              let tr' := tr ++ [KBalance addr] in
              match c_balance c tr addr with
              | Err e => (tr', s, Err (PlainError ("gno_key_delete: balance check: " +:+ e)))
              | Ok bal =>
                  let '(tr', r) := settle_funds io s c profileName keyName sweepToKey force addr bal p tr' in
                  match r with
                  | Err e => (tr', s, Err e)
                  | Ok (text, fields) =>
                      let '(s', r) := DeleteForProfile SignerFromBip39 Info scrypt new_gcm Open k io s profileName keyName p in
                      (tr', s',
                       match r with
                       | Err e => Err (ks_tool_error profileName hint "gno_key_delete: " e)
                       | Ok _ => Ok (mkResult text "" "" ""
                           (("deleted_key", JStr keyName) :: ("deleted_address", JStr addr) :: fields))
                       end)
                  end
              end
          end
      end
  end.
End keydelete.

(** ** No funds are stranded *)

Section safety.
Context (is_print : Z → bool).
Context {Signer : Type} (SignerFromBip39 : string → string → option Signer) (Info : Signer → option string).
Context (scrypt : string → string → option string) (new_gcm : string → bool).
Context (Open : string → string → string → option string).
Context (ks_text : ks_error → string) (arg_text : arg_error → string).
Context (k : Keystore) (io : IO) (s : fs) (c : Client (Signer := Signer)) (pn : string) (p : Profile).

Abbreviation kd_trace := (list (kd_event (Signer := Signer))).
Abbreviation address_of kn := (AgentAddress SignerFromBip39 Info scrypt new_gcm Open k io s pn kn p).
Abbreviation settle := (settle_funds is_print SignerFromBip39 Info scrypt new_gcm Open ks_text k io s c pn).
Abbreviation sweep_it := (sweepBeforeDelete is_print SignerFromBip39 Info scrypt new_gcm Open ks_text k io s c pn).

(** The one transfer a sweep of [bal] makes: from the key [kn], to the address
    of the other key [sweep], everything but the fee. *)
Definition sweep_send (tr : kd_trace) (kn sweep : string) (bal : Z) (ev : kd_event (Signer := Signer)) : Prop :=
  ∃ signer to fee, ev = KSend signer to (wrap64 (bal - fee)) ∧
    SignerForProfile SignerFromBip39 scrypt new_gcm Open k io s pn kn p = Ok signer ∧
    sweep ≠ kn ∧ address_of sweep = Ok to ∧ c_gasFee c tr = Ok fee ∧ fee < bal.

Definition landed (tr : kd_trace) (ev : kd_event (Signer := Signer)) : Prop :=
  match ev with KSend signer to amount => c_send c tr signer to amount = None | _ => True end.

(** What a sweep did. *)
Inductive swept (tr : kd_trace) (kn sweep : string) (bal : Z) : kd_trace → res tool_err Z → Prop :=
  | SweptNot evs e : evs = [] ∨ evs = [KGasFee] → swept tr kn sweep bal evs (Err e)
  | SweptDust fee : sweep ≠ kn → is_ok (address_of sweep) = true →
      c_gasFee c tr = Ok fee → bal ≤ fee → swept tr kn sweep bal [KGasFee] (Ok 0)
  | SweptAll ev fee : sweep_send tr kn sweep bal ev → c_gasFee c tr = Ok fee → landed (tr ++ [KGasFee]) ev →
      swept tr kn sweep bal [KGasFee; ev] (Ok (wrap64 (bal - fee)))
  | SweptFailed ev e : sweep_send tr kn sweep bal ev → ¬ landed (tr ++ [KGasFee]) ev →
      swept tr kn sweep bal [KGasFee; ev] (Err e).

Lemma sweep_spec kn sweep bal tr :
  let '(tr', r) := sweep_it kn sweep bal p tr in ∃ evs, tr' = tr ++ evs ∧ swept tr kn sweep bal evs r.
Proof.
  unfold sweepBeforeDelete. destruct (decide (sweep = kn)) as [E|Hne].
  { rewrite bool_decide_eq_true_2 by done. exists []. rewrite app_nil_r. split; [done|]. constructor; auto. }
  rewrite bool_decide_eq_false_2 by done.
  destruct (AgentAddress _ _ _ _ _ _ _ _ _ sweep _) as [to|e] eqn:Ea.
  2: { exists []. rewrite app_nil_r. split; [done|]. constructor; auto. }
  destruct (c_gasFee c tr) as [fee|] eqn:Ef.
  2: { eexists. split; [done|]. constructor; auto. }
  destruct (bal <=? fee) eqn:Eb; b2p.
  { eexists. split; [done|]. econstructor; [done|by rewrite Ea|done|done]. }
  destruct (SignerForProfile _ _ _ _ _ _ _ _ kn _) as [signer|] eqn:Es.
  2: { eexists. split; [done|]. constructor; auto. }
  exists [KGasFee; KSend signer to (wrap64 (bal - fee))]. rewrite <- app_assoc. split; [done|].
  destruct (c_send c (tr ++ [KGasFee]) signer to (wrap64 (bal - fee))) eqn:Ec.
  - apply SweptFailed; [|by simpl; rewrite Ec]. exists signer, to, fee. split_and!; try done; lia.
  - apply SweptAll; [|done|done]. exists signer, to, fee. split_and!; try done; lia.
Qed.

(** What becomes of the funds of a key holding [bal]. *)
Inductive funds_safe (tr : kd_trace) (kn sweep : string) (force : bool) (bal : Z) (evs : kd_trace) (fields : list (string * json)) : Prop :=
  | NoFunds : bal ≤ 0 → evs = [] → sweep = "" → fields = [] → funds_safe tr kn sweep force bal evs fields
  | Forced : force = true → sweep = "" → evs = [] →
      fields = [("abandoned_balance_ugnot", JNum (format_int bal))] → funds_safe tr kn sweep force bal evs fields
  | Dust fee : sweep ≠ "" → sweep ≠ kn → is_ok (address_of sweep) = true → c_gasFee c tr = Ok fee → bal ≤ fee →
      evs = [KGasFee] →
      fields = (if 0 <? bal then [("abandoned_balance_ugnot", JNum (format_int bal))] else []) →
      funds_safe tr kn sweep force bal evs fields
  | Moved ev fee : sweep ≠ "" → sweep_send tr kn sweep bal ev → c_gasFee c tr = Ok fee → landed (tr ++ [KGasFee]) ev →
      evs = [KGasFee; ev] →
      (int64 bal → 0 ≤ fee →
       fields = [("swept_ugnot", JNum (format_int (bal - fee))); ("swept_to", JStr sweep)]) →
      funds_safe tr kn sweep force bal evs fields.

(** The transfers of a trace. *)
Definition sends (evs : kd_trace) : kd_trace := omap (λ ev, match ev with KSend _ _ _ => Some ev | _ => None end) evs.

Lemma settle_spec kn sweep force addr bal tr :
  let '(tr', r) := settle kn sweep force addr bal p tr in ∃ evs, tr' = tr ++ evs ∧
    match r with
    | Ok (_, fields) => funds_safe tr kn sweep force bal evs fields
    | Err _ => sends evs = [] ∨ ∃ ev, sends evs = [ev] ∧ sweep ≠ "" ∧ sweep_send tr kn sweep bal ev ∧ ¬ landed (tr ++ [KGasFee]) ev
    end.
Proof.
  unfold settle_funds. destruct (decide (sweep = "")) as [->|Hne].
  - simpl. destruct (0 <? bal) eqn:Eb, force; b2p; simpl; exists []; (split; [by rewrite app_nil_r|]).
    + by apply Forced.
    + auto.
    + by apply NoFunds.
    + by apply NoFunds.
  - rewrite bool_decide_eq_false_2 by done. simpl.
    pose proof (sweep_spec kn sweep bal tr) as H. destruct (sweep_it _ _ _ _ _) as [tr' r]. destruct H as (evs & -> & H).
    exists evs. split; [done|]. destruct H as [evs e [-> | ->]|fee Hk Hok Hf Hle|ev fee Hs Hf Hl|ev e Hs Hl].
    + auto.
    + auto.
    + simpl. destruct (0 <? bal) eqn:Eb; (eapply Dust; eauto; by rewrite Eb).
    + destruct (0 <? _) eqn:Eb; [|destruct (0 <? bal) eqn:Eb2]; b2p;
        (eapply Moved; eauto; intros Hi Hpos);
        destruct Hs as (? & ? & fee' & _ & _ & _ & _ & Hf' & Hlt); rewrite Hf in Hf'; injection Hf' as <-;
        rewrite wrap64_id in * by (unfold int64, minInt64, maxInt64 in *; lia); [done|exfalso; lia|exfalso; lia].
    + right. exists ev. split_and!; try done. by destruct Hs as (sg & to & fee & -> & Hs).
Qed.
End safety.

Section handler.
Context (is_print : Z → bool).
Context {Signer : Type} (SignerFromBip39 : string → string → option Signer) (Info : Signer → option string).
Context (scrypt : string → string → option string) (new_gcm : string → bool).
Context (Open : string → string → string → option string).
Context (ks_text : ks_error → string) (arg_text : arg_error → string).
Context (k : Keystore) (io : IO).

Abbreviation delete_key := (DeleteForProfile SignerFromBip39 Info scrypt new_gcm Open k io).
Abbreviation address_in s pn kn p := (AgentAddress SignerFromBip39 Info scrypt new_gcm Open k io s pn kn p).

Lemma delete_cases s pn kn p : let '(s', r) := delete_key s pn kn p in
  match r with
  | Err _ => s' = s
  | Ok _ => ∃ key, resolveKeyName kn = Ok key ∧ s' = delete (keyPath k pn key) s
  end.
Proof.
  unfold DeleteForProfile. destruct (delete_checks _ _ _ _ _ _ _ _ _ _ _) as [[key addr]|] eqn:E; [|done].
  destruct (io_unlink io); [done|]. destruct (s !! keyPath k pn key); [|done]. exists key. split; [|done].
  unfold delete_checks in E. inv_ok. by injection H4 as <- <-.
Qed.

Lemma resolve_named kn key : kn ≠ "" → resolveKeyName kn = Ok key → key = kn.
Proof.
  unfold resolveKeyName. intros Hne. rewrite bool_decide_eq_false_2 by done. intros H. inv_ok. by injection H0 as <-.
Qed.

Lemma delete_args_ok args srv q : delete_args is_print arg_text args srv = Ok q →
  IsTestnet (q_p q) = true ∧ q_key q ≠ "" ∧ cfg srv !! q_profile q = Some (q_p q) ∧
  BoolArg args "force" = Ok (q_force q) ∧ StringArg args "sweep_to" = Ok (q_sweep q) ∧
  StringArg args "key" = Ok (q_key q).
Proof.
  unfold delete_args, keyArg. intros H. inv_ok. destruct x as [pn p]. simpl in *. b2p.
  apply requireProfile_Ok in H as (_ & _ & Hp). rewrite !arg_err_Ok in *. injection H5 as <-. split_and!; done.
Qed.

(** What a key deletion may leave, over the file system [s] and the trace [tr]. *)
Definition deleted_safely (args : Args) (srv : Server) (resolver : string → option Client) tr evs (s s' : fs) (res : Result) : Prop :=
  ∃ q c addr bal rest fields,
    delete_args is_print arg_text args srv = Ok q ∧ q_key q ≠ "" ∧ IsTestnet (q_p q) = true ∧
    resolver (q_profile q) = Some c ∧ address_in s (q_profile q) (q_key q) (q_p q) = Ok addr ∧
    c_balance c tr addr = Ok bal ∧ evs = KBalance addr :: rest ∧
    funds_safe SignerFromBip39 Info scrypt new_gcm Open k io s c (q_profile q) (q_p q)
      (tr ++ [KBalance addr]) (q_key q) (q_sweep q) (q_force q) bal rest fields ∧
    StructuredContent res = ("deleted_key", JStr (q_key q)) :: ("deleted_address", JStr addr) :: fields ∧
    s' = delete (keyPath k (q_profile q) (q_key q)) s.

(** C27: gno_key_delete strands no funds.  It answers a result only after
    removing the file of the one testnet key it was told to delete, and then
    that key held nothing; or the caller forced it, and the result states the
    abandoned balance; or a sweep to another existing key was asked for, and
    either a transfer of everything but the chain's own gas fee to that key's
    address has landed, or the balance could not pay for one, which the result
    states too.  Whenever it answers an error, every key is still there; it
    makes at most one transfer, from the key to another one and only for a sweep. *)
Theorem keyDeleteHandler_strands_nothing args srv resolver tr s :
  let '(tr', s', r) := keyDeleteHandler is_print SignerFromBip39 Info scrypt new_gcm Open ks_text arg_text k args srv resolver io tr s in
  ∃ evs, tr' = tr ++ evs ∧
  match r with
  | Ok res => deleted_safely args srv resolver tr evs s s' res
  | Err _ => s' = s ∧ (sends evs = [] ∨ ∃ q c ev t, sends evs = [ev] ∧ q_sweep q ≠ "" ∧
      delete_args is_print arg_text args srv = Ok q ∧ resolver (q_profile q) = Some c ∧
      ∃ bal, sweep_send SignerFromBip39 Info scrypt new_gcm Open k io s c (q_profile q) (q_p q) t (q_key q) (q_sweep q) bal ev)
  end.
Proof.
  unfold keyDeleteHandler. destruct (delete_args is_print arg_text args srv) as [q|e] eqn:Eq.
  2: { exists []. rewrite app_nil_r. auto. }
  destruct (delete_args_ok _ _ _ Eq) as (Ht & Hk & _). destruct q as [pn p kn force sweep]. simpl in Ht, Hk.
  destruct (AgentAddress _ _ _ _ _ _ _ _ _ _ _) as [addr|e] eqn:Ea.
  2: { exists []. rewrite app_nil_r. auto. }
  destruct (resolver pn) as [c|] eqn:Ec.
  2: { exists []. rewrite app_nil_r. auto. }
  destruct (c_balance c tr addr) as [bal|] eqn:Eb.
  2: { exists [KBalance addr]. auto. }
  pose proof (settle_spec is_print SignerFromBip39 Info scrypt new_gcm Open ks_text k io s c pn p kn sweep force addr bal
    (tr ++ [KBalance addr])) as H.
  destruct (settle_funds _ _ _ _ _ _ _ _ _ _ _ _ _ _ _ _ _ _ _) as [tr' r]. destruct H as (evs & -> & H).
  destruct r as [[text fields]|e]; cycle 1.
  { exists (KBalance addr :: evs). split; [by rewrite <- app_assoc|]. split; [done|].
    destruct H as [H|(ev & H & Hne & Hs & _)]; [by left|right].
    exists (mkRequest pn p kn force sweep), c, ev, (tr ++ [KBalance addr]). split_and!; try done. by exists bal. }
  pose proof (delete_cases s pn kn p) as Hd. destruct (DeleteForProfile _ _ _ _ _ _ _ _ _ _ _) as [s' r].
  exists (KBalance addr :: evs). split; [by rewrite <- app_assoc|]. destruct r as [a|e]; cycle 1.
  - split; [done|]. destruct H as [_ -> _ _|_ _ -> _|fee _ _ _ _ _ -> _|ev fee Hs1 Hs _ _ -> _]; [by left..|right].
    exists (mkRequest pn p kn force sweep), c, ev, (tr ++ [KBalance addr]). split_and!; try done; [|by exists bal].
    by destruct Hs as (? & ? & ? & -> & _).
  - destruct Hd as (key & Hr & ->). apply resolve_named in Hr as ->; [|done].
    exists (mkRequest pn p kn force sweep), c, addr, bal, evs, fields. split_and!; done.
Qed.
End handler.

(** ** A run *)

Definition toy_kd_keys : fs := <["/keys/p/main.key" := File 384 (String schemeScrypt ("saltsaltsaltsalt" +:+ "noncenonceno" +:+ toy_tag +:+ "other"))]> toy_keys.
Definition toy_kd_client : Client (Signer := string) := mkClient (λ _ _, Ok 5000) (λ _, Ok 1000) (λ _ _ _ _, None).
Definition toy_kd_server : Server := NewServer {["p" := toy_profile]} "".
Definition toy_kd_run (args : Args) : list (kd_event (Signer := string)) * option node * bool :=
  let '(tr, s', r) := keyDeleteHandler (λ _, true) toy_from_bip39 toy_info toy_scrypt (λ _, true) toy_open
    (λ _, "keystore error") (λ _, "argument error") toy_keystore args toy_kd_server (λ _, Some toy_kd_client) toy_io [] toy_kd_keys in
  (tr, s' !! demo_path, is_ok r).

(** A funded key is refused, and swept when asked to. *)
Example toy_kd_refused :
  toy_kd_run {["profile" := JStr "p"; "key" := JStr "default"]} =
  ([KBalance "g1words@test5"], Some (File 384 toy_blob), false).
Proof. vm_compute. reflexivity. Qed.

Example toy_kd_swept :
  toy_kd_run {["profile" := JStr "p"; "key" := JStr "default"; "sweep_to" := JStr "main"]} =
  ([KBalance "g1words@test5"; KGasFee; KSend "words@test5" "g1other@test5" 4000], None, true).
Proof. vm_compute. reflexivity. Qed.
