(* ===== verification/Parked.v ===== *)
(** * Parked packages

    [internal/tools/parked/parked.go]: a failed read or call on a path that
    holds a parked submission says so. *)
From S2P Require Import Prelude GoText ChainTypes ChainClient ServerCore Handlers.
From stdpp Require Import prelude strings gmap list.
From Stdlib Require Import ZArith Ascii String.

Definition Code : string := "package_parked".

Definition NextSteps : string :=
  "If it is still parked a minute after its deploy, the chain's package approver is not going to enable it: " +:+
  "lint it against the chain's release (a package that fails the type check is never enabled), " +:+
  "check the deploying key can pay the storage deposit, " +:+
  "then redeploy it to the same path with the same key.".

Definition explanation (path reason : string) : string :=
  path +:+ " is parked, not live: the chain accepted its deploy and has not enabled it ([untrusted chain reason] " +:+ reason +:+ "). " +:+
  "Until it is enabled, every read and call answers it like a package that was never deployed." +:+ NL +:+ NL +:+
  "For its deployer: " +:+ NextSteps +:+ NL +:+ NL +:+ "Original error: ".

(** [Explain] on a non-nil error; [meta] is the client's [PackageMeta]. *)
Definition Explain (meta : trace → string → res string PackageMeta) (path : string) (err : tool_err) (tr : trace) : trace * tool_err :=
  match err with
  | ToolError _ _ _ => (tr, err)
  | PlainError text =>
      (tr ++ [EfMeta path],
       match meta tr path with
       | Err _ => err
       | Ok m =>
           if negb (bool_decide (Status m = PackageInert)) then err
           else ToolError Code (explanation path (Reason m) +:+ text) {["path" := JStr path; "reason" := JStr (Reason m)]}
       end)
  end.

(** An explanation never hides the failure: an error stays an error, the
    original text is kept, and a typed error passes untouched and unasked. *)
Lemma Explain_keeps meta path err tr :
  let '(tr', err') := Explain meta path err tr in
  (err' = err ∧ (tr' = tr ∨ tr' = tr ++ [EfMeta path])) ∨
  ∃ text m pre extra, err = PlainError text ∧ meta tr path = Ok m ∧ Status m = PackageInert ∧
    tr' = tr ++ [EfMeta path] ∧ err' = ToolError Code (pre +:+ text) extra.
Proof.
  unfold Explain. destruct err as [? ? ?|text]; [by left; auto|]. destruct (meta tr path) as [m|] eqn:Em; [|by left; auto].
  destruct (decide (Status m = PackageInert)) as [E|E].
  - rewrite bool_decide_eq_true_2 by done. right. exists text, m, (explanation path (Reason m)). eexists. auto 10.
  - rewrite bool_decide_eq_false_2 by done. by left; auto.
Qed.
