(* ===== verification/AddPkg.v ===== *)
(** * Deploying packages

    [internal/tools/write/addpkg.go] and [clahint.go]: gno_addpkg, which reads
    the chain's code-submission policy, simulates before it broadcasts, and on
    a chain that parks deploys waits for the package to be enabled. *)
From S2P Require Import Prelude GoText GoTime Untrusted Profiles ChainTypes ChainClient Keystore ServerCore Handlers Parked WriteTools.
From stdpp Require Import prelude strings gmap list.
From Stdlib Require Import ZArith Lia Ascii String.
Local Open Scope Z_scope.

(** ** Contributor agreement hint ([clahint.go]) *)

Definition claRealm : string := "gno.land/r/sys/cla".
Definition claUnsignedLog : string := "has not signed the required CLA".
Definition claHint : string :=
  "This chain enforces a Contributor License Agreement (gno.land/r/sys/cla) that the signing key has not accepted." +:+ NL +:+
  "Clear it, then retry the deploy:" +:+ NL +:+
  "  1. Call gno_cla_info to fetch the required hash and the CLA document URL." +:+ NL +:+
  "  2. Show the URL to the user and get their explicit confirmation." +:+ NL +:+
  "  3. Call gno_cla_sign with that hash, using the same key that deploys.".

(** An error of the chain client: its text, the [%+v] of every node of its
    chain, and whether it is a [vm.UnauthorizedUserError]. *)
Record go_error := mkGoErr { ge_text : string; ge_nodes : list string; ge_unauthorized : bool }.

(** [fmt.Errorf(prefix + ": %w", err)] *)
Definition wrap_error (prefix : string) (e : go_error) : go_error :=
  let text := prefix +:+ ": " +:+ ge_text e in mkGoErr text (text :: ge_nodes e) (ge_unauthorized e).

Definition mentionsCLA (e : go_error) : bool := existsb (λ n, contains n claUnsignedLog) (ge_nodes e).

Definition withCLAHint (e : go_error) : tool_err :=
  if negb (ge_unauthorized e) || negb (mentionsCLA e) then PlainError (ge_text e)
  else ToolError "cla_unsigned" (ge_text e +:+ NL +:+ NL +:+ claHint)
         (extra2 "sign_realm" claRealm "sign_tool" "gno_cla_sign").

(** ** Files *)

Definition gnomod : string := "gnomod.toml".

Definition obj_get (l : list (string * json)) (k : string) : option json :=
  snd <$> List.find (λ kv, bool_decide (kv.1 = k)) l.

Definition mem_file (i : nat) (elem : json) : res string MemFile :=
  let at_ := "[" +:+ format_int (Z.of_nat i) +:+ "]" in
  match elem with
  | JObj m =>
      match obj_get m "name" with
      | Some (JStr name) =>
          match obj_get m "body" with
          | Some (JStr body) => Ok (mkFile name body)
          | _ => Err (at_ +:+ ".body: expected string")
          end
      | _ => Err (at_ +:+ ".name: expected string")
      end
  | _ => Err (at_ +:+ ": expected object")
  end.

Fixpoint mem_files (i : nat) (l : list json) : res string (list MemFile) :=
  match l with
  | [] => Ok []
  | e :: l => f ← mem_file i e; fs ← mem_files (S i) l; mret (f :: fs)
  end.

(** The type names of [%T] are left out of the messages. *)
Definition toMemFiles (raw : option json) : res string (list MemFile) :=
  match raw with
  | None | Some JNull => Err "required: provide at least one file"
  | Some (JArr []) => Err "required: provide at least one file"
  | Some (JArr l) => mem_files 0 l
  | Some _ => Err "expected array"
  end.

Definition hasGnoMod (files : list MemFile) : bool := existsb (λ f, bool_decide (FileName f = gnomod)) files.

(** The regenerated body of the first gnomod.toml. *)
Fixpoint set_gnomod (body : string) (files : list MemFile) : list MemFile :=
  match files with
  | [] => []
  | f :: fs => if bool_decide (FileName f = gnomod) then mkFile gnomod body :: fs else f :: set_gnomod body fs
  end.

(** ** Deploy status *)

Definition SubmissionPolicyInert : string := "inert".
Definition packageStatusRedeployParked : string := "redeploy_parked".
Definition packageStatusUnknown : string := "unknown".

Definition deployStatus (m : res string PackageMeta) : string :=
  match m with
  | Err _ => packageStatusUnknown
  | Ok m =>
      if Live m then PackageLive
      else if bool_decide (Status m = PackageInert) then PackageInert
      else if bool_decide (Status m = PackageLive) && Pending m then packageStatusRedeployParked
      else packageStatusUnknown
  end.

Record parkWait := mkWait { w_timeout : Duration; w_interval : Duration }.

Definition parkWaitDefault : parkWait := mkWait (30 * Second) (2 * Second).

Section addpkg.
Context (is_print : Z → bool) (ks_text : ks_error → string) (arg_text : arg_error → string).
Context (url_parse : string → option URL) (ParseIP : string → option IPKind).
(** [gnolang.GenGnoModLatest] *)
Context (GenGnoModLatest : string → string).
(** [ks.SignerForProfile], and [signer.Info]. *)
Context {Signer : Type} (signer_for : string → string → Profile → res ks_error Signer) (info : Signer → res string string).

(** The chain client, the clock and the call's context, as functions of the
    effects so far. *)
Record Chain := mkChain {
  c_policy : trace → res string string;
  c_balance : trace → string → res string Z;
  c_addpkg : trace → Signer → string → list MemFile → bool → res go_error TxResult;
  c_meta : trace → string → res string PackageMeta;
  c_now : trace → Time;
  c_done : trace → bool;
}.

(** ** Waiting *)

Definition settle (last : option PackageMeta) (lastErr : string) : res string PackageMeta :=
  match last with Some m => Ok m | None => Err lastErr end.

(** The polling loop; [None] when the fuel runs out.  The context is looked at
    after the sleep it may have cut short. *)
Fixpoint wait_loop (c : Chain) (fuel : nat) (path : string) (w : parkWait) (deadline : Time) (last : option PackageMeta)
    (lastErr : string) : tool (option (res string PackageMeta)) :=
  match fuel with
  | O => mret None
  | S fuel =>
      m ← ask (EfMeta path) (λ tr, c_meta c tr path);
      let last := match m with Ok m => Some m | Err _ => last end in
      let lastErr := match m with Ok _ => lastErr | Err e => e end in
      if match m with Ok m => Live m | Err _ => false end then mret (Some (settle last lastErr))
      else
        left ← look (λ tr, time_sub deadline (c_now c tr));
        if left <=? 0 then mret (Some (settle last lastErr))
        else
          _ ← ask (EfSleep (Z.min (w_interval w) left)) (λ _, tt);
          cancelled ← look (c_done c);
          if (cancelled : bool) then mret (Some (settle last lastErr))
          else wait_loop c fuel path w deadline last lastErr
  end.

(** One poll, and one more for every interval the timeout spans. *)
Definition wait_fuel (w : parkWait) : nat := S (Z.to_nat ((w_timeout w + w_interval w - 1) / w_interval w)).

Definition waitLive (c : Chain) (path : string) (w : parkWait) : tool (option (res string PackageMeta)) :=
  start ← look (c_now c);
  wait_loop c (wait_fuel w) path w (time_add start (w_timeout w)) None "".

(** ** The handler *)

Definition format_bool (b : bool) : string := if b then "true" else "false".

Definition writeReason (reason path : string) : string :=
  if bool_decide (reason = "") then "" else "Reason:" +:+ NL +:+ Wrap is_print reason "package_reason" path +:+ NL.

Definition addpkg_summary (path : string) (files : list MemFile) (simulate : bool) : string :=
  "deploy_path=" +:+ path +:+ " files=" +:+ format_int (Z.of_nat (List.length files)) +:+ " simulate=" +:+ format_bool simulate.

Record addpkg_request := mkAddPkg { ap_profile : string; ap_p : Profile; ap_key : string; ap_path : string; ap_simulate : bool; ap_files : list MemFile }.

(** A short name has no slash. *)
Definition short_name (path : string) : bool := negb (contains path "/").

Definition addpkg_args (args : Args) (srv : Server) (profileName : string) (p : Profile) : res tool_err addpkg_request :=
  keyName ← keyArg arg_text args;
  deployPath ← arg_err arg_text (StringArg args "deploy_path");
  _ ← check (negb (bool_decide (deployPath = ""))) (PlainError "deploy_path: required");
  simulate ← arg_err arg_text (BoolArg args "simulate");
  files ← map_err (λ e, PlainError ("files: " +:+ e)) (toMemFiles (args !! "files"));
  _ ← check (negb (short_name deployPath && hasGnoMod files))
        (PlainError ("deploy_path " +:+ quote is_print deployPath +:+
          ": a short package name cannot be combined with a caller-supplied gnomod.toml — pass the full package path, or omit gnomod.toml to have it generated"));
  mret (mkAddPkg profileName p keyName deployPath simulate files).

(** With gnomod.toml injected, and sorted by name (files of the same name keep
    their order here; the source's sort promises none). *)
Definition with_gnomod (path : string) (files : list MemFile) : list MemFile :=
  sort_by FileName (if hasGnoMod files then files else files ++ [mkFile gnomod (GenGnoModLatest path)]).

(** The path and the files that are deployed. *)
Definition deployed (addr path : string) (files : list MemFile) : string * list MemFile :=
  let sorted := with_gnomod path files in
  if short_name path then
    let path := "gno.land/r/" +:+ addr +:+ "/" +:+ path in (path, set_gnomod (GenGnoModLatest path) sorted)
  else (path, sorted).

Definition audit_of (simulate : bool) (status : string) : string :=
  if simulate then "sim"
  else if bool_decide (status = PackageInert) || bool_decide (status = packageStatusRedeployParked) then "parked"
  else if bool_decide (status = packageStatusUnknown) then "status_unknown"
  else "ok".

(** What the result says after its facts: the text and the next steps. *)
Definition status_note (inert : bool) (status : string) (m : PackageMeta) (path : string) (w : parkWait) : string * string :=
  if bool_decide (status = PackageLive) then
    ((if inert then "Package: live, enabled by the chain's package approver" else "Package: live") +:+ NL, "")
  else if bool_decide (status = PackageInert) then
    let steps := NextSteps +:+ " Until it is enabled, every read and call answers it like a package that was never deployed; " +:+
                 "gno_read on the path reports package_parked while it waits." in
    ("Package: parked. The chain accepted the deploy and had not enabled it after " +:+ format_duration (w_timeout w) +:+ "." +:+ NL +:+
     writeReason (Reason m) path +:+ steps +:+ NL, steps)
  else if bool_decide (status = packageStatusRedeployParked) then
    let steps := "Reads and calls still reach the previous version. A reason saying this submission can never be enabled is final. " +:+ NextSteps in
    ("Package: the chain accepted this redeploy and had not enabled it after " +:+ format_duration (w_timeout w) +:+ "." +:+ NL +:+
     writeReason (Reason m) path +:+ steps +:+ NL, steps)
  else if bool_decide (status = packageStatusUnknown) then
    let steps := "The chain did not report the package as live or parked; this chain parks deploys " +:+
                 "until an approver enables them, so read the path with gno_read before calling it." in
    ("Package: status unknown. " +:+ steps +:+ NL, steps)
  else ("", "").

Definition headline (simulated : bool) (status : string) : string :=
  if simulated then "AddPackage simulated (no broadcast)"
  else if bool_decide (status = PackageInert) then "AddPackage submitted: PARKED, not live"
  else if bool_decide (status = packageStatusRedeployParked) then "AddPackage submitted: redeploy PARKED; the previous version is still live"
  else if bool_decide (status = packageStatusUnknown) then "AddPackage submitted: status unknown"
  else "AddPackage succeeded".

Definition simulate_note (simulate inert : bool) : string * string :=
  if negb simulate then ("", "")
  else
    let steps := "This chain parks deploys (code submission policy inert) without type-checking them, " +:+
                 "so this simulation did not type-check the code: lint it against the chain's release before deploying." in
    ("(simulate=true — transaction was not broadcast)" +:+ NL +:+ (if inert then steps +:+ NL else ""),
     if inert then steps else "").

Definition opt_field (b : bool) (k : string) (v : json) : list (string * json) := if b then [(k, v)] else [].

Definition addpkg_result (p : Profile) (addr path policy status : string) (m : PackageMeta) (simulate : bool) (res : TxResult)
    (w : parkWait) : Result :=
  let inert := bool_decide (policy = SubmissionPolicyInert) in
  let '(sim_text, sim_steps) := simulate_note simulate inert in
  let '(note, note_steps) := status_note inert status m path w in
  let nextSteps := if bool_decide (note_steps = "") then sim_steps else note_steps in
  let viewURL := if bool_decide (status = PackageLive) then RealmViewURL url_parse ParseIP p path else "" in
  let text :=
    signedByLine "agent" addr "" (IsLocal p) +:+ NL +:+ NL +:+ headline (Simulated res) status +:+ NL +:+
    (if Simulated res then "" else "TxHash:  " +:+ TxHash res +:+ NL +:+ "Height:  " +:+ format_int (Height res) +:+ NL) +:+
    "GasUsed: " +:+ format_int (GasUsed res) +:+ NL +:+ sim_text +:+ note +:+
    (if bool_decide (viewURL = "") then "" else "View:    " +:+ viewURL +:+ NL) in
  let sc :=
    [("identity", JStr "agent"); ("signer_address", JStr addr); ("tx_hash", JStr (TxHash res)); ("height", JNum (format_int (Height res)));
     ("gas_used", JNum (format_int (GasUsed res))); ("simulated", JBool (Simulated res))]
    ++ opt_field (negb (bool_decide (viewURL = ""))) "gnoweb_url" (JStr viewURL)
    ++ opt_field inert "code_submission_policy" (JStr policy)
    ++ opt_field (negb (bool_decide (status = ""))) "package_status" (JStr status)
    ++ opt_field (negb (bool_decide (Reason m = "")) &&
                  (bool_decide (status = PackageInert) || bool_decide (status = packageStatusRedeployParked))) "package_reason" (JStr (Reason m))
    ++ opt_field (negb (bool_decide (nextSteps = ""))) "next_steps" (JStr nextSteps) in
  attachGnokeyCmd (mkResult text "" "" "" sc)
    (cmd_String (mkCmd "addpkg" path "" [] "" "" "" (format_int DefaultMaxDepositUgnot +:+ "ugnot") (RPCURL p) (ChainID p) addr "" simulate
       (ChainTypes.GasFee res) (GasWanted res))).

Definition no_meta : PackageMeta := mkMeta "" "" false.

(** The status of a landed deploy, and the chain's last word on it. *)
Definition landed_status (c : Chain) (w : parkWait) (path : string) (inert : bool) (res : TxResult) : tool (string * PackageMeta) :=
  if Simulated res then mret ("", no_meta)
  else if inert then
    r ← waitLive c path w;
    let m := default (Err "") r in
    mret (deployStatus m, match m with Ok m => m | Err _ => no_meta end)
  else mret (PackageLive, no_meta).

(** Validation, the deploy and the wait, once the signer is known. *)
Definition deploy (c : Chain) (w : parkWait) (q : addpkg_request) (policy : string) (signer : Signer) (addr : string) : tool Result :=
  let simulate := ap_simulate q in
  let '(path, files) := deployed addr (ap_path q) (ap_files q) in
  _ ← (if short_name (ap_path q) then set_args (addpkg_summary path files simulate) else mret tt);
  _ ← (if simulate then mret tt
       else
         v ← ask (EfAddPkg addr path files true) (λ tr, c_addpkg c tr signer path files true);
         match v with
         | Ok _ => mret tt
         | Err e => _ ← set_result "validate_err"; stop (withCLAHint (wrap_error "gno_addpkg validation (no gas spent)" e))
         end);
  r ← ask (EfAddPkg addr path files simulate) (λ tr, c_addpkg c tr signer path files simulate);
  match r with
  | Err e =>
      _ ← set_result (if simulate then "sim_err" else "broadcast_err");
      stop (withCLAHint (wrap_error (if simulate then "gno_addpkg simulate" else "gno_addpkg broadcast") e))
  | Ok res =>
      sm ← landed_status c w path (bool_decide (policy = SubmissionPolicyInert)) res;
      _ ← set_result (audit_of simulate sm.1);
      mret (addpkg_result (ap_p q) addr path policy sm.1 sm.2 simulate res w)
  end.

Definition addpkgHandler (args : Args) (srv : Server) (resolver : string → option Chain) (w : parkWait) : tool Result :=
  np ← of_res (requireProfile is_print arg_text args srv);
  _ ← set_profile np.1;
  q ← of_res (addpkg_args args srv np.1 np.2);
  c ← of_res (ok_or (PlainError ("profile " +:+ quote is_print (ap_profile q) +:+ ": no chain client available")) (resolver (ap_profile q)));
  _ ← set_args (addpkg_summary (ap_path q) (with_gnomod (ap_path q) (ap_files q)) (ap_simulate q));
  policy ← ask EfPolicy (c_policy c);
  policy ← of_res (map_err (λ e, PlainError ("gno_addpkg: read the chain's code submission policy (nothing signed): " +:+ e)) policy);
  sa ← on_trace (acquireAgentSigner is_print ks_text (c_balance c) "gno_addpkg" "run gno_key_generate to create one" (ap_profile q)
                   (signer_for (ap_profile q) (ap_key q) (ap_p q)) info (ap_p q) (ap_simulate q));
  deploy c w q policy sa.1 sa.2.
End addpkg.

(** ** The wait ends, with the chain's last word *)

Section waiting.
Context {Signer : Type} (c : Chain (Signer := Signer)) (path : string) (w : parkWait).

(** What the chain answered to the polls of [evs], from [tr] on. *)
Fixpoint poll_answers (tr evs : trace) : list (res string PackageMeta) :=
  match evs with
  | [] => []
  | e :: evs => (if bool_decide (e = EfMeta path) then [c_meta c tr path] else []) ++ poll_answers (tr ++ [e]) evs
  end.

(** The last status among the answers, and failing that the last error. *)
Fixpoint verdict (prev : option PackageMeta) (prevErr : string) (l : list (res string PackageMeta)) : res string PackageMeta :=
  match l with
  | [] => settle prev prevErr
  | Ok m :: l => verdict (Some m) prevErr l
  | Err e :: l => verdict prev e l
  end.

Definition live_answer (a : res string PackageMeta) : bool := match a with Ok m => Live m | Err _ => false end.

(** A poll, or a sleep of at most the interval. *)
Definition wait_event (e : effect) : Prop := e = EfMeta path ∨ ∃ d, e = EfSleep d ∧ 0 < d ≤ w_interval w.

(** The wait from [tr] did [evs] and answered [out]. *)
Record waited (deadline : Time) (prev : option PackageMeta) (prevErr : string) (tr evs : trace) (out : res string PackageMeta) : Prop := {
  waited_events : Forall wait_event evs;
  waited_out : out = verdict prev prevErr (poll_answers tr evs);
  waited_stop : ∃ a, last (poll_answers tr evs) = Some a ∧
    (live_answer a = true ∨ c_done c (tr ++ evs) = true ∨ deadline ≤ c_now c (tr ++ evs));
  waited_first : ∀ i a, poll_answers tr evs !! i = Some a → live_answer a = true → S i = List.length (poll_answers tr evs);
  waited_last : c_done c (tr ++ evs) = true ∨ ∃ evs', evs = evs' ++ [EfMeta path];
}.

Lemma poll_cons tr e evs : poll_answers tr (e :: evs) =
  (if bool_decide (e = EfMeta path) then [c_meta c tr path] else []) ++ poll_answers (tr ++ [e]) evs.
Proof. done. Qed.

Lemma time_sub_left t u : (time_sub t u ≤ 0 → t ≤ u) ∧
  (0 < time_sub t u → ∀ i, i ≤ maxInt64 → Z.min i (t - u) ≤ Z.min i (time_sub t u) ∧ u < t).
Proof. unfold time_sub. split; intros H; [|intros i Hi]; repeat case_match; b2p; unfold minInt64, maxInt64 in *; lia. Qed.

(** The loop's own exits after a poll. *)
Lemma waited_now deadline prev prevErr tr : let a := c_meta c tr path in
  live_answer a = true ∨ deadline ≤ c_now c (tr ++ [EfMeta path]) →
  waited deadline prev prevErr tr [EfMeta path]
    (settle (match a with Ok m => Some m | Err _ => prev end) (match a with Ok _ => prevErr | Err e => e end)).
Proof.
  intros a Ha. assert (Hp : poll_answers tr [EfMeta path] = [a]) by (simpl; by rewrite bool_decide_eq_true_2).
  constructor; rewrite ?Hp.
  - constructor; [by left|constructor].
  - simpl. by destruct a.
  - exists a. split; [done|]. destruct Ha; auto.
  - intros [|i] b H; [done|]. by destruct i.
  - right. by exists [].
Qed.

(** A poll that settled nothing, and the sleep after it. *)
Lemma poll_sleep tr d evs : poll_answers tr (EfMeta path :: EfSleep d :: evs) =
  c_meta c tr path :: poll_answers (tr ++ [EfMeta path] ++ [EfSleep d]) evs.
Proof. rewrite !poll_cons, bool_decide_eq_true_2, bool_decide_eq_false_2 by done. simpl. by rewrite <- app_assoc. Qed.

Lemma waited_cancelled deadline prev prevErr tr d : let a := c_meta c tr path in
  0 < d ≤ w_interval w → c_done c ((tr ++ [EfMeta path]) ++ [EfSleep d]) = true →
  waited deadline prev prevErr tr [EfMeta path; EfSleep d]
    (settle (match a with Ok m => Some m | Err _ => prev end) (match a with Ok _ => prevErr | Err e => e end)).
Proof.
  intros a Hd Hc. constructor; rewrite ?poll_sleep.
  - constructor; [by left|]. constructor; [right; eauto|constructor].
  - simpl. fold a. by destruct a.
  - exists a. split; [done|]. right; left. by rewrite <- app_assoc in Hc.
  - intros [|i] b H; [done|]. by destruct i.
  - left. by rewrite <- app_assoc in Hc.
Qed.

Lemma waited_again deadline prev prevErr tr d evs out : let a := c_meta c tr path in
  0 < d ≤ w_interval w → live_answer a = false →
  waited deadline (match a with Ok m => Some m | Err _ => prev end) (match a with Ok _ => prevErr | Err e => e end)
    ((tr ++ [EfMeta path]) ++ [EfSleep d]) evs out →
  waited deadline prev prevErr tr (EfMeta path :: EfSleep d :: evs) out.
Proof.
  intros a Hd Ha. rewrite <- app_assoc. intros [He Ho (b & Hb & Hs) Hf Hl']. constructor; rewrite ?poll_sleep.
  - constructor; [by left|]. constructor; [right; eauto|done].
  - rewrite Ho. simpl. fold a. by destruct a.
  - exists b. split.
    + destruct (poll_answers _ evs); [done|]. exact Hb.
    + by rewrite <- !app_assoc in Hs.
  - intros [|i] x Hx Hl; simpl in *; [|by rewrite (Hf i x Hx Hl)]. injection Hx as <-. unfold a in Ha. by rewrite Hl in Ha.
  - rewrite <- !app_assoc in Hl'. destruct Hl' as [Hl'|[evs' ->]]; [by left|right]. by exists (EfMeta path :: EfSleep d :: evs').
Qed.

Lemma wait_loop_waits `{!Clock (c_now c) (c_done c)} fuel deadline prev prevErr st :
  0 < w_interval w ≤ maxInt64 → deadline ≤ c_now c (hist st) + Z.of_nat fuel * w_interval w →
  wp (wait_loop c (S fuel) path w deadline prev prevErr) (λ st' r, ∃ evs out,
    r = Ok (Some out) ∧ hist st' = hist st ++ evs ∧ cell st' = cell st ∧
    waited deadline prev prevErr (hist st) evs out ∧ (List.length (poll_answers (hist st) evs) ≤ S fuel)%nat) st.
Proof.
  intros Hw. revert prev prevErr st. induction fuel as [|fuel IH]; intros prev prevErr st Hd;
    cbn [wait_loop]; repeat wp_step.
  all: pose proof (clock_mono (now := c_now c) (hist st) [EfMeta path]) as Hm.
  all: destruct (match c_meta c (hist st) path with Ok m => Live m | Err _ => false end) eqn:Hl.
  all: try (wp_step; eexists [EfMeta path], _; split_and!;
            [done|done|done|apply waited_now; by left|simpl; rewrite bool_decide_eq_true_2 by done; simpl; lia]).
  all: repeat wp_step; destruct (time_sub_left deadline (c_now c (hist st ++ [EfMeta path]))) as [Hle Hpos].
  all: destruct (time_sub deadline (c_now c (hist st ++ [EfMeta path])) <=? 0) eqn:El; b2p;
       [wp_step; eexists [EfMeta path], _; split_and!;
        [done|done|done|apply waited_now; right; by apply Hle|simpl; rewrite bool_decide_eq_true_2 by done; simpl; lia]|].
  all: destruct (Hpos ltac:(lia) (w_interval w) ltac:(lia)) as [Hmin Hlt].
  - exfalso. lia.
  - repeat wp_step. set (d := Z.min _ _).
    assert (Hd' : 0 < d ≤ w_interval w) by (unfold d; lia).
    destruct (c_done c ((hist st ++ [EfMeta path]) ++ [EfSleep d])) eqn:Edone.
    + wp_step. eexists [EfMeta path; EfSleep d], _. split_and!;
        [done|by rewrite <- app_assoc|done|by apply waited_cancelled|rewrite poll_sleep; simpl; lia].
    + pose proof (clock_sleep (now := c_now c) _ d Edone) as Hs. eapply wp_mono; [apply IH; simpl; unfold d in *; lia|].
      simpl. intros st' r (evs & out & -> & Hh & Hcell & Hwait & Hlen).
      exists (EfMeta path :: EfSleep d :: evs), out. split_and!; [done| |done|by apply waited_again|].
      * rewrite Hh, <- !app_assoc. done.
      * rewrite poll_sleep, app_assoc. cbn [List.length]. lia.
Qed.
End waiting.

Lemma wait_fuel_enough w : 0 < w_interval w →
  w_timeout w ≤ Z.of_nat (Z.to_nat ((w_timeout w + w_interval w - 1) / w_interval w)) * w_interval w.
Proof.
  intros Hi. set (q := (w_timeout w + w_interval w - 1) / w_interval w).
  assert (Hq : w_timeout w ≤ q * w_interval w).
  { unfold q. pose proof (Z.mod_pos_bound (w_timeout w + w_interval w - 1) (w_interval w) Hi).
    pose proof (Z.div_mod (w_timeout w + w_interval w - 1) (w_interval w) ltac:(lia)). nia. }
  destruct (decide (0 ≤ q)); [rewrite Z2Nat.id by lia; lia|].
  replace (Z.to_nat q) with 0%nat by lia. nia.
Qed.

Lemma waitLive_waits {Signer} (c : Chain (Signer := Signer)) `{!Clock (c_now c) (c_done c)} path w st : 0 < w_interval w ≤ maxInt64 →
  wp (waitLive c path w) (λ st' r, ∃ evs out,
    r = Ok (Some out) ∧ hist st' = hist st ++ evs ∧ cell st' = cell st ∧
    waited c path w (c_now c (hist st) + w_timeout w) None "" (hist st) evs out ∧
    (List.length (poll_answers c path (hist st) evs) ≤ wait_fuel w)%nat) st.
Proof.
  intros Hw. unfold waitLive. repeat wp_step. apply wait_loop_waits; [done..|].
  pose proof (wait_fuel_enough w (proj1 Hw)). unfold time_add. lia.
Qed.

Lemma verdict_live l pm pe a : last l = Some a → live_answer a = true → live_answer (verdict pm pe l) = true.
Proof.
  revert pm pe. induction l as [|b l IH]; intros pm pe Ha Hl; [done|].
  destruct l as [|b' l]; [|destruct b; by apply IH]. injection Ha as ->. by destruct a.
Qed.

Lemma verdict_Some l m pe : is_ok (verdict (Some m) pe l) = true.
Proof. revert m pe. induction l as [|[m'|e] l IH]; intros m pe; simpl; auto. Qed.

Lemma verdict_Err l pe : is_ok (verdict None pe l) = false → Forall (λ a, is_ok a = false) l.
Proof.
  revert pe. induction l as [|[m|e] l IH]; intros pe H; simpl in H; [done| |constructor; [done|by eapply IH]].
  by rewrite verdict_Some in H.
Qed.

(** ** Honest deploys *)

Section honest.
Context (is_print : Z → bool) (ks_text : ks_error → string) (arg_text : arg_error → string).
Context (url_parse : string → option URL) (ParseIP : string → option IPKind) (GenGnoModLatest : string → string).
Context {Signer : Type} (signer_for : string → string → Profile → res ks_error Signer) (info : Signer → res string string).
Context (w : parkWait).

Abbreviation Chain := (Chain (Signer := Signer)).
Abbreviation handler := (addpkgHandler is_print ks_text arg_text url_parse ParseIP GenGnoModLatest signer_for info).
Abbreviation deployed_as := (deployed GenGnoModLatest).

Definition is_deploy (e : effect) : bool := match e with EfAddPkg _ _ _ _ => true | _ => false end.

(** Whether [status] is the truth about a deploy that answered [res]: nothing
    of a simulation, live where the chain runs what it accepts, and otherwise
    what the polls [evs] made of it. *)
Inductive status_true (c : Chain) (path policy : string) (res : TxResult) (tr evs : trace) : string → Prop :=
  | TrueSimulated : Simulated res = true → evs = [] → status_true c path policy res tr evs ""
  | TrueLive : Simulated res = false → policy ≠ SubmissionPolicyInert → evs = [] →
      status_true c path policy res tr evs PackageLive
  | TrueWaited out : Simulated res = false → policy = SubmissionPolicyInert →
      waited c path w (c_now c tr + w_timeout w) None "" tr evs out →
      status_true c path policy res tr evs (deployStatus out).

(** How a deploy of [files] at [path] went, once the signer was known. *)
Inductive went (c : Chain) (signer : Signer) (addr path policy : string) (files : list MemFile) (simulate : bool) (tr : trace)
    : trace → string → bool → Prop :=
  | Invalid e : simulate = false → c_addpkg c tr signer path files true = Err e →
      went c signer addr path policy files simulate tr [EfAddPkg addr path files true] "validate_err" false
  | Landed pre : let ask := EfAddPkg addr path files simulate in
      pre = (if simulate then [] else [EfAddPkg addr path files true]) →
      (simulate = false → is_ok (c_addpkg c tr signer path files true) = true) →
      ∀ res evs status, c_addpkg c (tr ++ pre) signer path files simulate = Ok res →
      status_true c path policy res (tr ++ pre ++ [ask]) evs status →
      went c signer addr path policy files simulate tr (pre ++ ask :: evs) (audit_of simulate status) true
  | Rejected pre e : pre = (if simulate then [] else [EfAddPkg addr path files true]) →
      (simulate = false → is_ok (c_addpkg c tr signer path files true) = true) →
      c_addpkg c (tr ++ pre) signer path files simulate = Err e →
      went c signer addr path policy files simulate tr (pre ++ [EfAddPkg addr path files simulate])
        (if simulate then "sim_err" else "broadcast_err") false.

Lemma landed_status_true (c : Chain) `{!Clock (c_now c) (c_done c)} path policy res st : 0 < w_interval w ≤ maxInt64 →
  wp (landed_status c w path (bool_decide (policy = SubmissionPolicyInert)) res) (λ st' r, ∃ evs status m,
    r = Ok (status, m) ∧ hist st' = hist st ++ evs ∧ cell st' = cell st ∧
    status_true c path policy res (hist st) evs status) st.
Proof.
  intros Hw. unfold landed_status. destruct (Simulated res) eqn:Hs.
  { wp_step. eexists [], _, _. rewrite app_nil_r. split_and!; [done..|by apply TrueSimulated]. }
  destruct (decide (policy = SubmissionPolicyInert)) as [Hp|Hp].
  - rewrite bool_decide_eq_true_2 by done. wp_step. eapply wp_mono; [by apply waitLive_waits|].
    simpl. intros st' r (evs & out & -> & Hh & Hc & Hwt & _). wp_step. eexists evs, _, _.
    split_and!; [done|done|done|]. simpl. by apply TrueWaited.
  - rewrite bool_decide_eq_false_2 by done. wp_step. eexists [], _, _. rewrite app_nil_r.
    split_and!; [done..|by apply TrueLive].
Qed.

Lemma deploy_went (c : Chain) `{!Clock (c_now c) (c_done c)} q policy signer addr st : 0 < w_interval w ≤ maxInt64 →
  let '(path, files) := deployed_as addr (ap_path q) (ap_files q) in
  wp (deploy is_print url_parse ParseIP GenGnoModLatest c w q policy signer addr) (λ st' r, ∃ evs,
    hist st' = hist st ++ evs ∧ EntryProfile (cell st') = EntryProfile (cell st) ∧
    went c signer addr path policy files (ap_simulate q) (hist st) evs (EntryResult (cell st')) (is_ok r)) st.
Proof.
  intros Hw. unfold deploy. destruct (deployed_as addr (ap_path q) (ap_files q)) as [path files].
  wp_step.
  assert (Hset : ∀ Q, (∀ st', hist st' = hist st → EntryProfile (cell st') = EntryProfile (cell st) → Q st' (Ok tt)) →
    wp (if short_name (ap_path q) then set_args (addpkg_summary path files (ap_simulate q)) else mret tt) Q st).
  { intros Q HQ. destruct (short_name (ap_path q)); wp_step; by apply HQ. }
  apply Hset. intros st' Hh Hp. rewrite <- Hh, <- Hp. clear Hset Hh Hp st. wp_step.
  set (pre := if ap_simulate q then [] else [EfAddPkg addr path files true]).
  assert (Hval : wp (if ap_simulate q then mret tt else
         v ← ask (EfAddPkg addr path files true) (λ tr, c_addpkg c tr signer path files true);
         match v with
         | Ok _ => mret tt
         | Err e => _ ← set_result "validate_err"; stop (withCLAHint (wrap_error "gno_addpkg validation (no gas spent)" e))
         end) (λ st1 r, hist st1 = hist st' ++ pre ∧ EntryProfile (cell st1) = EntryProfile (cell st') ∧
           match r with
           | Ok _ => ap_simulate q = false → is_ok (c_addpkg c (hist st') signer path files true) = true
           | Err _ => ap_simulate q = false ∧ EntryResult (cell st1) = "validate_err" ∧
                      ∃ e, c_addpkg c (hist st') signer path files true = Err e
           end) st').
  { unfold pre. destruct (ap_simulate q); [wp_step; by rewrite app_nil_r|]. repeat wp_step.
    destruct (c_addpkg c (hist st') signer path files true) as [v|e]; repeat wp_step; split_and!; eauto. }
  eapply wp_mono; [exact Hval|]. simpl. intros st1 r (Hh1 & Hp1 & Hr). clear Hval.
  destruct r as [u|e].
  2: { destruct Hr as (Hsim & Hres & e' & He). exists pre. rewrite Hh1, Hp1, Hres. unfold pre. rewrite Hsim.
       split_and!; [done..|]. by eapply Invalid. }
  repeat wp_step. rewrite Hh1. destruct (c_addpkg c (hist st' ++ pre) signer path files (ap_simulate q)) as [res|e] eqn:Ea; cycle 1.
  - repeat wp_step. exists (pre ++ [EfAddPkg addr path files (ap_simulate q)]). rewrite Hp1.
    split_and!; [by rewrite app_assoc|done|]. by eapply Rejected.
  - wp_step. eapply wp_mono; [by apply landed_status_true|]. simpl.
    intros st2 r (evs & status & m & -> & Hh2 & Hc2 & Hst). repeat wp_step.
    exists (pre ++ EfAddPkg addr path files (ap_simulate q) :: evs). rewrite Hc2, Hh2. split_and!.
    + by rewrite <- !app_assoc.
    + done.
    + eapply (Landed c signer addr path policy files _ _ pre); [done|done|done|]. by rewrite <- app_assoc in Hst.
Qed.

(** *** The deployed files *)

Lemma hasGnoMod_spec files : hasGnoMod files = true ↔ ∃ f, f ∈ files ∧ FileName f = gnomod.
Proof.
  unfold hasGnoMod. rewrite existsb_exists. setoid_rewrite bool_decide_eq_true.
  split; intros (f & Hf & He); exists f; by rewrite ?list_elem_of_In in *.
Qed.

(** Of the files with one gnomod.toml, only its body changes. *)
Lemma set_gnomod_perm body body' files l : hasGnoMod files = false → l ≡ₚ files ++ [mkFile gnomod body] →
  set_gnomod body' l ≡ₚ files ++ [mkFile gnomod body'].
Proof.
  intros Hno Hl. assert (Hin : mkFile gnomod body ∈ l) by (rewrite Hl; set_solver).
  apply list_elem_of_split in Hin as (l1 & l2 & ->).
  assert (Hp : l1 ++ l2 ≡ₚ files).
  { apply (Permutation_cons_inv (a := mkFile gnomod body)). rewrite Permutation_middle, Hl. by rewrite Permutation_app_comm. }
  assert (E : set_gnomod body' (l1 ++ mkFile gnomod body :: l2) = l1 ++ mkFile gnomod body' :: l2).
  { assert (Hl1 : ∀ f, f ∈ l1 → FileName f ≠ gnomod).
    { intros f Hf He. apply not_true_iff_false in Hno. apply Hno, hasGnoMod_spec. exists f. split; [|done].
      rewrite <- Hp. apply elem_of_app. by left. }
    clear -Hl1. induction l1 as [|f l1 IH]; simpl; [done|].
    rewrite bool_decide_eq_false_2 by (apply Hl1; left). f_equal. apply IH. intros g Hg. apply Hl1. by right. }
  rewrite E, <- Permutation_middle, Hp. by rewrite Permutation_app_comm.
Qed.

Lemma with_gnomod_perm path files :
  with_gnomod GenGnoModLatest path files ≡ₚ (if hasGnoMod files then files else files ++ [mkFile gnomod (GenGnoModLatest path)]).
Proof. apply sort_by_perm. Qed.

(** What is deployed at the path [addr] and [q] resolve to.  The files are the
    caller's, neither more nor less; where the caller gave no gnomod.toml, one
    is added that names that very path.  A gnomod.toml the caller gave is
    deployed as it is, whatever it names, and only at a full path. *)
Definition consistent (q : addpkg_request) (addr path : string) (files : list MemFile) : Prop :=
  path = (if short_name (ap_path q) then "gno.land/r/" +:+ addr +:+ "/" +:+ ap_path q else ap_path q) ∧
  (((∀ f, f ∈ ap_files q → FileName f ≠ gnomod) ∧ files ≡ₚ ap_files q ++ [mkFile gnomod (GenGnoModLatest path)]) ∨
   ((∃ f, f ∈ ap_files q ∧ FileName f = gnomod) ∧ short_name (ap_path q) = false ∧ files ≡ₚ ap_files q)).

Lemma deployed_consistent q addr : short_name (ap_path q) && hasGnoMod (ap_files q) = false →
  consistent q addr (deployed_as addr (ap_path q) (ap_files q)).1 (deployed_as addr (ap_path q) (ap_files q)).2.
Proof.
  intros Hs. pose proof (with_gnomod_perm (ap_path q) (ap_files q)) as Hp. unfold deployed, consistent.
  pose proof (hasGnoMod_spec (ap_files q)) as Hg.
  destruct (hasGnoMod (ap_files q)) eqn:Eg; rewrite ?andb_true_r in Hs.
  - rewrite Hs. split; [done|]. right. split; [by apply Hg|done].
  - assert (Hn : ∀ f, f ∈ ap_files q → FileName f ≠ gnomod).
    { intros f Hf He. cut (false = true); [done|]. apply Hg. by exists f. }
    destruct (short_name (ap_path q)); (split; [done|]); left; (split; [done|]); [|done].
    by eapply set_gnomod_perm.
Qed.

Lemma addpkg_args_Ok args srv pn p q : addpkg_args is_print arg_text args srv pn p = Ok q →
  short_name (ap_path q) && hasGnoMod (ap_files q) = false ∧ ap_profile q = pn ∧ ap_p q = p ∧
  BoolArg args "simulate" = Ok (ap_simulate q) ∧ toMemFiles (args !! "files") = Ok (ap_files q).
Proof.
  unfold addpkg_args. intros H. inv_ok. rewrite !arg_err_Ok in *. injection H5 as <-. simpl. b2p. done.
Qed.

(** The whole call. *)
Inductive addpkg_call (args : Args) (srv : Server) (resolver : string → option Chain) (tr : trace) : trace → Entry → bool → Prop :=
  | NothingSigned evs entry : filter (λ e, is_deploy e = true) evs = [] → EntryResult entry = "tool_err" →
      addpkg_call args srv resolver tr evs entry false
  | Signed pn p q c policy signer addr path files evs entry ok :
      requireProfile is_print arg_text args srv = Ok (pn, p) → addpkg_args is_print arg_text args srv pn p = Ok q →
      resolver pn = Some c → c_policy c tr = Ok policy →
      signer_for pn (ap_key q) p = Ok signer → info signer = Ok addr →
      funded (c_balance c) p (ap_simulate q) (tr ++ [EfPolicy]) addr →
      consistent q addr path files →
      went c signer addr path policy files (ap_simulate q) (tr ++ EfPolicy :: balance_read p (ap_simulate q) addr)
        evs (EntryResult entry) ok →
      EntryProfile entry = pn →
      addpkg_call args srv resolver tr (EfPolicy :: balance_read p (ap_simulate q) addr ++ evs) entry ok.

(** Every run is one of these calls. *)
Lemma addpkgHandler_calls args srv resolver tr :
  (∀ pn c, resolver pn = Some c → Clock (c_now c) (c_done c)) → 0 < w_interval w ≤ maxInt64 →
  let '(tr', entry, r) := audited "gno_addpkg" (handler args srv resolver w) tr in
  ∃ evs, tr' = tr ++ evs ∧ addpkg_call args srv resolver tr evs entry (is_ok r).
Proof.
  intros Hclk Hw.
  apply (audited_wp "gno_addpkg" _ (λ tr' entry r, ∃ evs, tr' = tr ++ evs ∧ addpkg_call args srv resolver tr evs entry (is_ok r))).
  assert (Hno : ∀ tr' entry evs, tr' = tr ++ evs → EntryResult entry = "tool_err" →
    filter (λ e, is_deploy e = true) evs = [] →
    ∃ evs, tr' = tr ++ evs ∧ addpkg_call args srv resolver tr evs entry false).
  { intros tr' entry evs -> Hr Hf. exists evs. split; [done|]. by constructor. }
  unfold addpkgHandler. repeat wp_step.
  destruct (requireProfile is_print arg_text args srv) as [[pn p]|e] eqn:Ep; [|apply (Hno _ _ []); by rewrite ?app_nil_r].
  repeat wp_step. destruct (addpkg_args is_print arg_text args srv pn p) as [q|e] eqn:Eq; [|apply (Hno _ _ []); by rewrite ?app_nil_r].
  destruct (addpkg_args_Ok _ _ _ _ _ Eq) as (Hsg & Hpn & Hpp & _). rewrite Hpn, Hpp.
  repeat wp_step. destruct (resolver pn) as [c|] eqn:Ec; [|apply (Hno _ _ []); by rewrite ?app_nil_r].
  simpl. repeat wp_step. destruct (c_policy c tr) as [policy|e] eqn:Epol; simpl;
    [|apply (Hno _ _ [EfPolicy]); by rewrite ?app_nil_r].
  wp_step. apply wp_on_trace. simpl.
  pose proof (acquireAgentSigner_spec is_print ks_text (c_balance c) "gno_addpkg" "run gno_key_generate to create one" pn
    (signer_for pn (ap_key q) p) info p (ap_simulate q) (tr ++ [EfPolicy])) as Ha.
  destruct (acquireAgentSigner _ _ _ _ _ _ _ _ _ _ _) as [tr1 [[signer addr]|e]].
  2: { destruct Ha as [(addr & [-> | ->]) _]; [by eapply Hno|]. eapply Hno; [by rewrite <- app_assoc|done|].
       unfold balance_read. by case_match. }
  destruct Ha as [_ Ha]. destruct (Ha signer addr eq_refl) as (Hsig & Hinfo & -> & Hfund).
  pose proof (Hclk pn c Ec). pose proof (deploy_went c q policy signer addr
    (mkSt ((tr ++ [EfPolicy]) ++ balance_read p (ap_simulate q) addr)
       (mkEntry "gno_addpkg" pn (addpkg_summary (ap_path q) (with_gnomod GenGnoModLatest (ap_path q) (ap_files q)) (ap_simulate q)) "tool_err" "")) Hw) as Hd.
  pose proof (deployed_consistent q addr Hsg) as Hcons.
  destruct (deployed_as addr (ap_path q) (ap_files q)) as [path files]. simpl in Hcons.
  eapply wp_mono; [exact Hd|]. simpl. intros st' r (evs & Hh & Hprof & Hwent).
  exists (EfPolicy :: balance_read p (ap_simulate q) addr ++ evs). split; [by rewrite Hh, <- !app_assoc|].
  rewrite <- app_assoc in Hwent. by eapply Signed.
Qed.

(** C28: gno_addpkg is honest about what it deploys.  Without a signature an
    error goes back and the audit record says "tool_err".  Otherwise the chain's
    code-submission policy was read first, a testnet key that pays was seen
    funded, and one path and one set of files are submitted: the caller's files
    and, where the caller gave no gnomod.toml, one that names this very path; a
    gnomod.toml of the caller's goes as it is, at a full path only.  A real
    deploy is broadcast at most once, and only right after the chain accepted
    a simulation of the same files at the same path; a failed simulation
    broadcasts nothing.  A result goes back exactly when the chain accepted the
    submission, and the audited status is the truth: "live" only where the chain
    runs what it accepts or answered a poll with live, "parked" or unknown by its
    last word; the wait adds polls and sleeps only. *)
Theorem addpkgHandler_honest args srv resolver tr :
  (∀ pn c, resolver pn = Some c → Clock (c_now c) (c_done c)) → 0 < w_interval w ≤ maxInt64 →
  let '(tr', entry, r) := audited "gno_addpkg" (handler args srv resolver w) tr in
  ∃ evs, tr' = tr ++ evs ∧ addpkg_call args srv resolver tr evs entry (is_ok r).
Proof. apply addpkgHandler_calls. Qed.
End honest.

(** ** Properties *)

(** C30: waiting for a parked package always ends, after at most one poll more
    than the intervals the timeout spans, whatever the chain answers.  It stops
    at the first live answer; otherwise only because the context ended or the
    timeout has passed.  It answers the last status the chain gave, and an
    error only when the chain answered none of the polls. *)
Theorem waitLive_terminates {Signer} (c : Chain (Signer := Signer)) path w st :
  Clock (c_now c) (c_done c) → 0 < w_interval w ≤ maxInt64 →
  let '(st', r) := waitLive c path w st in ∃ evs out,
    r = Ok (Some out) ∧ hist st' = hist st ++ evs ∧
    (List.length (poll_answers c path (hist st) evs) ≤ wait_fuel w)%nat ∧
    Forall (wait_event path w) evs ∧
    out = verdict None "" (poll_answers c path (hist st) evs) ∧
    (∀ i a, poll_answers c path (hist st) evs !! i = Some a → live_answer a = true →
       S i = List.length (poll_answers c path (hist st) evs)) ∧
    (live_answer out = true ∨ c_done c (hist st') = true ∨ c_now c (hist st) + w_timeout w ≤ c_now c (hist st')) ∧
    (is_ok out = false → Forall (λ a, is_ok a = false) (poll_answers c path (hist st) evs)).
Proof.
  intros Hc Hw. pose proof (waitLive_waits c path w st Hw) as H. unfold wp in H. destruct (waitLive c path w st) as [st' r].
  destruct H as (evs & out & -> & Hh & _ & [He Ho (a & Ha & Hs) Hf _] & Hl). exists evs, out.
  split_and!; try done.
  - rewrite Hh. destruct Hs as [Hs|[Hs|Hs]]; auto. left. rewrite Ho. by eapply verdict_live.
  - rewrite Ho. apply verdict_Err.
Qed.

Lemma poll_answers_app {Signer} (c : Chain (Signer := Signer)) path tr a b :
  poll_answers c path tr (a ++ b) = poll_answers c path tr a ++ poll_answers c path (tr ++ a) b.
Proof.
  revert tr. induction a as [|e a IH]; intros tr; [by rewrite app_nil_r|]. cbn [app poll_answers].
  rewrite IH, <- !app_assoc. done.
Qed.

(** C39: A package its approver enables is reported live: if the chain answers
    live from time [T] on, a poll takes at most [delta], the context is never
    cancelled and [T + delta] is within the timeout, then the wait ends with a
    live status. *)
Theorem waitLive_reports_live {Signer} (c : Chain (Signer := Signer)) path w st (T delta : Z) :
  Clock (c_now c) (c_done c) → 0 < w_interval w ≤ maxInt64 →
  (∀ tr, c_done c tr = false) →
  (∀ tr, c_now c (tr ++ [EfMeta path]) ≤ c_now c tr + delta) →
  (∀ tr, T ≤ c_now c tr → live_answer (c_meta c tr path) = true) →
  T + delta ≤ c_now c (hist st) + w_timeout w →
  ∃ m, (waitLive c path w st).2 = Ok (Some (Ok m)) ∧ Live m = true.
Proof.
  intros Hc Hw Hn Hp Hl Ht. pose proof (waitLive_waits c path w st Hw) as H. unfold wp in H. destruct (waitLive c path w st) as [st' r].
  destruct H as (evs & out & -> & _ & _ & [_ Ho (a & Ha & Hs) _ Hlast] & _). cbn [snd].
  assert (live_answer a = true) as La.
  { destruct Hs as [Hs|[Hs|Hs]]; [done|by rewrite Hn in Hs|]. destruct Hlast as [Hd|[evs' ->]]; [by rewrite Hn in Hd|].
    rewrite poll_answers_app in Ha. cbn [poll_answers] in Ha. rewrite bool_decide_eq_true_2 in Ha by done. cbn [app] in Ha.
    rewrite last_snoc in Ha. injection Ha as <-. apply Hl. rewrite app_assoc in Hs. specialize (Hp (hist st ++ evs')). lia. }
  pose proof (verdict_live _ None "" _ Ha La) as Hv. rewrite <- Ho in Hv. destruct out as [m|e]; [|done]. by exists m.
Qed.

(** A chain that enables the package five seconds in. *)
Definition toy_chain : Chain (Signer := string) := mkChain (λ _, Ok "inert") (λ _ _, Ok 7)
  (λ _ _ _ _ sim, Ok (ChainTypes.mkTx "hash" 3 "" 10 20 30 sim))
  (λ tr _, if slept tr <? 5 * Second then Ok (mkMeta "inert" "waiting" true) else Ok (mkMeta "live" "" false))
  slept (λ _, false).

#[export] Instance toy_clock : Clock (c_now toy_chain) (c_done toy_chain) := slept_clock.

Lemma waitLive_terminates_witness :
  let '(st', r) := waitLive toy_chain "gno.land/r/g1a/x" parkWaitDefault (mkSt [] (mkEntry "" "" "" "" "")) in
  ∃ out evs, r = Ok (Some out) ∧ hist st' = [] ++ evs ∧
    (List.length (poll_answers toy_chain "gno.land/r/g1a/x" [] evs) ≤ 16)%nat.
Proof.
  pose proof (waitLive_terminates toy_chain "gno.land/r/g1a/x" parkWaitDefault (mkSt [] (mkEntry "" "" "" "" "")) toy_clock) as H.
  destruct (waitLive _ _ _ _) as [st' r]. destruct H as (evs & out & H1 & H2 & H3 & _); [vm_compute; split; discriminate || reflexivity|].
  exists out, evs. split; [exact H1|]. split; [exact H2|]. exact H3.
Defined.

Lemma waitLive_reports_live_witness :
  ∃ m, (waitLive toy_chain "gno.land/r/g1a/x" parkWaitDefault (mkSt [] (mkEntry "" "" "" "" ""))).2 = Ok (Some (Ok m)) ∧ Live m = true.
Proof.
  apply (waitLive_reports_live toy_chain "gno.land/r/g1a/x" parkWaitDefault (mkSt [] (mkEntry "" "" "" "" "")) (5 * Second) 0 toy_clock).
  - vm_compute. split; discriminate || reflexivity.
  - reflexivity.
  - intros tr. cbn [toy_chain c_now]. rewrite slept_app. cbn [slept fold_right]. lia.
  - intros tr H. cbn [toy_chain c_meta c_now] in *. rewrite (proj2 (Z.ltb_ge _ _) H). reflexivity.
  - vm_compute. discriminate.
Defined.

(** It goes live at the third sleep. *)
Example waitLive_ex :
  snd (waitLive toy_chain "x" parkWaitDefault (mkSt [] (mkEntry "" "" "" "" ""))) = Ok (Some (Ok (mkMeta "live" "" false))).
Proof. vm_compute. reflexivity. Qed.

Definition toy_args : Args := {["profile" := JStr "p"; "deploy_path" := JStr "hello";
  "files" := JArr [JObj [("name", JStr "hello.gno"); ("body", JStr "package hello")]]]}.

Definition toy_addpkg : tool Result :=
  addpkgHandler (λ _, true) (λ _, "") (λ _, "") (λ _, None) (λ _, None) (λ path, "module = " +:+ path) (λ _ _ _, Ok "sg")
    (λ sg, Ok ("g1" +:+ sg)) toy_args (NewServer {["p" := endpoint "https://rpc.test5.gno.land" "test5"]} "") (λ _, Some toy_chain)
    parkWaitDefault.

Definition toy_files : list MemFile := [mkFile gnomod "module = gno.land/r/g1sg/hello"; mkFile "hello.gno" "package hello"].

Lemma addpkgHandler_honest_witness :
  let '(tr', entry, r) := audited "gno_addpkg" toy_addpkg [] in
  (∃ evs, tr' = [] ++ evs) ∧ EntryResult entry = "ok" ∧
  take 4 tr' = [EfPolicy; EfBalance "g1sg"; EfAddPkg "g1sg" "gno.land/r/g1sg/hello" toy_files true;
                EfAddPkg "g1sg" "gno.land/r/g1sg/hello" toy_files false].
Proof.
  pose proof (addpkgHandler_honest (λ _, true) (λ _, "") (λ _, "") (λ _, None) (λ _, None) (λ path, "module = " +:+ path)
    (λ _ _ _, Ok "sg") (λ sg, Ok ("g1" +:+ sg)) parkWaitDefault toy_args
    (NewServer {["p" := endpoint "https://rpc.test5.gno.land" "test5"]} "") (λ _, Some toy_chain) []) as H.
  assert (E : let '(tr', entry, r) := audited "gno_addpkg" toy_addpkg [] in
    (EntryResult entry, take 4 tr') = ("ok", [EfPolicy; EfBalance "g1sg"; EfAddPkg "g1sg" "gno.land/r/g1sg/hello" toy_files true;
                EfAddPkg "g1sg" "gno.land/r/g1sg/hello" toy_files false])) by (vm_compute; reflexivity).
  unfold toy_addpkg in *. destruct (audited _ _ []) as [[tr' entry] r]. injection E as E1 E2.
  destruct H as (evs & H & _); [intros ? ? [= <-]; exact toy_clock|vm_compute; split; [reflexivity|discriminate]|].
  split; [by exists evs|]. split; [exact E1|exact E2].
Defined.
