(* ===== verification/TxTools.v ===== *)
(** * Transaction tools

    [internal/tools/write/call.go], [run.go], [keysend.go] and the signing half
    of [clasign.go]: the self-audited handlers of gno_call, gno_run,
    gno_key_send and gno_cla_sign, on top of the dispatch of [WriteTools]. *)
From S2P Require Import Prelude GoText GoTime Untrusted Profiles ChainTypes ChainClient SessionManager Keystore ServerCore Handlers Parked WriteTools AddPkg.
From stdpp Require Import prelude strings gmap list.
From Stdlib Require Import ZArith Lia Ascii String.
Local Open Scope Z_scope.

(** ** The chain client *)

(** What the tools ask, as functions of the effects so far; a session operation
    signs with the picked session, whose key stays inside. *)
Record TxChain {Signer : Type} := mkTxChain {
  t_balance : trace → string → res string Z;
  t_meta : trace → string → res string PackageMeta;
  t_submitters : trace → res string (list string);
  t_pick_call : trace → string → res pick_error Picked;
  t_pick_run : trace → res pick_error Picked;
  t_call : trace → Signer → string → string → list string → string → bool → res op_error TxResult;
  t_call_user : trace → Picked → string → string → string → list string → string → bool → res op_error TxResult;
  t_run : trace → Signer → string → bool → res op_error TxResult;
  t_run_user : trace → Picked → string → string → bool → res op_error TxResult;
  t_send : trace → Signer → string → Z → res string TxResult;
}.
Arguments TxChain : clear implicits.

(** ** Results *)

Section results.
Context (is_print : Z → bool).

(** The facts of a landed or simulated transaction. *)
Definition tx_facts (kind done_ : string) (cr : TxResult) : string :=
  (if Simulated cr then "Simulated " +:+ kind +:+ " result" +:+ NL +:+ NL
   else done_ +:+ NL +:+ NL +:+ "TxHash:  " +:+ TxHash cr +:+ NL +:+ "Height:  " +:+ format_int (Height cr) +:+ NL) +:+
  "GasUsed: " +:+ format_int (GasUsed cr) +:+ NL.

Definition tx_fields (out : string) (cr : TxResult) : list (string * json) :=
  [("tx_hash", JStr (TxHash cr)); ("height", JNum (format_int (Height cr))); (out, JStr (Data cr));
   ("gas_used", JNum (format_int (GasUsed cr))); ("simulated", JBool (Simulated cr))].

Definition buildCallResult (cr : TxResult) (realm : string) : Result :=
  mkResult
    (tx_facts "call" "Call succeeded" cr +:+
     (if bool_decide (Data cr = "") then "" else "Result:" +:+ NL +:+ Wrap is_print (Data cr) "call_result" realm +:+ NL))
    "" "" "" (tx_fields "result" cr).

Definition buildRunResult (rr : TxResult) (profileName : string) : Result :=
  mkResult
    (tx_facts "run" "Run succeeded" rr +:+
     (if bool_decide (Data rr = "") then "" else "Output:" +:+ NL +:+ Wrap is_print (Data rr) "run_output" profileName +:+ NL))
    "" "" "" (tx_fields "output" rr).
End results.

Section tools.
Context (is_print : Z → bool) (ks_text : ks_error → string) (arg_text : arg_error → string) (pick_text : pick_error → string).
(** The representative of a rune's case-folding orbit, and the runes of a text. *)
Context (fold_key : Z → Z) (runes : string → list Z).
Context (ParseCoins : string → option Coins) (parse_float : string → float64).
Context {Signer : Type} (signer_for : string → string → Profile → res ks_error Signer) (info : Signer → res string string).

Abbreviation TxChain := (TxChain Signer).
Abbreviation dispatch_params := (writeTxDispatch (Signer := Signer) (Out := TxResult)).

(** [dispatchWriteTx], writing the handler's audit cells. *)
Definition dispatch (d : dispatch_params) (identityArg : string) : tool (dispatched (Out := TxResult)) := λ st,
  let '(tr, r) := dispatchWriteTx is_print ks_text d identityArg (hist st) in
  let e := cell st in
  (mkSt tr (mkEntry (EntryTool e) (EntryProfile e) (EntryArgs e) (r_audit r) (r_session r)), Ok r).

Definition no_result : TxResult := ChainTypes.mkTx "" 0 "" 0 0 0 false.

(** What the handlers do with a dispatch: fail with its error, or render. *)
Definition finish (c : TxChain) (explain : option string) (r : dispatched (Out := TxResult)) (render : TxResult → Result) : tool Result :=
  match r_err r with
  | None => mret (render (default no_result (r_out r)))
  | Some e =>
      match explain with
      | None => stop e
      | Some path => on_trace (λ tr, let '(tr, e) := Explain (t_meta c) path e tr in (tr, Err e))
      end
  end.

(** The ignored error of an ill-typed identity leaves it empty. *)
Definition identity_arg (args : Args) : string := match StringArg args "identity" with Ok s => s | Err _ => "" end.

Definition auth_required (profileName message : string) : tool_err :=
  ToolError "authentication_required" message (extra1 "profile" profileName).

(** ** gno_call *)

Record call_request := mkCall {
  cl_key : string; cl_realm : string; cl_fn : string; cl_args : list string; cl_simulate : bool; cl_send : string;
}.

Definition call_args (args : Args) : res tool_err call_request :=
  keyName ← keyArg arg_text args;
  realm ← arg_err arg_text (StringArg args "realm");
  _ ← check (negb (bool_decide (realm = ""))) (PlainError "realm: required");
  fn ← arg_err arg_text (StringArg args "func");
  _ ← check (negb (bool_decide (fn = ""))) (PlainError "func: required");
  fnArgs ← arg_err arg_text (StringSliceArg args "args");
  simulate ← arg_err arg_text (BoolArg args "simulate");
  send ← arg_err arg_text (StringArg args "send");
  _ ← check (ValidateSendCoins ParseCoins send) (ToolError "invalid_send"
        ("send " +:+ quote is_print send +:+ " is not a valid coin amount — use an amount like " +:+ dq +:+ "5000000ugnot" +:+ dq) (extra1 "send" send));
  mret (mkCall keyName realm fn (default [] fnArgs) simulate send).

Definition call_summary (realm fn : string) (nargs : nat) (send : string) : string :=
  "realm=" +:+ realm +:+ " func=" +:+ fn +:+ " nargs=" +:+ format_int (Z.of_nat nargs) +:+
  (if bool_decide (send = "") then "" else " send=" +:+ send).

Definition call_pick_error (profileName realm : string) (e : pick_error) : option tool_err :=
  Some match e with
  | ErrNoActiveSession =>
      auth_required profileName ("no active session for profile " +:+ quote is_print profileName +:+ " — use gno_session_propose to create one")
  | ErrScopeMismatch paths =>
      ToolError "scope_mismatch"
        ("realm " +:+ quote is_print realm +:+ " is not covered by any active session for profile " +:+ quote is_print profileName +:+
         " — use gno_session_propose with allow_paths=[" +:+ quote is_print realm +:+ "]")
        {["profile" := JStr profileName; "realm" := JStr realm; "available_paths" := JArr (JStr <$> paths)]}
  end.

Definition call_dispatch (c : TxChain) (pn : string) (p : Profile) (q : call_request) : dispatch_params :=
  mkDispatch "gno_call" "run gno_key_generate (or pass identity=session to act as the user)" pn (cl_key q) p (cl_simulate q)
    (signer_for pn (cl_key q) p) info (t_balance c) (λ tr, t_pick_call c tr (cl_realm q)) pick_text (call_pick_error pn (cl_realm q))
    (λ tr sg, t_call c tr sg (cl_realm q) (cl_fn q) (cl_args q) (cl_send q) (cl_simulate q))
    (λ tr pk master, (λ r, (r, ChainTypes.GasFee r)) <$> t_call_user c tr pk master (cl_realm q) (cl_fn q) (cl_args q) (cl_send q) (cl_simulate q))
    None.

Definition call_render (p : Profile) (q : call_request) (r : dispatched (Out := TxResult)) (cr : TxResult) : Result :=
  attachGnokeyCmd
    (decorateWriteResult (buildCallResult is_print cr (cl_realm q)) (r_identity r) (r_signer r) (r_master r) (IsLocal p))
    (cmd_String (mkCmd "call" (cl_realm q) (cl_fn q) (cl_args q) "" (cl_send q) "" "" (RPCURL p) (ChainID p) (r_signer r) (r_master r)
       (cl_simulate q) (ChainTypes.GasFee cr) (GasWanted cr))).

Definition no_client (pn : string) : tool_err := PlainError ("profile " +:+ quote is_print pn +:+ ": no chain client available").

Definition callHandler (args : Args) (srv : Server) (resolver : string → option TxChain) : tool Result :=
  np ← of_res (requireProfile is_print arg_text args srv);
  _ ← set_profile np.1;
  q ← of_res (call_args args);
  c ← of_res (ok_or (no_client np.1) (resolver np.1));
  _ ← set_args (call_summary (cl_realm q) (cl_fn q) (List.length (cl_args q)) (cl_send q));
  r ← dispatch (call_dispatch c np.1 np.2 q) (identity_arg args);
  finish c (Some (cl_realm q)) r (call_render np.2 q r).

(** ** gno_run *)

Definition equal_fold (s t : string) : bool := bool_decide (fold_key <$> runes s = fold_key <$> runes t).

Definition requireRunSubmitter (allowed : res string (list string)) (caller : string) : option tool_err :=
  match allowed with
  | Err e => Some (PlainError ("gno_run: read the chain's run_submitters param (nothing signed): " +:+ e))
  | Ok allowed =>
      if bool_decide (allowed = []) || existsb (λ a, equal_fold a caller) allowed then None
      else Some (ToolError "run_not_allowed"
        ("this chain accepts MsgRun only from the addresses in its run_submitters param, and " +:+ caller +:+
         " is not one of them; nothing was signed. " +:+
         "Deploy the logic as a package and call it with gno_call, or run it on a chain whose run_submitters is empty.")
        (extra1 "address" caller))
  end.

Record run_request := mkRun { rn_key : string; rn_code : string; rn_simulate : bool }.

Definition run_args (args : Args) : res tool_err run_request :=
  keyName ← keyArg arg_text args;
  code ← arg_err arg_text (StringArg args "code");
  _ ← check (negb (bool_decide (code = ""))) (PlainError "code: required");
  simulate ← arg_err arg_text (BoolArg args "simulate");
  mret (mkRun keyName code simulate).

Definition run_pick_error (profileName : string) (e : pick_error) : option tool_err :=
  Some (auth_required profileName match e with
  | ErrNoActiveSession =>
      "no active session with allow_run=true for profile " +:+ quote is_print profileName +:+ " — use gno_session_propose with allow_run=true"
  | ErrScopeMismatch _ =>
      "active sessions for profile " +:+ quote is_print profileName +:+ " do not authorize MsgRun — use gno_session_propose with allow_run=true"
  end).

Definition run_dispatch (c : TxChain) (pn : string) (p : Profile) (q : run_request) : dispatch_params :=
  mkDispatch "gno_run" "run gno_key_generate (or pass identity=session to act as the user)" pn (rn_key q) p (rn_simulate q)
    (signer_for pn (rn_key q) p) info (t_balance c) (t_pick_run c) pick_text (run_pick_error pn)
    (λ tr sg, t_run c tr sg (rn_code q) (rn_simulate q))
    (λ tr pk master, (λ r, (r, ChainTypes.GasFee r)) <$> t_run_user c tr pk master (rn_code q) (rn_simulate q))
    (Some (λ tr caller, requireRunSubmitter (t_submitters c tr) caller)).

Definition run_render (pn : string) (p : Profile) (q : run_request) (r : dispatched (Out := TxResult)) (rr : TxResult) : Result :=
  attachGnokeyCmd
    (decorateWriteResult (buildRunResult is_print rr pn) (r_identity r) (r_signer r) (r_master r) (IsLocal p))
    (cmd_String (mkCmd "run" "" "" [] "" "" "" "" (RPCURL p) (ChainID p) (r_signer r) (r_master r)
       (rn_simulate q) (ChainTypes.GasFee rr) (GasWanted rr))).

Definition runHandler (args : Args) (srv : Server) (resolver : string → option TxChain) : tool Result :=
  np ← of_res (requireProfile is_print arg_text args srv);
  _ ← set_profile np.1;
  q ← of_res (run_args args);
  c ← of_res (ok_or (no_client np.1) (resolver np.1));
  _ ← set_args ("code_len=" +:+ format_int (len (rn_code q)));
  r ← dispatch (run_dispatch c np.1 np.2 q) (identity_arg args);
  finish c None r (run_render np.1 np.2 q r).

(** ** gno_key_send *)

Context (address : string → string → Profile → res ks_error string). (* [ks.AgentAddress] *)

Definition keySendHandler (args : Args) (srv : Server) (resolver : string → option TxChain) : tool Result :=
  np ← of_res (requireProfile is_print arg_text args srv);
  let pn := np.1 in let p := np.2 in
  _ ← set_profile pn;
  fromKey ← of_res (arg_err arg_text (StringArg args "from"));
  toKey ← of_res (arg_err arg_text (StringArg args "to"));
  _ ← of_res (check (negb (bool_decide (toKey = ""))) (PlainError "to: required — the destination key name"));
  amount ← of_res (arg_err arg_text (Int64Arg parse_float args "amount"));
  _ ← set_args ("to=" +:+ toKey +:+ " amount=" +:+ format_int amount);
  _ ← of_res (check (0 <? amount) (ToolError "invalid_amount"
        ("amount must be a positive number of ugnot, got " +:+ format_int amount) (extra1 "profile" pn)));
  toAddr ← of_res (map_err (λ e, default (PlainError ("gno_key_send: resolve destination " +:+ quote is_print toKey +:+ ": " +:+ ks_text e))
             (agentKeyToolError is_print e pn ("destination key " +:+ quote is_print toKey +:+ " does not exist — create it with gno_key_generate")))
             (address pn toKey p));
  c ← of_res (ok_or (no_client pn) (resolver pn));
  sa ← on_trace (acquireAgentSigner is_print ks_text (t_balance c) "gno_key_send"
                   "create or fund it with gno_key_generate / gno_faucet_fund" pn (signer_for pn fromKey p) info p false);
  _ ← of_res (check (negb (bool_decide (sa.2 = toAddr))) (ToolError "same_account"
        "from and to resolve to the same address — choose distinct keys" (extra2 "profile" pn "address" sa.2)));
  r ← ask (EfSend sa.2 toAddr amount) (λ tr, t_send c tr sa.1 toAddr amount);
  match r with
  | Err e => _ ← set_result "broadcast_err"; stop (PlainError ("gno_key_send broadcast: " +:+ e))
  | Ok res =>
      _ ← set_result "ok";
      mret (attachGnokeyCmd
        (mkResult ("Sent " +:+ format_int amount +:+ " ugnot from " +:+ sa.2 +:+ " to " +:+ toAddr +:+ " (tx " +:+ TxHash res +:+ ").") "" "" ""
           [("from_address", JStr sa.2); ("to_address", JStr toAddr); ("amount_ugnot", JNum (format_int amount));
            ("tx_hash", JStr (TxHash res)); ("height", JNum (format_int (Height res)))])
        (cmd_String (mkCmd "send" "" "" [] toAddr (format_int amount +:+ "ugnot") "" "" (RPCURL p) (ChainID p) sa.2 "" false
           (ChainTypes.GasFee res) 0)))
  end.

(** ** gno_cla_sign *)

Definition claSignHandler (args : Args) (srv : Server) (resolver : string → option TxChain) : tool Result :=
  np ← of_res (requireProfile is_print arg_text args srv);
  let pn := np.1 in let p := np.2 in
  _ ← set_profile pn;
  hash ← of_res (arg_err arg_text (StringArg args "hash"));
  _ ← of_res (check (negb (bool_decide (hash = ""))) (ToolError "hash_required"
        "hash is required — call gno_cla_info first to obtain the current CLA hash and the agreement URL, show the URL to the user, then sign with that hash" ∅));
  _ ← set_args ("hash=" +:+ hash);
  keyName ← of_res (keyArg arg_text args);
  c ← of_res (ok_or (no_client pn) (resolver pn));
  sa ← on_trace (acquireAgentSigner is_print ks_text (t_balance c) "gno_cla_sign" "run gno_key_generate first, then gno_faucet_fund" pn
                   (signer_for pn keyName p) info p false);
  r ← ask (EfCall sa.2 claRealm "Sign" [hash]) (λ tr, t_call c tr sa.1 claRealm "Sign" [hash] "" false);
  match r with
  | Err e => _ ← set_result "broadcast_err"; stop (PlainError ("gno_cla_sign broadcast: " +:+ op_text e))
  | Ok cr =>
      _ ← set_result "ok";
      mret (mkResult
        (signedByLine "agent" sa.2 "" (IsLocal p) +:+ NL +:+ NL +:+ "CLA signed successfully" +:+ NL +:+ NL +:+
         "TxHash:      " +:+ TxHash cr +:+ NL +:+ "Height:      " +:+ format_int (Height cr) +:+ NL +:+
         "GasUsed:     " +:+ format_int (GasUsed cr) +:+ NL +:+ "Hash signed: " +:+ hash +:+ NL) "" "" ""
        [("identity", JStr "agent"); ("tx_hash", JStr (TxHash cr)); ("height", JNum (format_int (Height cr)));
         ("gas_used", JNum (format_int (GasUsed cr))); ("signer_address", JStr sa.2); ("hash_signed", JStr hash)])
  end.
End tools.

(** ** One record, one signature, the truth *)

Section honest.
Context (is_print : Z → bool) (ks_text : ks_error → string) (arg_text : arg_error → string) (pick_text : pick_error → string).
Context (fold_key : Z → Z) (runes : string → list Z) (ParseCoins : string → option Coins) (parse_float : string → float64).
Context {Signer : Type} (signer_for : string → string → Profile → res ks_error Signer) (info : Signer → res string string).

Abbreviation TxChain := (TxChain Signer).
Abbreviation dispatch_params := (writeTxDispatch (Signer := Signer) (Out := TxResult)).
Abbreviation run_d := (dispatch is_print ks_text).

(** A dispatched tool did [evs], left [entry] and answered or not ([ok]): the
    dispatch of [d] accounts for everything but at most one status query, which
    explains a failure. *)
Definition dispatched_call (d : dispatch_params) (idArg : string) (summary : string) (tr evs : trace) (entry : Entry)
    (r : res tool_err Result) (render : dispatched (Out := TxResult) → TxResult → Result) : Prop :=
  ∃ done_ rest rr, evs = done_ ++ rest ∧ accounts d idArg tr done_ rr ∧
    EntryProfile entry = d_profileName d ∧ EntryArgs entry = summary ∧
    EntryResult entry = r_audit rr ∧ EntrySession entry = r_session rr ∧
    (∀ res, r = Ok res → rest = [] ∧ r_err rr = None ∧ ∃ cr, r_out rr = Some cr ∧ res = render rr cr) ∧
    (is_ok r = false → r_err rr ≠ None ∧ (rest = [] ∨ ∃ path, rest = [EfMeta path])).

Lemma accounts_out (d : dispatch_params) idArg tr evs rr : accounts d idArg tr evs rr → r_err rr = None → is_Some (r_out rr).
Proof.
  intros [? He _|pre sg addr _ _ _ _ _ _ _ _ _ _ _ Hr|pre pk settle o _ _ _ _ _ _ _ _ _ _ _ _ Hr] Herr; [done| |].
  - unfold reported in Hr. destruct (d_agentOp d (tr ++ pre) sg); naive_solver.
  - unfold reported in Hr. destruct o as [[out fee]|e]; simpl in Hr; naive_solver.
Qed.

Lemma dispatch_finish (d : dispatch_params) idArg (c : TxChain) explain render st :
  wp (r ← run_d d idArg; finish c explain r (render r)) (λ st' r, ∃ evs,
    hist st' = hist st ++ evs ∧
    (EntryProfile (cell st) = d_profileName d →
     dispatched_call d idArg (EntryArgs (cell st)) (hist st) evs (cell st') r render)) st.
Proof.
  apply wp_bind. unfold wp at 1, dispatch. pose proof (dispatchWriteTx_spec is_print ks_text d idArg (hist st)) as Hd.
  destruct (dispatchWriteTx is_print ks_text d idArg (hist st)) as [tr rr]. destruct Hd as (evs & -> & Ha).
  unfold finish. destruct (r_err rr) as [e|] eqn:Herr.
  - assert (He : r_err rr ≠ None) by (by rewrite Herr). destruct explain as [path|].
    + apply wp_on_trace. simpl. pose proof (Explain_keeps (t_meta c) path e (hist st ++ evs)) as Hx.
      destruct (Explain (t_meta c) path e (hist st ++ evs)) as [tr' e'].
      assert (Htr : ∃ rest, tr' = (hist st ++ evs) ++ rest ∧ (rest = [] ∨ ∃ path, rest = [EfMeta path])).
      { destruct Hx as [[_ [-> | ->]]|(? & ? & ? & ? & _ & _ & _ & -> & _)]; [exists []; rewrite app_nil_r; auto| |]; eexists; eauto. }
      destruct Htr as (rest & -> & Hrest). exists (evs ++ rest). rewrite <- app_assoc. split; [done|]. intros Hp.
      exists evs, rest, rr. simpl. split_and!; try done.
    + apply wp_stop. simpl. exists evs. split; [done|]. intros Hp. exists evs, [], rr. rewrite app_nil_r. simpl. split_and!; try done.
      auto.
  - apply wp_ret. simpl. exists evs. split; [done|]. intros Hp. destruct (accounts_out _ _ _ _ _ Ha Herr) as [cr Hcr].
    exists evs, [], rr. rewrite app_nil_r, Hcr. simpl. split_and!; try done. intros res [= <-]. eauto.
Qed.

(** A handler that returned before it dispatched. *)
Definition refused_early {A} (evs : trace) (entry : Entry) (r : res tool_err A) : Prop :=
  evs = [] ∧ EntryResult entry = "tool_err" ∧ EntrySession entry = "" ∧ is_ok r = false.

Abbreviation callH := (callHandler is_print ks_text arg_text pick_text ParseCoins signer_for info).
Abbreviation runH := (runHandler is_print ks_text arg_text pick_text fold_key runes signer_for info).
Abbreviation call_d := (call_dispatch is_print pick_text signer_for info).
Abbreviation run_dd := (run_dispatch is_print pick_text fold_key runes signer_for info).

Lemma call_wp args srv resolver tr name :
  wp (callH args srv resolver) (λ st r, ∃ evs, hist st = tr ++ evs ∧
    (refused_early evs (cell st) r ∨ ∃ pn p q c,
       requireProfile is_print arg_text args srv = Ok (pn, p) ∧ call_args is_print arg_text ParseCoins args = Ok q ∧ resolver pn = Some c ∧
       dispatched_call (call_d c pn p q) (identity_arg args) (call_summary (cl_realm q) (cl_fn q) (List.length (cl_args q)) (cl_send q))
         tr evs (cell st) r (call_render is_print p q))) (mkSt tr (mkEntry name "" "" "tool_err" "")).
Proof.
  unfold callHandler. repeat wp_step.
  destruct (requireProfile is_print arg_text args srv) as [[pn p]|e] eqn:Ep; [|exists []; rewrite app_nil_r; split; [done|by left]].
  repeat wp_step. destruct (call_args _ _ _ args) as [q|e] eqn:Eq; [|exists []; rewrite app_nil_r; split; [done|by left]].
  repeat wp_step. destruct (resolver pn) as [c|] eqn:Ec; [|exists []; rewrite app_nil_r; split; [done|by left]].
  cbn [ok_or]. do 2 wp_step. eapply wp_mono; [apply dispatch_finish|].
  simpl. intros st r (evs & Hh & Hd). exists evs. split; [done|]. right. exists pn, p, q, c. split_and!; [done..|]. by apply Hd.
Qed.

Lemma run_wp args srv resolver tr name :
  wp (runH args srv resolver) (λ st r, ∃ evs, hist st = tr ++ evs ∧
    (refused_early evs (cell st) r ∨ ∃ pn p q c,
       requireProfile is_print arg_text args srv = Ok (pn, p) ∧ run_args arg_text args = Ok q ∧ resolver pn = Some c ∧
       dispatched_call (run_dd c pn p q) (identity_arg args) ("code_len=" +:+ format_int (len (rn_code q)))
         tr evs (cell st) r (run_render is_print pn p q))) (mkSt tr (mkEntry name "" "" "tool_err" "")).
Proof.
  unfold runHandler. repeat wp_step.
  destruct (requireProfile is_print arg_text args srv) as [[pn p]|e] eqn:Ep; [|exists []; rewrite app_nil_r; split; [done|by left]].
  repeat wp_step. destruct (run_args _ args) as [q|e] eqn:Eq; [|exists []; rewrite app_nil_r; split; [done|by left]].
  repeat wp_step. destruct (resolver pn) as [c|] eqn:Ec; [|exists []; rewrite app_nil_r; split; [done|by left]].
  cbn [ok_or]. do 2 wp_step. eapply wp_mono; [apply dispatch_finish|].
  simpl. intros st r (evs & Hh & Hd). exists evs. split; [done|]. right. exists pn, p, q, c. split_and!; [done..|]. by apply Hd.
Qed.

(** The address the chain authorizes an effect by. *)
Definition authorizer (e : effect) : option string :=
  match e with EfAgentOp addr => Some addr | EfSessionOp _ master => Some master | _ => None end.

Definition may_submit (l : list string) (addr : string) : Prop := l = [] ∨ ∃ a, a ∈ l ∧ equal_fold fold_key runes a addr = true.

Lemma submitter_ok allowed addr : requireRunSubmitter fold_key runes allowed addr = None → ∃ l, allowed = Ok l ∧ may_submit l addr.
Proof.
  unfold requireRunSubmitter, may_submit. destruct allowed as [l|]; [|done]. exists l. split; [done|].
  destruct (bool_decide (l = [])) eqn:E; simpl in *; b2p; [by left|]. right.
  destruct (existsb _ l) eqn:Ex; [|done]. apply existsb_exists in Ex as (a & Ha & He). exists a. by rewrite list_elem_of_In.
Qed.

Lemma run_authorized c pn p q idArg tr done_ rr ev addr : accounts (run_dd c pn p q) idArg tr done_ rr →
  ev ∈ done_ → authorizer ev = Some addr → ∃ t l, t_submitters c t = Ok l ∧ may_submit l addr.
Proof.
  assert (Hq : ∀ evs, filter (λ e, is_op e = true) evs = [] → ev ∈ evs → authorizer ev ≠ Some addr).
  { intros evs Hf Hin Hau. assert (ev ∈ filter (λ e, is_op e = true) evs) as Hx; [|rewrite Hf in Hx; by apply elem_of_nil in Hx].
    apply list_elem_of_filter. split; [|done]. by destruct ev. }
  assert (Hpre : ∀ b, (b : string) = b → authorizer (EfPrecheck b) = None) by done.
  intros [Ha|pre sg a _ _ _ -> -> Hc _ _ _ _ _ _|pre pk settle o _ _ _ -> -> Hc _ -> _ _ _ _ _] Hin Hau.
  - exfalso. by eapply Hq.
  - specialize (Hc _ eq_refl). simpl in Hc. apply submitter_ok in Hc as (l & Hl & Hm).
    rewrite !elem_of_app, list_elem_of_singleton in Hin. destruct Hin as [[Hin|Hin] | ->].
    + exfalso. eapply (Hq _ (quiet_precheck (run_dd c pn p q) a)); eauto.
    + exfalso. eapply (Hq _ (quiet_balance p (rn_simulate q) a)); eauto.
    + injection Hau as <-. eauto.
  - specialize (Hc _ eq_refl). simpl in Hc. apply submitter_ok in Hc as (l & Hl & Hm).
    rewrite elem_of_app, !elem_of_cons in Hin. destruct Hin as [[-> |Hin]|[-> |Hin]]; [done| | |].
    + exfalso. eapply (Hq _ (quiet_precheck (run_dd c pn p q) (pk_master pk))); eauto.
    + injection Hau as <-. eauto.
    + exfalso. destruct o as [[out fee]|e]; [|by apply elem_of_nil in Hin]. destruct (d_simulate _); [by apply elem_of_nil in Hin|].
      apply list_elem_of_singleton in Hin as ->. done.
Qed.

(** C29: gno_call and gno_run write exactly one audit record that tells the
    truth.  When the arguments are refused nothing was asked of the chain and
    the record says "tool_err".  Otherwise one dispatch with the parsed
    parameters happened and accounts for every effect but a possible status
    query that explains a failure; the record carries its outcome and session,
    the profile, and a summary that holds the number of call arguments, never
    their values, or the code's length, never the code.  A result goes back
    exactly when the dispatch succeeded, rendered from the signed operation's
    own outcome.  gno_run signs only for an address the chain's run_submitters
    admit, the agent's or the session's master's. *)
Theorem dispatched_tools_honest args srv resolver tr :
  (let '(tr', entry, r) := audited "gno_call" (callH args srv resolver) tr in ∃ evs, tr' = tr ++ evs ∧
   (refused_early evs entry r ∨ ∃ pn p q c,
      requireProfile is_print arg_text args srv = Ok (pn, p) ∧ call_args is_print arg_text ParseCoins args = Ok q ∧ resolver pn = Some c ∧
      dispatched_call (call_d c pn p q) (identity_arg args) (call_summary (cl_realm q) (cl_fn q) (List.length (cl_args q)) (cl_send q))
        tr evs entry r (call_render is_print p q))) ∧
  (let '(tr', entry, r) := audited "gno_run" (runH args srv resolver) tr in ∃ evs, tr' = tr ++ evs ∧
   (refused_early evs entry r ∨ ∃ pn p q c,
      requireProfile is_print arg_text args srv = Ok (pn, p) ∧ run_args arg_text args = Ok q ∧ resolver pn = Some c ∧
      dispatched_call (run_dd c pn p q) (identity_arg args) ("code_len=" +:+ format_int (len (rn_code q)))
        tr evs entry r (run_render is_print pn p q) ∧
      ∀ ev addr, ev ∈ evs → authorizer ev = Some addr → ∃ t l, t_submitters c t = Ok l ∧ may_submit l addr)).
Proof.
  split.
  - apply (audited_wp "gno_call" (callH args srv resolver) (λ tr' entry r, ∃ evs, tr' = tr ++ evs ∧ _)), call_wp.
  - pose proof (run_wp args srv resolver tr "gno_run") as H.
    apply (audited_wp "gno_run" (runH args srv resolver) (λ tr' entry r, ∃ evs, tr' = tr ++ evs ∧ _)).
    eapply wp_mono; [exact H|]. simpl. intros st r (evs & Hh & Hr). exists evs. split; [exact Hh|].
    destruct Hr as [Hr|(pn & p & q & c & H1 & H2 & H3 & H4)]; [by left|right]. exists pn, p, q, c.
    split_and!; try done. intros ev addr Hin Hau.
    destruct H4 as (done_ & rest & rr & -> & Hacc & _ & _ & _ & _ & Hok & Herr). apply elem_of_app in Hin as [Hin|Hin].
    + by eapply run_authorized.
    + exfalso. destruct r as [res|e].
      * destruct (Hok res eq_refl) as (-> & _). by apply elem_of_nil in Hin.
      * destruct (Herr eq_refl) as (_ & [-> |(path & ->)]); [by apply elem_of_nil in Hin|].
        apply list_elem_of_singleton in Hin as ->. done.
Qed.

Context (address : string → string → Profile → res ks_error string).
Abbreviation sendH := (keySendHandler is_print ks_text arg_text parse_float signer_for info address).

Definition is_send (e : effect) : bool := match e with EfSend _ _ _ => true | _ => false end.

(** A transfer between two of the profile's own keys. *)
Definition own_transfer (args : Args) (srv : Server) (resolver : string → option TxChain) (tr evs : trace) (entry : Entry) (ok : bool) : Prop :=
  ∃ pn p from to signer fromAddr toAddr amount c,
    requireProfile is_print arg_text args srv = Ok (pn, p) ∧ StringArg args "from" = Ok from ∧ StringArg args "to" = Ok to ∧
    Int64Arg parse_float args "amount" = Ok amount ∧ 0 < amount ≤ maxInt64 ∧ resolver pn = Some c ∧
    signer_for pn from p = Ok signer ∧ info signer = Ok fromAddr ∧ address pn to p = Ok toAddr ∧ fromAddr ≠ toAddr ∧
    funded (t_balance c) p false tr fromAddr ∧ evs = balance_read p false fromAddr ++ [EfSend fromAddr toAddr amount] ∧
    ok = is_ok (t_send c (tr ++ balance_read p false fromAddr) signer toAddr amount) ∧
    EntryResult entry = (if ok then "ok" else "broadcast_err") ∧ EntryProfile entry = pn ∧
    EntryArgs entry = "to=" +:+ to +:+ " amount=" +:+ format_int amount.

Definition send_call (args : Args) (srv : Server) (resolver : string → option TxChain) (tr evs : trace) (entry : Entry) (ok : bool) : Prop :=
  filter (λ e, is_send e = true) evs = [] ∧ EntryResult entry = "tool_err" ∧ ok = false ∨
  own_transfer args srv resolver tr evs entry ok.

(** gno_key_send moves ugnot between two of the profile's own keys only.
    It transfers at most once, a positive int64 amount, from the named key's
    address to the address of another existing key of the same profile, after
    the balance of a testnet key was read non-zero; the audit record carries the
    destination and the amount and says "ok" exactly when the transfer landed.
    Anything else transfers nothing, answers an error and is recorded as
    "tool_err". *)
Theorem keySendHandler_own_keys args srv resolver tr :
  let '(tr', entry, r) := audited "gno_key_send" (sendH args srv resolver) tr in
  ∃ evs, tr' = tr ++ evs ∧ send_call args srv resolver tr evs entry (is_ok r).
Proof.
  apply (audited_wp "gno_key_send" (sendH args srv resolver) (λ tr' entry r, ∃ evs, tr' = tr ++ evs ∧ send_call args srv resolver tr evs entry (is_ok r))).
  assert (Hno : ∀ tr' entry evs, tr' = tr ++ evs → EntryResult entry = "tool_err" → filter (λ e, is_send e = true) evs = [] →
    ∃ evs, tr' = tr ++ evs ∧ send_call args srv resolver tr evs entry false).
  { intros tr' entry evs -> Hr Hf. exists evs. split; [done|]. by left. }
  unfold keySendHandler, arg_err. repeat wp_step.
  destruct (requireProfile is_print arg_text args srv) as [[pn p]|e] eqn:Ep; [|apply (Hno _ _ []); by rewrite ?app_nil_r].
  repeat wp_step. destruct (StringArg args "from") as [from|e] eqn:Efrom; cbn [map_err]; [|apply (Hno _ _ []); by rewrite ?app_nil_r].
  repeat wp_step. destruct (StringArg args "to") as [to|e] eqn:Eto; cbn [map_err]; [|apply (Hno _ _ []); by rewrite ?app_nil_r].
  repeat wp_step. destruct (check _ _) eqn:E1; [|apply (Hno _ _ []); by rewrite ?app_nil_r].
  repeat wp_step. destruct (Int64Arg parse_float args "amount") as [amount|e] eqn:Eam; cbn [map_err]; [|apply (Hno _ _ []); by rewrite ?app_nil_r].
  repeat wp_step. destruct (check (0 <? amount) _) eqn:E2; [|apply (Hno _ _ []); by rewrite ?app_nil_r].
  apply check_Ok in E2. b2p. pose proof (Int64Arg_range _ _ _ _ Eam) as Hr64. unfold int64 in Hr64.
  repeat wp_step. destruct (address pn to p) as [toAddr|e] eqn:Ea; cbn [map_err]; [|apply (Hno _ _ []); by rewrite ?app_nil_r].
  repeat wp_step. destruct (resolver pn) as [c|] eqn:Ec; cbn [ok_or]; [|apply (Hno _ _ []); by rewrite ?app_nil_r].
  wp_step. apply wp_on_trace. cbn [hist cell].
  pose proof (acquireAgentSigner_spec is_print ks_text (t_balance c) "gno_key_send" "create or fund it with gno_key_generate / gno_faucet_fund" pn
    (signer_for pn from p) info p false tr) as Hq.
  destruct (acquireAgentSigner _ _ _ _ _ _ _ _ _ _ _) as [tr1 [[signer fromAddr]|e]].
  2: { destruct Hq as [(adr & [-> | ->]) _]; [by apply (Hno _ _ []); rewrite ?app_nil_r|]. eapply Hno; [done|done|].
       unfold balance_read. by case_match. }
  destruct Hq as [_ Hq]. destruct (Hq signer fromAddr eq_refl) as (Hsig & Hinfo & -> & Hfund).
  repeat wp_step. destruct (decide (fromAddr = toAddr)) as [Heq|Hne].
  { rewrite (bool_decide_eq_true_2 (fromAddr = toAddr)) by done. eapply Hno; [done|done|]. unfold balance_read. by case_match. }
  rewrite (bool_decide_eq_false_2 (fromAddr = toAddr)) by done. cbn [check negb]. repeat wp_step.
  destruct (t_send c (tr ++ balance_read p false fromAddr) signer toAddr amount) as [res|e] eqn:Es; repeat wp_step.
  all: exists (balance_read p false fromAddr ++ [EfSend fromAddr toAddr amount]); split; [by rewrite app_assoc|]; right.
  all: exists pn, p, from, to, signer, fromAddr, toAddr, amount, c; rewrite Es; split_and!; try done; lia.
Qed.
End honest.

(** Parameters that answer every question, for the runs below. *)
Definition toy_tx : TxChain string := {|
  t_balance := λ _ _, Ok 7; t_meta := λ _ _, Err ""; t_submitters := λ _, Ok ["g1m"];
  t_pick_call := λ _ _, Ok (mkPicked "g1s" "priv" "g1m"); t_pick_run := λ _, Ok (mkPicked "g1s" "priv" "g1m");
  t_call := λ _ _ _ _ _ _ _, Err (OpFailed "boom"); t_call_user := λ _ _ _ _ _ _ _ _, Ok (ChainTypes.mkTx "h" 2 "out" 1 2 30 false);
  t_run := λ _ _ _ _, Ok (ChainTypes.mkTx "h" 2 "out" 1 2 30 false); t_run_user := λ _ _ _ _ _, Ok (ChainTypes.mkTx "h" 2 "out" 1 2 30 false);
  t_send := λ _ _ _ _, Ok (ChainTypes.mkTx "h" 2 "" 1 2 30 false) |}.

Definition toy_srv : Server := NewServer {["p" := endpoint "https://rpc.test5.gno.land" "test5"]} "".

Definition toy_run (identity : string) : trace * Entry * res tool_err Result :=
  audited "gno_run"
    (runHandler (λ _, true) (λ _, "") (λ _, "") (λ _, "") id (λ s, (λ a, Z.of_N (N_of_ascii a)) <$> list_ascii_of_string s)
       (λ _ _ _, Ok "sg") (λ sg, Ok ("g1" +:+ sg))
       {["profile" := JStr "p"; "code" := JStr "package main"; "identity" := JStr identity]} toy_srv (λ _, Some toy_tx)) [].

(** The session's master may submit, the agent may not. *)
Example toy_run_session : fst (fst (toy_run "session")) = [EfPick; EfPrecheck "g1m"; EfSessionOp "g1s" "g1m"; EfSettle "g1s" 30].
Proof. vm_compute. reflexivity. Qed.
Example toy_run_agent : fst (fst (toy_run "agent")) = [EfPrecheck "g1sg"] ∧ EntryResult (snd (fst (toy_run "agent"))) = "tool_err".
Proof. vm_compute. split; reflexivity. Qed.
