(* ===== verification/SessionTools.v ===== *)
(** * Session tools

    [internal/tools/write/session_propose.go], [session_revoke.go] and
    [auth_status.go]: the tools that propose, revoke and list chain-bound
    sessions, over the manager of [SessionManager] and the policy of [Scope].
    The manager's memory and disk are passed explicitly; the chain's answers,
    the clock and the key generator are arguments. *)
From S2P Require Import Prelude GoText GoTime Profiles Scope ChainTypes ServerCore Handlers SessionManager.
From stdpp Require Import prelude strings gmap list relations.
From Stdlib Require Import ZArith Lia Ascii String.
Local Open Scope Z_scope.

(** ** Data *)

(** What a fresh ed25519 pair shows: its address, its bech32 public key and
    its private key. *)
Record Keypair := mkKeypair { kp_addr : string; kp_pub : string; kp_priv : string }.

(** A profile's chain client, as far as these tools use it. *)
Record SessChain := mkSessChain { s_fee : res string Z; s_query : SessionQuery }.

Definition writesBudgetNote : string :=
  "That count is an upper bound: writes heavy enough to size above the floor gas limit cost " +:+
  "proportionally more, and a write that stores new state also draws the storage deposit it locks from the limit. " +:+
  "Every write is re-checked against the remaining limit before broadcast.".

Definition strings_json (l : list string) : json := JArr (JStr <$> l).

(** A slice that may be nil. *)
Definition nilable (b : bool) (l : list string) : json := if b then strings_json l else JNull.

Definition format_bool (b : bool) : string := if b then "true" else "false".

Definition profileSessionEligible (p : Profile) : bool := negb (IsReadOnly p).

Section session_tools.
Context (is_print : Z → bool) (arg_text : arg_error → string).
Context (AddressFromBech32 : string → bool) (IsRealmPath : string → bool).
Context (scope_text : scope_error → string) (mgr_text : manager_error → string).
Context {D : Type} (store : StoreOps D).

(** ** gno_session_propose *)

Definition seed_space (c : ascii) : bool := one_of (" " +:+ String "009" (String "013" (String "010" ""))) c.

(** Neither refusal repeats the value. *)
Definition validateUserMasterAddress (s : string) : res string unit :=
  if str_exists seed_space s then
    Err "that looks like a seed phrase, not an address — paste ONLY your PUBLIC g1... address (one token, no spaces); never a private key or seed phrase"
  else if negb (AddressFromBech32 s) then
    Err "invalid master_address: want your PUBLIC bech32 address (starts with g1), not a private key or seed phrase"
  else Ok tt.

Definition read_only_error (pn : string) (p : Profile) : tool_err :=
  ToolError "chain_read_only"
    ("profile " +:+ quote is_print pn +:+ " targets chain-id " +:+ quote is_print (ChainID p) +:+
     ", which is read-only — no session can be opened on it; propose against a dev or testnet profile instead")
    (extra2 "profile" pn "chain_id" (ChainID p)).

Definition no_master (pn : string) : tool_err :=
  ToolError "no_master_address"
    ("profile " +:+ quote is_print pn +:+
     " has no master-address — pass master_address (your PUBLIC g1... address, NOT a private key or seed phrase) so the session can act as you; or set master-address in profiles.toml")
    (extra1 "profile" pn).

(** The account the session binds to. *)
Definition master_of (pn : string) (p : Profile) (userMaster : string) : res tool_err string :=
  master ← (if bool_decide (userMaster = "") then mret (Profiles.MasterAddress p)
            else
              _ ← map_err (λ e, ToolError "invalid_master_address" e (extra1 "profile" pn)) (validateUserMasterAddress userMaster);
              mret userMaster);
  _ ← check (negb (bool_decide (master = ""))) (no_master pn);
  mret master.

(** What a proposal is made of, once the arguments, the chain's fee and the
    policy agree; [pr_paths_given] tells a nil allow_paths. *)
Record proposal := mkProposal {
  pr_name : string; pr_profile : Profile; pr_master : string; pr_fee : Z; pr_scope : Scope;
  pr_warnings : list string; pr_paths_given : bool;
}.

Definition propose_request (args : Args) (srv : Server) (resolver : string → option SessChain) : res tool_err proposal :=
  '(pn, p) ← requireProfile is_print arg_text args srv;
  _ ← check (profileSessionEligible p) (read_only_error pn p);
  allowPaths ← arg_err arg_text (StringSliceArg args "allow_paths");
  allowRun ← arg_err arg_text (BoolArg args "allow_run");
  spendLimit ← arg_err arg_text (StringArg args "spend_limit");
  expiresIn ← arg_err arg_text (StringArg args "expires_in");
  userMaster ← arg_err arg_text (StringArg args "master_address");
  master ← master_of pn p userMaster;
  c ← ok_or (PlainError ("gno_session_propose: no chain client for profile " +:+ quote is_print pn)) (resolver pn);
  fee ← map_err (λ e, PlainError ("gno_session_propose: query live gas fee: " +:+ e)) (s_fee c);
  '(scope, warnings) ← map_err (λ e, PlainError ("gno_session_propose: resolve scope: " +:+ scope_text e))
      (ResolveScope IsRealmPath (mkScopeArgs spendLimit expiresIn (default [] allowPaths) allowRun) p fee);
  mret (mkProposal pn p master fee scope warnings (bool_decide (is_Some allowPaths))).

Definition spend_math (q : proposal) : string :=
  match WritesAtFee (pr_scope q) (pr_fee q) with
  | None => ""
  | Some writes =>
      NL +:+ "Spend math: each write consumes its full offered gas fee — currently " +:+ format_int (pr_fee q) +:+
      "ugnot per light write at this chain's live gas price — from the spend limit, so " +:+ SpendLimit (pr_scope q) +:+
      " covers ~" +:+ format_int writes +:+ " light write(s). " +:+ writesBudgetNote +:+ NL
  end.

Definition lines (l : list string) : string := foldr (λ s acc, s +:+ NL +:+ acc) "" l.

Definition propose_result (q : proposal) (addr pub cmd : string) : Result :=
  let scope := pr_scope q in
  mkResult
    ("Session proposed for profile " +:+ quote is_print (pr_name q) +:+ "." +:+ NL +:+ NL +:+
     "Proposed scope:" +:+ NL +:+
     "  - allow_paths: " +:+ GoText.join ", " (AllowPaths scope) +:+ NL +:+
     "  - allow_run: " +:+ format_bool (AllowRun scope) +:+ NL +:+
     (if bool_decide (SpendLimit scope = "") then "" else "  - spend_limit: " +:+ SpendLimit scope +:+ NL) +:+
     (if 0 <? ExpiresIn scope then "  - expires_in: " +:+ format_duration (ExpiresIn scope) +:+ NL else "") +:+
     "  - session_address: " +:+ addr +:+ NL +:+
     spend_math q +:+
     (if bool_decide (pr_warnings q = []) then "" else NL +:+ lines (pr_warnings q)) +:+
     NL +:+ "To authorize, run this in a terminal where your master key is available:" +:+ NL +:+ NL +:+
     "```" +:+ NL +:+ cmd +:+ NL +:+ "```" +:+ NL +:+ NL +:+
     "After you run that, retry your original tool call. gnomcp will detect the active" +:+ NL +:+
     "session on chain and use it to sign." +:+ NL) "" "" ""
    ([("state", JStr "pending"); ("profile", JStr (pr_name q)); ("session_address", JStr addr); ("session_pubkey", JStr pub);
      ("scope", JObj [("allow_paths", nilable (pr_paths_given q) (AllowPaths scope)); ("allow_run", JBool (AllowRun scope));
                      ("spend_limit", JStr (SpendLimit scope)); ("expires_in", JStr (format_duration (ExpiresIn scope)))]);
      ("auth_command", JStr cmd);
      ("clamp_warnings", nilable (negb (bool_decide (pr_warnings q = []))) (pr_warnings q));
      ("per_write_fee_ugnot", JNum (format_int (pr_fee q)))]
     ++ match WritesAtFee scope (pr_fee q) with
        | Some writes => [("writes_budget", JNum (format_int writes)); ("writes_budget_note", JStr writesBudgetNote)]
        | None => []
        end).

(** [now] is the clock when the session is recorded, [now'] when the command
    is written. *)
Definition sessionProposeHandler (args : Args) (srv : Server) (resolver : string → option SessChain)
    (NewKeypair : res string Keypair) (now now' : Time) (m : Sessions) (d : D) : Sessions * D * res tool_err Result :=
  match propose_request args srv resolver with
  | Err e => (m, d, Err e)
  | Ok q =>
      match NewKeypair with
      | Err e => (m, d, Err (PlainError ("gno_session_propose: generate keypair: " +:+ e)))
      | Ok kp =>
          match AddPending store m d (pr_name q) (kp_addr kp) (kp_pub kp) (kp_priv kp) (pr_scope q) (pr_master q) now with
          | (m, d, Err e) => (m, d, Err (PlainError ("gno_session_propose: persist pending session: " +:+ mgr_text e)))
          | (m, d, Ok _) =>
              (m, d, Ok (propose_result q (kp_addr kp) (kp_pub kp)
                           (FormatGnokeyCreateCommand (pr_profile q) (kp_pub kp) (pr_scope q) (pr_fee q) now')))
          end
      end
  end.

(** ** gno_session_revoke *)

Definition manual_revoke (p : Profile) : string :=
  "gnokey maketx session revoke" +:+ CONT +:+ "  --pubkey <session-pubkey>" +:+ CONT +:+
  "  --remote " +:+ RPCURL p +:+ CONT +:+ "  --chainid " +:+ ChainID p +:+ CONT +:+ "  <your-master-key-name>".

Definition session_unmanaged (pn : string) (p : Profile) (addr : string) : tool_err :=
  ToolError "session_unmanaged"
    ("session " +:+ quote is_print addr +:+ " is not managed by gnomcp for profile " +:+ quote is_print pn +:+ ". " +:+
     "To revoke manually, run:" +:+ NL +:+ NL +:+ "```" +:+ NL +:+ manual_revoke p +:+ NL +:+ "```")
    {["profile" := JStr pn; "session_address" := JStr addr; "manual_command" := JStr (manual_revoke p)]}.

Definition fee_unknown : string :=
  "NOTE: could not query the live gas price; --gas-fee shows the floor — if the chain rejects the command with an insufficient-fee error, raise --gas-fee and rerun." +:+ NL +:+ NL.

(** The fee to print, and the note when it is a guess. *)
Definition revoke_fee (client : option SessChain) : Z * string :=
  match client with
  | None => (0, "")
  | Some c => match s_fee c with Ok fee => (fee, "") | Err _ => (0, fee_unknown) end
  end.

Definition revoke_result (pn addr pub cmd note : string) : Result :=
  mkResult
    ("Session revoke command for profile " +:+ quote is_print pn +:+ "." +:+ NL +:+ NL +:+
     "Session address: " +:+ addr +:+ NL +:+
     NL +:+ "To revoke, run this in a terminal where your master key is available:" +:+ NL +:+ NL +:+
     "```" +:+ NL +:+ cmd +:+ NL +:+ "```" +:+ NL +:+ NL +:+ note +:+
     "After running the command, the session key will be invalidated on chain." +:+ NL) "" "" ""
    [("state", JStr "revoke_pending"); ("profile", JStr pn); ("session_address", JStr addr); ("session_pubkey", JStr pub);
     ("revoke_command", JStr cmd)].

(** It reads the manager and changes nothing. *)
Definition sessionRevokeHandler (args : Args) (srv : Server) (resolver : string → option SessChain) (m : Sessions) :
    res tool_err Result :=
  '(pn, p) ← requireProfile is_print arg_text args srv;
  addr ← arg_err arg_text (StringArg args "session_address");
  _ ← check (negb (bool_decide (addr = ""))) (PlainError "session_address: required");
  mt ← ok_or (session_unmanaged pn p addr) (SessionManager.Get m pn addr);
  let '(fee, note) := revoke_fee (resolver pn) in
  let pub := SessionPubkey mt in
  mret (revoke_result pn addr pub (FormatGnokeyRevokeCommand p pub fee) note).

(** ** gno_auth_status *)

Section status.
Context (client : option SessChain).
(** [time.Now().Unix()] when a session is looked at. *)
Context (now : string → Z).

(** One listed session: what the manager becomes, and the session as shown. *)
Definition refresh (pn : string) (m : Sessions) (d : D) (mt : SessionMeta) : Sessions * D * SessionMeta :=
  match client with
  | None => (m, d, mt)
  | Some c =>
      if bool_decide (MasterAddress mt = "") then (m, d, mt)
      else match s_query c (MasterAddress mt) (SessionAddress mt) with
      | Err _ => (m, d, mt)
      | Ok st =>
          if Active st && bool_decide (mState mt = StatePending) then
            match MarkActive store m d pn (SessionAddress mt) st with
            | (m, d, Ok _) => (m, d, set_state mt StateActive)
            | (m, d, Err _) => (m, d, mt)
            end
          else if negb (Active st) && bool_decide (mState mt = StateActive) then
            let newState := if (0 <? ExpiresAt mt) && (ExpiresAt mt <=? now (SessionAddress mt)) then StateExpired else StateRevoked in
            match MarkInactive store m d pn (SessionAddress mt) newState with
            | (m, d, Ok _) => (m, d, set_state mt newState)
            | (m, d, Err _) => (m, d, mt)
            end
          else (m, d, mt)
      end
  end.

Fixpoint refresh_all (pn : string) (m : Sessions) (d : D) (l : list SessionMeta) : Sessions * D * list SessionMeta :=
  match l with
  | [] => (m, d, [])
  | mt :: l =>
      let '(m, d, mt) := refresh pn m d mt in
      let '(m, d, l) := refresh_all pn m d l in
      (m, d, mt :: l)
  end.
End status.

Definition status_entry (mt : SessionMeta) : string :=
  "[" +:+ mState mt +:+ "] " +:+ SessionAddress mt +:+ NL +:+
  "  paths:   " +:+ GoText.join ", " (mAllowPaths mt) +:+ NL +:+
  (if bool_decide (mSpendLimit mt = "") then "" else "  limit:   " +:+ mSpendLimit mt +:+ NL) +:+
  (if bool_decide (SpendRemaining mt = "") then "" else "  remaining: " +:+ SpendRemaining mt +:+ NL) +:+ NL.

Definition status_object (mt : SessionMeta) : json :=
  JObj [("state", JStr (mState mt)); ("session_address", JStr (SessionAddress mt)); ("session_pubkey", JStr (SessionPubkey mt));
        ("allow_paths", strings_json (mAllowPaths mt)); ("spend_limit", JStr (mSpendLimit mt));
        ("spend_remaining", JStr (SpendRemaining mt)); ("expires_at", JNum (format_int (ExpiresAt mt)))].

Definition status_result (pn : string) (masterSet : bool) (infos : list SessionMeta) : Result :=
  mkResult
    ("Auth status for profile " +:+ quote is_print pn +:+ NL +:+ NL +:+
     (if bool_decide (infos = []) && negb masterSet then
        "No sessions found — no active session for profile " +:+ quote is_print pn +:+ "." +:+ NL +:+ NL +:+
        "This profile has no master-address, so write-as-user is unavailable and sessions " +:+
        "cannot be proposed. Set master-address for the profile in profiles.toml to enable " +:+
        "it (gnomcp reads the file at startup). Agent-key writes are unaffected." +:+ NL
      else if bool_decide (infos = []) then
        "No sessions found — no active session for profile " +:+ quote is_print pn +:+ "." +:+ NL +:+ NL +:+
        "Use gno_session_propose to create one." +:+ NL
      else foldr (λ mt acc, status_entry mt +:+ acc) "" infos)) "" "" ""
    [("profile", JStr pn); ("master_address_set", JBool masterSet); ("sessions", JArr (status_object <$> infos))].

Context (order : gmap string sessionState → list (string * sessionState)).

Definition authStatusHandler (args : Args) (srv : Server) (resolver : string → option SessChain) (now : string → Z)
    (m : Sessions) (d : D) : Sessions * D * res tool_err Result :=
  match requireProfile is_print arg_text args srv with
  | Err e => (m, d, Err e)
  | Ok (pn, p) =>
      let '(m, d, infos) := refresh_all (resolver pn) now pn m d (ListForProfile order m pn) in
      (m, d, Ok (status_result pn (negb (bool_decide (Profiles.MasterAddress p = ""))) infos))
  end.
End session_tools.

(** ** Status, session by session *)

Section refresh_facts.
Context {D : Type} (store : StoreOps D).

(** What a status call makes of one session it lists. *)
Definition transition (client : option SessChain) (now : string → Z) (ss : sessionState) : sessionState :=
  let mt := meta ss in
  match client with
  | None => ss
  | Some c =>
      if bool_decide (MasterAddress mt = "") then ss
      else match s_query c (MasterAddress mt) (SessionAddress mt) with
      | Err _ => ss
      | Ok st =>
          if Active st && bool_decide (mState mt = StatePending) then SessionManager.mkState StateActive (applyStatus mt st)
          else if negb (Active st) && bool_decide (mState mt = StateActive) then
            let st := if (0 <? ExpiresAt mt) && (ExpiresAt mt <=? now (SessionAddress mt)) then StateExpired else StateRevoked in
            SessionManager.mkState st (set_state mt st)
          else ss
      end
  end.

(** A session as shown: as the manager had it, or with its new state. *)
Definition shown (client : option SessChain) (now : string → Z) (ss : sessionState) (mt : SessionMeta) : Prop :=
  mt = meta ss ∨ (mt = set_state (meta ss) (mState (meta (transition client now ss))) ∧ state (transition client now ss) = mState mt).

Lemma refresh_spec client now pn m d ss m' d' mt' :
  getState m pn (SessionAddress (meta ss)) = Some ss →
  refresh store client now pn m d (meta ss) = (m', d', mt') →
  (∀ p a, getState m' p a = if decide (p = pn ∧ a = SessionAddress (meta ss)) then Some (transition client now ss) else getState m p a) ∧
  shown client now ss mt'.
Proof.
  intros Hg. unfold refresh, shown, transition.
  assert (Hsame : ∀ p a, getState m p a = if decide (p = pn ∧ a = SessionAddress (meta ss)) then Some ss else getState m p a).
  { intros p a. case_decide as E; [|done]. by destruct E as [-> ->]. }
  assert (Hset : ∀ ss' p a, getState (setState m pn (SessionAddress (meta ss)) ss') p a =
    if decide (p = pn ∧ a = SessionAddress (meta ss)) then Some ss' else getState m p a).
  { intros ss' p a. rewrite getState_set. case_decide as E1; case_decide as E2; try done; destruct_and!; subst; tauto. }
  destruct client as [c|]; [|intros [= <- <- <-]; auto].
  destruct (decide (MasterAddress (meta ss) = "")); [rewrite bool_decide_eq_true_2 by done; intros [= <- <- <-]; auto|].
  rewrite bool_decide_eq_false_2 by done. destruct (s_query c _ _) as [st|e]; [|intros [= <- <- <-]; auto].
  destruct (Active st && bool_decide (mState (meta ss) = StatePending)).
  - unfold MarkActive. rewrite Hg. destruct (persist _ _ _ _) as [d1 [u|e]]; intros [= <- <- <-]; split; auto.
  - destruct (negb (Active st) && bool_decide (mState (meta ss) = StateActive)); [|intros [= <- <- <-]; auto].
    unfold MarkInactive. rewrite Hg. destruct (persist _ _ _ _) as [d1 [u|e]]; intros [= <- <- <-]; split; auto.
Qed.

Lemma refresh_all_spec client now pn l : ∀ m d m' d' l',
  NoDup ((λ ss, SessionAddress (meta ss)) <$> l) → Forall (λ ss, getState m pn (SessionAddress (meta ss)) = Some ss) l →
  refresh_all store client now pn m d (meta <$> l) = (m', d', l') →
  (∀ p a, getState m' p a =
     if decide (p = pn ∧ a ∈ (λ ss, SessionAddress (meta ss)) <$> l) then transition client now <$> getState m p a else getState m p a) ∧
  Forall2 (shown client now) l l'.
Proof.
  induction l as [|ss l IH]; intros m d m' d' l' Hnd Hl; rewrite ?fmap_cons; cbn [refresh_all].
  { intros [= <- <- <-]. split; [|constructor]. intros p a. case_decide as E; [|done]. destruct E as [_ E]. by apply elem_of_nil in E. }
  rewrite fmap_cons in Hnd. inversion Hnd as [|? ? Hni Hnd']; subst. inversion Hl as [|? ? Hss Hl']; subst.
  destruct (refresh store client now pn m d (meta ss)) as [[m1 d1] mt1] eqn:E1.
  destruct (refresh_all store client now pn m1 d1 (meta <$> l)) as [[m2 d2] l2] eqn:E2. intros [= <- <- <-].
  destruct (refresh_spec _ _ _ _ _ _ _ _ _ Hss E1) as [Hg1 Hs1].
  destruct (IH m1 d1 m2 d2 l2 Hnd') as [Hg2 Hs2]; [|done|].
  { apply Forall_forall. intros s0 Hin. rewrite Hg1. rewrite decide_False; [by apply (Forall_forall _ _) with (x := s0) in Hl'|].
    intros [_ He]. apply Hni. rewrite <- He. apply list_elem_of_fmap. eauto. }
  split; [|by constructor]. intros p a. rewrite Hg2, Hg1. clear Hg1 Hg2 E1 E2.
  destruct (decide (p = pn ∧ a = SessionAddress (meta ss))) as [[-> ->]|Hne].
  - rewrite decide_False by tauto. rewrite decide_True by (split; [done|left]). by rewrite Hss.
  - case_decide as E3; case_decide as E4; try done.
    + exfalso. apply E4. split; [tauto|]. right. tauto.
    + exfalso. destruct E4 as [-> E4]. apply elem_of_cons in E4 as [->|E4]; tauto.
Qed.
End refresh_facts.

(** ** Tool calls as steps *)

Section calls.
Context (is_print : Z → bool) (arg_text : arg_error → string).
Context (AddressFromBech32 : string → bool) (IsRealmPath : string → bool).
Context (scope_text : scope_error → string) (mgr_text : manager_error → string).
Context {D : Type} (store : StoreOps D).

Abbreviation propose := (sessionProposeHandler is_print arg_text AddressFromBech32 IsRealmPath scope_text mgr_text store).
Abbreviation status := (authStatusHandler is_print arg_text store).

(** What the chain says of the sessions of the profile a status call names. *)
Definition told (args : Args) (srv : Server) (resolver : string → option SessChain) : Reported := λ p ma a st,
  ∃ pr c, requireProfile is_print arg_text args srv = Ok (p, pr) ∧ resolver p = Some c ∧ s_query c ma a = Ok st ∧ Active st = true.

(** A call of gno_session_propose, whose fresh key is no known session's, or
    of gno_auth_status, over the manager's world. *)
Inductive session_call : World D → World D → Prop :=
  | call_propose w args srv resolver kp now now' m' d' r :
      (∀ k p, kp = Ok k → getState (mem w) p (kp_addr k) = None) →
      propose args srv resolver kp now now' (mem w) (dsk w) = (m', d', r) →
      session_call w (mkWorld m' d' (snaps w) (copies w) (reported w))
  | call_status w order args srv resolver now m' d' r :
      (∀ ps, order ps ≡ₚ map_to_list ps) →
      status order args srv resolver now (mem w) (dsk w) = (m', d', r) →
      session_call w (mkWorld m' d' (snaps w) (copies w)
                        (λ p ma a st, reported w p ma a st ∨ told args srv resolver p ma a st)).

(** *** Proposals *)

(** The record of a proposed session. *)
Definition pending_meta (q : proposal) (kp : Keypair) (now : Time) : SessionMeta :=
  mkSession (kp_addr kp) (kp_pub kp) (pr_master q) (kp_priv kp) false (AllowPaths (pr_scope q)) (AllowRun (pr_scope q))
    (SpendLimit (pr_scope q)) (SpendLimit (pr_scope q)) (unix (time_add now (ExpiresIn (pr_scope q)))) (unix now) StatePending.

Abbreviation request := (propose_request is_print arg_text AddressFromBech32 IsRealmPath scope_text).

Lemma propose_inv args srv resolver kpr now now' m d m' d' r :
  propose args srv resolver kpr now now' m d = (m', d', r) →
  match r with
  | Err _ => m' = m ∧ (d' = d ∨ ∃ q kp e, request args srv resolver = Ok q ∧ kpr = Ok kp ∧
      sw store d (pr_name q) (pending_meta q kp now) = (d', Some e))
  | Ok res => ∃ q kp, request args srv resolver = Ok q ∧ kpr = Ok kp ∧
      sw store d (pr_name q) (pending_meta q kp now) = (d', None) ∧
      m' = insertState m (pr_name q) (pending_meta q kp now) StatePending ∧
      res = propose_result is_print q (kp_addr kp) (kp_pub kp)
              (FormatGnokeyCreateCommand (pr_profile q) (kp_pub kp) (pr_scope q) (pr_fee q) now')
  end.
Proof.
  unfold sessionProposeHandler. destruct (request args srv resolver) as [q|e]; [|intros [= <- <- <-]; auto].
  destruct kpr as [kp|e]; [|intros [= <- <- <-]; auto]. unfold AddPending. fold (pending_meta q kp now).
  destruct (sw store d (pr_name q) (pending_meta q kp now)) as [d1 [e|]] eqn:E; intros [= <- <- <-].
  - eauto 10.
  - exists q, kp. split_and!; done.
Qed.

(** The account a proposal binds to: the profile's, or the user's word for it. *)
Definition bound_account (args : Args) (p : Profile) (master : string) : Prop :=
  master ≠ "" ∧ ((StringArg args "master_address" = Ok "" ∧ master = Profiles.MasterAddress p) ∨
                 (StringArg args "master_address" = Ok master ∧ AddressFromBech32 master = true ∧ str_exists seed_space master = false)).

Lemma master_of_Ok args pn p u master : StringArg args "master_address" = Ok u →
  master_of is_print AddressFromBech32 pn p u = Ok master → bound_account args p master.
Proof.
  intros Ha H. unfold master_of, validateUserMasterAddress in H.
  destruct (decide (u = "")) as [->|Hu].
  - rewrite bool_decide_eq_true_2 in H by done. inv_res. b2p. split; [done|]. by left.
  - rewrite bool_decide_eq_false_2 in H by done.
    destruct (str_exists seed_space u) eqn:Es; [done|]. destruct (AddressFromBech32 u) eqn:Eb; [|done]. simpl in H.
    inv_res. b2p. split; [done|]. by right.
Qed.

(** The scope the call's own arguments ask for. *)
Definition asked_scope (args : Args) (a : ScopeArgs) : Prop :=
  StringArg args "spend_limit" = Ok (aSpendLimit a) ∧ StringArg args "expires_in" = Ok (aExpiresIn a) ∧
  (∃ paths, StringSliceArg args "allow_paths" = Ok paths ∧ aAllowPaths a = default [] paths) ∧
  BoolArg args "allow_run" = Ok (aAllowRun a).

Lemma request_Ok args srv resolver q : request args srv resolver = Ok q →
  cfg srv !! pr_name q = Some (pr_profile q) ∧ ChainIDWritable (ChainID (pr_profile q)) = true ∧
  bound_account args (pr_profile q) (pr_master q) ∧
  ∃ c sargs, asked_scope args sargs ∧ resolver (pr_name q) = Some c ∧ s_fee c = Ok (pr_fee q) ∧
    ResolveScope IsRealmPath sargs (pr_profile q) (pr_fee q) = Ok (pr_scope q, pr_warnings q).
Proof.
  unfold propose_request. intros H. apply bind_Ok in H as ([pn p] & Hp & H). apply requireProfile_Ok in Hp as (_ & _ & Hp).
  inv_res. rewrite arg_err_Ok in *. unfold profileSessionEligible, IsReadOnly in *. b2p. cbn [pr_name pr_profile pr_master pr_fee pr_scope pr_warnings].
  split_and!; [done|done| |].
  - by eapply master_of_Ok.
  - eexists _, _. split; [|by eauto]. unfold asked_scope. cbn. eauto 10.
Qed.

(** Other arguments read the same when one is set. *)
Section reads.
Context (args : Args) (k n : string) (v : json) (Hn : n ≠ k).

Lemma StringArg_insert : StringArg (<[k := v]> args) n = StringArg args n.
Proof using Hn. unfold StringArg. by rewrite lookup_insert_ne by congruence. Qed.
Lemma BoolArg_insert : BoolArg (<[k := v]> args) n = BoolArg args n.
Proof using Hn. unfold BoolArg. by rewrite lookup_insert_ne by congruence. Qed.
Lemma StringSliceArg_insert : StringSliceArg (<[k := v]> args) n = StringSliceArg args n.
Proof using Hn. unfold StringSliceArg. by rewrite lookup_insert_ne by congruence. Qed.
End reads.

Lemma requireProfile_insert args srv n v : "profile" ≠ n →
  requireProfile is_print arg_text (<[n := v]> args) srv = requireProfile is_print arg_text args srv.
Proof. intros H. unfold requireProfile. by rewrite StringArg_insert. Qed.

Lemma request_of_seed args srv : ∃ e, ∀ resolver seed, str_exists seed_space seed = true →
  request (<["master_address" := JStr seed]> args) srv resolver = Err e.
Proof.
  assert (Hm : ∀ pn p, ∃ e, ∀ seed, str_exists seed_space seed = true → master_of is_print AddressFromBech32 pn p seed = Err e).
  { intros pn p. eexists. intros seed Hs. unfold master_of, validateUserMasterAddress.
    rewrite bool_decide_eq_false_2 by (by intros ->). rewrite Hs. reflexivity. }
  assert (Hk : ∀ seed, StringArg (<["master_address" := JStr seed]> args : Args) "master_address" = Ok seed).
  { intros seed. unfold StringArg. by rewrite lookup_insert_eq. }
  unfold propose_request.
  destruct (requireProfile is_print arg_text args srv) as [[pn p]|e] eqn:E1.
  2: { exists e. intros. by rewrite requireProfile_insert, E1. }
  destruct (check (profileSessionEligible p) (read_only_error is_print pn p)) as [u|e] eqn:E2.
  2: { exists e. intros. rewrite requireProfile_insert, E1 by done. simpl. by rewrite E2. }
  destruct (Hm pn p) as [em Hem]. destruct (StringSliceArg args "allow_paths") as [ap|e] eqn:E3, (BoolArg args "allow_run") as [ar|e1] eqn:E4,
    (StringArg args "spend_limit") as [sl|e2] eqn:E5, (StringArg args "expires_in") as [ex|e3] eqn:E6;
  eexists; intros rs seed Hs; rewrite requireProfile_insert, E1 by done; simpl; rewrite E2; simpl;
    rewrite ?StringSliceArg_insert, ?BoolArg_insert, ?(StringArg_insert _ _ "spend_limit"), ?(StringArg_insert _ _ "expires_in"), ?E3, ?E4, ?E5, ?E6, ?Hk by done; simpl; rewrite ?Hem by done; reflexivity.
Qed.

(** *** Both keep every usable session confirmed by the chain *)

Context `{!StoreLaws store}.

Lemma winv_mono m d sn cp (rep rep' : Reported) :
  winv store (mkWorld m d sn cp rep) → (∀ p ma a st, rep p ma a st → rep' p ma a st) → winv store (mkWorld m d sn cp rep').
Proof using Type.
  intros [Hm Hd Hs Hc] Hr. simpl in *. constructor; simpl; [| |done|].
  - intros p a ss H. destruct (Hm _ _ _ H) as [H1 H2]. split; [done|]. intros. eapply confirmed_mono; eauto.
  - intros p a mt H Ha. eapply confirmed_mono; eauto.
  - intros p mt H Ha. eapply confirmed_mono; eauto.
Qed.

Lemma refresh_winv client now pn w ss m' d' mt' :
  winv store w → getState (mem w) pn (SessionAddress (meta ss)) = Some ss →
  (∀ c ma a st, client = Some c → s_query c ma a = Ok st → Active st = true → reported w pn ma a st) →
  refresh store client now pn (mem w) (dsk w) (meta ss) = (m', d', mt') →
  winv store (mkWorld m' d' (snaps w) (copies w) (reported w)).
Proof using All.
  intros Hi Hg Hrep. unfold refresh. assert (Hid : winv store (mkWorld (mem w) (dsk w) (snaps w) (copies w) (reported w))) by (by destruct w).
  destruct client as [c|]; [|by intros [= <- <- <-]]. destruct (bool_decide (MasterAddress (meta ss) = "")); [by intros [= <- <- <-]|].
  destruct (s_query c (MasterAddress (meta ss)) (SessionAddress (meta ss))) as [st|e] eqn:Eq; [|by intros [= <- <- <-]].
  destruct (Active st) eqn:Ea; simpl.
  - destruct (bool_decide (mState (meta ss) = StatePending)); [|by intros [= <- <- <-]].
    destruct (MarkActive store (mem w) (dsk w) pn (SessionAddress (meta ss)) st) as [[m1 d1] r] eqn:E. intros H.
    assert (m' = m1 ∧ d' = d1) as [-> ->] by (destruct r; by injection H as <- <- <-).
    eapply winv_mono; [by eapply winv_active|]. intros p ma a s [?|(-> & -> & -> & ->)]; [done|]. by eapply Hrep.
  - destruct (bool_decide (mState (meta ss) = StateActive)); [|by intros [= <- <- <-]].
    set (ns := if (0 <? ExpiresAt (meta ss)) && (ExpiresAt (meta ss) <=? now (SessionAddress (meta ss))) then StateExpired else StateRevoked).
    destruct (MarkInactive store (mem w) (dsk w) pn (SessionAddress (meta ss)) ns) as [[m1 d1] r] eqn:E. intros H.
    assert (m' = m1 ∧ d' = d1) as [-> ->] by (destruct r; by injection H as <- <- <-).
    eapply winv_inactive; [done|done| |exact E]. unfold ns. by destruct (_ && _).
Qed.

Lemma refresh_all_winv client now pn l : ∀ w m' d' l',
  winv store w → NoDup ((λ ss, SessionAddress (meta ss)) <$> l) →
  Forall (λ ss, getState (mem w) pn (SessionAddress (meta ss)) = Some ss) l →
  (∀ c ma a st, client = Some c → s_query c ma a = Ok st → Active st = true → reported w pn ma a st) →
  refresh_all store client now pn (mem w) (dsk w) (meta <$> l) = (m', d', l') →
  winv store (mkWorld m' d' (snaps w) (copies w) (reported w)).
Proof using All.
  induction l as [|ss l IH]; intros w m' d' l' Hi Hnd Hl Hrep; rewrite ?fmap_cons; cbn [refresh_all].
  { intros [= <- <- <-]. by destruct w. }
  rewrite fmap_cons in Hnd. inversion Hnd as [|? ? Hni Hnd']; subst. inversion Hl as [|? ? Hss Hl']; subst.
  destruct (refresh store client now pn (mem w) (dsk w) (meta ss)) as [[m1 d1] mt1] eqn:E1.
  destruct (refresh_all store client now pn m1 d1 (meta <$> l)) as [[m2 d2] l2] eqn:E2. intros [= <- <- <-].
  destruct (refresh_spec _ _ _ _ _ _ _ _ _ _ Hss E1) as [Hg1 _].
  eapply (IH (mkWorld m1 d1 (snaps w) (copies w) (reported w))); [by eapply refresh_winv|done| |done|exact E2].
  apply Forall_forall. intros s0 Hin. simpl. rewrite Hg1. rewrite decide_False; [by apply (Forall_forall _ _) with (x := s0) in Hl'|].
  intros [_ He]. apply Hni. rewrite <- He. apply list_elem_of_fmap. eauto.
Qed.

(** The sessions of a profile, in the order a listing takes them. *)
Definition listed (order : gmap string sessionState → list (string * sessionState)) (m : Sessions) (pn : string) : list sessionState :=
  snd <$> order (default ∅ (m !! pn)).

Definition keyed (m : Sessions) (pn : string) : Prop := ∀ a ss, getState m pn a = Some ss → SessionAddress (meta ss) = a.

Lemma listed_spec order m pn : (∀ ps, order ps ≡ₚ map_to_list ps) → keyed m pn →
  ListForProfile order m pn = meta <$> listed order m pn ∧
  NoDup ((λ ss, SessionAddress (meta ss)) <$> listed order m pn) ∧
  Forall (λ ss, getState m pn (SessionAddress (meta ss)) = Some ss) (listed order m pn) ∧
  (∀ a ss, getState m pn a = Some ss → a ∈ (λ ss, SessionAddress (meta ss)) <$> listed order m pn).
Proof using Type.
  intros Ho Hk. assert (Hg : ∀ a ss, (a, ss) ∈ order (default ∅ (m !! pn)) ↔ getState m pn a = Some ss).
  { intros a ss. rewrite (Ho _), elem_of_map_to_list. unfold getState. by destruct (m !! pn). }
  assert (Hkeys : (λ ss, SessionAddress (meta ss)) <$> listed order m pn = fst <$> order (default ∅ (m !! pn))).
  { unfold listed. rewrite <- list_fmap_compose. apply list_fmap_ext. intros i [a ss] Hi%list_elem_of_lookup_2. simpl.
    apply Hk, Hg, Hi. }
  split_and!.
  - unfold ListForProfile, listed. by rewrite <- list_fmap_compose.
  - rewrite Hkeys. rewrite (Permutation_map fst (Ho _)). apply NoDup_fst_map_to_list.
  - unfold listed. apply Forall_fmap, Forall_forall. intros [a ss] Hin. simpl. apply Hg in Hin. by rewrite (Hk _ _ Hin).
  - intros a ss H. rewrite Hkeys. apply list_elem_of_fmap. exists (a, ss). split; [done|]. by apply Hg.
Qed.

Lemma winv_keyed w pn : winv store w → keyed (mem w) pn.
Proof using Type. intros [Hm _ _ _] a ss H. by destruct (Hm _ _ _ H). Qed.

Lemma winv_call w w' : session_call w w' → winv store w → winv store w'.
Proof using All.
  intros [w0 args srv resolver kp now now' m' d' r Hf H|w0 order args srv resolver now m' d' r Ho H] Hi.
  - pose proof (propose_inv _ _ _ _ _ _ _ _ _ _ _ H) as Hr. destruct r as [res|e].
    + destruct Hr as (q & k & _ & Hk & Hw & -> & _).
      eapply (winv_add store w0 (pr_name q) (kp_addr k) (kp_pub k) (kp_priv k) (pr_scope q) (pr_master q) now);
        [done|by apply Hf|]. unfold AddPending. fold (pending_meta q k now). by rewrite Hw.
    + destruct Hr as [-> [->|(q & k & e' & _ & Hk & Hw)]]; [by destruct w0|].
      eapply (winv_add store w0 (pr_name q) (kp_addr k) (kp_pub k) (kp_priv k) (pr_scope q) (pr_master q) now);
        [done|by apply Hf|]. unfold AddPending. fold (pending_meta q k now). by rewrite Hw.
  - unfold authStatusHandler in H. set (rep := λ p ma a st, _).
    assert (Hi' : winv store (mkWorld (mem w0) (dsk w0) (snaps w0) (copies w0) rep)).
    { apply (winv_mono _ _ _ _ (reported w0)); [by destruct w0|]. intros. by left. }
    destruct (requireProfile is_print arg_text args srv) as [[pn p]|e] eqn:Ep; [|by injection H as <- <- <-].
    destruct (listed_spec order (mem w0) pn Ho (winv_keyed _ _ Hi)) as (Hl & Hnd & Hall & _). rewrite Hl in H.
    destruct (refresh_all store (resolver pn) now pn (mem w0) (dsk w0) (meta <$> listed order (mem w0) pn)) as [[m1 d1] l1] eqn:E.
    injection H as <- <- <-. eapply (refresh_all_winv _ _ _ _ _ _ _ _ Hi' Hnd Hall); [|exact E].
    intros c ma a st Hc Hq Ha. right. exists p, c. split_and!; done.
Qed.
End calls.

(** ** Properties *)

(** C2: no session signs without the user's consent on chain, whatever the
    session tools are asked.  From an empty disk, through any interleaving of
    calls of gno_session_propose and gno_auth_status with everything else the
    manager does (picks, promotions, charges, restarts, failing disks), a
    session that is picked to sign was reported active by the chain for this
    profile and master, with exactly the paths, run permission and expiry it is
    used under. *)
Theorem session_tools_need_consent is_print arg_text AddressFromBech32 IsRealmPath scope_text mgr_text {D} (store : StoreOps D)
    d0 w order profile match_ now m' pk :
  StoreLaws store → (∀ p a, sr store d0 p a = None) →
  rtc (λ w w', mstep store w w' ∨ session_call is_print arg_text AddressFromBech32 IsRealmPath scope_text mgr_text store w w')
    (mkWorld ∅ d0 [] [] (λ _ _ _ _, False)) w →
  (∀ ps, order ps ≡ₚ map_to_list ps) →
  pick_locked order (mem w) profile match_ now = (m', Ok pk) →
  ∃ ss, match_ ss = true ∧ pk = mkPicked (SessionAddress (meta ss)) (Privkey (meta ss)) (MasterAddress (meta ss)) ∧
    confirmed (reported w) profile (meta ss).
Proof.
  intros HL Hd Hs Ho HP.
  assert (Hi : winv store w).
  { refine (rtc_ind_r (winv store) _ _ _ _ Hs).
    2: { intros w1 w2 _ Hst IH. destruct Hst as [Hst|Hst]; [by eapply winv_step|by eapply winv_call]. }
    constructor; simpl; [|intros p a mt H; by rewrite Hd in H|set_solver|set_solver].
    intros p a ss H. unfold getState in H. by rewrite lookup_empty in H. }
  pose proof (pick_locked_spec order Ho _ _ _ _ _ _ HP) as (ss & ([a Ha] & Hu & Hmatch) & -> & _).
  destruct (winv_pick _ _ _ _ _ _ _ _ Hi HP) as [Hm _ _ _].
  exists ss. split_and!; [done|done|]. apply (Hm _ _ _ Ha). left. unfold usable in Hu. by b2p.
Qed.

(** C4: what gno_session_propose commits to.  When it answers with a command,
    the profile is configured and its chain writable; the session binds to a
    non-empty account, which is the profile's own or a whitespace-free public
    address the user supplied; the chain's live fee was read, and the scope is
    one the policy accepts from the call's own arguments at that fee, with clean
    realm paths and a budget for
    at least one write; exactly one session was added, pending and unusable,
    and it is on disk; the command asks the chain for that very key and scope;
    and the answer is the same for any other private key.  A refused call
    changes neither the manager nor the disk; one whose file could not be
    written leaves the manager and every session's file as they were, or, when
    only the directory sync failed, that one pending session on disk. *)
Theorem sessionProposeHandler_commits is_print arg_text AddressFromBech32 IsRealmPath scope_text mgr_text {D} (store : StoreOps D)
    `{!StoreLaws store} args srv resolver kpr now now' m d m' d' r :
  let propose := sessionProposeHandler is_print arg_text AddressFromBech32 IsRealmPath scope_text mgr_text store args srv resolver in
  let request := propose_request is_print arg_text AddressFromBech32 IsRealmPath scope_text in
  propose kpr now now' m d = (m', d', r) →
  match r with
  | Err _ => m' = m ∧ (d' = d ∨ ∃ q kp, request args srv resolver = Ok q ∧ kpr = Ok kp ∧
      (same_files store d d' ∨ written store d (pr_name q) (pending_meta q kp now) d'))
  | Ok res => ∃ q kp c sargs, kpr = Ok kp ∧ let mt := pending_meta q kp now in
      cfg srv !! pr_name q = Some (pr_profile q) ∧ ChainIDWritable (ChainID (pr_profile q)) = true ∧
      bound_account AddressFromBech32 args (pr_profile q) (pr_master q) ∧
      resolver (pr_name q) = Some c ∧ s_fee c = Ok (pr_fee q) ∧ asked_scope args sargs ∧
      ResolveScope IsRealmPath sargs (pr_profile q) (pr_fee q) = Ok (pr_scope q, pr_warnings q) ∧
      Forall (allow_path_ok IsRealmPath) (AllowPaths (pr_scope q)) ∧
      (0 < pr_fee q → ∃ n, WritesAtFee (pr_scope q) (pr_fee q) = Some n ∧ 1 ≤ n) ∧
      m' = insertState m (pr_name q) mt StatePending ∧ (∀ t, usable t (SessionManager.mkState StatePending mt) = false) ∧
      written store d (pr_name q) mt d' ∧ sr store d' (pr_name q) (kp_addr kp) = Some mt ∧
      ("auth_command", JStr (FormatGnokeyCreateCommand (pr_profile q) (kp_pub kp) (pr_scope q) (pr_fee q) now')) ∈ StructuredContent res ∧
      ∀ priv2 m2 d2 r2, propose (Ok (mkKeypair (kp_addr kp) (kp_pub kp) priv2)) now now' m d = (m2, d2, Ok r2) → r2 = res
  end.
Proof.
  intros propose request H. apply propose_inv in H as Hr. destruct r as [res|e].
  2: { destruct Hr as [-> [->|(q & kp & e' & Hq & Hk & Hw)]]; (split; [done|]); [by left|].
       right. exists q, kp. split_and!; [done..|]. by apply (sw_fail store _ _ _ _ _ Hw). }
  destruct Hr as (q & kp & Hq & -> & Hw & -> & ->). pose proof Hq as Hq0.
  apply request_Ok in Hq0 as (Hc & Hwr & Hb & c & sargs & Has & Hcl & Hf & Hs). apply (sw_ok store) in Hw as Hw'.
  pose proof (ResolveScope_facts _ _ _ _ _ _ Hs) as (_ & Hp & Hn). exists q, kp, c, sargs. split; [done|]. simpl.
  split_and!; try done.
  - apply (proj1 Hw').
  - unfold propose_result. simpl. do 5 right. left.
  - intros priv2 m2 d2 r2 H2. apply propose_inv in H2. destruct H2 as (q2 & kp2 & Hq2 & [= <-] & _ & _ & ->).
    assert (q2 = q) as -> by congruence. done.
Qed.

(** C6: a seed phrase pasted as the master address is refused without being
    repeated: the call changes nothing, draws no key and asks the chain
    nothing, and whatever it answers is the same for any other seed phrase. *)
Theorem seed_phrase_never_matters is_print arg_text AddressFromBech32 IsRealmPath scope_text mgr_text {D} (store : StoreOps D)
    args srv resolver resolver' kpr kpr' now now' m d seed seed' :
  let propose seed := sessionProposeHandler is_print arg_text AddressFromBech32 IsRealmPath scope_text mgr_text store
                        (<["master_address" := JStr seed]> args) srv in
  str_exists seed_space seed = true → str_exists seed_space seed' = true →
  propose seed resolver kpr now now' m d = propose seed' resolver' kpr' now now' m d ∧
  ∃ e, propose seed resolver kpr now now' m d = (m, d, Err e).
Proof.
  intros propose H1 H2.
  destruct (request_of_seed is_print arg_text AddressFromBech32 IsRealmPath scope_text args srv) as [e He].
  unfold propose, sessionProposeHandler. rewrite !He by done. eauto.
Qed.

(** C5: gno_auth_status applies the chain's word to each session on its own.
    Whatever the order of the listing and whatever the disk does, afterwards
    every session of the profile is what [transition] makes of it: a pending
    session the chain reports active is active with the chain's scope, an
    active one the chain denies is revoked or expired, and any other answer, or
    none, changes nothing; sessions of other profiles are untouched and none
    is added or removed.  The result lists every session once, each as it was
    or in its new state. *)
Theorem authStatusHandler_pointwise is_print arg_text {D} (store : StoreOps D) order args srv resolver now m d m' d' r pn p :
  requireProfile is_print arg_text args srv = Ok (pn, p) → (∀ ps, order ps ≡ₚ map_to_list ps) → keyed m pn →
  authStatusHandler is_print arg_text store order args srv resolver now m d = (m', d', r) →
  (∀ p' a, getState m' p' a =
     if decide (p' = pn) then transition (resolver pn) now <$> getState m p' a else getState m p' a) ∧
  ∃ infos, r = Ok (status_result is_print pn (negb (bool_decide (Profiles.MasterAddress p = ""))) infos) ∧
    Forall2 (shown (resolver pn) now) (listed order m pn) infos.
Proof.
  intros Hp Ho Hk. unfold authStatusHandler. rewrite Hp.
  destruct (listed_spec order m pn Ho Hk) as (-> & Hnd & Hall & Hin).
  destruct (refresh_all store (resolver pn) now pn m d (meta <$> listed order m pn)) as [[m1 d1] infos] eqn:E. intros [= <- <- <-].
  destruct (refresh_all_spec store (resolver pn) now pn (listed order m pn) m d m1 d1 infos Hnd Hall E) as [Hg Hs]. split; [|eauto].
  intros p' a. rewrite Hg. case_decide as E1; case_decide as E2; try done; [by destruct E1|].
  subst p'. destruct (getState m pn a) as [ss|] eqn:Ea; [|done]. exfalso. apply E1. split; [done|]. by eapply Hin.
Qed.

(** revocation is never blocked by the chain.  For a session the manager
    knows, gno_session_revoke answers with the command for that session's key
    whatever the chain client is or answers: at the live fee, or at the floor
    with a note when the fee cannot be read.  For any other session it answers
    the manual command. *)
Theorem sessionRevokeHandler_never_blocked is_print arg_text args srv resolver m pn p addr :
  requireProfile is_print arg_text args srv = Ok (pn, p) → StringArg args "session_address" = Ok addr → addr ≠ "" →
  sessionRevokeHandler is_print arg_text args srv resolver m =
  match SessionManager.Get m pn addr with
  | None => Err (session_unmanaged is_print pn p addr)
  | Some mt =>
      let fee := match resolver pn with Some c => match s_fee c with Ok fee => Some fee | Err _ => None end | None => Some 0 end in
      Ok (revoke_result is_print pn addr (SessionPubkey mt) (FormatGnokeyRevokeCommand p (SessionPubkey mt) (default 0 fee))
            (if fee is Some _ then "" else fee_unknown))
  end.
Proof.
  intros Hp Ha Hne. unfold sessionRevokeHandler. rewrite Hp. simpl. rewrite Ha. simpl. rewrite bool_decide_eq_false_2 by done. simpl.
  destruct (SessionManager.Get m pn addr) as [mt|]; [|done]. simpl. unfold revoke_fee.
  destruct (resolver pn) as [c|]; [destruct (s_fee c)|]; reflexivity.
Qed.

(** ** Evaluation *)

(** A chain that confirms g1s and denies the rest. *)
Definition toy_client : SessChain :=
  mkSessChain (Ok 10000) (λ _ a, Ok (if bool_decide (a = "g1s") then toy_status else mkStatus false [] false "" "" 0)).
Definition toy_srv : Server := NewServer {["p" := endpoint "https://rpc.test5.gno.land:443" "test5"]} "".
Definition toy_propose_args : Args :=
  {["profile" := JStr "p"; "allow_paths" := JArr [JStr "gno.land/r/a"]; "master_address" := JStr "g1m"]}.
Definition toy_kp : Keypair := mkKeypair "g1s" "gpub1s" "priv".

Abbreviation toy_propose := (sessionProposeHandler (λ _, true) (λ _, "") (λ a, has_prefix a "g1") toy_realm (λ _, "") (λ _, "") toy_store
  toy_propose_args toy_srv (λ _, Some toy_client) (Ok toy_kp) 0 0).
Abbreviation toy_status_call := (authStatusHandler (λ _, true) (λ _, "") toy_store map_to_list {["profile" := JStr "p"]} toy_srv
  (λ _, Some toy_client) (λ _, 0)).

Definition silent : Reported := λ _ _ _ _, False.
Definition toy_w1 : World (gmap (string * string) SessionMeta) :=
  let '(m, d, _) := toy_propose ∅ ∅ in mkWorld m d [] [] silent.
Definition toy_w2 : World (gmap (string * string) SessionMeta) :=
  let '(m, d, _) := toy_status_call (mem toy_w1) (dsk toy_w1) in
  mkWorld m d [] [] (λ p ma a st, silent p ma a st ∨
    told (λ _, true) (λ _, "") {["profile" := JStr "p"]} toy_srv (λ _, Some toy_client) p ma a st).

Abbreviation toy_steps := (rtc (λ w w', mstep toy_store w w' ∨
  session_call (λ _, true) (λ _, "") (λ a, has_prefix a "g1") toy_realm (λ _, "") (λ _, "") toy_store w w')).

Lemma toy_w1_rest : snaps toy_w1 = [] ∧ copies toy_w1 = [] ∧ reported toy_w1 = silent.
Proof. unfold toy_w1. destruct (toy_propose ∅ ∅) as [[m0 d0] r0]. repeat split. Qed.

Lemma toy_tools_reach : toy_steps (mkWorld ∅ ∅ [] [] silent) toy_w2.
Proof.
  eapply (rtc_l _ _ toy_w1).
  { right. unfold toy_w1. destruct (toy_propose ∅ ∅) as [[m d] r] eqn:E.
    eapply (call_propose _ _ _ _ _ _ _ (mkWorld ∅ ∅ [] [] silent)); [|exact E].
    intros k p _. simpl. unfold getState. by rewrite lookup_empty. }
  eapply rtc_l; [|apply rtc_refl]. right. unfold toy_w2.
  destruct (toy_status_call (mem toy_w1) (dsk toy_w1)) as [[m d] r] eqn:E.
  destruct toy_w1_rest as (H1 & H2 & H3).
  pose proof (call_status (λ _, true) (λ _, "") (λ a, has_prefix a "g1") toy_realm (λ _, "") (λ _, "") toy_store toy_w1 map_to_list
    _ _ _ _ _ _ _ (λ ps, reflexivity _) E) as Hc. rewrite H1, H2, H3 in Hc. exact Hc.
Qed.

(** Proposed, authorized by the user, seen active, and picked to sign. *)
Lemma session_tools_need_consent_witness :
  ∃ ss, coversRealm (mAllowPaths (meta ss)) "gno.land/r/a" = true ∧ confirmed (reported toy_w2) "p" (meta ss).
Proof.
  destruct (session_tools_need_consent (λ _, true) (λ _, "") (λ a, has_prefix a "g1") toy_realm (λ _, "") (λ _, "") toy_store ∅ toy_w2
    map_to_list "p" (λ ss, coversRealm (mAllowPaths (meta ss)) "gno.land/r/a") (-62135593300)
    (fst (pick_locked map_to_list (mem toy_w2) "p" (λ ss, coversRealm (mAllowPaths (meta ss)) "gno.land/r/a") (-62135593300)))
    (mkPicked "g1s" "priv" "g1m") toy_store_laws (λ p a, lookup_empty _) toy_tools_reach (λ ps, reflexivity _)) as (ss & H1 & _ & H2).
  - vm_compute. reflexivity.
  - exists ss. split; [exact H1|exact H2].
Defined.

Lemma sessionProposeHandler_commits_witness :
  sr toy_store (toy_propose ∅ ∅).1.2 "p" "g1s" =
  Some (mkSession "g1s" "gpub1s" "g1m" "priv" false ["gno.land/r/a"] false "100000ugnot" "100000ugnot" (-62135593200) (-62135596800) "pending") ∧
  ∃ kp, Ok toy_kp = (Ok kp : res string Keypair).
Proof.
  destruct (toy_propose ∅ ∅) as [[m d] r] eqn:E.
  pose proof (sessionProposeHandler_commits (λ _, true) (λ _, "") (λ a, has_prefix a "g1") toy_realm (λ _, "") (λ _, "") toy_store
    toy_propose_args toy_srv (λ _, Some toy_client) (Ok toy_kp) 0 0 ∅ ∅ m d r E) as H.
  assert (Hr : is_ok (toy_propose ∅ ∅).2 = true) by (vm_compute; reflexivity). rewrite E in Hr. destruct r as [res|e]; [|discriminate Hr].
  destruct H as (q & kp & c & sargs & Hk & _). split; [|exists kp; exact Hk].
  assert (Hd : sr toy_store (toy_propose ∅ ∅).1.2 "p" "g1s" =
    Some (mkSession "g1s" "gpub1s" "g1m" "priv" false ["gno.land/r/a"] false "100000ugnot" "100000ugnot" (-62135593200) (-62135596800) "pending"))
    by (vm_compute; reflexivity).
  by rewrite E in Hd.
Defined.

Lemma seed_phrase_never_matters_witness :
  let call seed := sessionProposeHandler (λ _, true) (λ _, "") (λ a, has_prefix a "g1") toy_realm (λ _, "") (λ _, "") toy_store
    (<["master_address" := JStr seed]> toy_propose_args) toy_srv (λ _, Some toy_client) (Ok toy_kp) 0 0 ∅ ∅ in
  call "abandon ability able" = call "zoo wrong vote".
Proof.
  apply (seed_phrase_never_matters (λ _, true) (λ _, "") (λ a, has_prefix a "g1") toy_realm (λ _, "") (λ _, "") toy_store
    toy_propose_args toy_srv (λ _, Some toy_client) (λ _, Some toy_client) (Ok toy_kp) (Ok toy_kp) 0 0 ∅ ∅
    "abandon ability able" "zoo wrong vote"); reflexivity.
Defined.

Lemma authStatusHandler_pointwise_witness :
  let '(m', _, _) := toy_status_call (mem toy_w1) (dsk toy_w1) in
  getState m' "p" "g1s" = transition (Some toy_client) (λ _, 0) <$> getState (mem toy_w1) "p" "g1s".
Proof.
  destruct (toy_status_call (mem toy_w1) (dsk toy_w1)) as [[m' d'] r] eqn:E.
  assert (Hp : requireProfile (λ _, true) (λ _, "") {["profile" := JStr "p"]} toy_srv =
    Ok ("p", endpoint "https://rpc.test5.gno.land:443" "test5")) by (vm_compute; reflexivity).
  assert (Hk : keyed (mem toy_w1) "p").
  { assert (Hall : map_Forall (λ a ss, SessionAddress (meta ss) = a) (default ∅ (mem toy_w1 !! "p")))
      by (refine (bool_decide_unpack _ _); vm_compute; exact I).
    intros a ss H. apply (Hall a ss). unfold getState in H. destruct (mem toy_w1 !! "p"); [exact H|discriminate H]. }
  destruct (authStatusHandler_pointwise (λ _, true) (λ _, "") toy_store map_to_list {["profile" := JStr "p"]} toy_srv
    (λ _, Some toy_client) (λ _, 0) (mem toy_w1) (dsk toy_w1) m' d' r "p" _ Hp) as [H _];
    [intros ps; reflexivity|exact Hk|exact E|].
  rewrite H, decide_True by reflexivity. reflexivity.
Defined.
