(* ===== verification/Keypair.v ===== *)
(** * Session keys ([internal/session/keypair.go]) and the signer rebuilt from one

    The ed25519 pair behind a session: its bech32 forms, its signatures, the
    gnoclient adapter over it, and [signerAdapter] of
    [internal/session/manager.go], which signs with the private key a picked
    session carries.  Then the runs in which every proposal draws its key from
    [NewKeypair]: what is picked signs as the session it names.

    ed25519, SHA-256, bech32, amino and the transaction's sign bytes are
    library calls: arguments of the sections, with the laws used of them. *)
From S2P Require Import Prelude GoText GoTime Profiles Scope ChainTypes ServerCore Handlers SessionManager ChainClient SessionTools.
From stdpp Require Import prelude strings gmap list relations.
From Stdlib Require Import ZArith Lia Ascii String.
Local Open Scope Z_scope.

(** ** The pair *)

Definition addrPrefix : string := "g".
Definition pubkeyPrefix : string := "gpub".
Definition addrSize : nat := 20.

(** Byte slices are strings of bytes. *)
Record Keypair := mkPair { Pub : string; Priv : string }.

Fixpoint zeros (n : nat) : string := match n with O => "" | S n => String "000" (zeros n) end.

(** [copy(pk[:], b)] into a zeroed array of 32 bytes. *)
Definition copy32 (b : string) : string := str_take 32 (b +:+ zeros 32).

(** [ed25519.PrivateKey.Public]: the half after the seed. *)
Definition PrivateKeySize : Z := 64.
Definition public_half (priv : string) : string := str_drop 32 priv.

Section keypair.
Context (Sum256 : string → string) (bech32_Encode : string → string → res string string).
(** The amino form of a public key, and [ed25519.Sign]. *)
Context (pubkey_Bytes : string → string) (ed_Sign : string → string → string).
Context (GetSignBytes : Tx → string → Z → Z → option string).

(** [GenerateKey] is what the CSPRNG answers. *)
Definition NewKeypair (GenerateKey : res string (string * string)) : res string Keypair :=
  match GenerateKey with
  | Err e => Err ("session: generate ed25519 keypair: " +:+ e)
  | Ok (pub, priv) => Ok (mkPair pub priv)
  end.

Definition TMPubKey (kp : Keypair) : string := copy32 (Pub kp).

(** An [Err] is the text of a panic. *)
Definition PubkeyBech32 (kp : Keypair) : res string string :=
  map_err (λ e, "session: bech32 encode pubkey: " +:+ e) (bech32_Encode pubkeyPrefix (pubkey_Bytes (TMPubKey kp))).

Definition Address (kp : Keypair) : res string string :=
  map_err (λ e, "session: bech32 encode address: " +:+ e) (bech32_Encode addrPrefix (str_take addrSize (Sum256 (Pub kp)))).

(** [ed25519.Sign] panics on a key of the wrong length. *)
Definition sign_with (priv payload : string) : res string string :=
  if len priv =? PrivateKeySize then Ok (ed_Sign priv payload) else Err ("ed25519: bad private key length: " +:+ format_int (len priv)).

Definition Sign (kp : Keypair) (payload : string) : res string string := sign_with (Priv kp) payload.
Definition Pubkey (kp : Keypair) : string := Pub kp.

(** *** [gnoclientSigner] *)

(** The one signature it writes names no session: the zero address. *)
Definition gnoclient_Sign (kp : Keypair) (chainID : string) (tx : Tx) (accNum seq : Z) : res string Tx :=
  match GetSignBytes tx chainID accNum seq with
  | None => Err "session/gnoclientSigner: build sign bytes"
  | Some signBytes => sig ← sign_with (Priv kp) signBytes; mret (set_sigs tx [mkSig (TMPubKey kp) sig ""])
  end.

Definition GetMaster : string := "".

(** The one [keys.KeyType] that is named. *)
Inductive keyType := TypeLocal.

(** [sessionKeyInfo], by its public key; the address is the key's own. *)
Record sessionKeyInfo := mkKeyInfo { ki_pubkey : string }.
Definition gnoclient_Info (kp : Keypair) : res string sessionKeyInfo := Ok (mkKeyInfo (TMPubKey kp)).
Definition ki_GetType : keyType := TypeLocal.
Definition ki_GetName : string := "gnomcp-session".
Definition ki_GetAddress (address_of : string → string) (i : sessionKeyInfo) : string := address_of (ki_pubkey i).
Definition ki_GetPath (i : sessionKeyInfo) : res string unit := Err "session keys are not derived from a BIP44 path".

(** *** [signerAdapter] *)

Record signerAdapter := mkAdapter { sa_addr : string; sa_priv : string }.

(** What [pickSession] returns, as a signer. *)
Definition adapter_of (pk : Picked) : signerAdapter := mkAdapter (pk_addr pk) (pk_priv pk).

Definition adapter_Pubkey (s : signerAdapter) : string :=
  if negb (len (sa_priv s) =? PrivateKeySize) then "" else public_half (sa_priv s).

Definition adapter_Sign (s : signerAdapter) (payload : string) : res string string :=
  if negb (len (sa_priv s) =? PrivateKeySize) then
    Err ("session: signerAdapter: invalid privkey length " +:+ format_int (len (sa_priv s)))
  else Ok (ed_Sign (sa_priv s) payload).

(** As the chain client's [Signer]. *)
Definition as_signer (s : signerAdapter) : SessionSigner :=
  mkSigner (sa_addr s) (adapter_Pubkey s) (λ payload, match adapter_Sign s payload with Ok sig => Some sig | Err _ => None end).

(** *** What gno_session_propose shows of a pair *)

(** [None] when an encoder panics. *)
Definition shown (kp : Keypair) : option SessionTools.Keypair :=
  match Address kp, PubkeyBech32 kp with
  | Ok a, Ok p => Some (mkKeypair a p (Priv kp))
  | _, _ => None
  end.

(** What [crypto/ed25519] documents of the pairs it generates: a 64-byte
    private key is a 32-byte seed and the public key, and what it signs
    verifies under the public key. *)
Class Ed25519Laws (Generated : string → string → Prop) (Verify : string → string → string → bool) : Prop := {
  gen_shape : ∀ pub priv, Generated pub priv →
    ∃ seed, String.length seed = 32%nat ∧ String.length pub = 32%nat ∧ priv = seed +:+ pub;
  gen_verify : ∀ pub priv payload, Generated pub priv → Verify pub payload (ed_Sign priv payload) = true;
}.

(** ** A generated pair through the adapter *)

Section generated.
Context (Generated : string → string → Prop) (Verify : string → string → string → bool).
Context `{!Ed25519Laws Generated Verify}.

Lemma str_drop_app x y : str_drop (String.length x) (x +:+ y) = y.
Proof using Type. induction x as [|a x IH]; simpl; [done|exact IH]. Qed.

Lemma str_take_all x y : str_take (String.length x) (x +:+ y) = x.
Proof using Type. induction x as [|a x IH]; simpl; [by destruct y|]. by rewrite IH. Qed.

Lemma generated_shape kp : Generated (Pub kp) (Priv kp) →
  len (Priv kp) = PrivateKeySize ∧ len (Pub kp) = pubKeySize ∧ public_half (Priv kp) = Pub kp ∧ TMPubKey kp = Pub kp.
Proof using Ed25519Laws0.
  intros (seed & Hs & Hp & E)%gen_shape. unfold len, PrivateKeySize, pubKeySize, public_half, TMPubKey, copy32.
  rewrite E, str_length_app, Hs, Hp. split_and!; [done|done| |].
  - rewrite <- Hs. apply str_drop_app.
  - rewrite <- Hp. apply str_take_all.
Qed.

(** The adapter over a generated pair's private key. *)
Lemma adapter_generated kp addr payload : Generated (Pub kp) (Priv kp) →
  let s := as_signer (mkAdapter addr (Priv kp)) in
  sg_address s = addr ∧ sg_pubkey s = Pub kp ∧
  sg_sign s payload = Some (ed_Sign (Priv kp) payload) ∧ Verify (Pub kp) payload (ed_Sign (Priv kp) payload) = true.
Proof using Ed25519Laws0.
  intros Hg. destruct (generated_shape _ Hg) as (H1 & _ & H2 & _).
  unfold as_signer, adapter_Pubkey, adapter_Sign. simpl. rewrite H1. simpl. rewrite H2. split_and!; [done..|by apply gen_verify].
Qed.

(** A private key of any other length signs nothing and shows no public key. *)
Lemma adapter_malformed s payload : len (sa_priv s) ≠ PrivateKeySize →
  adapter_Pubkey s = "" ∧ sg_sign (as_signer s) payload = None.
Proof using Type.
  intros H. unfold as_signer, adapter_Pubkey, adapter_Sign. simpl. by rewrite (proj2 (Z.eqb_neq _ _) H).
Qed.

(** The chain client signs with the adapter whatever has sign bytes. *)
Lemma adapter_signs chainID kp addr op tx acc a h payload : Generated (Pub kp) (Priv kp) →
  GetSignBytes tx chainID (AccountNumber acc) (AccSequence acc) = Some payload →
  signTxForSession chainID GetSignBytes op tx (as_signer (mkAdapter addr (Priv kp))) acc a h =
    (h ++ [EvSign payload], Ok (set_sigs tx [mkSig (Pub kp) (ed_Sign (Priv kp) payload) a])).
Proof using Ed25519Laws0.
  intros Hg Hb. destruct (generated_shape _ Hg) as (_ & H32 & _). destruct (adapter_generated kp addr payload Hg) as (_ & Hp & Hs & _).
  set (s := as_signer _) in *. clearbody s.
  unfold signTxForSession, lift, ask, mbind, M_bind, mret, M_ret. rewrite Hb. cbn beta iota. rewrite Hs, Hp, H32. reflexivity.
Qed.

(** The unused gnoclient adapter agrees, up to the session address its caller
    is to inject. *)
Lemma gnoclient_Sign_agrees chainID kp addr op tx acc h tx1 : Generated (Pub kp) (Priv kp) →
  gnoclient_Sign kp chainID tx (AccountNumber acc) (AccSequence acc) = Ok tx1 →
  ∃ h', signTxForSession chainID GetSignBytes op tx (as_signer (mkAdapter addr (Priv kp))) acc GetMaster h = (h', Ok tx1).
Proof using Ed25519Laws0.
  intros Hg. unfold gnoclient_Sign. destruct (GetSignBytes _ _ _ _) as [payload|] eqn:Hb; [|done].
  destruct (generated_shape _ Hg) as (H64 & _ & _ & HT). unfold sign_with. rewrite H64, HT. simpl. intros [= <-].
  eexists. by apply adapter_signs.
Qed.
End generated.
End keypair.

(** ** Sessions keep their identity *)

(** Nothing the manager does to a session it has touches its address or keys. *)
Definition same_identity (a b : SessionMeta) : Prop :=
  SessionAddress b = SessionAddress a ∧ SessionPubkey b = SessionPubkey a ∧ Privkey b = Privkey a.

Section identity.
Context {D : Type} (store : StoreOps D) `{!StoreLaws store}.
Context (I : SessionMeta → Prop) (I_same : ∀ a b, same_identity a b → I a → I b).

Definition mem_all (m : Sessions) : Prop := ∀ p a ss, getState m p a = Some ss → I (meta ss).
Definition dsk_all (d : D) : Prop := ∀ p a mt, sr store d p a = Some mt → I mt.

Lemma mem_all_set m p a ss : mem_all m → I (meta ss) → mem_all (setState m p a ss).
Proof using Type. intros Hm Hi p' a' ss'. rewrite getState_set. case_decide; [by intros [= <-]|apply Hm]. Qed.

Lemma mem_all_insert m p mt st : mem_all m → I mt → mem_all (insertState m p mt st).
Proof using Type. intros Hm Hi p' a' ss'. rewrite getState_insert. case_decide; [by intros [= <-]|apply Hm]. Qed.

Lemma dsk_all_write d p mt d' e : dsk_all d → I mt → sw store d p mt = (d', e) → dsk_all d'.
Proof using All.
  intros Hd Hi Hw p' a mt' Hr. destruct (sw_any store _ _ _ _ _ Hw) as [Hf|[Hm Ho]].
  { rewrite Hf in Hr. by eapply Hd. }
  destruct (decide ((p', a) = (p, SessionAddress mt))) as [E|E].
  - simplify_eq. by eapply I_same; [|exact Hi].
  - rewrite (Ho _ _ E) in Hr. by eapply Hd.
Qed.

Lemma dsk_all_delete d p a : dsk_all d → dsk_all (fst (sd store d p a)).
Proof using All. intros Hd p' a' mt Hr. eapply Hd, (sd_read store), Hr. Qed.

Lemma dsk_all_persist d p mt d' r : dsk_all d → I mt → persist store d p mt = (d', r) → dsk_all d'.
Proof using All.
  unfold persist. intros Hd Hi. destruct (sw store d p mt) as [d1 [e|]] eqn:E; intros [= <- <-]; by eapply dsk_all_write.
Qed.

(** Rewriting the metadata of one session, in memory and on disk. *)
Lemma all_rewrite m d p a ss mt st d' r :
  mem_all m ∧ dsk_all d → getState m p a = Some ss → same_identity (meta ss) mt → persist store d p mt = (d', r) →
  mem_all (setState m p a (SessionManager.mkState st mt)) ∧ dsk_all d'.
Proof using All.
  intros [Hm Hd] Hg Hsame Hp. assert (I mt) by (eapply I_same; [exact Hsame|by eapply Hm]).
  split; [by apply mem_all_set|by eapply dsk_all_persist].
Qed.

Local Ltac rewrites := intros Hi; repeat match goal with
  | |- context [getState ?m ?p ?a] => destruct (getState m p a) as [ss|] eqn:Hg
  | |- context [if negb (bool_decide ?P) then _ else _] => case_bool_decide; simpl
  | |- context [parseCoins ?c] => destruct (parseCoins c) as [[]|]
  | |- context [persist ?s ?d ?p ?mt] => destruct (persist s d p mt) eqn:?Hp
  end; intros [= <- <- <-]; try done; by eapply all_rewrite.

Lemma all_update m d p a fee m' d' r :
  mem_all m ∧ dsk_all d → UpdateSpend store m d p a fee = (m', d', r) → mem_all m' ∧ dsk_all d'.
Proof using All. unfold UpdateSpend. rewrites. Qed.

Lemma all_settle m d p a rem m' d' r :
  mem_all m ∧ dsk_all d → setSpendRemaining store m d p a rem = (m', d', r) → mem_all m' ∧ dsk_all d'.
Proof using All. unfold setSpendRemaining. rewrites. Qed.

Lemma all_active m d p a st m' d' r :
  mem_all m ∧ dsk_all d → MarkActive store m d p a st = (m', d', r) → mem_all m' ∧ dsk_all d'.
Proof using All. unfold MarkActive. rewrites. Qed.

Lemma all_inactive m d p a st m' d' r :
  mem_all m ∧ dsk_all d → MarkInactive store m d p a st = (m', d', r) → mem_all m' ∧ dsk_all d'.
Proof using All. unfold MarkInactive. rewrites. Qed.

Lemma all_pick m order profile match_ now m' r :
  mem_all m → pick_locked order m profile match_ now = (m', r) → mem_all m'.
Proof using Type.
  intros Hm HP. assert (Hcase : m' = m ∨ m' = <[profile := expire now <$> default ∅ (m !! profile)]> m).
  { unfold pick_locked in HP. case_bool_decide; [simplify_eq; by left|right].
    by destruct (filter _ (filter _ _)); simplify_eq. }
  destruct Hcase as [->| ->]; [done|]. intros p a ss. unfold getState.
  destruct (decide (profile = p)) as [->|Hne]; [|rewrite lookup_insert_ne by done; apply Hm].
  rewrite lookup_insert_eq. simpl. rewrite lookup_fmap. destruct (_ !! a) as [ss0|] eqn:E; [|done].
  intros [= <-]. assert (Hi : I (meta ss0)).
  { eapply (Hm p a). unfold getState. destruct (m !! p); [exact E|]. exfalso. simpl in E. by rewrite lookup_empty in E. }
  unfold expire. by case_match.
Qed.

Lemma all_hydrate_one m d p mt answer :
  mem_all m ∧ dsk_all d → I mt → let '(m', d') := hydrate_one store m d p mt answer in mem_all m' ∧ dsk_all d'.
Proof using All.
  intros [Hm Hd] Hi. unfold hydrate_one. destruct answer as [k|e]; [|by split; [apply mem_all_insert|]].
  destruct (ckUnsupported k); [by split; [apply mem_all_insert|]|]. destruct (ckActive k); simpl.
  - split; [|done]. apply mem_all_insert; [done|]. by eapply I_same; [|exact Hi].
  - split; [done|by apply dsk_all_delete].
Qed.

Lemma all_hydrate_profile answer m d p metas :
  mem_all m ∧ dsk_all d → Forall I metas → let '(m', d') := hydrate_profile store answer m d p metas in mem_all m' ∧ dsk_all d'.
Proof using All.
  intros Hi Hf. unfold hydrate_profile. revert m d Hi. induction Hf as [|mt metas Hmt Hf IH]; intros m d Hi; simpl; [done|].
  pose proof (all_hydrate_one m d p mt (answer p (MasterAddress mt) (SessionAddress mt)) Hi Hmt) as H1.
  destruct (hydrate_one _ _ _ _ _ _). by apply IH.
Qed.

Lemma all_hydrate answer d m' d' r : dsk_all d → Hydrate store answer ∅ d = (m', d', r) → mem_all m' ∧ dsk_all d'.
Proof using All.
  intros Hd. unfold Hydrate.
  assert (Hi : mem_all ∅ ∧ dsk_all d) by (split; [intros p a ss H; unfold getState in H; by rewrite lookup_empty in H|done]).
  destruct (sprofiles store d) as [profiles|]; [|by intros [= <- <- <-]].
  clear Hd. revert Hi. generalize (∅ : Sessions) as m. revert d.
  induction profiles as [|p profiles IH]; intros d m Hi; simpl; [by intros [= <- <- <-]|].
  destruct (slist store d p) as [metas|] eqn:El; [|by intros [= <- <- <-]].
  pose proof (all_hydrate_profile answer m d p metas Hi) as H1. destruct (hydrate_profile _ _ _ _ _ _) as [m1 d1]. apply IH, H1.
  apply Forall_forall. intros mt Hin. destruct (slist_read store _ _ _ _ El Hin) as [a Ha]. by eapply (proj2 Hi).
Qed.

(** The manager's world: what is in memory, on disk, and on its way there. *)
Definition all_sessions (w : World D) : Prop :=
  (mem_all (mem w) ∧ dsk_all (dsk w)) ∧ ∀ p mt, (p, mt) ∈ copies w → I mt.

Lemma all_own w w' : ostep store w w' → all_sessions w → all_sessions w'.
Proof using All.
  intros Hs [Hi Hc]. destruct Hs as [w|w p a ma ans m' c _ H|w p mt d' e Hin H|w ord p f now m' r H|w p a fee m' d' r H|w p a rem m' d' r H
    |w p a ss st m' d' r _ _ H|w p a st m' d' r _ H|w ans m' d' r H]; unfold all_sessions; simpl.
  - by split.
  - unfold promote in H. destruct ans as [r|e]; [|by injection H as <- <-]. destruct (negb (ckActive r)); [by injection H as <- <-|].
    destruct (getState (mem w) p a) as [ss|] eqn:Hg; [|by injection H as <- <-].
    case_bool_decide; simpl in H; injection H as <- <-; simpl; [|by split].
    assert (Hi' : I (applyStatus (meta ss) (ckStatus r))) by (eapply I_same; [|by eapply (proj1 Hi)]; done).
    split; [split; [apply mem_all_set; [apply Hi|exact Hi']|apply Hi]|]. intros p' mt [[= -> ->]|Hin]%elem_of_cons; [done|by eapply Hc].
  - split; [split; [apply Hi|]|done]. eapply dsk_all_write; [apply Hi|by eapply Hc|exact H].
  - split; [split; [by eapply all_pick; [apply Hi|exact H]|apply Hi]|done].
  - split; [by eapply all_update|done].
  - split; [by eapply all_settle|done].
  - split; [by eapply all_active|done].
  - split; [by eapply all_inactive|done].
  - split; [eapply all_hydrate; [apply Hi|exact H]|]. intros p mt Hin. by apply not_elem_of_nil in Hin.
Qed.

Lemma all_refresh client now pn m d mt m' d' mt' :
  mem_all m ∧ dsk_all d → refresh store client now pn m d mt = (m', d', mt') → mem_all m' ∧ dsk_all d'.
Proof using All.
  intros Hi. unfold refresh. destruct client as [c|]; [|by intros [= <- <- <-]].
  destruct (bool_decide (MasterAddress mt = "")); [by intros [= <- <- <-]|].
  destruct (s_query c _ _) as [st|e]; [|by intros [= <- <- <-]].
  destruct (Active st && _).
  { destruct (MarkActive _ _ _ _ _ _) as [[m1 d1] r] eqn:E. intros H.
    assert (m' = m1 ∧ d' = d1) as [-> ->] by (destruct r; by injection H as <- <- <-). by eapply all_active. }
  destruct (negb (Active st) && _); [|by intros [= <- <- <-]].
  set (ns := if _ && _ then _ else _). destruct (MarkInactive _ _ _ _ _ _) as [[m1 d1] r] eqn:E. intros H.
  assert (m' = m1 ∧ d' = d1) as [-> ->] by (destruct r; by injection H as <- <- <-). by eapply all_inactive.
Qed.

Lemma all_refresh_all client now pn l : ∀ m d m' d' l',
  mem_all m ∧ dsk_all d → refresh_all store client now pn m d l = (m', d', l') → mem_all m' ∧ dsk_all d'.
Proof using All.
  induction l as [|mt l IH]; intros m d m' d' l' Hi; simpl; [by intros [= <- <- <-]|].
  destruct (refresh _ _ _ _ _ _ _) as [[m1 d1] mt1] eqn:E. destruct (refresh_all _ _ _ _ m1 d1 l) as [[m2 d2] l2] eqn:E2.
  intros [= <- <- <-]. eapply IH; [by eapply all_refresh|exact E2].
Qed.
End identity.

(** ** Runs whose keys are generated *)

Section mint.
Context (is_print : Z → bool) (arg_text : arg_error → string).
Context (AddressFromBech32 : string → bool) (IsRealmPath : string → bool).
Context (scope_text : scope_error → string) (mgr_text : manager_error → string).
Context (Sum256 : string → string) (bech32_Encode : string → string → res string string) (pubkey_Bytes : string → string).
Context (Generated : string → string → Prop).
Context {D : Type} (store : StoreOps D) `{!StoreLaws store}.

(** The manager's own steps, and the tool calls, where each proposal's key is
    what [NewKeypair] made of the CSPRNG's answer. *)
Inductive mint_step : World D → World D → Prop :=
  | mint_own w w' : ostep store w w' → mint_step w w'
  | mint_propose w args srv resolver gen kp k now now' m' d' r :
      NewKeypair gen = Ok kp → Generated (Pub kp) (Priv kp) → shown Sum256 bech32_Encode pubkey_Bytes kp = Some k →
      sessionProposeHandler is_print arg_text AddressFromBech32 IsRealmPath scope_text mgr_text store args srv resolver
        (Ok k) now now' (mem w) (dsk w) = (m', d', r) →
      mint_step w (mkWorld m' d' (snaps w) (copies w) (reported w))
  | mint_status w order args srv resolver now m' d' r :
      authStatusHandler is_print arg_text store order args srv resolver now (mem w) (dsk w) = (m', d', r) →
      mint_step w (mkWorld m' d' (snaps w) (copies w)
                     (λ p ma a st, reported w p ma a st ∨ told is_print arg_text args srv resolver p ma a st)).

(** A session whose address, public key and private key are one pair's. *)
Definition minted (mt : SessionMeta) : Prop :=
  ∃ kp, Generated (Pub kp) (Priv kp) ∧
    shown Sum256 bech32_Encode pubkey_Bytes kp = Some (mkKeypair (SessionAddress mt) (SessionPubkey mt) (Privkey mt)).

Lemma minted_same a b : same_identity a b → minted a → minted b.
Proof using Type. intros (H1 & H2 & H3). unfold minted. by rewrite H1, H2, H3. Qed.

Lemma minted_step w w' : mint_step w w' → all_sessions store minted w → all_sessions store minted w'.
Proof using StoreLaws0.
  intros Hs Hi. destruct Hs as [w w' H|w args srv resolver gen kp k now now' m' d' r _ Hg Hk H|w order args srv resolver now m' d' r H].
  - by eapply (all_own store minted minted_same).
  - pose proof (propose_inv _ _ _ _ _ _ _ _ _ _ _ _ _ _ _ _ _ _ H) as Hr.
    assert (Hq : ∀ q, minted (pending_meta q k now)) by (intros q; exists kp; by destruct k).
    pose proof Hi as [[Hm Hd] Hc]. destruct r as [res|e].
    + destruct Hr as (q & k' & _ & [= <-] & Hw & -> & _).
      split; [|exact Hc]. split; [by apply mem_all_insert|]. by eapply (dsk_all_write store minted minted_same).
    + destruct Hr as [-> [->|(q & k' & e' & _ & [= <-] & Hw)]]; [by destruct w|].
      split; [|exact Hc]. split; [done|]. by eapply (dsk_all_write store minted minted_same).
  - unfold authStatusHandler in H. destruct Hi as [Hi Hc]. split; [|exact Hc]. simpl.
    destruct (requireProfile _ _ _ _) as [[pn p]|e]; [|by injection H as <- <- <-].
    destruct (refresh_all _ _ _ _ _ _ _) as [[m1 d1] l1] eqn:E. injection H as <- <- <-.
    by eapply (all_refresh_all store minted minted_same).
Qed.

Lemma minted_run d0 w : (∀ p a, sr store d0 p a = None) →
  rtc mint_step (mkWorld ∅ d0 [] [] (λ _ _ _ _, False)) w → all_sessions store minted w.
Proof using StoreLaws0.
  intros Hd Hs. refine (rtc_ind_r (all_sessions store minted) _ _ _ _ Hs); [|intros w1 w2 _ H IH; by eapply minted_step].
  split; [split|]; simpl.
  - intros p a ss H. unfold getState in H. by rewrite lookup_empty in H.
  - intros p a mt H. by rewrite Hd in H.
  - intros p mt Hin. by apply not_elem_of_nil in Hin.
Qed.
End mint.

(** ** Properties *)

(** C3: a session signs with its own key.  When every proposal draws its pair
    from [NewKeypair], then through any interleaving of proposals, status
    calls, promotions, picks, charges, late writes, disk failures and restarts,
    the session a pick returns has the address and the bech32 public key of one
    generated pair, the ones the user was asked to authorize, and the signer
    rebuilt from its stored private key shows that pair's public key, signs every
    payload, and every transaction the chain client signs with it carries
    exactly one signature, of that public key, over the sign bytes of the
    account's number and sequence, and it verifies. *)
Theorem session_signs_as_minted is_print arg_text AddressFromBech32 IsRealmPath scope_text mgr_text
    Sum256 bech32_Encode pubkey_Bytes ed_Sign GetSignBytes Generated Verify {D} (store : StoreOps D)
    d0 w order profile match_ now m' pk :
  Ed25519Laws ed_Sign Generated Verify → StoreLaws store → (∀ p a, sr store d0 p a = None) →
  rtc (mint_step is_print arg_text AddressFromBech32 IsRealmPath scope_text mgr_text Sum256 bech32_Encode pubkey_Bytes Generated store)
    (mkWorld ∅ d0 [] [] (λ _ _ _ _, False)) w →
  (∀ ps, order ps ≡ₚ map_to_list ps) →
  pick_locked order (mem w) profile match_ now = (m', Ok pk) →
  let s := as_signer ed_Sign (adapter_of pk) in
  ∃ kp ss, pk = mkPicked (SessionAddress (meta ss)) (Privkey (meta ss)) (SessionManager.MasterAddress (meta ss)) ∧ match_ ss = true ∧
    Generated (Pub kp) (Priv kp) ∧ Address Sum256 bech32_Encode kp = Ok (sg_address s) ∧
    PubkeyBech32 bech32_Encode pubkey_Bytes kp = Ok (SessionPubkey (meta ss)) ∧
    sg_pubkey s = Pub kp ∧ (∀ payload, ∃ sig, sg_sign s payload = Some sig ∧ Verify (Pub kp) payload sig = true) ∧
    ∀ chainID op tx acc a h payload, GetSignBytes tx chainID (AccountNumber acc) (AccSequence acc) = Some payload →
      ∃ sig, signTxForSession chainID GetSignBytes op tx s acc a h = (h ++ [EvSign payload], Ok (set_sigs tx [mkSig (Pub kp) sig a])) ∧
        Verify (Pub kp) payload sig = true.
Proof.
  intros He HL Hd Hs Ho HP s.
  pose proof (minted_run _ _ _ _ _ _ _ _ _ _ _ _ _ Hd Hs) as [[Hm _] _].
  apply (all_pick _ _ _ _ _ _ _ _ Hm) in HP as Hm'.
  pose proof (pick_locked_spec order Ho _ _ _ _ _ _ HP) as (ss & ([a Ha] & _ & Hmatch) & -> & _).
  destruct (Hm' _ _ _ Ha) as (kp & Hg & Hk). exists kp, ss.
  unfold shown in Hk. destruct (Address _ _ kp) as [ad|]; [|done]. destruct (PubkeyBech32 _ _ kp) as [pb|]; [|done].
  injection Hk as E1 E2 E3. unfold s, adapter_of. simpl pk_addr. simpl pk_priv. rewrite <- E3.
  split_and!; [done|done|done|by rewrite E1|by rewrite E2| | |].
  - by destruct (adapter_generated ed_Sign Generated Verify kp (SessionAddress (meta ss)) "" Hg) as (_ & Hp & _).
  - intros payload. destruct (adapter_generated ed_Sign Generated Verify kp (SessionAddress (meta ss)) payload Hg) as (_ & _ & H). eauto.
  - intros chainID op tx acc ad' h payload Hb. exists (ed_Sign (Priv kp) payload). split.
    + by eapply (adapter_signs ed_Sign GetSignBytes Generated Verify).
    + apply (@gen_verify _ _ _ He _ _ _ Hg).
Qed.

(** A toy curve: a private key is a seed and its public key, a signature is the
    public key and the payload; bech32 separates with a 1. *)
Definition toy_Generated (pub priv : string) : Prop := String.length pub = 32%nat ∧ priv = pub +:+ pub.
Definition toy_ed_Sign (priv payload : string) : string := public_half priv +:+ payload.
Definition toy_Verify (pub payload sig : string) : bool := bool_decide (sig = pub +:+ payload).
Definition toy_bech32 (hrp data : string) : res string string := Ok (hrp +:+ "1" +:+ data).
Definition toy_pair : Keypair := mkPair "0123456789abcdef0123456789abcdef" "0123456789abcdef0123456789abcdef0123456789abcdef0123456789abcdef".
Definition toy_shown : SessionTools.Keypair := mkKeypair "g10123456789abcdef0123" "gpub10123456789abcdef0123456789abcdef" (Priv toy_pair).

#[export] Instance toy_ed25519 : Ed25519Laws toy_ed_Sign toy_Generated toy_Verify.
Proof.
  constructor.
  - intros pub priv [H ->]. by exists pub.
  - intros pub priv payload [H ->]. unfold toy_Verify, toy_ed_Sign, public_half. rewrite <- H, str_drop_app.
    by apply bool_decide_eq_true_2.
Qed.

(** A chain that confirms every session. *)
Definition yes_client : SessChain := mkSessChain (Ok 10000) (λ _ _, Ok toy_status).

Abbreviation toy_mint_propose := (sessionProposeHandler (λ _, true) (λ _, "") (λ a, has_prefix a "g1") toy_realm (λ _, "") (λ _, "") toy_store
  toy_propose_args toy_srv (λ _, Some yes_client) (Ok toy_shown) 0 0).
Abbreviation toy_mint_status := (authStatusHandler (λ _, true) (λ _, "") toy_store map_to_list {["profile" := JStr "p"]} toy_srv
  (λ _, Some yes_client) (λ _, 0)).

Definition toy_m1 : World (gmap (string * string) SessionMeta) :=
  let '(m, d, _) := toy_mint_propose ∅ ∅ in mkWorld m d [] [] silent.
Definition toy_m2 : World (gmap (string * string) SessionMeta) :=
  let '(m, d, _) := toy_mint_status (mem toy_m1) (dsk toy_m1) in
  mkWorld m d [] [] (λ p ma a st, silent p ma a st ∨
    told (λ _, true) (λ _, "") {["profile" := JStr "p"]} toy_srv (λ _, Some yes_client) p ma a st).

Lemma toy_mint_reach :
  rtc (mint_step (λ _, true) (λ _, "") (λ a, has_prefix a "g1") toy_realm (λ _, "") (λ _, "") id toy_bech32 id toy_Generated toy_store)
    (mkWorld ∅ ∅ [] [] silent) toy_m2.
Proof.
  assert (Hrest : snaps toy_m1 = [] ∧ copies toy_m1 = [] ∧ reported toy_m1 = silent)
    by (unfold toy_m1; destruct (toy_mint_propose ∅ ∅) as [[m0 d0] r0]; repeat split).
  eapply (rtc_l _ _ toy_m1).
  { unfold toy_m1. destruct (toy_mint_propose ∅ ∅) as [[m d] r] eqn:E.
    eapply (mint_propose _ _ _ _ _ _ _ _ _ _ _ (mkWorld ∅ ∅ [] [] silent) _ _ _ (Ok (Pub toy_pair, Priv toy_pair)) toy_pair toy_shown);
      [reflexivity|split; reflexivity|vm_compute; reflexivity|exact E]. }
  eapply rtc_l; [|apply rtc_refl]. unfold toy_m2.
  destruct (toy_mint_status (mem toy_m1) (dsk toy_m1)) as [[m d] r] eqn:E. destruct Hrest as (H1 & H2 & H3).
  pose proof (mint_status (λ _, true) (λ _, "") (λ a, has_prefix a "g1") toy_realm (λ _, "") (λ _, "") id toy_bech32 id toy_Generated
    toy_store toy_m1 map_to_list _ _ _ _ _ _ _ E) as Hc. rewrite H1, H2, H3 in Hc. exact Hc.
Qed.

(** Proposed with a generated key, authorized, picked: it signs. *)
Lemma session_signs_as_minted_witness :
  let s := as_signer toy_ed_Sign (mkAdapter "g10123456789abcdef0123" (Priv toy_pair)) in
  ∃ kp, sg_pubkey s = Pub kp ∧ ∀ payload, ∃ sig, sg_sign s payload = Some sig ∧ toy_Verify (Pub kp) payload sig = true.
Proof.
  destruct (session_signs_as_minted (λ _, true) (λ _, "") (λ a, has_prefix a "g1") toy_realm (λ _, "") (λ _, "") id toy_bech32 id toy_ed_Sign
    (λ _ _ _ _, Some "bytes") toy_Generated toy_Verify toy_store ∅ toy_m2
    map_to_list "p" (λ ss, coversRealm (mAllowPaths (meta ss)) "gno.land/r/a") (-62135593300)
    (fst (pick_locked map_to_list (mem toy_m2) "p" (λ ss, coversRealm (mAllowPaths (meta ss)) "gno.land/r/a") (-62135593300)))
    (mkPicked "g10123456789abcdef0123" (Priv toy_pair) "g1m") toy_ed25519 toy_store_laws (λ p a, lookup_empty _) toy_mint_reach (λ ps, reflexivity _))
    as (kp & ss & _ & _ & _ & _ & _ & H1 & H2 & _).
  - vm_compute. reflexivity.
  - exists kp. split; [exact H1|exact H2].
Defined.
