(* ===== verification/WritePath.v ===== *)
(** * gno_call and gno_run down to the node

    [TxTools] states its handlers over an interface to the chain; here that
    interface is the client of [ChainClient] ([internal/chain/real.go]) over a
    node, and the session signer is the one [Keypair] rebuilds from a picked
    session.  The composition says what one tool call makes the node broadcast. *)
From S2P Require Import Prelude GoText GoTime Profiles GasPrice ChainTypes SessionManager ServerCore Handlers ChainClient Keystore WriteTools TxTools Keypair.
From stdpp Require Import prelude strings gmap list.
From Stdlib Require Import ZArith Lia Ascii String.
Local Open Scope Z_scope.

Section write_path.
(** What [ChainClient] is over. *)
Context (chainID : string) (AddressFromBech32 : string → option string) (NewTx : TxCfg → Msg → option Tx).
Context (GetSignBytes : Tx → string → Z → Z → option string) (SpendForSigner : Msg → option (string → Coins)).
Context (coins_add : Coins → Coins → Coins) (coins_string : Coins → string) (ParseCoins : string → option Coins).
Context (CheckSessionSpend : SessionAccount → Coins → Z → bool).
Context (decodeSessionAccount : string → option SessionAccount) (decode_price : string → option GasPrice).
Context {Signer : Type} (Info : Signer → option string) (SignAgent : Signer → Tx → option Tx).
Context (node : Node) (ed_Sign : string → string → string).
(** The text of a client error, and of a signer's. *)
Context (chain_text : chain_error → string) (info_text : string).
(** How far the node's history has got when the tool has done so much. *)
Context (node_at : trace → history).

Abbreviation client_call := (Call NewTx ParseCoins decode_price Info SignAgent node).
Abbreviation client_call_user := (CallAsUser chainID AddressFromBech32 NewTx GetSignBytes SpendForSigner coins_add coins_string
  ParseCoins CheckSessionSpend decodeSessionAccount decode_price node).
Abbreviation client_run := (Run NewTx decode_price Info SignAgent node).
Abbreviation client_run_user := (RunAsUser chainID AddressFromBech32 NewTx GetSignBytes SpendForSigner coins_add coins_string
  CheckSessionSpend decodeSessionAccount decode_price node).

Definition op_res (r : res chain_error TxResult) : res op_error TxResult := map_err (λ e, OpFailed (chain_text e)) r.
Definition signer_of (pk : Picked) : SessionSigner := as_signer ed_Sign (adapter_of pk).
Definition info_res (sg : Signer) : res string string := ok_or info_text (Info sg).

(** [chain.Real] as the tools' client: the writes are its own, what it is
    asked besides answers as [c] does. *)
Definition real_client (c : TxChain Signer) : TxChain Signer :=
  mkTxChain Signer (t_balance c) (t_meta c) (t_submitters c) (t_pick_call c) (t_pick_run c)
    (λ tr sg realm fn args send simulate, op_res (client_call (Some sg) realm fn args send simulate (node_at tr)).2)
    (λ tr pk master realm fn args send simulate,
       op_res (client_call_user (Some (signer_of pk)) master realm fn args send simulate (node_at tr)).2)
    (λ tr sg code simulate, op_res (client_run (Some sg) code simulate (node_at tr)).2)
    (λ tr pk master code simulate, op_res (client_run_user (Some (signer_of pk)) master code simulate (node_at tr)).2)
    (t_send c).

(** ** What a client write leaves on the node *)

(** At most one message of the agent's is broadcast, at the price its result
    reports; none by a simulation, one when a real write answers. *)
Definition agent_wrote (m : Msg) (simulate : bool) (h : history) (run : history * res chain_error TxResult) : Prop :=
  ∃ evs, run.1 = h ++ evs ∧
  (broadcasts evs = [] ∨ simulate = false ∧ ∃ gas fee, broadcasts evs = [EvAgentBroadcast (baseTxCfg fee gas) m] ∧
     ∀ o, run.2 = Ok o → GasWanted o = gas ∧ ChainTypes.GasFee o = fee) ∧
  ∀ o, run.2 = Ok o → Simulated o = simulate ∧ (simulate = false → broadcasts evs ≠ []).

(** The same of the session's: the transaction is built for the canonical
    master, passed the spend check and carries the session signer's signature
    alone. *)
Definition session_wrote (sgn : SessionSigner) (master : string) (msg : string → Msg) (simulate : bool) (h : history)
    (run : history * res chain_error TxResult) : Prop :=
  ∃ evs, run.1 = h ++ evs ∧
  (broadcasts evs = [] ∨ simulate = false ∧ ∃ masterAddr sessionAddr acc gas fee tx payload sig h1,
     broadcasts evs = [EvBroadcast (set_sigs tx [mkSig (sg_pubkey sgn) sig sessionAddr])] ∧
     AddressFromBech32 master = Some masterAddr ∧ AddressFromBech32 (sg_address sgn) = Some sessionAddr ∧
     NewTx (baseTxCfg fee gas) (msg masterAddr) = Some tx ∧
     CheckSessionSpend acc (tx_total SpendForSigner coins_add tx masterAddr) (n_now node h1) = true ∧
     GetSignBytes tx chainID (AccountNumber acc) (AccSequence acc) = Some payload ∧ sg_sign sgn payload = Some sig ∧
     ∀ o, run.2 = Ok o → GasWanted o = gas ∧ ChainTypes.GasFee o = fee) ∧
  ∀ o, run.2 = Ok o → Simulated o = simulate ∧ (simulate = false → broadcasts evs ≠ []).

Lemma agent_write_wrote sg op m data simulate h :
  agent_wrote m simulate h (agent_write NewTx decode_price SignAgent node sg op m data simulate h).
Proof using Type.
  pose proof (agent_write_honest NewTx decode_price SignAgent node sg op m data simulate h) as H.
  destruct (agent_write _ _ _ _ _ _ _ _ _ _) as [h' r]. destruct H as (evs & -> & Hb & Ho).
  exists evs. simpl. split; [done|]. split; [|intros o E; destruct (Ho o E) as (? & ? & _); auto].
  destruct Hb as [Hb|(Hs & gas & fee & tx0 & signed & h1 & d & Hb & _ & _ & _ & _ & _ & _ & He)]; [by left|].
  right. split; [done|]. by exists gas, fee.
Qed.

Lemma as_user_wrote sgn master op msg simulate h :
  session_wrote sgn master msg simulate h
    (asUserTx chainID AddressFromBech32 GetSignBytes SpendForSigner coins_add coins_string CheckSessionSpend
       decodeSessionAccount decode_price node (Some sgn) master op (λ a cfg, NewTx cfg (msg a)) simulate h).
Proof using Type.
  pose proof (asUserTx_honest chainID AddressFromBech32 GetSignBytes SpendForSigner coins_add coins_string CheckSessionSpend
    decodeSessionAccount decode_price node (Some sgn) master op (λ a cfg, NewTx cfg (msg a)) simulate h) as H.
  destruct (asUserTx _ _ _ _ _ _ _ _ _ _ _ _ _ _ _ h) as [h' r]. destruct H as (evs & -> & Hb & Ho).
  exists evs. simpl. split; [done|]. split; [|intros o E; destruct (Ho o E) as (? & ? & _); auto].
  destruct Hb as [Hb|(Hs & s & ma & sa & acc & gas & fee & tx & payload & sig & h1 & Hb & [= <-] & Hma & Hsa & [Htx _] & Hc & Hp & Hsig & He)];
    [by left|].
  right. split; [done|]. exists ma, sa, acc, gas, fee, tx, payload, sig, h1. split_and!; done.
Qed.

Lemma client_call_wrote sg addr coins realm fn args send simulate h :
  Info sg = Some addr → parseSendCoins ParseCoins send = Some coins →
  agent_wrote (MsgCall addr coins realm fn args) simulate h (client_call (Some sg) realm fn args send simulate h).
Proof using Type.
  intros Hi Hc. unfold Call, agentTxSetup, lift, mbind, M_bind, mret, M_ret. rewrite Hi, Hc. apply agent_write_wrote.
Qed.

Lemma client_run_wrote sg addr code simulate h : Info sg = Some addr →
  agent_wrote (MsgRun addr [mkFile "main.gno" code]) simulate h (client_run (Some sg) code simulate h).
Proof using Type.
  intros Hi. unfold Run, agentTxSetup, lift, mbind, M_bind, mret, M_ret. rewrite Hi. apply agent_write_wrote.
Qed.

Lemma client_call_user_wrote sgn master coins realm fn args send simulate h : parseSendCoins ParseCoins send = Some coins →
  session_wrote sgn master (λ a, MsgCall a coins realm fn args) simulate h
    (client_call_user (Some sgn) master realm fn args send simulate h).
Proof using Type.
  intros Hc. unfold CallAsUser, lift, mbind, M_bind, mret, M_ret. rewrite Hc. apply as_user_wrote.
Qed.

Lemma client_run_user_wrote sgn master code simulate h :
  session_wrote sgn master (λ a, MsgRun a [mkFile "main.gno" code]) simulate h (client_run_user (Some sgn) master code simulate h).
Proof using Type. apply as_user_wrote. Qed.

(** ** One tool call, at most one transaction *)

Abbreviation acts evs := (filter (λ e, is_op e = true) evs).
Abbreviation dispatch_params := (writeTxDispatch (Signer := Signer) (Out := TxResult)).

(** A dispatch of [d] that did [evs] from [tr] and answered [r]: it refused,
    or it ran one client operation, [agent_run] or [user_run], which wrote at
    most the message asked for, and it answered exactly when that operation
    did, with what it reported; a session is charged exactly the fee of a real
    write that answered. *)
Definition one_write (d : dispatch_params) (msg : string → Msg) (agent_run : Signer → M TxResult) (user_run : Picked → M TxResult)
    (tr evs : trace) (r : res tool_err Result) (render : dispatched (Out := TxResult) → TxResult → Result) : Prop :=
  acts evs = [] ∧ is_ok r = false ∨
  ∃ pre rest run, acts pre = [] ∧ let h := node_at (tr ++ pre) in
   ((∃ sg addr, evs = pre ++ EfAgentOp addr :: rest ∧ acts rest = [] ∧ d_signer d = Ok sg ∧ Info sg = Some addr ∧
       run = agent_run sg h ∧ agent_wrote (msg addr) (d_simulate d) h run) ∨
    (∃ pk, evs = pre ++ EfSessionOp (pk_addr pk) (pk_master pk) :: rest ∧ d_keyName d = "" ∧ d_pick d tr = Ok pk ∧
       acts rest = match run.2 with Ok o => if d_simulate d then [] else [EfSettle (pk_addr pk) (ChainTypes.GasFee o)] | Err _ => [] end ∧
       run = user_run pk h ∧ session_wrote (signer_of pk) (pk_master pk) msg (d_simulate d) h run)) ∧
   is_ok r = is_ok run.2 ∧ ∀ res, r = Ok res → ∃ rr o, run.2 = Ok o ∧ r_out rr = Some o ∧ res = render rr o.

Lemma acts_meta rest : rest = [] ∨ (∃ path, rest = [EfMeta path]) → acts rest = [].
Proof using Type. by intros [->|[path ->]]. Qed.

(** The result of a dispatch whose operation ended as [o]. *)
Lemma answered (d : dispatch_params) (o : res chain_error TxResult) (r : res tool_err Result) (rest : trace) (rr : dispatched (Out := TxResult)) (render : dispatched (Out := TxResult) → TxResult → Result) :
  reported d (op_res o) rr →
  (∀ res, r = Ok res → rest = [] ∧ r_err rr = None ∧ ∃ cr, r_out rr = Some cr ∧ res = render rr cr) →
  (is_ok r = false → r_err rr ≠ None ∧ (rest = [] ∨ ∃ path, rest = [EfMeta path])) →
  acts rest = [] ∧ is_ok r = is_ok o ∧ ∀ res, r = Ok res → ∃ rr o', o = Ok o' ∧ r_out rr = Some o' ∧ res = render rr o'.
Proof using Type.
  unfold reported, op_res. intros Hr Hok Herr. destruct o as [cr|e]; simpl in *; destruct r as [res|te]; simpl in *.
  - destruct Hr as (_ & _ & Ho). destruct (Hok res eq_refl) as (-> & _ & cr' & Ho' & ->). split_and!; [done..|].
    intros res [= <-]. exists rr, cr. split_and!; [done|done|]. by simplify_eq.
  - destruct Hr as (He & _). by destruct (Herr eq_refl) as [He' _].
  - destruct Hr as (He & _). by destruct (Hok res eq_refl) as (_ & He' & _).
  - split_and!; [by apply acts_meta, Herr|done|done].
Qed.

Lemma dispatched_writes (d : dispatch_params) msg (agent_run : Signer → M TxResult) (user_run : Picked → M TxResult)
    idArg summary tr evs entry r render :
  d_info d = info_res →
  (∀ t sg, d_agentOp d t sg = op_res (agent_run sg (node_at t)).2) →
  (∀ t pk, d_sessionOp d t pk (pk_master pk) = (λ o, (o, ChainTypes.GasFee o)) <$> op_res (user_run pk (node_at t)).2) →
  (∀ sg addr h, Info sg = Some addr → agent_wrote (msg addr) (d_simulate d) h (agent_run sg h)) →
  (∀ pk h, session_wrote (signer_of pk) (pk_master pk) msg (d_simulate d) h (user_run pk h)) →
  dispatched_call d idArg summary tr evs entry r render →
  one_write d msg agent_run user_run tr evs r render.
Proof using Type.
  intros Hi Ha Hu Hwa Hwu (done_ & rest & rr & -> & Hacc & _ & _ & _ & _ & Hok & Herr).
  destruct Hacc as [Hn He _|pre sg addr _ Hsg Hinfo Hpre -> _ _ _ _ _ _ Hr|pre pk settle o _ Hk Hp Hpre -> _ Ho -> _ _ _ _ Hr].
  - left. assert (is_ok r = false) as E by (destruct r as [res|]; [by destruct (Hok res eq_refl) as (_ & ? & _)|done]).
    split; [|done]. rewrite filter_app, Hn. apply acts_meta, Herr, E.
  - right. assert (acts pre = []) as Hq by (by rewrite Hpre, filter_app, quiet_precheck, quiet_balance).
    rewrite Ha in Hr. rewrite Hi in Hinfo. unfold info_res in Hinfo. destruct (Info sg) as [a|] eqn:Ei; [|done]. injection Hinfo as ->.
    destruct (answered d _ r rest rr render Hr Hok Herr) as (H1 & H2 & H3).
    exists pre, rest, (agent_run sg (node_at (tr ++ pre))). split; [done|]. split; [|by split]. left.
    exists sg, addr. rewrite <- app_assoc. split_and!; try done. by apply Hwa.
  - right. assert (acts pre = []) as Hq by (rewrite Hpre; apply quiet_precheck).
    rewrite Hu in Ho. subst o. set (run := user_run pk (node_at (tr ++ pre))) in *.
    assert (reported d (op_res run.2) rr) as Hr' by (destruct run as [h' [o|e]]; exact Hr).
    destruct (answered d _ r rest rr render Hr' Hok Herr) as (H1 & H2 & H3).
    exists pre, ((match run.2 with Ok o => if d_simulate d then [] else [EfSettle (pk_addr pk) (ChainTypes.GasFee o)] | Err _ => [] end) ++ rest), run.
    split; [done|]. split; [|by split]. right. exists pk.
    split; [rewrite <- app_assoc; f_equal; simpl; f_equal; f_equal; by destruct run as [h' [o|e]]|].
    split; [done|]. split; [done|]. split; [|split; [done|apply Hwu]].
    rewrite filter_app, H1, app_nil_r. destruct run as [h' [o|e]]; simpl; [|done]. by destruct (d_simulate d).
Qed.

(** ** The handlers over the real client *)

Context (is_print : Z → bool) (ks_text : ks_error → string) (arg_text : arg_error → string) (pick_text : pick_error → string).
Context (fold_key : Z → Z) (runes : string → list Z).
Context (signer_for : string → string → Profile → res ks_error Signer).

Abbreviation callH := (callHandler is_print ks_text arg_text pick_text ParseCoins signer_for info_res).
Abbreviation runH := (runHandler is_print ks_text arg_text pick_text fold_key runes signer_for info_res).

Lemma call_args_coins args q : call_args is_print arg_text ParseCoins args = Ok q →
  ∃ coins, parseSendCoins ParseCoins (cl_send q) = Some coins.
Proof using Type.
  unfold call_args, ValidateSendCoins. intros H. inv_res. b2p. simpl.
  match goal with H : is_Some _ |- _ => exact H end.
Qed.

(** C25: a tool call puts at most one transaction on the chain, the one asked
    for.  Over the real client, gno_call and gno_run either refuse with nothing
    signed, or run one client operation at the point they reached.  As the
    agent it broadcasts at most the call or run of the agent's own address; as
    a session at most the one of the canonical master the session was picked
    with, spend-checked and carrying the picked session key's signature alone;
    nothing when simulating, exactly one transaction when a real write answers.
    A result goes back exactly when the operation answered, rendered from what
    it reported, which is the gas and fee of the transaction; and the session is
    charged that fee, once, exactly for a real write that answered. *)
Theorem tool_call_writes_once args srv resolver tr :
  let rs pn := real_client <$> resolver pn in
  (let '(tr', entry, r) := audited "gno_call" (callH args srv rs) tr in ∃ evs, tr' = tr ++ evs ∧
   (evs = [] ∧ is_ok r = false ∨ ∃ pn p q c coins, requireProfile is_print arg_text args srv = Ok (pn, p) ∧
      call_args is_print arg_text ParseCoins args = Ok q ∧ resolver pn = Some c ∧ parseSendCoins ParseCoins (cl_send q) = Some coins ∧
      one_write (call_dispatch is_print pick_text signer_for info_res (real_client c) pn p q)
        (λ a, MsgCall a coins (cl_realm q) (cl_fn q) (cl_args q))
        (λ sg, client_call (Some sg) (cl_realm q) (cl_fn q) (cl_args q) (cl_send q) (cl_simulate q))
        (λ pk, client_call_user (Some (signer_of pk)) (pk_master pk) (cl_realm q) (cl_fn q) (cl_args q) (cl_send q) (cl_simulate q))
        tr evs r (call_render is_print p q))) ∧
  (let '(tr', entry, r) := audited "gno_run" (runH args srv rs) tr in ∃ evs, tr' = tr ++ evs ∧
   (evs = [] ∧ is_ok r = false ∨ ∃ pn p q c, requireProfile is_print arg_text args srv = Ok (pn, p) ∧
      run_args arg_text args = Ok q ∧ resolver pn = Some c ∧
      one_write (run_dispatch is_print pick_text fold_key runes signer_for info_res (real_client c) pn p q)
        (λ a, MsgRun a [mkFile "main.gno" (rn_code q)])
        (λ sg, client_run (Some sg) (rn_code q) (rn_simulate q))
        (λ pk, client_run_user (Some (signer_of pk)) (pk_master pk) (rn_code q) (rn_simulate q))
        tr evs r (run_render is_print pn p q))).
Proof using Type.
  intros rs. split.
  - eapply (audited_wp "gno_call" (callH args srv rs) (λ tr' entry r, ∃ evs, tr' = tr ++ evs ∧ _)).
    eapply wp_mono; [apply (call_wp is_print ks_text arg_text pick_text fold_key runes ParseCoins (λ _, f64_zero))|]. cbn beta. intros st r (evs & Hh & H). exists evs. split; [exact Hh|].
    destruct H as [(He & _ & _ & Hr)|(pn & p & q & c & Hp & Hq & Hc & Hd)]; [by left|right].
    apply fmap_Some in Hc as (c0 & Hc & ->). destruct (call_args_coins _ _ Hq) as [coins Hcoins].
    exists pn, p, q, c0, coins. repeat lazymatch goal with |- _ ∧ _ => split; [assumption|] end.
    eapply dispatched_writes; [| | | | |exact Hd]; try done.
    + intros sg addr h Hi. by apply client_call_wrote.
    + intros pk h. by apply client_call_user_wrote.
  - eapply (audited_wp "gno_run" (runH args srv rs) (λ tr' entry r, ∃ evs, tr' = tr ++ evs ∧ _)).
    eapply wp_mono; [apply (run_wp is_print ks_text arg_text pick_text fold_key runes ParseCoins (λ _, f64_zero))|]. cbn beta. intros st r (evs & Hh & H). exists evs. split; [exact Hh|].
    destruct H as [(He & _ & _ & Hr)|(pn & p & q & c & Hp & Hq & Hc & Hd)]; [by left|right].
    apply fmap_Some in Hc as (c0 & Hc & ->).
    exists pn, p, q, c0. repeat lazymatch goal with |- _ ∧ _ => split; [assumption|] end.
    eapply dispatched_writes; [| | | | |exact Hd]; try done.
    + intros sg addr h Hi. by apply client_run_wrote.
    + intros pk h. by apply client_run_user_wrote.
Qed.
End write_path.

(** ** A concrete run *)

(** gno_call as a session on a writable testnet, over the node of
    [ChainClient]: the tool's trace, its record, and the node's broadcasts. *)
Definition toy_run_call (simulate : bool) : trace * Entry * res tool_err Result :=
  audited "gno_call"
    (callHandler (λ _, true) (λ _, "") (λ _, "") (λ _, "") (λ _, None) (λ _ _ _, Ok "sg") (info_res (λ _ : string, Some "g1a") "info")
       {["profile" := JStr "p"; "realm" := JStr "gno.land/r/demo/boards"; "func" := JStr "Post"; "args" := JArr [JStr "hi"];
         "identity" := JStr "session"; "simulate" := JBool simulate]} TxTools.toy_srv
       (λ _, Some (real_client "test5" (λ a, Some a) toy_NewTx (λ _ _ _ _, Some "bytes") (λ _, None) (λ a b, a ++ b) toy_string (λ _, None)
                     (λ _ _ _, true) toy_decode (λ _, None) (λ _ : string, Some "g1a") (λ _ tx, Some tx) (toy_node (Ok "acc")) toy_ed_Sign
                     (λ _, "chain") (λ _, [])
                     (mkTxChain string (λ _ _, Ok 7) (λ _ _, Err "") (λ _, Ok []) (λ _ _, Ok (mkPicked "g1s" (Priv toy_pair) "g1m"))
                        (λ _, Err ErrNoActiveSession) (λ _ _ _ _ _ _ _, Err (OpFailed "")) (λ _ _ _ _ _ _ _ _, Err (OpFailed ""))
                        (λ _ _ _ _, Err (OpFailed "")) (λ _ _ _ _ _, Err (OpFailed "")) (λ _ _ _ _, Err ""))))) [].

Example toy_call_charged :
  fst (fst (toy_run_call false)) = [EfPick; EfSessionOp "g1s" "g1m"; EfSettle "g1s" 10000] ∧
  EntryResult (snd (fst (toy_run_call false))) = "ok" ∧ is_ok (snd (toy_run_call false)) = true ∧
  fst (fst (toy_run_call true)) = [EfPick; EfSessionOp "g1s" "g1m"] ∧ EntryResult (snd (fst (toy_run_call true))) = "sim".
Proof. by vm_compute. Qed.
