(* ===== verification/ProfileAdd.v ===== *)
(** * Adding a chain at run time

    [internal/gnoweb/discover.go], which reads a chain's endpoint off a gnoweb
    page, and [internal/tools/admin/profileadd.go], the gno_profile_add tool
    that vets an endpoint and asks the node itself before it is loaded.  HTTP,
    the HTML tokenizer, the node and the republishing of tools are arguments. *)
From S2P Require Import Prelude GoText Profiles ServerCore Handlers TxTools.
From stdpp Require Import prelude strings gmap list.
From Stdlib Require Import ZArith Lia Ascii String.
Local Open Scope Z_scope.

(** ** gnoweb discovery *)

Definition metaNameRPC : string := "gnoconnect:rpc".
Definition metaNameChainID : string := "gnoconnect:chainid".

Record Conn := mkConn { RPC : string; ConnChainID : string }.

(** The tokenizer's tokens up to its error token; a start tag or self-closing
    tag carries its attributes in order. *)
Inductive token :=
  | StartTag (name : string) (attrs : list (string * string))
  | EndTag (name : string)
  | OtherToken.

#[export] Instance token_eq_dec : EqDecision token.
Proof. solve_decision. Defined.

(** The name and content of a meta tag: the last of each counts. *)
Fixpoint metaAttrs_go (name content : string) (attrs : list (string * string)) : string * string :=
  match attrs with
  | [] => (name, content)
  | (k, v) :: attrs =>
      if bool_decide (k = "name") then metaAttrs_go v content attrs
      else if bool_decide (k = "content") then metaAttrs_go name v attrs
      else metaAttrs_go name content attrs
  end.
Definition metaAttrs (attrs : list (string * string)) : string * string := metaAttrs_go "" "" attrs.

Definition meta_tag (conn : Conn) (attrs : list (string * string)) : Conn :=
  let '(name, content) := metaAttrs attrs in
  if bool_decide (name = metaNameRPC) then mkConn content (ConnChainID conn)
  else if bool_decide (name = metaNameChainID) then mkConn (RPC conn) content
  else conn.

Fixpoint head_loop (conn : Conn) (l : list token) : Conn :=
  match l with
  | [] => conn
  | EndTag name :: l => if bool_decide (name = "head") then conn else head_loop conn l
  | StartTag name attrs :: l =>
      if bool_decide (name = "body") then conn
      else if bool_decide (name = "meta") then head_loop (meta_tag conn attrs) l
      else head_loop conn l
  | OtherToken :: l => head_loop conn l
  end.

(** What a fetch answers: a status and the tokens of the first MiB. *)
Abbreviation page := (Z * list token)%type.

Section gnoweb.
Context (is_print : Z → bool).

Definition Discover (get : string → res string page) (url : string) : res string Conn :=
  match get url with
  | Err e => Err ("fetch gnoweb " +:+ quote is_print url +:+ ": " +:+ e)
  | Ok (status, tokens) =>
      let conn := head_loop (mkConn "" "") tokens in
      if bool_decide (RPC conn = "") || bool_decide (ConnChainID conn = "") then
        Err ("gnoweb " +:+ quote is_print url +:+ ": " +:+
             (if status =? 200 then "" else "status " +:+ format_int status +:+ ", ") +:+
             "no " +:+ metaNameRPC +:+ "/" +:+ metaNameChainID +:+ " meta-tags (is this a gnoweb host?)")
      else Ok conn
  end.
End gnoweb.

(** ** Vetting *)

Definition truncate (s : string) (max : nat) : string :=
  if (String.length s <=? max)%nat then s else String.substring 0 max s +:+ "…(truncated)".

(** What a call does besides changing the configuration. *)
Inductive add_io := IoDiscover (url : string) | IoVerify (rpc : string) | IoRepublish.

#[export] Instance add_io_eq_dec : EqDecision add_io.
Proof. solve_decision. Defined.

Section profile_add.
Context (is_print : Z → bool) (arg_text : arg_error → string) (profile_text : profile_error → string).
Context (fold_key : Z → Z) (runes : string → list Z).
Context (url_parse : string → option URL) (ParseIP : string → option IPKind) (AddressFromBech32 : string → bool).
Context (order : Config → list (string * Profile)).

Definition hostIsLoopback (rawURL : string) : bool :=
  match url_parse rawURL with
  | None => false
  | Some u =>
      equal_fold fold_key runes (Hostname u) "localhost" ||
      match ParseIP (Hostname u) with Some ip => IsLoopback ip || IsUnspecified ip | None => false end
  end.

Definition gnowebRPCUnusable (gnowebURL rpcURL : string) : bool := hostIsLoopback rpcURL && negb (hostIsLoopback gnowebURL).

Definition name_text (e : profile_add_error) : string :=
  match e with
  | ErrProfileNameInvalid name =>
      "profile " +:+ quote is_print name +:+ ": profile name must be lowercase alphanumeric with internal '-' or '_'"
  | ErrProfileReserved => dq +:+ "default" +:+ dq +:+ " is a reserved profile name"
  | ErrProfileImmutable name =>
      "profile " +:+ quote is_print name +:+ ": profile was loaded at startup and cannot be overridden dynamically"
  end.

Definition nameToolError (name : string) (e : profile_add_error) : tool_err :=
  ToolError match e with
            | ErrProfileReserved => "profile_reserved"
            | ErrProfileImmutable _ => "profile_immutable"
            | ErrProfileNameInvalid _ => "invalid_profile_name"
            end (name_text e) (extra1 "name" name).

(** *** Arguments *)

Definition add_arg_names : list string :=
  ["name"; "rpc_url"; "chain_id"; "gnoweb_url"; "tx_indexer_url"; "faucet_service_url"; "faucet_url"].

(** The arguments are read in the order the map is ranged over; the first that
    is ill-typed is reported. *)
Fixpoint read_strings (args : Args) (l : list string) : res arg_error unit :=
  match l with
  | [] => Ok tt
  | n :: l => _ ← StringArg args n; read_strings args l
  end.

Definition str_of (args : Args) (n : string) : string := match StringArg args n with Ok s => s | Err _ => "" end.

Definition invalid_arguments (msg : string) : tool_err := ToolError "invalid_arguments" msg ∅.

(** The two forms of the input. *)
Inductive form := Explicit (rpc chain : string) | FromGnoweb (url : string).

Record add_request := mkAdd { ad_name : string; ad_form : form; ad_indexer : string; ad_service : string; ad_faucet : string }.

Definition add_args (arg_order : list string) (args : Args) (srv : Server) : res tool_err add_request :=
  _ ← arg_err arg_text (read_strings args arg_order);
  let name := str_of args "name" in
  let rpc := str_of args "rpc_url" in
  let chain := str_of args "chain_id" in
  let web := str_of args "gnoweb_url" in
  let explicit := negb (bool_decide (rpc = "")) || negb (bool_decide (chain = "")) in
  _ ← check (negb (negb (bool_decide (web = "")) && explicit))
        (invalid_arguments "pass either gnoweb_url OR rpc_url+chain_id, not both");
  _ ← check (negb (bool_decide (web = "") && (bool_decide (rpc = "") || bool_decide (chain = ""))))
        (invalid_arguments "rpc_url and chain_id are both required (or pass gnoweb_url to discover them)");
  _ ← map_err (nameToolError name) (CheckDynamicProfileName srv name);
  mret (mkAdd name (if bool_decide (web = "") then Explicit rpc chain else FromGnoweb web)
          (str_of args "tx_indexer_url") (str_of args "faucet_service_url") (str_of args "faucet_url")).

(** *** The endpoint *)

Context (get : string → res string page).

Definition endpoint_of (q : add_request) : list add_io * res tool_err (string * string) :=
  match ad_form q with
  | Explicit rpc chain => ([], Ok (rpc, chain))
  | FromGnoweb url =>
      ([IoDiscover url],
       match Discover is_print get url with
       | Err e => Err (ToolError "gnoweb_discovery_failed"
            ("could not discover chain info from " +:+ quote is_print url +:+ ": " +:+ e +:+ " — pass rpc_url and chain_id explicitly instead") ∅)
       | Ok conn =>
           let rpc := truncate (RPC conn) 256 in
           let chain := truncate (ConnChainID conn) 64 in
           if gnowebRPCUnusable url rpc then
             Err (ToolError "gnoweb_rpc_unusable"
               ("gnoweb " +:+ quote is_print url +:+ " advertises RPC " +:+ quote is_print rpc +:+ ", a loopback address that cannot be the remote chain — " +:+
                "the deployment is misconfigured; pass rpc_url and chain_id explicitly")
               (extra2 "advertised_rpc" rpc "chain_id" chain))
           else Ok (rpc, chain)
       end)
  end.

Definition candidate (q : add_request) (rpc chain : string) : Profile :=
  mkProfile rpc chain (ad_indexer q) "" (ad_service q) (ad_faucet q) false "" "" "" false.

Definition vet (name : string) (p : Profile) : res tool_err unit :=
  _ ← check (ValidRPCURL (RPCURL p)) (ToolError "invalid_rpc_url"
        ("rpc_url " +:+ quote is_print (RPCURL p) +:+ " must be an absolute http(s) URL with no spaces or shell metacharacters") ∅);
  _ ← check (ChainIDValid (ChainID p)) (ToolError "chain_id_malformed"
        ("chain-id " +:+ quote is_print (ChainID p) +:+ " is malformed (want lowercase alphanumeric with '.', '-', '_', ≤64 chars)")
        (extra1 "chain_id" (ChainID p)));
  _ ← check (bool_decide (TxIndexerURL p = "") || ValidRPCURL (TxIndexerURL p)) (ToolError "invalid_indexer_url"
        ("tx_indexer_url " +:+ quote is_print (TxIndexerURL p) +:+ " must be an absolute http(s) URL with no spaces or shell metacharacters") ∅);
  map_err (λ e, ToolError "invalid_config" (profile_text e) ∅) (Validate AddressFromBech32 url_parse order {[name := p]}).

(** *** The node *)

(** [verify], under its ten-second deadline. *)
Context (verify : string → res string string) (onAdded : Server → option string).

Definition ask_node (p : Profile) : res tool_err unit :=
  match verify (RPCURL p) with
  | Err e => Err (ToolError "chain_unreachable"
      ("could not query " +:+ quote is_print (RPCURL p) +:+ " for its chain-id: " +:+ e +:+ " — check the rpc_url (the profile was NOT added)") ∅)
  | Ok reported =>
      if bool_decide (reported = ChainID p) then Ok tt
      else Err (ToolError "chain_id_mismatch"
        ("node at " +:+ quote is_print (RPCURL p) +:+ " reports chain-id " +:+ quote is_print (truncate reported 64) +:+
         ", not the declared " +:+ quote is_print (ChainID p) +:+ " (the profile was NOT added)")
        (extra2 "declared" (ChainID p) "reported" (truncate reported 64)))
  end.

Definition persist_command (name : string) (p : Profile) : string :=
  "gnomcp profile add " +:+ name +:+ " --rpc " +:+ RPCURL p +:+ " --chain-id " +:+ ChainID p +:+
  (if bool_decide (TxIndexerURL p = "") then "" else " --indexer-url " +:+ TxIndexerURL p).

Definition add_result (name source : string) (p : Profile) : Result :=
  let persistCmd := persist_command name p in
  mkResult
    ("Profile " +:+ quote is_print name +:+ " added (chain-id " +:+ ChainID p +:+ ", RPC " +:+ RPCURL p +:+ ", via " +:+ source +:+ ")." +:+ NL +:+
     "It is in-memory only and disappears on restart. To persist it, run:" +:+ NL +:+ NL +:+ "```" +:+ NL +:+ persistCmd +:+ NL +:+ "```" +:+ NL +:+ NL +:+
     "Use it now: pass profile=" +:+ name +:+ " to the tools; the tool list was refreshed (tools/list_changed) — " +:+
     "re-fetch tool schemas if your client cached the old profile list." +:+
     (if IsReadOnly p then
        NL +:+ NL +:+ "This is a read-only chain: pass it to the read tools " +:+
        "(gno_read, gno_packages, gno_render, gno_eval) — there is no agent key, faucet, or write path." else "") +:+
     (if negb (bool_decide (FaucetServiceURL p = "")) || negb (bool_decide (FaucetURL p = "")) then
        NL +:+ NL +:+ "(faucet-url / faucet-service-url have no CLI flags — add them to profiles.toml by hand when persisting.)" else ""))
    "" "" ""
    [("name", JStr name); ("chain_id", JStr (ChainID p)); ("rpc_url", JStr (RPCURL p)); ("source", JStr source);
     ("persisted", JBool false); ("persist_command", JStr persistCmd); ("read_only", JBool (IsReadOnly p))].

Definition republish_failed (name e : string) : tool_err :=
  ToolError "republish_failed"
    ("profile " +:+ quote is_print name +:+ " was added and is usable by name right away, but re-publishing the tool list failed: " +:+ e +:+ " — " +:+
     "clients may show stale tool schemas until restart") (extra1 "name" name).

Definition source_of (f : form) : string := match f with Explicit _ _ => "explicit" | FromGnoweb _ => "gnoweb" end.

(** The whole handler: the configuration after it, what it did on the network
    and to the tool list, in order, and its result. *)
Definition profileAddHandler (arg_order : list string) (args : Args) (srv : Server) : Server * list add_io * res tool_err Result :=
  match add_args arg_order args srv with
  | Err e => (srv, [], Err e)
  | Ok q =>
      let '(ios, ep) := endpoint_of q in
      match ep with
      | Err e => (srv, ios, Err e)
      | Ok (rpc, chain) =>
          let p := candidate q rpc chain in
          match vet (ad_name q) p with
          | Err e => (srv, ios, Err e)
          | Ok _ =>
              let ios := ios ++ [IoVerify rpc] in
              match ask_node p with
              | Err e => (srv, ios, Err e)
              | Ok _ =>
                  match AddDynamicProfile srv (ad_name q) p with
                  | (srv, Err e) => (srv, ios, Err (nameToolError (ad_name q) e))
                  | (srv, Ok _) =>
                      let ios := ios ++ [IoRepublish] in
                      match onAdded srv with
                      | Some e => (srv, ios, Err (republish_failed (ad_name q) e))
                      | None => (srv, ios, Ok (add_result (ad_name q) (source_of (ad_form q)) p))
                      end
                  end
              end
          end
      end
  end.
End profile_add.

(** ** Facts *)

Lemma truncate_safe s n : str_forall shell_safe (truncate s n) = true → truncate s n = s.
Proof.
  unfold truncate. destruct (Nat.leb_spec (String.length s) n); [done|]. rewrite str_forall_app. intros [_ H2]%andb_true_iff.
  vm_compute in H2. discriminate H2.
Qed.

Lemma safe_word_all s : safe_word s = true → str_forall shell_safe s = true.
Proof. unfold safe_word. by intros [_ ?]%andb_true_iff. Qed.

(** The part of a page that is read: up to the end of the head, or the body. *)
Definition past_head (t : token) : bool :=
  match t with
  | StartTag n _ => bool_decide (n = "body")
  | EndTag n => bool_decide (n = "head")
  | OtherToken => false
  end.

Fixpoint head_of (l : list token) : list token :=
  match l with [] => [] | t :: l => if past_head t then [] else t :: head_of l end.

Definition metas (l : list token) : list (string * string) :=
  omap (λ t, match t with StartTag n attrs => if bool_decide (n = "meta") then Some (metaAttrs attrs) else None | _ => None end) l.

(** The content of the last meta tag of that name. *)
Definition last_meta (name dflt : string) (l : list (string * string)) : string :=
  foldl (λ acc m, if bool_decide (m.1 = name) then m.2 else acc) dflt l.

Lemma head_loop_spec l : ∀ conn,
  head_loop conn l = mkConn (last_meta metaNameRPC (RPC conn) (metas (head_of l)))
                            (last_meta metaNameChainID (ConnChainID conn) (metas (head_of l))).
Proof.
  induction l as [|[name attrs|name|] l IH]; intros conn; [by destruct conn| | |]; cbn [head_loop head_of past_head].
  - destruct (bool_decide (name = "body")); [by destruct conn|]. rewrite !IH. unfold metas. cbn [omap list_omap].
    destruct (bool_decide (name = "meta")); [|done]. unfold last_meta, meta_tag. cbn [foldl].
    destruct (metaAttrs attrs) as [n c]. cbn [fst snd]. destruct (decide (n = metaNameRPC)) as [->|H1].
    + rewrite bool_decide_eq_true_2 by done. by rewrite bool_decide_eq_false_2.
    + rewrite (bool_decide_eq_false_2 _ H1). by case_bool_decide.
  - destruct (bool_decide (name = "head")); [by destruct conn|]. rewrite !IH. done.
  - rewrite !IH. done.
Qed.

Lemma AddDynamicProfile_fresh srv name p : ValidProfileName name = true → name ≠ "default" → name ∉ initNames srv →
  AddDynamicProfile srv name p = (mkServer (<[name := p]> (cfg srv)) (initNames srv) (discoveredLocal srv), Ok tt).
Proof.
  intros H1 H2 H3. unfold AddDynamicProfile, CheckDynamicProfileName. rewrite H1, (bool_decide_eq_false_2 (name = "default")) by done.
  cbn. by rewrite (bool_decide_eq_false_2 (name ∈ initNames srv)).
Qed.

Section vetted.
Context (is_print : Z → bool) (arg_text : arg_error → string) (profile_text : profile_error → string).
Context (fold_key : Z → Z) (runes : string → list Z).
Context (url_parse : string → option URL) (ParseIP : string → option IPKind) (AddressFromBech32 : string → bool).
Context (order : Config → list (string * Profile)) (Horder : ∀ c, order c ≡ₚ map_to_list c).
Context (get : string → res string page) (verify : string → res string string) (onAdded : Server → option string).

Abbreviation unusable := (gnowebRPCUnusable fold_key runes url_parse ParseIP).
Abbreviation endpoint_of' := (endpoint_of is_print fold_key runes url_parse ParseIP get).
Abbreviation vet' := (vet is_print profile_text url_parse AddressFromBech32 order).

(** Where an endpoint came from, with the network reads that gave it. *)
Definition vouched (q : add_request) (rpc chain : string) (ios : list add_io) : Prop :=
  match ad_form q with
  | Explicit r c => rpc = r ∧ chain = c ∧ ios = []
  | FromGnoweb url => ios = [IoDiscover url] ∧ unusable url rpc = false ∧ ∃ status tokens, get url = Ok (status, tokens) ∧
      rpc = last_meta metaNameRPC "" (metas (head_of tokens)) ∧ chain = last_meta metaNameChainID "" (metas (head_of tokens))
  end.

Lemma vet_Ok name p u : vet' name p = Ok u →
  profile_ok p ∧ safe_word (RPCURL p) = true ∧ safe_word (ChainID p) = true ∧
  (TxIndexerURL p = "" ∨ safe_word (TxIndexerURL p) = true).
Proof using Horder.
  unfold vet. intros H. inv_res. unfold Validate in *. rewrite bool_decide_eq_false_2 in * by (apply insert_non_empty).
  destruct u. rewrite validate_all_Ok in *. split_and!.
  - match goal with H : Forall _ (order _) |- _ => rewrite (Horder _) in H; rewrite Forall_forall in H;
      eapply (validate_profile_ok AddressFromBech32 url_parse name p tt), (H (name, p)) end.
    apply elem_of_map_to_list. apply lookup_insert_eq.
  - by apply ValidRPCURL_safe.
  - by apply ChainIDValid_safe.
  - match goal with H : _ || _ = true |- _ => apply orb_true_iff in H as [H|H] end; [left; by b2p|right].
    by apply ValidRPCURL_safe.
Qed.

(** What [endpoint_of] and [vet] accept is what the page said, uncut. *)
Lemma endpoint_vouched q ios rpc chain u : endpoint_of' q = (ios, Ok (rpc, chain)) →
  vet' (ad_name q) (candidate q rpc chain) = Ok u → vouched q rpc chain ios.
Proof using Horder.
  unfold endpoint_of, vouched. intros He Hv. apply vet_Ok in Hv as (_ & Hr & Hc & _). simpl in Hr, Hc.
  apply safe_word_all in Hr, Hc. destruct (ad_form q) as [r c|url]; [by injection He as <- <- <-|].
  unfold Discover in He. destruct (get url) as [[status tokens]|e]; [|done]. rewrite head_loop_spec in He. cbn [RPC ConnChainID] in He.
  destruct (bool_decide _ || bool_decide _); [done|]. cbn [RPC ConnChainID] in He.
  destruct (unusable url _) eqn:Eu; [done|]. injection He as <- Er Ec. subst rpc chain.
  rewrite (truncate_safe _ _ Hr) in *. rewrite (truncate_safe _ _ Hc) in *. split_and!; [done|done|]. exists status, tokens. done.
Qed.

Definition persist_words (name : string) (p : Profile) : list string :=
  ["gnomcp"; "profile"; "add"; name; "--rpc"; RPCURL p; "--chain-id"; ChainID p]
  ++ (if bool_decide (TxIndexerURL p = "") then [] else ["--indexer-url"; TxIndexerURL p]).

Lemma persist_words_safe name p u : ValidProfileName name = true → vet' name p = Ok u →
  persist_command name p = GoText.join " " (persist_words name p) ∧ Forall (λ w, safe_word w = true) (persist_words name p).
Proof using Horder.
  intros Hn Hv. apply vet_Ok in Hv as (_ & Hr & Hc & Hi). unfold persist_command, persist_words. split.
  - case_bool_decide; cbn [app GoText.join]; by rewrite ?str_app_nil_r.
  - apply ValidProfileName_safe in Hn as [Hn _]. case_bool_decide as E; cbn [app]; repeat (apply Forall_cons; split); try done.
    by destruct Hi.
Qed.

Abbreviation handler := (profileAddHandler is_print arg_text profile_text fold_key runes url_parse ParseIP AddressFromBech32 order get verify onAdded).

(** A profile that was added, by a call that did [ios] and answered [r]. *)
Definition added (srv srv' : Server) (ios : list add_io) (r : res tool_err Result) : Prop :=
  ∃ q rpc chain pre, let p := candidate q rpc chain in
    srv' = mkServer (<[ad_name q := p]> (cfg srv)) (initNames srv) (discoveredLocal srv) ∧
    ValidProfileName (ad_name q) = true ∧ ad_name q ≠ "default" ∧ ad_name q ∉ initNames srv ∧
    profile_ok p ∧ Profiles.MasterAddress p = "" ∧ BypassHardLimits p = false ∧
    vouched q rpc chain pre ∧ ios = pre ++ [IoVerify rpc; IoRepublish] ∧ verify rpc = Ok chain ∧
    persist_command (ad_name q) p = GoText.join " " (persist_words (ad_name q) p) ∧
    Forall (λ w, safe_word w = true) (persist_words (ad_name q) p) ∧
    match onAdded srv' with
    | None => r = Ok (add_result is_print (ad_name q) (source_of (ad_form q)) p)
    | Some e => r = Err (republish_failed is_print (ad_name q) e)
    end.

(** A call that added nothing; the node it dialed, if any, was vetted first. *)
Definition not_added (srv srv' : Server) (ios : list add_io) (r : res tool_err Result) : Prop :=
  srv' = srv ∧ is_ok r = false ∧ IoRepublish ∉ ios ∧
  (∀ rpc, IoVerify rpc ∈ ios → safe_word rpc = true ∧ ∀ url, IoDiscover url ∈ ios → unusable url rpc = false).

Lemma endpoint_ios q : (endpoint_of' q).1 = [] ∨ ∃ url, (endpoint_of' q).1 = [IoDiscover url].
Proof using Type. unfold endpoint_of. destruct (ad_form q); [by left|right; eauto]. Qed.

Lemma handler_outcome arg_order args srv :
  let '(srv', ios, r) := handler arg_order args srv in added srv srv' ios r ∨ not_added srv srv' ios r.
Proof using Horder.
  unfold profileAddHandler. destruct (add_args is_print arg_text arg_order args srv) as [q|e].
  2: { right. split_and!; [done|done|set_solver|set_solver]. }
  pose proof (endpoint_ios q) as Hios. destruct (endpoint_of' q) as [pre [[rpc chain]|e]] eqn:Ee; cbn [fst] in Hios.
  2: { right. split_and!; [done|done| |]; destruct Hios as [->|[url ->]]; set_solver. }
  destruct (vet' (ad_name q) (candidate q rpc chain)) as [u|e] eqn:Ev.
  2: { right. split_and!; [done|done| |]; destruct Hios as [->|[url ->]]; set_solver. }
  pose proof (vet_Ok _ _ _ Ev) as (Hok & Hrpc & _). pose proof (endpoint_vouched _ _ _ _ _ Ee Ev) as Hvo.
  assert (Hno : ∀ r : res tool_err Result, is_ok r = false → not_added srv srv (pre ++ [IoVerify rpc]) r).
  { intros r Hr. split_and!; [done|done|destruct Hios as [->|[url ->]]; set_solver|].
    intros rpc' Hin. assert (rpc' = rpc) as -> by (destruct Hios as [->|[url ->]]; set_solver). split; [exact Hrpc|].
    intros url Hu. unfold vouched in Hvo. destruct (ad_form q); destruct_and!; subst; set_solver. }
  unfold ask_node. cbn [candidate RPCURL ChainID]. destruct (verify rpc) as [reported|e] eqn:Eq; [|right; by apply Hno].
  destruct (decide (reported = chain)) as [->|]; [rewrite bool_decide_eq_true_2 by done|rewrite bool_decide_eq_false_2 by done; right; by apply Hno].
  destruct (AddDynamicProfile_cases srv (ad_name q) (candidate q rpc chain)) as [[E Hf]|(Hv & Hne & Hni & E)].
  - destruct (AddDynamicProfile srv (ad_name q) (candidate q rpc chain)) as [s [?|e]]; [done|]. injection E as ->. right. by apply Hno.
  - rewrite E. pose proof (persist_words_safe _ _ _ Hv Ev) as [Hp1 Hp2]. rewrite <- app_assoc. cbn [app].
    destruct (onAdded (mkServer _ _ _)) as [e|] eqn:Eo; left; exists q, rpc, chain, pre; rewrite Eo; split_and!; done.
Qed.
End vetted.

(** ** Properties *)

(** C40: gno_profile_add loads only what it vetted and the node confirmed.
    After a call either nothing was loaded, an error goes back, and a node was
    dialed only at a single-word URL that is not a loopback address a remote
    page advertised; or exactly one profile was, under a valid name that is
    neither reserved nor a startup profile's: it validates, carries no master
    address and no bypass of the limits, its endpoint is the caller's or what
    the page's head says (never a truncation of it), the node at that endpoint
    reported that very chain-id, the command to persist it is made of single
    shell words, and the caller hears of it even when republishing fails.
    Startup profiles never change. *)
Theorem profileAddHandler_vetted is_print arg_text profile_text fold_key runes url_parse ParseIP AddressFromBech32 order
    get verify onAdded arg_order args srv :
  (∀ c, order c ≡ₚ map_to_list c) →
  let '(srv', ios, r) := profileAddHandler is_print arg_text profile_text fold_key runes url_parse ParseIP AddressFromBech32 order
                           get verify onAdded arg_order args srv in
  (added is_print fold_key runes url_parse ParseIP get verify onAdded srv srv' ios r ∨
   not_added fold_key runes url_parse ParseIP srv srv' ios r) ∧
  adds srv srv' ∧ (∀ n, n ∈ initNames srv → cfg srv' !! n = cfg srv !! n).
Proof.
  intros Ho. pose proof (handler_outcome is_print arg_text profile_text fold_key runes url_parse ParseIP AddressFromBech32 order Ho
    get verify onAdded arg_order args srv) as H.
  destruct (profileAddHandler _ _ _ _ _ _ _ _ _ _ _ _ _ _ _) as [[srv' ios] r]. split; [exact H|].
  destruct H as [(q & rpc & chain & pre & -> & Hv & Hne & Hni & _)|[-> _]]; [|split; [constructor|done]]. split.
  - pose proof (adds_step srv srv (ad_name q) (candidate q rpc chain) (adds_nil srv)) as Ha.
    by rewrite AddDynamicProfile_fresh in Ha.
  - intros n Hn. simpl. rewrite lookup_insert_ne; [done|]. intros E. by subst n.
Qed.

(** gnoweb discovery is a function of the page's head.  It succeeds exactly
    when the tokens before the first end of the head or start of the body name
    both an RPC and a chain-id, and answers the last of each there; nothing a
    page says in its body counts. *)
Theorem Discover_reads_head is_print get url conn :
  Discover is_print get url = Ok conn ↔
  ∃ status tokens, get url = Ok (status, tokens) ∧
    conn = mkConn (last_meta metaNameRPC "" (metas (head_of tokens))) (last_meta metaNameChainID "" (metas (head_of tokens))) ∧
    RPC conn ≠ "" ∧ ConnChainID conn ≠ "".
Proof.
  unfold Discover. destruct (get url) as [[status tokens]|e].
  2: { split; [done|]. by intros (? & ? & ? & _). }
  rewrite head_loop_spec. cbn [RPC ConnChainID]. split.
  - destruct (_ || _) eqn:E; [done|]. intros [= <-]. b2p. eauto 10.
  - intros (s & t & [= <- <-] & -> & H1 & H2). cbn [RPC ConnChainID] in *. by rewrite !bool_decide_eq_false_2.
Qed.

(** ** Evaluation *)

Definition onyx_page : list token :=
  [OtherToken; StartTag "head" []; StartTag "meta" [("name", "gnoconnect:rpc"); ("content", "https://rpc.onyx.gno.land")];
   StartTag "meta" [("content", "onyx-1"); ("name", "gnoconnect:chainid")]; EndTag "head";
   StartTag "meta" [("name", "gnoconnect:rpc"); ("content", "https://evil")]].
Definition toy_get (url : string) : res string page := Ok (200, onyx_page).
Definition toy_verify (rpc : string) : res string string := Ok (if bool_decide (rpc = "https://rpc.onyx.gno.land") then "onyx-1" else "mainnet").
Definition toy_parse (s : string) : option URL := Some {| Scheme := "https"; Host := s; Hostname := s |}.

Abbreviation toy_add args := (profileAddHandler (λ _, true) (λ _, "") (λ _, "") id (λ s, Z.of_nat ∘ Ascii.nat_of_ascii <$> list_ascii_of_string s)
  toy_parse (λ _, None) (λ _, true) map_to_list toy_get toy_verify (λ _, None) add_arg_names args
  (NewServer {["p" := endpoint "https://rpc.test5.gno.land" "test5"]} "")).

Definition gnoweb_args : Args := {["name" := JStr "onyx"; "gnoweb_url" := JStr "https://onyx.gno.land"]}.

Example toy_add_ex :
  let '(srv, ios, r) := toy_add gnoweb_args in
  (cfg srv !! "onyx", ios, is_ok r) =
  (Some (endpoint "https://rpc.onyx.gno.land" "onyx-1"), [IoDiscover "https://onyx.gno.land"; IoVerify "https://rpc.onyx.gno.land"; IoRepublish], true).
Proof. vm_compute. reflexivity. Qed.

Example toy_mismatch_ex :
  let '(srv, ios, r) := toy_add {["name" := JStr "x"; "rpc_url" := JStr "https://other"; "chain_id" := JStr "onyx-1"]} in
  (cfg srv !! "x", ios, match r with Err (ToolError c _ _) => c | _ => "" end) = (None, [IoVerify "https://other"], "chain_id_mismatch").
Proof. vm_compute. reflexivity. Qed.

Lemma profileAddHandler_vetted_witness :
  let '(srv', ios, r) := toy_add gnoweb_args in
  cfg srv' !! "p" = Some (endpoint "https://rpc.test5.gno.land" "test5") ∧ adds (NewServer {["p" := endpoint "https://rpc.test5.gno.land" "test5"]} "") srv'.
Proof.
  pose proof (profileAddHandler_vetted (λ _, true) (λ _, "") (λ _, "") id (λ s, Z.of_nat ∘ Ascii.nat_of_ascii <$> list_ascii_of_string s)
    toy_parse (λ _, None) (λ _, true) map_to_list toy_get toy_verify (λ _, None) add_arg_names gnoweb_args
    (NewServer {["p" := endpoint "https://rpc.test5.gno.land" "test5"]} "") (λ c, reflexivity _)) as H.
  destruct (toy_add gnoweb_args) as [[srv' ios] r]. destruct H as (_ & Ha & Hs). split; [|exact Ha].
  rewrite (Hs "p"); [reflexivity|]. refine (bool_decide_unpack _ _). vm_compute. exact I.
Defined.
