(* ===== verification/FaucetMain.v ===== *)
(** * The faucet's process ([cmd/agentfaucet])

    What [main] makes of its flags: the checks before anything listens, the
    limiter, the dispenser and the service it wires together; the balance
    poller over the cached query; and what a scrape observes.  The signer and
    the RPC client are third-party constructors, answered by parameters; HTTP
    listeners, OpenTelemetry and Prometheus are library calls. *)
From S2P Require Import Prelude GoText GoTime GasPrice Limiter FaucetSvc.
From stdpp Require Import prelude strings gmap list relations.
From Stdlib Require Import ZArith Lia Ascii String.
Local Open Scope Z_scope.

(** ** Flags *)

Record Flags := mkFlags {
  RpcURL : string; FlagChainID : string; Mnemonic : string; Listen : string; MetricsAddr : string;
  TrustedProxies : Z; GrantFlag : Z; GasWantedFlag : Z;
  PerAddrCooldown : Duration; PerIPMaxFlag : Z; PerIPWindowFlag : Duration;
  DailyCap : Z; DripBurstFlag : Z; DripRate : Z; MinFundingBalance : Z;
}.

Definition default_flags : Flags :=
  mkFlags "" "" "" "127.0.0.1:8590" "" 0 1000000000 5000000 (24 * Hour) 60 Hour 100000000000 0 0 0.

(** An int64 flag is an int64, a duration too. *)
Record flags_ok (fl : Flags) : Prop := { fo_grant : int64 (GrantFlag fl); fo_cap : int64 (DailyCap fl) }.

(** Why the process ends before it serves: the message and the error logged. *)
Inductive fatal := MissingConfig | GasNotPositive (n : Z) | BuildSigner (e : string) | SignerInfo (e : string) | RpcClient (e : string).

Definition limiter_cfg (fl : Flags) : LimiterCfg := {|
  PerAddrWindow := PerAddrCooldown fl; PerAddrMax := 1;
  PerIPWindow := PerIPWindowFlag fl; PerIPMax := PerIPMaxFlag fl;
  DailyCapUgnot := DailyCap fl; GrantUgnot := GrantFlag fl;
  DripBurstUgnot := DripBurstFlag fl; DripRateUgnotPerSec := DripRate fl;
|}.

Definition faucet_opts (fl : Flags) : list FaucetSvc.Option :=
  WithTrustedProxies (TrustedProxies fl) :: (if 0 <? MinFundingBalance fl then [WithBalanceFloor (MinFundingBalance fl) true] else []).

Section main.
Context {Signer Addr : Type}.
Context (SignerFromBip39 : string → string → res string Signer) (Info : Signer → res string Addr) (NewHTTPClient : string → option string).

(** What is served once the checks have passed. *)
Record Setup := mkSetup { st_signer : Signer; st_dispenser : gnoclientDispenser Addr; st_limiter : LimiterCfg; st_faucet : Faucet; st_metrics : bool }.

Definition main (fl : Flags) (env_mnemonic : string) : res fatal Setup :=
  let mnemonic := if bool_decide (Mnemonic fl = "") then env_mnemonic else Mnemonic fl in
  _ ← check (negb (bool_decide (RpcURL fl = "") || bool_decide (FlagChainID fl = "") || bool_decide (mnemonic = ""))) MissingConfig;
  _ ← check (0 <? GasWantedFlag fl) (GasNotPositive (GasWantedFlag fl));
  signer ← map_err BuildSigner (SignerFromBip39 mnemonic (FlagChainID fl));
  addr ← map_err SignerInfo (Info signer);
  _ ← match NewHTTPClient (RpcURL fl) with Some e => Err (RpcClient e) | None => Ok tt end;
  mret (mkSetup signer (NewGnoclientDispenser addr (GasWantedFlag fl)) (limiter_cfg fl)
          (New (FlagChainID fl) (GrantFlag fl) (faucet_opts fl)) (negb (bool_decide (MetricsAddr fl = "")))).
End main.
Arguments Setup : clear implicits.

(** *** The process *)

(** What is asked of the network once the checks have passed, in order:
    telemetry, the metrics listener, the service itself. *)
Record Listeners := mkListeners {
  setupTelemetry : option string; registerGauges : option string; listen_metrics : option string;
  ListenAndServe : option string;   (* [None] until a signal stops it *)
}.

Inductive ended :=
  | PrintedVersion
  | NotStarted (e : fatal)
  | Failed (what err : string)
  | Stopped.                         (* a signal, after a graceful shutdown *)

(** [argv] is [os.Args[1:]]; a failed step is fatal, and the metrics ones are
    only taken with [-metrics-addr]. *)
Definition process {Signer Addr} SignerFromBip39 Info NewHTTPClient (argv : list string) (fl : Flags) (env_mnemonic : string) (n : Listeners)
    : ended :=
  if bool_decide (head argv = Some "version") then PrintedVersion
  else match @main Signer Addr SignerFromBip39 Info NewHTTPClient fl env_mnemonic with
  | Err e => NotStarted e
  | Ok s =>
      let metrics (o : option string) (what : string) (k : ended) : ended :=
        if st_metrics s then match o with Some e => Failed what e | None => k end else k in
      metrics (setupTelemetry n) "setup telemetry"
        (metrics (registerGauges n) "register gauges"
          (metrics (listen_metrics n) "metrics listen"
            match ListenAndServe n with Some e => Failed "serve" e | None => Stopped end))
  end.

(** Without [-metrics-addr] nothing of the telemetry can end the process. *)
Lemma process_no_metrics {Signer Addr} SignerFromBip39 Info NewHTTPClient argv fl env n n' :
  MetricsAddr fl = "" → ListenAndServe n = ListenAndServe n' →
  @process Signer Addr SignerFromBip39 Info NewHTTPClient argv fl env n = process SignerFromBip39 Info NewHTTPClient argv fl env n'.
Proof.
  intros Hm Hl. unfold process. case_bool_decide; [done|]. destruct (main _ _ _ _ _) as [s|e] eqn:E; [|done].
  assert (st_metrics s = false) as ->; [|by rewrite Hl].
  unfold main in E. inv_res. unfold mret, res_ret in *. simplify_eq. cbn. by rewrite bool_decide_eq_true_2.
Qed.

(** *** Routes ([faucet/server.go]'s [Handler], and [metricsMux])

    What the mux answers to a request for a clean path: the handler whose
    method and path match (a GET pattern takes HEAD too), 405 when only the
    path does, 404 otherwise. *)
Inductive routed := ToFund | ToHealth | ToLimits | ToMetrics | MethodNotAllowed | NotFound.

Definition is_get (method : string) : bool := bool_decide (method = "GET") || bool_decide (method = "HEAD").

Definition Handler (method path : string) : routed :=
  if bool_decide (path = "/fund") then (if bool_decide (method = "POST") then ToFund else MethodNotAllowed)
  else if bool_decide (path = "/health") then (if is_get method then ToHealth else MethodNotAllowed)
  else if bool_decide (path = "/limits") then (if is_get method then ToLimits else MethodNotAllowed)
  else NotFound.

Definition metricsMux (method path : string) : routed :=
  if bool_decide (path = "/metrics") then (if is_get method then ToMetrics else MethodNotAllowed) else NotFound.

(** Only a POST reaches the handler that pays, and the metrics listener never does. *)
Lemma only_post_funds method path : (Handler method path = ToFund ↔ method = "POST" ∧ path = "/fund") ∧ metricsMux method path ≠ ToFund.
Proof. unfold Handler, metricsMux. split; repeat case_bool_decide; repeat case_match; naive_solver. Qed.

(** ** Metrics *)

(** The counter, by outcome. *)
Definition RecordOutcome (counts : gmap string Z) (outcome : string) : gmap string Z :=
  <[outcome := default 0 (counts !! outcome) + 1]> counts.

(** What one scrape observes; [None] leaves the gauge unset. *)
Record Observed := mkObserved { ob_balance : option Z; ob_drip : option float64; ob_cap_remaining : Z }.
Definition scrape (l : Limiter) (now : Time) (balance : Z) : Observed :=
  let s := Snapshot l now in
  mkObserved (if 0 <=? balance then Some balance else None) (if DripEnabled s then Some (DripTokens s) else None)
    (wrap64 (SnapDailyCapUgnot s - DaySpentUgnot s)).

(** One tick of [pollBalance]: the gauge keeps its value when the query fails. *)
Definition tick (ttl : Duration) (answer : res string Z) (now after : Time) (st : BalanceCache * Z) : BalanceCache * Z :=
  let '(c, gauge) := st in
  match balance_read ttl answer now after c with
  | (c, Ok v) => (c, v)
  | (c, Err _) => (c, gauge)
  end.

Record poll := mkPoll { p_answer : res string Z; p_now : Time; p_after : Time }.
Definition pollBalance (ttl : Duration) (st : BalanceCache * Z) (ps : list poll) : BalanceCache * Z :=
  foldl (λ st p, tick ttl (p_answer p) (p_now p) (p_after p) st) st ps.

Definition balanceTTL : Duration := 30 * Second.
Definition unpolled : BalanceCache * Z := ({| cached := 0; cachedAt := 0; seeded := false |}, -1).

(** ** Facts *)

Lemma main_Ok {Signer Addr} SignerFromBip39 Info NewHTTPClient fl env (s : Setup Signer Addr) :
  main SignerFromBip39 Info NewHTTPClient fl env = Ok s →
  RpcURL fl ≠ "" ∧ FlagChainID fl ≠ "" ∧ (Mnemonic fl ≠ "" ∨ env ≠ "") ∧ 0 < GasWantedFlag fl ∧
  st_limiter s = limiter_cfg fl ∧ st_faucet s = New (FlagChainID fl) (GrantFlag fl) (faucet_opts fl) ∧
  ∃ addr, Info (st_signer s) = Ok addr ∧ st_dispenser s = NewGnoclientDispenser addr (GasWantedFlag fl).
Proof.
  unfold main. intros H. inv_res. b2p. destruct (NewHTTPClient _); [done|]. simplify_eq. cbn.
  split; [done|]. split; [done|]. split; [|split; [done|eauto 10]].
  destruct (decide (Mnemonic fl = "")) as [E|E]; [rewrite bool_decide_eq_true_2 in * by done; auto|by left].
Qed.

Lemma setup_faucet fl :
  let f := New (FlagChainID fl) (GrantFlag fl) (faucet_opts fl) in
  chainID f = FlagChainID fl ∧ f_grantUgnot f = GrantFlag fl ∧ FaucetSvc.trustedProxies f = TrustedProxies fl ∧
  hasBalance f = (0 <? MinFundingBalance fl) ∧ minFundingUgnot f = Z.max 0 (MinFundingBalance fl).
Proof.
  unfold New, faucet_opts. destruct (0 <? MinFundingBalance fl) eqn:E; cbn; repeat split; b2p; lia.
Qed.


(** What [Snapshot] reports as spent is what the ledger counts against today. *)
Lemma snapshot_spent c st now :
  cap_inv c st → clock st ≤ now →
  DaySpentUgnot (Snapshot (lim st) now) = grantUgnot c * granted_on (utc_day now) (ledger st).
Proof.
  intros [_ Hk Hs Hf Hp Hsp _] Hn. unfold Snapshot, time_is_zero, sameUTCDay. simpl.
  destruct (Z.eqb_spec (dayStart (lim st)) 0) as [E0|E0]; simpl.
  { rewrite Hf by done. unfold granted_on. simpl. lia. }
  destruct (Z.eqb_spec (utc_day (dayStart (lim st))) (utc_day now)) as [E1|E1]; simpl.
  { rewrite Hsp by done. by rewrite E1. }
  pose proof (utc_day_mono (dayStart (lim st)) now ltac:(lia)).
  rewrite granted_on_later; [lia|]. eapply Forall_impl; [exact Hp|]. simpl. intros g Hg. lia.
Qed.

(** The cap gauge never wraps: it is the cap less today's grants. *)
Lemma scrape_cap c st now balance :
  0 ≤ grantUgnot c → 0 ≤ dailyCapUgnot c ≤ maxInt64 → cap_inv c st → clock st ≤ now →
  ob_cap_remaining (scrape (lim st) now balance) =
    dailyCapUgnot c - grantUgnot c * granted_on (utc_day now) (ledger st) ∧
  0 ≤ ob_cap_remaining (scrape (lim st) now balance) ≤ dailyCapUgnot c.
Proof.
  intros Hg Hcap Hi Hn. unfold scrape. cbn [ob_cap_remaining]. rewrite (snapshot_spent c) by done.
  change (SnapDailyCapUgnot _) with (dailyCapUgnot (conf (lim st))). rewrite (ci_conf _ _ Hi).
  pose proof (ci_cap _ _ Hi (utc_day now)). pose proof (granted_on_nonneg (utc_day now) (ledger st)).
  rewrite wrap64_id by (unfold int64, minInt64; nia). split; [done|nia].
Qed.

(** ** The balance gauge *)

(** The gauge is unset until a query succeeds, and then what the cache holds. *)
Definition gauge_ok (st : BalanceCache * Z) : Prop :=
  if seeded st.1 then st.2 = cached st.1 else st.2 = -1.

Lemma tick_ok ttl answer now after st : gauge_ok st → gauge_ok (tick ttl answer now after st).
Proof.
  destruct st as [[v t s] g]. unfold gauge_ok, tick, balance_read. simpl.
  destruct (s && _) eqn:E; simpl; [b2p; by subst|].
  destruct answer; simpl; [done|done].
Qed.

Lemma pollBalance_ok ttl ps st : gauge_ok st → gauge_ok (pollBalance ttl st ps).
Proof. revert st. induction ps as [|p ps IH]; intros st H; [done|]. apply IH, tick_ok, H. Qed.

Lemma tick_seeded ttl answer now after st :
  seeded (tick ttl answer now after st).1 = seeded st.1 || (if answer then true else false).
Proof.
  destruct st as [[v t s] g]. unfold tick, balance_read. simpl. destruct s; simpl.
  - destruct (_ <? ttl); simpl; [done|]. by destruct answer.
  - by destruct answer.
Qed.

Lemma pollBalance_seeded ttl ps st :
  seeded (pollBalance ttl st ps).1 = seeded st.1 || existsb (λ p, if p_answer p then true else false) ps.
Proof.
  revert st. induction ps as [|p ps IH]; intros st; simpl; [by rewrite orb_false_r|].
  unfold pollBalance in *. simpl. rewrite IH, tick_seeded. by rewrite orb_assoc.
Qed.

(** While no query has succeeded the balance gauge is left unset, and from the
    first success on a scrape shows the balance the cache holds. *)
Theorem balance_gauge ttl ps l now :
  let '(c, gauge) := pollBalance ttl unpolled ps in
  (Forall (λ p, ∃ e, p_answer p = Err e) ps → ob_balance (scrape l now gauge) = None) ∧
  (Exists (λ p, ∃ v, p_answer p = Ok v) ps → gauge = cached c).
Proof.
  pose proof (pollBalance_ok ttl ps unpolled eq_refl) as Hok.
  pose proof (pollBalance_seeded ttl ps unpolled) as Hs. simpl in Hs.
  destruct (pollBalance ttl unpolled ps) as [c g]. unfold gauge_ok in Hok. simpl in *. rewrite Hs in Hok. split.
  - intros HF. replace (existsb _ ps) with false in Hok; [by subst|].
    symmetry. apply not_true_is_false. rewrite existsb_exists. intros (p & Hin & Hp).
    rewrite List.Forall_forall in HF. destruct (HF p Hin) as [e E]. by rewrite E in Hp.
  - intros HE. replace (existsb _ ps) with true in Hok; [done|].
    symmetry. apply existsb_exists. apply List.Exists_exists in HE as (p & Hin & v & E).
    exists p. by rewrite E.
Qed.

(** Poll interval and cache lifetime are one constant, and the cache is dated
    when its query ends: the tick one interval after a query that took any
    time at all finds the cache still fresh and does not query. *)
Theorem next_tick_reads_cache v t d answer after st :
  0 < d ≤ balanceTTL → let st' := tick balanceTTL (Ok v) t (t + d) st in
  seeded st.1 = false → tick balanceTTL answer (t + balanceTTL) after st' = st'.
Proof.
  intros Hd. destruct st as [[v0 t0 s] g]. unfold tick, balance_read, time_sub. simpl. intros ->. simpl.
  rewrite (proj2 (Z.ltb_lt _ _)); [done|].
  unfold minInt64, maxInt64, balanceTTL, Second, Millisecond, Microsecond, Nanosecond in *. lia.
Qed.

(** ** The outcome counter *)

(** The counter after requests whose [Fund] ended with [rs]. *)
Definition fund_counts (rs : list (option fund_error)) : gmap string Z :=
  foldl RecordOutcome ∅ ((λ e, (classify e).2) <$> rs).

Lemma RecordOutcome_count (os : list string) m (o : string) :
  default 0 (foldl RecordOutcome m os !! o) = default 0 (m !! o) + Z.of_nat (List.length (filter (λ x, x = o) os)).
Proof.
  revert m. induction os as [|x os IH]; intros m; simpl; [lia|]. rewrite IH, filter_cons. unfold RecordOutcome.
  case_decide; simplify_map_eq; simpl; lia.
Qed.

Lemma RecordOutcome_labels (L os : list string) m :
  Forall (λ x, x ∈ L) os → (∀ o, is_Some (m !! o) → o ∈ L) → ∀ o, is_Some (foldl RecordOutcome m os !! o) → o ∈ L.
Proof.
  intros HF. revert m. induction HF as [|x os Hx _ IH]; intros m Hm; [done|]. simpl. apply IH.
  intros o [v Hv]. unfold RecordOutcome in Hv. destruct (decide (x = o)) as [<-|]; [done|]. simplify_map_eq. eauto.
Qed.

(** The counter has at most the nine declared labels, and under each it holds
    the number of requests classified so; ["success"] counts the grants. *)
Theorem outcome_counter rs :
  (∀ o, is_Some (fund_counts rs !! o) →
     o ∈ [OutcomeSuccess; OutcomeBadRequest; OutcomeChainMismatch; OutcomeCooldown; OutcomeRateLimited;
          OutcomeDailyCap; OutcomeDripLimited; OutcomeFundingLow; OutcomeDispenseFailed]) ∧
  default 0 (fund_counts rs !! OutcomeSuccess) = Z.of_nat (List.length (filter (λ e, e = None) rs)).
Proof.
  split.
  - apply RecordOutcome_labels; [|intros o [v Hv]; by rewrite lookup_empty in Hv].
    apply Forall_fmap, Forall_true. intros [[| | | |[]|]|]; simpl; set_solver.
  - unfold fund_counts. rewrite RecordOutcome_count, lookup_empty. change (default 0 None) with 0. rewrite Z.add_0_l. f_equal.
    induction rs as [|r rs IH]; [done|]. rewrite fmap_cons, !filter_cons.
    assert (E : (classify r).2 = OutcomeSuccess ↔ r = None) by (by destruct r as [[| | | |[]|]|]).
    repeat case_decide; try tauto. simpl. by rewrite IH.
Qed.

(** ** The process *)

(** C7: the daily cap, from the flags to the chain.  When [main] gets past its
    checks with a grant and a cap that are not negative, then, whatever
    requests the service runs concurrently on the gnoclient dispenser built
    from those flags, the transfers that have landed are payments of
    [-grant], each for a grant the limiter counts and none for a grant still in
    flight; what the limiter counts against any one UTC day is at most
    [-daily-cap]; so all the transfers since the start total at most one cap for
    each UTC day the process has seen; and whenever the metrics are scraped the
    remaining-cap gauge is the cap less what is counted against that day, never
    negative and never above the cap. *)
Theorem faucet_process_bounded {Signer Addr W Tx Signed : Type}
    (SignerFromBip39 : string → string → res string Signer) (Info : Signer → res string Addr) NewHTTPClient
    (parse : string → res string Addr) fmt (cli : Cli W Addr Tx Signed) paid pays
    fl env s t0 w0 st :
  main SignerFromBip39 Info NewHTTPClient fl env = Ok s → flags_ok fl → 0 ≤ GrantFlag fl → 0 ≤ DailyCap fl →
  (∀ a, parse (fmt a) = Ok a) → CliLaws fmt cli paid pays → 0 < t0 →
  rtc (sstep parse fmt (Send parse cli (st_dispenser s)) (st_faucet s)) (service0 (st_limiter s) t0 w0) st →
  (∃ gs, paid (world st) = paid w0 ++ ((λ g, (g_addr g, GrantFlag fl)) <$> gs) ∧
     inflight st ++ gs ⊆+ ledger (hist st) ∧
     GrantFlag fl * Z.of_nat (List.length gs) ≤ DailyCap fl * (utc_day (clock (hist st)) - utc_day t0 + 1)) ∧
  (∀ d, GrantFlag fl * granted_on d (ledger (hist st)) ≤ DailyCap fl) ∧
  ∀ now balance, clock (hist st) ≤ now →
    let o := scrape (lim (hist st)) now balance in
    ob_cap_remaining o = DailyCap fl - GrantFlag fl * granted_on (utc_day now) (ledger (hist st)) ∧
    0 ≤ ob_cap_remaining o ≤ DailyCap fl.
Proof.
  intros Hm [[? ?] [? ?]] Hg Hcap Hrt Hl Ht Hs.
  apply main_Ok in Hm as (_ & _ & _ & _ & El & Ef & _).
  pose proof (Send_refines_Dispenser parse fmt cli (st_dispenser s) paid pays Hrt Hl) as HD.
  destruct (svc_inv_steps parse fmt _ paid (st_faucet s) (st_limiter s) t0 w0 _ _ Hs (svc_inv_init fmt paid (st_faucet s) (st_limiter s) t0 w0)) as [Hr _ _].
  destruct (faucet_daily_outflow parse fmt _ paid (st_faucet s) (st_limiter s) t0 w0 st HD) as (gs & [Hp Hsub Hd Htot]);
    rewrite ?El; simpl; try lia; [by rewrite <- El|].
  destruct (setup_faucet fl) as (_ & Eg & _). rewrite El in Hd, Hr, Htot. rewrite Ef in Hp.
  split_and!; [exists gs; split_and!; [|exact Hsub|exact Htot]|exact Hd|].
  - rewrite Hp. f_equal. apply list_fmap_ext. intros ? g _. unfold payment. by rewrite Eg.
  - intros now bal Hn.
    assert (Hi : cap_inv (conf (NewLimiter (limiter_cfg fl))) (hist st))
      by (eapply cap_inv_steps; [..|exact Hr|apply cap_inv_init]; simpl; lia).
    apply (scrape_cap _ _ now bal) in Hi; simpl in *; try lia; done.
Qed.

Definition toy_flags : Flags := {|
  RpcURL := "http://n"; FlagChainID := "test-1"; Mnemonic := ""; Listen := "127.0.0.1:8590"; MetricsAddr := "127.0.0.1:8591";
  TrustedProxies := 1; GrantFlag := 10; GasWantedFlag := 5000000; PerAddrCooldown := 0; PerIPMaxFlag := 3; PerIPWindowFlag := 0;
  DailyCap := 20; DripBurstFlag := 0; DripRate := 0; MinFundingBalance := 0 |}.
Definition toy_setup : Setup string string := {|
  st_signer := "words"; st_dispenser := NewGnoclientDispenser "g1faucet" 5000000; st_limiter := cfg1;
  st_faucet := toy_faucet; st_metrics := true |}.

Example toy_main : main (λ m _, Ok m) (λ _, Ok "g1faucet") (λ _, None) toy_flags "words" = Ok toy_setup.
Proof. vm_compute. reflexivity. Qed.

Example no_mnemonic : main (λ m _, Ok m) (λ _, Ok "g1faucet") (λ _, None) toy_flags "" = Err MissingConfig.
Proof. vm_compute. reflexivity. Qed.

Lemma faucet_process_bounded_witness :
  (∃ gs, [("g1a", 10)] = ((λ g, (g_addr g, 10)) <$> gs) ∧ gs ⊆+ ledger (hist toy_paid) ∧ 10 * Z.of_nat (List.length gs) ≤ 20 * (0 - 0 + 1)) ∧
  ob_cap_remaining (scrape (lim (hist toy_paid)) 6 7) = 20 - 10 * granted_on (utc_day 6) (ledger (hist toy_paid)).
Proof.
  assert (Hf : flags_ok toy_flags) by (split; split; vm_compute; discriminate).
  destruct (faucet_process_bounded (λ m _, Ok m) (λ _, Ok "g1faucet") (λ _, None) Ok id toy_cli id id
    toy_flags "words" toy_setup 1 [] toy_paid toy_main Hf) as (H1 & _ & H2);
    [vm_compute; discriminate..|reflexivity|apply toy_cli_laws|lia|by apply toy_run|].
  split; [exact H1|]. apply (H2 6 7). vm_compute. discriminate.
Defined.
