(* ===== verification/FaucetTool.v ===== *)
(** * The faucet's client

    [internal/clientfaucet] (the backends: an automatic service, a faucet page,
    or neither) and [internal/tools/write/faucet.go], the gno_faucet_fund tool
    that asks for a grant and then watches the balance.  The last part runs the
    client against the server of [FaucetSvc]. *)
From S2P Require Import Prelude GoText GoTime Regex Profiles FaucetSvc Keystore ServerCore Handlers WriteTools.
From stdpp Require Import prelude strings gmap list.
From Stdlib Require Import ZArith Lia Ascii String.
Local Open Scope Z_scope.

(** ** Data *)

Record Outcome := mkOutcome { Backend : string; OutAddress : string; OutTxHash : string; OutFaucetURL : string; Instructions : string }.

(** An error of a backend; [be_failed] marks one that wraps [ErrServiceFailed]:
    an outcome that does not rule out a landed grant. *)
Record backend_error := mkBackendErr { be_text : string; be_failed : bool }.

Inductive Faucet := ServiceFaucet (url : string) | LinkFaucet (faucetURL : string).

Definition Resolve (p : Profile) : Faucet :=
  if negb (bool_decide (FaucetServiceURL p = "")) then ServiceFaucet (FaucetServiceURL p) else LinkFaucet (FaucetURL p).

(** What an HTTP exchange comes to. *)
Inductive http_answer :=
  | BadRequest (e : string)     (* the request cannot be made *)
  | TimedOut (e : string)
  | Unreachable (e : string)
  | Answered (status : Z) (status_line body : string).

(** [^(0x)?[0-9a-fA-F]{1,128}$] *)
Definition is_hex (a : ascii) : bool := is_digit a || one_of "abcdefABCDEF" a.
Definition txHashRE : re := RSeq (ROpt (RLit "0x")) (RSeq (RClass is_hex) (RUpTo 127 (RClass is_hex))).

Definition maxFaucetRespBytes : nat := 4096.
Definition ErrServiceFailed : string := "faucet service error".

(** [io.LimitReader] *)
Definition limit_read (n : nat) (s : string) : string := String.substring 0 n s.

(** The advertised policy. *)
Record AdvertisedLimits := mkLimits { alGrantUgnot : Z; alMax : Z; alWindowSeconds : Z }.

Section clientfaucet.
(** [http.StatusText], and the JSON decoders of the three bodies; a rate-limit
    body that does not decode leaves what was decoded so far. *)
Context (StatusText : Z → string).
Context (decode_tx : string → res string string) (decode_rate : string → string * Z) (decode_limits : string → res string AdvertisedLimits).

Definition rateLimitMessage (address body : string) : string :=
  let '(limit, retry) := decode_rate (limit_read maxFaucetRespBytes body) in
  let hours := Z.quot retry 3600 in
  let hours := if hours <? 1 then 24 else hours in
  if bool_decide (limit = "per_address") then
    "address " +:+ address +:+ " has already drawn its per-address faucet grant for this window — " +:+
    "it may already hold funds (check the balance). A different key is not subject " +:+
    "to this address's cooldown (gno_key_generate) if you need a separate funded " +:+
    "identity; otherwise retry this address after ~" +:+ format_int hours +:+ "h"
  else "faucet rate-limited; retry after ~" +:+ format_int hours +:+ "h".

(** The service's answer to a POST of the address and chain-id. *)
Definition service_fund (address : string) (answer : http_answer) : res backend_error Outcome :=
  let fail text := Err (mkBackendErr text false) in
  match answer with
  | BadRequest e => fail e
  | TimedOut e => Err (mkBackendErr (ErrServiceFailed +:+ ": no answer in time: " +:+ e) true)
  | Unreachable e => fail ("faucet service unreachable: " +:+ e)
  | Answered status _ body =>
      if status =? 429 then fail (rateLimitMessage address body)
      else if negb (status =? 200) then
        let detail := format_int status +:+ " " +:+ StatusText status +:+ ": [untrusted faucet response] " +:+ trim_space (limit_read 512 body) in
        if (status =? 500) || (status =? 502) || (status =? 504) then Err (mkBackendErr (ErrServiceFailed +:+ ": " +:+ detail) true)
        else fail ("faucet service error: " +:+ detail)
      else match decode_tx (limit_read maxFaucetRespBytes body) with
      | Err e => fail ("faucet service: bad response: " +:+ e)
      | Ok tx =>
          if negb (matches txHashRE tx) then fail "faucet service: response tx hash is not a valid hash"
          else Ok (mkOutcome "service" address tx "" ("Requested an automatic grant for " +:+ address +:+ " (tx " +:+ tx +:+ ")."))
      end
  end.

Definition link_fund (faucetURL address : string) : Outcome :=
  if bool_decide (faucetURL = "") then
    mkOutcome "manual" address "" "" ("No faucet is configured for this profile. Send ugnot to " +:+ address +:+ ", then retry the write.")
  else mkOutcome "link" address "" faucetURL ("Open " +:+ faucetURL +:+ " and fund " +:+ address +:+ ", then retry the write.").

(** [FetchServiceLimits], given the answer to its GET. *)
Definition FetchServiceLimits (p : Profile) (answer : http_answer) : res string (option AdvertisedLimits) :=
  if bool_decide (FaucetServiceURL p = "") then Ok None
  else match answer with
  | BadRequest e => Err e
  | TimedOut e | Unreachable e => Err ("faucet limits unreachable: " +:+ e)
  | Answered status line body =>
      if (status =? 404) || (status =? 405) then Ok None
      else if negb (status =? 200) then Err ("faucet limits: unexpected status " +:+ line)
      else match decode_limits (limit_read maxFaucetRespBytes body) with
      | Err e => Err ("faucet limits: bad response: " +:+ e)
      | Ok lim => Ok (Some lim)
      end
  end.

(** ** gno_faucet_fund *)

(** The chain client, the service, the clock and the call's context, as
    functions of the effects so far. *)
Record FundEnv := mkFundEnv {
  e_balance : trace → string → res string Z;
  e_post : trace → string → string → string → http_answer; (* URL, address, chain-id *)
  e_now : trace → Time;
  e_done : trace → bool;
}.

Definition Fund (env : FundEnv) (f : Faucet) (address chainID : string) : tool (res backend_error Outcome) :=
  match f with
  | ServiceFaucet url =>
      a ← ask (EfFaucet address) (λ tr, e_post env tr (url +:+ "/fund") address chainID);
      mret (service_fund address a)
  | LinkFaucet url => mret (Ok (link_fund url address))
  end.

(** Both backends read the balance. *)
Definition Funded (env : FundEnv) (address : string) : tool (res string bool) :=
  b ← ask (EfBalance address) (λ tr, e_balance env tr address);
  mret ((λ b, 0 <? b) <$> b).

Definition faucetPollTimeout : Duration := 60 * Second.
Definition faucetPollInterval : Duration := 3 * Second.

(** The polling loop; [None] when the fuel runs out. *)
Fixpoint poll_loop (env : FundEnv) (fuel : nat) (addr : string) (interval : Duration) (deadline : Time) (lastErr : option string) :
    tool (option (bool * option string)) :=
  match fuel with
  | O => mret None
  | S fuel =>
      r ← Funded env addr;
      match r with
      | Ok true => mret (Some (true, None))
      | _ =>
          let lastErr := match r with Err e => Some e | Ok _ => lastErr end in
          now ← look (e_now env);
          if deadline <? now then mret (Some (false, lastErr))
          else
            _ ← ask (EfSleep interval) (λ _, tt);
            cancelled ← look (e_done env);
            if (cancelled : bool) then mret (Some (false, lastErr))
            else poll_loop env fuel addr interval deadline lastErr
      end
  end.

(** A poll at once, one per interval of the timeout, and one past it. *)
Definition poll_fuel (timeout interval : Duration) : nat := S (S (Z.to_nat (timeout / interval))).

Definition pollFunded (env : FundEnv) (addr : string) (timeout interval : Duration) : tool (option (bool * option string)) :=
  start ← look (e_now env);
  poll_loop env (poll_fuel timeout interval) addr interval (time_add start timeout) None.

(** The fuel is never short: [pollFunded_bounded]. *)
Definition poll (env : FundEnv) (addr : string) : tool (bool * option string) :=
  r ← pollFunded env addr faucetPollTimeout faucetPollInterval;
  mret (default (false, None) r).

Definition text_only (s : string) : Result := mkResult s "" "" "" [].

Definition settleFaucetFailure (env : FundEnv) (addr faucetErr : string) : tool Result :=
  r ← poll env addr;
  let '(funded, pollErr) := r in
  if (funded : bool) then
    mret (text_only ("The faucet service did not confirm the grant, but the address holds a balance." +:+ NL +:+ "Agent address " +:+ addr +:+ ": funded."))
  else
    stop (PlainError (addr +:+ " holds no balance yet" +:+
      match pollErr with Some e => " (last balance check failed: " +:+ e +:+ ")" | None => "" end +:+
      ", but the grant may still land. Read the balance with gno_account before calling gno_faucet_fund again. Details: " +:+ faucetErr)).

Definition fund_status (r : bool * option string) : string :=
  match r with
  | (true, _) => "funded"
  | (false, Some e) => "not funded yet (last balance check failed: " +:+ e +:+ ")"
  | (false, None) => "not funded yet"
  end.

Definition fund_text (out : Outcome) (addr : string) (r : bool * option string) : string :=
  Instructions out +:+ NL +:+ "Agent address " +:+ addr +:+ ": " +:+ fund_status r +:+ ".".

Section handler.
Context (is_print : Z → bool) (ks_text : ks_error → string) (arg_text : arg_error → string).
Context (address : string → string → Profile → res ks_error string). (* [ks.AgentAddress] *)

Definition faucetFundHandler (args : Args) (srv : Server) (resolver : string → option FundEnv) : tool Result :=
  np ← of_res (requireProfile is_print arg_text args srv);
  let pn := np.1 in let p := np.2 in
  keyName ← of_res (keyArg arg_text args);
  addr ← of_res (map_err (λ e, default (PlainError ("gno_faucet_fund: agent address: " +:+ ks_text e))
             (agentKeyToolError is_print e pn "run gno_key_generate first, then gno_faucet_fund")) (address pn keyName p));
  env ← of_res (ok_or (PlainError ("profile " +:+ quote is_print pn +:+ ": no chain client available")) (resolver pn));
  r ← Fund env (Resolve p) addr (ChainID p);
  match r with
  | Err e => if be_failed e then settleFaucetFailure env addr (be_text e) else stop (PlainError (be_text e))
  | Ok out =>
      r ← poll env addr;
      mret (text_only (fund_text out addr r))
  end.
End handler.
End clientfaucet.

(** ** The watch on the balance ends *)

Section polling.
Context (env : FundEnv) (addr : string).

(** What the chain answered to the polls of [evs], from [tr] on. *)
Fixpoint balance_answers (tr evs : trace) : list (res string Z) :=
  match evs with
  | [] => []
  | e :: evs => (if bool_decide (e = EfBalance addr) then [e_balance env tr addr] else []) ++ balance_answers (tr ++ [e]) evs
  end.

Definition positive (a : res string Z) : bool := match a with Ok b => 0 <? b | Err _ => false end.

Definition last_error (prev : option string) (l : list (res string Z)) : option string :=
  foldl (λ acc a, match a with Err e => Some e | Ok _ => acc end) prev l.

Definition poll_event (interval : Duration) (e : effect) : Prop := e = EfBalance addr ∨ e = EfSleep interval.

(** The watch from [tr] did [evs] and answered [out]. *)
Record polled (interval : Duration) (deadline : Time) (prev : option string) (tr evs : trace) (out : bool * option string) : Prop := {
  polled_events : Forall (poll_event interval) evs;
  polled_out : out = (existsb positive (balance_answers tr evs),
                      if existsb positive (balance_answers tr evs) then None else last_error prev (balance_answers tr evs));
  polled_first : ∀ i a, balance_answers tr evs !! i = Some a → positive a = true → S i = List.length (balance_answers tr evs);
  polled_stop : existsb positive (balance_answers tr evs) = true ∨ e_done env (tr ++ evs) = true ∨ deadline < e_now env (tr ++ evs);
}.

Lemma balance_once tr : balance_answers tr [EfBalance addr] = [e_balance env tr addr].
Proof. simpl. by rewrite bool_decide_eq_true_2. Qed.

Lemma balance_sleep tr d evs : balance_answers tr (EfBalance addr :: EfSleep d :: evs) =
  e_balance env tr addr :: balance_answers ((tr ++ [EfBalance addr]) ++ [EfSleep d]) evs.
Proof. cbn [balance_answers]. by rewrite bool_decide_eq_true_2. Qed.

Definition next_error (prev : option string) (a : res string Z) : option string := match a with Err e => Some e | Ok _ => prev end.

(** The loop's exits after one poll, and one more turn. *)
Lemma polled_funded interval deadline prev tr : positive (e_balance env tr addr) = true →
  polled interval deadline prev tr [EfBalance addr] (true, None).
Proof.
  intros H. constructor; rewrite ?balance_once; simpl; rewrite ?H; [by repeat constructor|done| |by left].
  intros [|i] a Hi; [done|]. by destruct i.
Qed.

Lemma polled_late interval deadline prev tr : positive (e_balance env tr addr) = false →
  deadline < e_now env (tr ++ [EfBalance addr]) →
  polled interval deadline prev tr [EfBalance addr] (false, next_error prev (e_balance env tr addr)).
Proof.
  intros H Hd. constructor; rewrite ?balance_once; simpl; rewrite ?H; [by repeat constructor|done| |by right; right].
  intros [|i] a Hi; [done|]. by destruct i.
Qed.

Lemma polled_cancelled interval deadline prev tr : positive (e_balance env tr addr) = false →
  e_done env ((tr ++ [EfBalance addr]) ++ [EfSleep interval]) = true →
  polled interval deadline prev tr [EfBalance addr; EfSleep interval] (false, next_error prev (e_balance env tr addr)).
Proof.
  intros H Hd. constructor; rewrite ?balance_sleep; simpl; rewrite ?H.
  - constructor; [by left|]. constructor; [by right|constructor].
  - done.
  - intros [|i] a Hi; [done|]. by destruct i.
  - right; left. by rewrite <- app_assoc in Hd.
Qed.

Lemma polled_again interval deadline prev tr evs out : positive (e_balance env tr addr) = false →
  polled interval deadline (next_error prev (e_balance env tr addr)) ((tr ++ [EfBalance addr]) ++ [EfSleep interval]) evs out →
  polled interval deadline prev tr (EfBalance addr :: EfSleep interval :: evs) out.
Proof.
  intros H [He Ho Hf Hs]. constructor; rewrite ?balance_sleep.
  - constructor; [by left|]. constructor; [by right|done].
  - rewrite Ho. simpl. by rewrite H.
  - intros [|i] a Hi Hp; simpl in *; [injection Hi as <-; by rewrite H in Hp|]. by rewrite (Hf i a Hi Hp).
  - cbn [existsb]. rewrite H. cbn [orb].
    assert (E : tr ++ EfBalance addr :: EfSleep interval :: evs = ((tr ++ [EfBalance addr]) ++ [EfSleep interval]) ++ evs)
      by (by rewrite <- !app_assoc). by rewrite E.
Qed.

Lemma poll_loop_polled `{!Clock (e_now env) (e_done env)} interval fuel deadline prev st :
  deadline < e_now env (hist st) + Z.of_nat fuel * interval →
  wp (poll_loop env (S fuel) addr interval deadline prev) (λ st' r, ∃ evs out,
    r = Ok (Some out) ∧ hist st' = hist st ++ evs ∧ cell st' = cell st ∧
    polled interval deadline prev (hist st) evs out ∧ (List.length (balance_answers (hist st) evs) ≤ S fuel)%nat) st.
Proof.
  revert prev st. induction fuel as [|fuel IH]; intros prev st Hd; cbn [poll_loop]; unfold Funded; repeat wp_step.
  all: pose proof (clock_mono (now := e_now env) (hist st) [EfBalance addr]) as Hm.
  all: destruct (positive (e_balance env (hist st) addr)) eqn:Hp.
  all: try (assert (Hr : (λ b, 0 <? b) <$> e_balance env (hist st) addr = Ok true)
              by (destruct (e_balance env (hist st) addr); simpl in *; congruence);
            rewrite Hr; wp_step; exists [EfBalance addr], (true, None); split_and!;
            [done|done|done|by apply polled_funded|rewrite balance_once; simpl; lia]).
  all: assert (Hr : (λ b, 0 <? b) <$> e_balance env (hist st) addr ≠ Ok true)
         by (destruct (e_balance env (hist st) addr); simpl in *; congruence).
  all: assert (Hn : match (λ b, 0 <? b) <$> e_balance env (hist st) addr with Err e => Some e | Ok _ => prev end =
                    next_error prev (e_balance env (hist st) addr)) by (by destruct (e_balance env (hist st) addr)).
  all: destruct ((λ b, 0 <? b) <$> e_balance env (hist st) addr) as [[]|err]; try done; cbn match in Hn.
  all: repeat wp_step; destruct (Z.ltb_spec deadline (e_now env (hist st ++ [EfBalance addr])));
       [wp_step; eexists [EfBalance addr], _; split_and!; [done|done|done|pose proof (polled_late interval deadline prev (hist st) Hp ltac:(assumption)) as HX; rewrite <- Hn in HX; exact HX|rewrite balance_once; simpl; lia]|].
  all: try (exfalso; lia).
  all: repeat wp_step; destruct (e_done env ((hist st ++ [EfBalance addr]) ++ [EfSleep interval])) eqn:Edone;
       [wp_step; eexists [EfBalance addr; EfSleep interval], _; split_and!;
        [done|by rewrite <- app_assoc|done|pose proof (polled_cancelled interval deadline prev (hist st) Hp Edone) as HX; rewrite <- Hn in HX; exact HX|rewrite balance_sleep; simpl; lia]|].
  all: pose proof (clock_sleep (now := e_now env) _ interval Edone) as Hs;
       (eapply wp_mono; [apply IH; simpl; lia|]); simpl; intros st' r (evs & out & -> & Hh & Hcell & Hpoll & Hlen);
       exists (EfBalance addr :: EfSleep interval :: evs), out; split_and!;
       [done|by rewrite Hh, <- !app_assoc|done|apply polled_again; [done|]; rewrite <- Hn; exact Hpoll|rewrite balance_sleep; simpl; lia].
Qed.

Lemma pollFunded_polled `{!Clock (e_now env) (e_done env)} timeout interval st : 0 < interval →
  wp (pollFunded env addr timeout interval) (λ st' r, ∃ evs out,
    r = Ok (Some out) ∧ hist st' = hist st ++ evs ∧ cell st' = cell st ∧
    polled interval (e_now env (hist st) + timeout) None (hist st) evs out ∧
    (List.length (balance_answers (hist st) evs) ≤ poll_fuel timeout interval)%nat) st.
Proof.
  intros Hi. unfold pollFunded. repeat wp_step. apply poll_loop_polled. unfold time_add.
  pose proof (Z.mod_pos_bound timeout interval Hi). pose proof (Z.div_mod timeout interval ltac:(lia)).
  destruct (decide (0 ≤ timeout / interval)); [|replace (Z.to_nat (timeout / interval)) with 0%nat by lia; nia].
  rewrite Nat2Z.inj_succ, Z2Nat.id by done. nia.
Qed.
End polling.

(** ** The tool tells the truth *)

Section truth.
Context (StatusText : Z → string).
Context (decode_tx : string → res string string) (decode_rate : string → string * Z).
Context (is_print : Z → bool) (ks_text : ks_error → string) (arg_text : arg_error → string).
Context (address : string → string → Profile → res ks_error string).

Abbreviation service := (service_fund StatusText decode_tx decode_rate).
Abbreviation handler := (faucetFundHandler StatusText decode_tx decode_rate is_print ks_text arg_text address).

(** The watch a call of the tool ends with. *)
Definition watched (env : FundEnv) (addr : string) (tr evs : trace) (out : bool * option string) : Prop :=
  polled env addr faucetPollInterval (e_now env tr + faucetPollTimeout) None tr evs out ∧
  (List.length (balance_answers env addr tr evs) ≤ poll_fuel faucetPollTimeout faucetPollInterval)%nat.

(** One call, from [tr]. *)
Inductive fund_call (args : Args) (srv : Server) (resolver : string → option FundEnv) (tr : trace) : trace → res tool_err Result → Prop :=
  | NotAsked e : fund_call args srv resolver tr [] (Err e)
  | Asked pn p key addr env evs r :
      requireProfile is_print arg_text args srv = Ok (pn, p) → keyArg arg_text args = Ok key →
      address pn key p = Ok addr → resolver pn = Some env →
      match Resolve p with
      | LinkFaucet url => ∃ o, watched env addr tr evs o ∧ r = Ok (text_only (fund_text (link_fund url addr) addr o))
      | ServiceFaucet url =>
          ∃ rest, evs = EfFaucet addr :: rest ∧
          match service addr (e_post env tr (url +:+ "/fund") addr (ChainID p)) with
          | Ok out => ∃ o, watched env addr (tr ++ [EfFaucet addr]) rest o ∧ r = Ok (text_only (fund_text out addr o))
          | Err e =>
              if be_failed e then ∃ o, watched env addr (tr ++ [EfFaucet addr]) rest o ∧ is_ok r = o.1 ∧
                (o.1 = true → r = Ok (text_only ("The faucet service did not confirm the grant, but the address holds a balance." +:+ NL +:+ "Agent address " +:+ addr +:+ ": funded.")))
              else rest = [] ∧ r = Err (PlainError (be_text e))
          end
      end →
      fund_call args srv resolver tr evs r.

Lemma poll_watched env addr st : Clock (e_now env) (e_done env) →
  wp (poll env addr) (λ st' r, ∃ evs o, r = Ok o ∧ hist st' = hist st ++ evs ∧ cell st' = cell st ∧ watched env addr (hist st) evs o) st.
Proof.
  intros Hc. unfold poll. wp_step. eapply wp_mono; [apply pollFunded_polled; done|].
  simpl. intros st' r (evs & o & -> & Hh & Hcell & Hp & Hl). wp_step. exists evs, o. split_and!; [done..|]. by split.
Qed.

Lemma handler_fund_call args srv resolver st :
  (∀ pn env, resolver pn = Some env → Clock (e_now env) (e_done env)) →
  wp (handler args srv resolver) (λ st' r, ∃ evs, hist st' = hist st ++ evs ∧ cell st' = cell st ∧ fund_call args srv resolver (hist st) evs r) st.
Proof.
  intros Hclk. unfold faucetFundHandler.
  assert (Hno : ∀ e, ∃ evs, hist st = hist st ++ evs ∧ cell st = cell st ∧ fund_call args srv resolver (hist st) evs (Err e)).
  { intros e. exists []. split_and!; [by rewrite app_nil_r|done|constructor]. }
  repeat wp_step. destruct (requireProfile is_print arg_text args srv) as [[pn p]|e] eqn:Ep; [|apply Hno].
  repeat wp_step. destruct (keyArg arg_text args) as [key|e] eqn:Ek; [|apply Hno].
  repeat wp_step. destruct (address pn key p) as [addr|e] eqn:Ea; [|apply Hno]. cbn [map_err].
  repeat wp_step. destruct (resolver pn) as [env|] eqn:Er; [|apply Hno]. cbn [ok_or].
  pose proof (Hclk _ _ Er) as Hc. unfold Fund. destruct (Resolve p) as [url|url] eqn:Ef.
  - repeat wp_step. destruct (service addr (e_post env (hist st) (url +:+ "/fund") addr (ChainID p))) as [out|e] eqn:Es.
    + wp_step. eapply wp_mono; [by apply poll_watched|]. simpl. intros st' r (evs & o & -> & Hh & Hcell & Hw). wp_step.
      exists (EfFaucet addr :: evs). split_and!; [by rewrite Hh, <- app_assoc|done|]. eapply Asked; try done. rewrite Ef, Es. eauto.
    + destruct (be_failed e) eqn:Eb.
      * unfold settleFaucetFailure. wp_step. eapply wp_mono; [by apply poll_watched|]. simpl.
        intros st' r (evs & o & -> & Hh & Hcell & Hw). destruct o as [[] oe]; wp_step;
          (exists (EfFaucet addr :: evs); split_and!; [by rewrite Hh, <- app_assoc|done|]; eapply Asked; try done; rewrite Ef, Es, Eb;
           exists evs; split; [done|]; eexists; split_and!; [exact Hw|done|done]).
      * wp_step. exists [EfFaucet addr]. split_and!; [done|done|]. eapply Asked; try done. rewrite Ef, Es, Eb. by exists [].
  - repeat wp_step. eapply wp_mono; [by apply poll_watched|]. simpl. intros st' r (evs & o & -> & Hh & Hcell & Hw). wp_step.
    exists evs. split_and!; [done|done|]. eapply Asked; try done. rewrite Ef. eauto.
Qed.
End truth.

(** ** Properties *)

(** the watch on a balance always ends: after at most one poll per interval
    of the timeout and two more, whatever the chain answers.  It only reads the
    balance and sleeps; it answers funded exactly when a read was positive, and
    then that was the last read; otherwise it stopped because the context ended
    or the deadline is past, and it carries the last error among the reads. *)
Theorem pollFunded_terminates env addr timeout interval st :
  Clock (e_now env) (e_done env) → 0 < interval →
  let '(st', r) := pollFunded env addr timeout interval st in ∃ evs out,
    r = Ok (Some out) ∧ hist st' = hist st ++ evs ∧ Forall (poll_event addr interval) evs ∧
    let answers := balance_answers env addr (hist st) evs in
    (List.length answers ≤ poll_fuel timeout interval)%nat ∧
    out.1 = existsb positive answers ∧
    (∀ i a, answers !! i = Some a → positive a = true → S i = List.length answers) ∧
    (out.1 = true ∨ (out.2 = last_error None answers ∧
       (e_done env (hist st') = true ∨ e_now env (hist st) + timeout < e_now env (hist st')))).
Proof.
  intros Hc Hi. pose proof (pollFunded_polled env addr timeout interval st Hi) as H. unfold wp in H.
  destruct (pollFunded env addr timeout interval st) as [st' r]. destruct H as (evs & out & -> & Hh & _ & [He Ho Hf Hs] & Hl).
  exists evs, out. rewrite Hh. subst out. cbn [fst snd]. split_and!; try done. destruct (existsb _ _); [by left|right].
  split; [done|]. destruct Hs as [?|?]; done.
Qed.

(** C14: gno_faucet_fund says funded only when it saw a balance.  It asks the
    profile's service at most once, for the agent's own address on the
    profile's chain, or a human; it then reads that address's balance for a
    bounded time, and its answer is the outcome of the last read.  A failure of
    the service that may have paid is watched in the same way before it is
    reported; one that cannot have paid is reported at once. *)
Theorem faucetFundHandler_truthful StatusText decode_tx decode_rate is_print ks_text arg_text address args srv resolver st :
  (∀ pn env, resolver pn = Some env → Clock (e_now env) (e_done env)) →
  let '(st', r) := faucetFundHandler StatusText decode_tx decode_rate is_print ks_text arg_text address args srv resolver st in
  ∃ evs, hist st' = hist st ++ evs ∧
    fund_call StatusText decode_tx decode_rate is_print arg_text address args srv resolver (hist st) evs r.
Proof.
  intros Hc. pose proof (handler_fund_call StatusText decode_tx decode_rate is_print ks_text arg_text address args srv resolver st Hc) as H.
  unfold wp in H. destruct (faucetFundHandler _ _ _ _ _ _ _ _ _ _ _) as [st' r]. destruct H as (evs & Hh & _ & H). eauto.
Qed.

(** The server's response on the wire. *)
Definition on_wire (line : string) (encode : body → string) (resp : Response) : http_answer :=
  Answered (r_status resp) line (encode (r_body resp)).

(** The errors after which a transfer may have landed, or whose text is the
    dispenser's. *)
Definition maybe_paid (e : fund_error) : bool := match e with FErrBalance _ | FErrDispense _ => true | _ => false end.

Lemma error_heard StatusText decode_tx decode_rate is_print f l e line encode address :
  ∃ text, service_fund StatusText decode_tx decode_rate address (on_wire line encode (fund_response is_print f l (Err e))) =
    Err (mkBackendErr text (maybe_paid e)).
Proof.
  assert (Hs : r_status (fund_response is_print f l (Err e)) =
    match e with FErrDispense SePanic => 500 | FErrBalance _ | FErrDispense _ => 502 | FErrLimit _ => 429
               | FErrChainMismatch => 403 | FErrBadAddress _ => 400 | FErrFundingLow => 503 end)
    by (unfold fund_response; destruct e as [| | | |[]|[]]; simpl; by rewrite ?bool_decide_eq_true_2).
  unfold on_wire, service_fund. rewrite Hs. destruct e as [| | | | |[]]; cbn; eauto.
Qed.

Section heard.
Context {W Addr : Type} (parse : string → res string Addr) (fmt : Addr → string).
Context (send : W → string → Z → W * res send_error string) (paid : W → list (string * Z)).
Context (StatusText : Z → string) (decode_tx : string → res string string) (decode_rate : string → string * Z).
Context (line : string) (encode : body → string) (is_print : Z → bool).
Context (f : FaucetSvc.Faucet) (l : Limiter.Limiter) (w : W) (bal : res string Z) (address ip chain : string) (now later : Time).

(** One grant to the account the address names. *)
Definition paid_once (w' : W) : Prop := ∃ a, parse address = Ok a ∧ paid w' = paid w ++ [(fmt a, f_grantUgnot f)].

(** What the client may hear of a request whose service took the world to [w']
    and answered [resp], and the world then: the whole answer; nothing, because
    the request was not made or no connection was; no answer in time, the
    request being served or not; or, when the exchange is [lost], a connection
    that broke after the request was served, before the answer or within its
    body. *)
Inductive exchange (w' : W) (resp : http_answer) : http_answer → W → bool → Prop :=
  | WholeAnswer : exchange w' resp resp w' false
  | NotMade e : exchange w' resp (BadRequest e) w false
  | NotConnected e : exchange w' resp (Unreachable e) w false
  | NoAnswer e w'' : w'' = w ∨ w'' = w' → exchange w' resp (TimedOut e) w'' false
  | LostAnswer e : exchange w' resp (Unreachable e) w' true
  | CutBody status status_line body cut e : resp = Answered status status_line body →
      decode_tx (limit_read maxFaucetRespBytes cut) = Err e →
      exchange w' resp (Answered status status_line cut) w' true.

Abbreviation serve := (FaucetSvc.Fund parse fmt send f l w bal address ip chain now later).
Abbreviation heard a := (service_fund StatusText decode_tx decode_rate address a).
Abbreviation answer l' r := (on_wire line encode (fund_response is_print f l' r)).

Lemma whole_answer :
  DispenserLaws paid (λ s, ∃ a, fmt a = s) send →
  (∀ w to amt w' tx, send w to amt = (w', Ok tx) → matches txHashRE tx = true) →
  (∀ tx amt, matches txHashRE tx = true → decode_tx (limit_read maxFaucetRespBytes (encode (BFund tx amt))) = Ok tx) →
  let '(l', w', r) := serve in
  match heard (answer l' r) with
  | Ok out => r = Ok (OutTxHash out) ∧ paid_once w'
  | Err e => is_ok r = false ∧ if be_failed e then paid w' = paid w ∨ paid_once w' else paid w' = paid w
  end.
Proof using Type.
  unfold paid_once. intros HL Htx Hdec.
  pose proof (λ e l, error_heard StatusText decode_tx decode_rate is_print f l e line encode address) as hears_error.
  unfold FaucetSvc.Fund.
  destruct (fund_precheck parse fmt f bal address chain) as [canon|pe] eqn:Ep.
  2: { assert (Hpe : match pe with FErrLimit _ | FErrDispense _ => False | _ => True end)
         by (unfold fund_precheck in Ep; repeat (case_match; simplify_eq); done).
       destruct (hears_error pe l) as [text ->]. split; [done|]. cbn. by destruct (maybe_paid pe); [left|]. }
  assert (Hp : ∃ a, parse address = Ok a ∧ canon = fmt a).
  { unfold fund_precheck in Ep. repeat (case_match; simplify_eq); eauto. }
  destruct Hp as (a & Ha & ->). destruct (Limiter.Allow l (fmt a) ip now) as [l1 [t|le]] eqn:EA;
    [|destruct (hears_error (FErrLimit le) l1) as [text ->]; cbn; by destruct le].
  destruct (send w (fmt a) (f_grantUgnot f)) as [w1 [tx|de]] eqn:Es; cbn [fund_settle].
  - pose proof (Htx _ _ _ _ _ Es) as Hm. cbn. rewrite Hdec by done. cbn. rewrite Hm. cbn.
    split; [done|]. exists a. split; [done|]. eapply send_paid; [by exists a|done].
  - destruct (send_maybe _ _ _ _ _ (ex_intro _ a eq_refl) Es) as [Hw|Hw];
      match goal with |- context [fund_response is_print f ?l' _] => destruct (hears_error (FErrDispense de) l') as [text ->] end;
      cbn; (split; [done|]); eauto.
Qed.

(** Whether it is final does not depend on the body of an answer that is no
    grant. *)
Lemma cut_body status status_line body cut e e' : decode_tx (limit_read maxFaucetRespBytes cut) = Err e →
  heard (Answered status status_line body) = Err e' →
  ∃ text, heard (Answered status status_line cut) = Err (mkBackendErr text (be_failed e')).
Proof using Type.
  intros Hcut. unfold service_fund. rewrite Hcut. destruct (status =? 429); [intros [= <-]; eauto|].
  destruct (negb (status =? 200)); [destruct (_ || _); intros [= <-]; eauto|].
  destruct (decode_tx (limit_read maxFaucetRespBytes body)) as [tx|]; [destruct (negb _)|]; intros [= <-]; eauto.
Qed.
End heard.

(** C13: the client hears what the faucet did.  Against the server of this
    repository, whatever the dispenser does and wherever the exchange between
    them breaks: a grant the client reports has landed once, with that
    transaction; a failure marked as open paid at most once; and a failure the
    client takes as final paid nothing, unless the connection broke after the
    service had the request, when it paid at most once. *)
Theorem client_hears_grant {W Addr : Type} (parse : string → res string Addr) fmt (send : W → string → Z → W * res send_error string)
    (paid : W → list (string * Z)) StatusText decode_tx decode_rate line encode is_print
    f l w bal address ip chain now later :
  DispenserLaws paid (λ s, ∃ a, fmt a = s) send →
  (∀ w to amt w' tx, send w to amt = (w', Ok tx) → matches txHashRE tx = true) →
  (∀ tx amt, matches txHashRE tx = true → decode_tx (limit_read maxFaucetRespBytes (encode (BFund tx amt))) = Ok tx) →
  let '(l', w', r) := FaucetSvc.Fund parse fmt send f l w bal address ip chain now later in
  ∀ a w'' lost, exchange decode_tx w w' (on_wire line encode (fund_response is_print f l' r)) a w'' lost →
  let once := paid_once parse fmt paid f w address w'' in
  match service_fund StatusText decode_tx decode_rate address a with
  | Ok out => r = Ok (OutTxHash out) ∧ once
  | Err e => if be_failed e || lost then paid w'' = paid w ∨ once else paid w'' = paid w
  end.
Proof.
  intros HL Htx Hdec.
  pose proof (whole_answer parse fmt send paid StatusText decode_tx decode_rate line encode is_print f l w bal address ip chain now later HL Htx Hdec) as H.
  destruct (FaucetSvc.Fund _ _ _ _ _ _ _ _ _ _ _ _) as [[l' w'] r]. set (resp := on_wire _ _ _) in *.
  assert (Hany : paid w' = paid w ∨ paid_once parse fmt paid f w address w').
  { destruct (service_fund _ _ _ _ resp) as [out|e]; [right; apply H|]. destruct H as [_ H]. destruct (be_failed e); auto. }
  intros a w'' lost [|e|e|e w1 Hw|e|status sl body cut e He Hcut].
  2, 3, 5: done.
  - destruct (service_fund _ _ _ _ resp) as [out|e]; [done|]. rewrite orb_false_r. apply H.
  - destruct Hw as [->| ->]; [by left|done].
  - rewrite He in H. destruct (service_fund _ _ _ _ (Answered status sl body)) as [out|e1] eqn:Eb.
    + unfold service_fund in Eb |- *. rewrite Hcut. destruct (status =? 429); [done|].
      destruct (negb (status =? 200)); [by destruct (_ || _)|]. cbn. done.
    + destruct (cut_body StatusText decode_tx decode_rate address status sl body cut e e1 Hcut Eb) as [text ->].
      cbn. by rewrite orb_true_r.
Qed.

(** An accepted hash is far below the read limit. *)
Lemma RUpTo_length p n x : lang (RUpTo n (RClass p)) x → (String.length x <= n)%nat.
Proof.
  revert x. induction n as [|n IH]; intros x H; simpl in H; [by inversion H|].
  inversion H as [| | |? ? ? Hl|? ? ? Hr| |]; subst; [|inversion Hr; subst; simpl; lia].
  inversion Hl as [| |? ? x1 x2 H1 H2| | | |]; subst. inversion H1; subst. specialize (IH _ H2). rewrite str_length_app. simpl. lia.
Qed.

Lemma lang_seq_inv a b s : lang (RSeq a b) s → ∃ x y, s = x +:+ y ∧ lang a x ∧ lang b y.
Proof. inversion 1; eauto. Qed.

Lemma txHash_length tx : matches txHashRE tx = true → (String.length tx <= 130)%nat.
Proof.
  intros H%matches_lang. apply lang_seq_inv in H as (x & y & -> & H1 & H2). apply lang_seq_inv in H2 as (c & z & -> & H2 & H3).
  apply RUpTo_length in H3. inversion H2; subst. assert (Hx : (String.length x <= 2)%nat); [|rewrite !str_length_app; simpl; lia].
  inversion H1 as [| | |? ? ? Hl|? ? ? Hr| |]; subst; [|inversion Hr; subst; simpl; lia].
  apply lang_seq_inv in Hl as (a & b & -> & Ha & Hb). apply lang_seq_inv in Hb as (a' & b' & -> & Ha' & Hb').
  inversion Ha; inversion Ha'; inversion Hb'; subst. simpl. lia.
Qed.

Lemma substring_all n s : (String.length s <= n)%nat → String.substring 0 n s = s.
Proof. revert n. induction s as [|a s IH]; intros [|n] H; simpl in *; [done|done|lia|]. f_equal. apply IH. lia. Qed.

(** ** Evaluation *)

(** A service that takes the grant and a chain where it lands five seconds in. *)
Definition toy_env : FundEnv := mkFundEnv (λ tr _, Ok (if slept tr <? 5 * Second then 0 else 7)) (λ _ _ _ _, Answered 200 "200 OK" "deadbeef")
  slept (λ _, false).
Definition dead_env : FundEnv := mkFundEnv (λ _ _, Err "no route") (λ _ _ _ _, Answered 502 "502 Bad Gateway" "x") slept (λ _, false).

Definition toy_fund (env : FundEnv) : tool Result :=
  faucetFundHandler (λ _, "Bad Gateway") Ok (λ _, ("", 0)) (λ _, true) (λ _, "") (λ _, "") (λ _ _ _, Ok "g1a")
    {["profile" := JStr "p"]}
    (NewServer {["p" := mkProfile "https://rpc.test5.gno.land" "test5" "" "" "https://faucet" "" false "" "" "" false]} "") (λ _, Some env).

Definition st0 : St := mkSt [] (mkEntry "" "" "" "" "").

Example toy_fund_ex :
  let '(st, r) := toy_fund toy_env st0 in
  (hist st, match r with Ok res => Text res | Err _ => "" end) =
  ([EfFaucet "g1a"; EfBalance "g1a"; EfSleep (3 * Second); EfBalance "g1a"; EfSleep (3 * Second); EfBalance "g1a"],
   "Requested an automatic grant for g1a (tx deadbeef)." +:+ NL +:+ "Agent address g1a: funded.").
Proof. vm_compute. reflexivity. Qed.

Example dead_fund_ex :
  let '(st, r) := toy_fund dead_env st0 in
  (List.length (hist st), match r with Err (PlainError e) => e | _ => "" end) =
  (44%nat, "g1a holds no balance yet (last balance check failed: no route), but the grant may still land. Read the balance with gno_account before calling gno_faucet_fund again. Details: faucet service error: 502 Bad Gateway: [untrusted faucet response] x").
Proof. vm_compute. reflexivity. Qed.

Lemma pollFunded_terminates_witness :
  let '(st', r) := pollFunded dead_env "g1a" faucetPollTimeout faucetPollInterval st0 in
  ∃ evs out, r = Ok (Some out) ∧ hist st' = hist st0 ++ evs ∧ (List.length (balance_answers dead_env "g1a" (hist st0) evs) ≤ 22)%nat.
Proof.
  pose proof (pollFunded_terminates dead_env "g1a" faucetPollTimeout faucetPollInterval st0 slept_clock ltac:(reflexivity)) as H.
  destruct (pollFunded _ _ _ _ _) as [st' r]. destruct H as (evs & out & H1 & H2 & _ & H3 & _). exists evs, out.
  split; [exact H1|]. split; [exact H2|exact H3].
Defined.

Lemma faucetFundHandler_truthful_witness :
  let '(st', r) := toy_fund toy_env st0 in is_ok r = true ∧ ∃ evs, hist st' = hist st0 ++ evs.
Proof.
  pose proof (faucetFundHandler_truthful (λ _, "Bad Gateway") Ok (λ _, ("", 0)) (λ _, true) (λ _, "") (λ _, "") (λ _ _ _, Ok "g1a")
    {["profile" := JStr "p"]}
    (NewServer {["p" := mkProfile "https://rpc.test5.gno.land" "test5" "" "" "https://faucet" "" false "" "" "" false]} "")
    (λ _, Some toy_env) st0) as H.
  assert (E : is_ok (toy_fund toy_env st0).2 = true) by (vm_compute; reflexivity). unfold toy_fund in *.
  destruct (faucetFundHandler _ _ _ _ _ _ _ _ _ _ _) as [st' r].
  destruct H as (evs & Hh & _); [intros pn env [= <-]; exact slept_clock|]. split; [exact E|]. exists evs. exact Hh.
Defined.

(** A dispenser that pays, and a codec of hashes. *)
Definition paying (w : list (string * Z)) (to : string) (amt : Z) : list (string * Z) * res send_error string := (w ++ [(to, amt)], Ok "deadbeef").
Definition plain_encode (b : body) : string := match b with BFund tx _ => tx | _ => "" end.

#[export] Instance paying_laws : DispenserLaws id (λ s, ∃ a : string, id a = s) paying.
Proof. split; unfold paying; intros; simplify_eq; auto. Qed.

Lemma client_hears_grant_witness :
  let '(l', w', r) := FaucetSvc.Fund toy_parse id paying toy_faucet (Limiter.NewLimiter Limiter.cfg1) [] (Ok 0) "g1a" "i" "test-1" 5 6 in
  w' = [("g1a", 10)].
Proof.
  pose proof (client_hears_grant toy_parse id paying id (λ _, "") Ok (λ _, ("", 0)) "" plain_encode (λ _, true)
    toy_faucet (Limiter.NewLimiter Limiter.cfg1) [] (Ok 0) "g1a" "i" "test-1" 5 6 paying_laws) as H.
  assert (E : FaucetSvc.Fund toy_parse id paying toy_faucet (Limiter.NewLimiter Limiter.cfg1) [] (Ok 0) "g1a" "i" "test-1" 5 6 =
    (fst (fst (FaucetSvc.Fund toy_parse id paying toy_faucet (Limiter.NewLimiter Limiter.cfg1) [] (Ok 0) "g1a" "i" "test-1" 5 6)), [("g1a", 10)], Ok "deadbeef"))
    by (vm_compute; reflexivity).
  destruct (FaucetSvc.Fund _ _ _ _ _ _ _ _ _ _ _ _) as [[l' w'] r]. injection E as -> ->.
  specialize (λ H1 H2, H H1 H2 _ _ _ (WholeAnswer Ok [] [("g1a", 10)] _)).
  destruct H as [_ (a & Ha & Hw)].
  - intros w to amt w' tx [= <- <-]. vm_compute. reflexivity.
  - intros tx amt Hm. unfold plain_encode, limit_read. rewrite substring_all; [reflexivity|].
    apply txHash_length in Hm. unfold maxFaucetRespBytes. lia.
  - unfold toy_parse in Ha. injection Ha as <-. exact Hw.
Defined.
