(* ===== verification/KeyLife.v ===== *)
(** * The agent key tools

    [internal/tools/write/keygen.go], [keylist.go] and [keyaddr.go]: gno_key_generate,
    gno_key_list and gno_key_address over the keystore of [Keystore], and that
    the three agree on a key from its generation on. *)
From S2P Require Import Prelude GoText Profiles Secret FsUtil Keystore ServerCore Handlers WriteTools.
From stdpp Require Import prelude strings gmap list.
From Stdlib Require Import ZArith Lia Ascii String.
Local Open Scope Z_scope.

Definition TAB : string := String "009"%char EmptyString.

(** [strings.TrimRight(s, "\n")] *)
Definition trim_newlines (s : string) : string := str_rev (snd (span (is_char "010"%char) (str_rev s))).

Section tools.
Context (is_print : Z → bool).
Context {Signer : Type} (SignerFromBip39 : string → string → option Signer) (Info : Signer → option string).
Context (NewMnemonic : string → option string).
Context (scrypt : string → string → option string) (new_gcm : string → bool).
Context (Seal : string → string → string → string) (Open : string → string → string → option string).
(** The texts of the keystore's and of the argument readers' errors. *)
Context (ks_text : ks_error → string) (arg_text : arg_error → string).
Context (k : Keystore).

Abbreviation require := (requireProfile is_print arg_text).

(** The shared mapping of a keystore error, or the tool's own wrapping. *)
Definition key_error (profileName hint tool : string) (e : ks_error) : tool_err :=
  default (PlainError (tool +:+ ": " +:+ ks_text e)) (agentKeyToolError is_print e profileName hint).

(** ** gno_key_generate *)

Definition keyGenError (profileName : string) (e : ks_error) : tool_err :=
  match e with
  | ErrInvalidKeyName _ => ToolError "invalid_key_name" (ks_text e) (extra1 "profile" profileName)
  | ErrKeyCapReached _ _ _ =>
      ToolError "key_cap_reached"
        ("profile " +:+ quote is_print profileName +:+
         " has reached its agent-key cap — delete an existing key (gno_key_delete) to free a slot; see gno_key_list")
        (extra1 "profile" profileName)
  | ErrKeyGenTestnetOnly _ =>
      ToolError "key_generation_unsupported"
        ("gno_key_generate is testnet-only; profile " +:+ quote is_print profileName +:+
         " is not a testnet profile (local uses the built-in test1, prod uses sessions)")
        (extra1 "profile" profileName)
  | ErrKeyExists _ _ =>
      ToolError "key_already_exists"
        ("profile " +:+ quote is_print profileName +:+ " already has an agent key — use gno_key_address to get its address")
        (extra1 "profile" profileName)
  | _ => key_error profileName "" "gno_key_generate" e
  end.

Definition address_result (addr : string) : Result := mkResult addr "" "" "" [("address", JStr addr)].

Definition keyGenHandler (args : Args) (srv : Server) (io : IO) (entropy salt nonce : option string) (s : fs)
    : fs * res tool_err Result :=
  match (np ← require args srv; keyName ← keyArg arg_text args; mret (np, keyName)) with
  | Err e => (s, Err e)
  | Ok ((profileName, p), keyName) =>
      let '(s, r) := GenerateForProfile SignerFromBip39 Info NewMnemonic scrypt new_gcm Seal k
                       io entropy salt nonce s profileName keyName p in
      (s, match r with Err e => Err (keyGenError profileName e) | Ok addr => Ok (address_result addr) end)
  end.

(** ** gno_key_address *)

Definition key_hint : string := "run gno_key_generate to create one".

Definition keyAddrHandler (args : Args) (srv : Server) (io : IO) (s : fs) : res tool_err Result :=
  np ← require args srv;
  keyName ← keyArg arg_text args;
  addr ← map_err (key_error np.1 key_hint "gno_key_address")
           (AgentAddress SignerFromBip39 Info scrypt new_gcm Open k io s np.1 keyName np.2);
  mret (address_result addr).

(** ** gno_key_list *)

Definition key_line (i : KeyInfo) : string :=
  if negb (bool_decide (KeyErr i = "")) then Name i +:+ TAB +:+ "(unreadable: " +:+ KeyErr i +:+ ")" +:+ NL
  else Name i +:+ TAB +:+ Address i +:+ NL.

Definition key_item (i : KeyInfo) : json :=
  JObj (("name", JStr (Name i)) ::
        (if negb (bool_decide (KeyErr i = "")) then [("error", JStr (KeyErr i))] else [("address", JStr (Address i))])).

Fixpoint key_lines (l : list KeyInfo) : string :=
  match l with [] => EmptyString | i :: l => key_line i +:+ key_lines l end.

Definition keyListHandler (args : Args) (srv : Server) (io : IO) (s : fs) : res tool_err Result :=
  np ← require args srv;
  keys ← map_err (key_error np.1 key_hint "gno_key_list") (ListKeys SignerFromBip39 Info scrypt new_gcm Open k io s np.1 np.2);
  let text := if bool_decide (keys = []) then "No agent keys for this profile yet — run gno_key_generate." else key_lines keys in
  mret (mkResult (trim_newlines text) "" "" "" [("keys", JArr (key_item <$> keys))]).
End tools.

(** ** One key, three tools *)

Section life.
Context (is_print : Z → bool).
Context {Signer : Type} (SignerFromBip39 : string → string → option Signer) (Info : Signer → option string).
Context (NewMnemonic : string → option string).
Context (scrypt : string → string → option string) (new_gcm : string → bool).
Context (Seal : string → string → string → string) (Open : string → string → string → option string).
Context (ks_text : ks_error → string) (arg_text : arg_error → string).
Context (k : Keystore).

Abbreviation address_of io s pn kn p := (AgentAddress SignerFromBip39 Info scrypt new_gcm Open k io s pn kn p).

Lemma address_resolved io s pn kn key p : ValidProfileName pn = true → IsTestnet p = true → resolveKeyName kn = Ok key →
  address_of io s pn kn p = address_of io s pn key p.
Proof using Type.
  intros Hv Ht Ek. unfold AgentAddress. rewrite !signer_testnet by done. by rewrite Ek, (resolveKeyName_idem _ _ Ek).
Qed.

(** A generated key's directory and path. *)
Lemma generated_checks io entropy salt nonce s s' pn kn p addr :
  GenerateForProfile SignerFromBip39 Info NewMnemonic scrypt new_gcm Seal k io entropy salt nonce s pn kn p = (s', Ok addr) →
  ValidProfileName pn = true ∧ IsTestnet p = true ∧ rootDir k ≠ "".
Proof using Type.
  unfold GenerateForProfile. destruct (generate_checks _ _ _ _ _ _ _ _ _ _) as [[[key m] a]|] eqn:E; [|done].
  intros _. by apply generate_checks_ok in E as (? & ? & ? & _).
Qed.

Lemma countKeys_nonneg io s pn n : countKeys k io s pn = Ok n → 0 ≤ n.
Proof using Type. unfold countKeys. intros H. repeat case_match; simplify_eq; lia. Qed.

Lemma dir_of_count io s pn n : countKeys k io s pn = Ok n → 0 < n → s !! profileDir k pn = Some Directory.
Proof using Type.
  unfold countKeys, ReadDir. destruct (s !! profileDir k pn) as [[]|]; try done.
  intros [= <-]. lia.
Qed.

(** What a taken name answers. *)
Lemma generate_taken io entropy salt nonce s pn kn key p nd :
  ValidProfileName pn = true → IsTestnet p = true → rootDir k ≠ "" → resolveKeyName kn = Ok key →
  s !! keyPath k pn key = Some nd → io_stat io = false →
  GenerateForProfile SignerFromBip39 Info NewMnemonic scrypt new_gcm Seal k io entropy salt nonce s pn kn p =
    (s, Err (ErrKeyExists pn key)).
Proof using Type.
  intros Hv Ht Hr Ek Hs Hio. unfold GenerateForProfile, generate_checks, requireValidProfileName, keyExists.
  rewrite Hv, Ht, (proj1 (tier_exclusive _ Ht)), Ek, Hio. cbn [mbind res_bind check negb].
  rewrite (bool_decide_eq_false_2 (rootDir k = "")) by done. cbn [mbind res_bind check negb].
  rewrite (bool_decide_eq_true_2 (is_Some _)) by (by rewrite Hs). done.
Qed.

(** C23: a generated key is at once the key the other tools see.  Whatever
    gno_key_generate answers, every file that was there is unchanged.  When it
    answers an address, the profile is on a testnet, one file was added, and
    on the same arguments gno_key_address gives the very same answer,
    gno_key_list names the key with that address, and generating again is
    refused as key_already_exists and changes nothing, whatever random bytes
    are drawn. *)
Theorem key_life_cycle args srv io entropy salt nonce s :
  AeadLaws Seal Open → String.length salt = saltLen → String.length nonce = nonceLen →
  str_forall is_digit (io_rnd io) = true → tree k s →
  let '(s', r) := keyGenHandler is_print SignerFromBip39 Info NewMnemonic scrypt new_gcm Seal ks_text arg_text k
                    args srv io entropy (Some salt) (Some nonce) s in
  (∀ q nd, s !! q = Some nd → s' !! q = Some nd) ∧
  ∀ res, r = Ok res → ∃ pn p key addr,
    requireProfile is_print arg_text args srv = Ok (pn, p) ∧ IsTestnet p = true ∧
    (kn ← keyArg arg_text args; mret (if bool_decide (kn = "") then DefaultKeyName else kn)) = Ok key ∧
    s !! keyPath k pn key = None ∧ is_Some (s' !! keyPath k pn key) ∧
    res = address_result addr ∧
    (∀ io', io_unreadable io' (keyPath k pn key) = false →
       keyAddrHandler is_print SignerFromBip39 Info scrypt new_gcm Open ks_text arg_text k args srv io' s' = Ok res) ∧
    (∀ io', io_unreadable io' (keyPath k pn key) = false → io_readdir io' = false →
       ∃ text items, keyListHandler is_print SignerFromBip39 Info scrypt new_gcm Open ks_text arg_text k args srv io' s' =
           Ok (mkResult text "" "" "" [("keys", JArr items)]) ∧
         JObj [("name", JStr key); ("address", JStr addr)] ∈ items) ∧
    (∀ io' entropy' salt' nonce', io_stat io' = false → ∃ msg,
       keyGenHandler is_print SignerFromBip39 Info NewMnemonic scrypt new_gcm Seal ks_text arg_text k
         args srv io' entropy' salt' nonce' s' = (s', Err (ToolError "key_already_exists" msg (extra1 "profile" pn)))).
Proof.
  intros Hl Hsl Hnl Hrnd Htree. unfold keyGenHandler, keyAddrHandler, keyListHandler.
  destruct (requireProfile is_print arg_text args srv) as [[pn p]|e]; [|done].
  destruct (keyArg arg_text args) as [kn|e]; [|done]. cbn [mbind res_bind mret res_ret fst snd].
  pose proof (GenerateForProfile_additive SignerFromBip39 Info NewMnemonic scrypt new_gcm Seal Open k
    io entropy salt nonce s pn kn p Hl Hsl Hnl Hrnd Htree) as H.
  destruct (GenerateForProfile _ _ _ _ _ _ _ _ _ _ _ _ _ _ _) as [s' [addr|e]] eqn:Eg; destruct H as [Hkeep H]; (split; [exact Hkeep|]); [|done].
  intros res [= <-]. destruct (H addr eq_refl) as (Ht & key & Ek & Hfree & [blob Hfile] & Haddr & Hcount).
  destruct (generated_checks _ _ _ _ _ _ _ _ _ _ Eg) as (Hv & _ & Hroot).
  destruct (resolveKeyName_ok _ _ Ek) as (Ekey & Hchars & Hne).
  exists pn, p, key, addr. split_and!; try done.
  - by rewrite Ekey.
  - intros io' Hio. by rewrite (address_resolved _ _ _ _ key), (Haddr io' Hio).
  - intros io' Hio Hdir. destruct (Hcount io' Hdir) as (n & Hn & Hn' & _).
    destruct (ListKeys_complete SignerFromBip39 Info scrypt new_gcm Open k io' s' pn p) as (l & El & _ & _ & Hin & Hinfo); [done..| |].
    { apply (dir_of_count _ _ _ _ Hn'). apply countKeys_nonneg in Hn. lia. }
    rewrite El. cbn [map_err mbind res_bind mret res_ret]. eexists _, _. split; [reflexivity|].
    pose proof (proj2 (Hin key (proj1 (key_name_seg key Hchars Hne)))) as Hk. rewrite list_elem_of_fmap in Hk.
    destruct Hk as (i & Ei & Hi); [eauto|]. specialize (Hinfo i Hi). rewrite <- Ei, (Haddr io' Hio) in Hinfo.
    apply list_elem_of_fmap. exists i. split; [by rewrite Hinfo|done].
  - intros io' entropy' salt' nonce' Hio. by rewrite (generate_taken _ _ _ _ _ _ _ key _ _ Hv Ht Hroot Ek Hfile Hio); eexists.
Qed.

(** On a read-only chain gno_key_generate does not answer key_generation_unsupported:
    the keystore's read-only check comes before its testnet check, and its error
    has no structured mapping. *)
Lemma generate_read_only_plain args srv io entropy salt nonce s pn p kn :
  requireProfile is_print arg_text args srv = Ok (pn, p) → keyArg arg_text args = Ok kn →
  ValidProfileName pn = true → IsReadOnly p = true →
  keyGenHandler is_print SignerFromBip39 Info NewMnemonic scrypt new_gcm Seal ks_text arg_text k args srv io entropy salt nonce s =
    (s, Err (PlainError ("gno_key_generate: " +:+ ks_text (EReadOnly (ChainID p))))).
Proof.
  intros Hp Hk Hv Hr. unfold keyGenHandler, GenerateForProfile, generate_checks, requireValidProfileName.
  rewrite Hp, Hk. cbn [mbind res_bind mret res_ret]. by rewrite Hv, Hr.
Qed.
End life.

(** ** A run *)

Definition toy_life_server : Server := NewServer {["p" := toy_profile]} "".
Definition toy_life_args : Args := {["profile" := JStr "p"]}.
Definition toy_gen (s : fs) : fs * res tool_err Result :=
  keyGenHandler (λ _, true) toy_from_bip39 toy_info (λ e, Some e) toy_scrypt (λ _, true) toy_seal (λ _, "keystore error") (λ _, "argument error")
    toy_keystore toy_life_args toy_life_server toy_io (Some "words") (Some "saltsaltsaltsalt") (Some "noncenonceno") s.
Definition toy_addr (s : fs) : res tool_err Result :=
  keyAddrHandler (λ _, true) toy_from_bip39 toy_info toy_scrypt (λ _, true) toy_open (λ _, "keystore error") (λ _, "argument error")
    toy_keystore toy_life_args toy_life_server toy_io s.
Definition toy_list (s : fs) : res tool_err Result :=
  keyListHandler (λ _, true) toy_from_bip39 toy_info toy_scrypt (λ _, true) toy_open (λ _, "keystore error") (λ _, "argument error")
    toy_keystore toy_life_args toy_life_server toy_io s.

Example toy_before : map_err (λ _, tt) (toy_addr demo_fs) = Err tt ∧
  toy_list demo_fs = Ok (mkResult "No agent keys for this profile yet — run gno_key_generate." "" "" "" [("keys", JArr [])]).
Proof. vm_compute. split; reflexivity. Qed.

Lemma key_life_cycle_witness :
  let '(s', r) := toy_gen demo_fs in
  r = Ok (address_result "g1words@test5") ∧ toy_addr s' = Ok (address_result "g1words@test5") ∧
  toy_list s' = Ok (mkResult ("default" +:+ TAB +:+ "g1words@test5") "" "" ""
                      [("keys", JArr [JObj [("name", JStr "default"); ("address", JStr "g1words@test5")]])]).
Proof.
  pose proof (key_life_cycle (λ _, true) toy_from_bip39 toy_info (λ e, Some e) toy_scrypt (λ _, true) toy_seal toy_open
    (λ _, "keystore error") (λ _, "argument error") toy_keystore toy_life_args toy_life_server toy_io (Some "words")
    "saltsaltsaltsalt" "noncenonceno" demo_fs toy_aead eq_refl eq_refl eq_refl demo_tree) as H.
  fold (toy_gen demo_fs) in H.
  assert (Hr : snd (toy_gen demo_fs) = Ok (address_result "g1words@test5")) by (vm_compute; reflexivity).
  assert (Hlist : toy_list (fst (toy_gen demo_fs)) = Ok (mkResult ("default" +:+ TAB +:+ "g1words@test5") "" "" ""
     [("keys", JArr [JObj [("name", JStr "default"); ("address", JStr "g1words@test5")]])])) by (vm_compute; reflexivity).
  destruct (toy_gen demo_fs) as [s' r]. simpl in Hr, Hlist. destruct H as [_ H].
  destruct (H _ Hr) as (pn & p & key & addr & _ & _ & _ & _ & _ & _ & Haddr & _).
  split; [exact Hr|]. split; [|exact Hlist]. exact (Haddr toy_io eq_refl).
Defined.
