(* ===== verification/ReadTools.v ===== *)
(** * Read tools

    [internal/tools/read]: gno_render, gno_eval, gno_read, gno_packages,
    gno_account, gno_status, gno_connect and gno_profile_list, over a chain
    client that answers as a function of the effects so far.  Outlines and
    symbol extraction ([internal/gnosrc]) and the txtar format are arguments. *)
From S2P Require Import Prelude GoText GoTime Untrusted Profiles ChainTypes ChainClient ServerCore Handlers Parked ProfileAdd FaucetTool.
From stdpp Require Import prelude strings gmap list sorting.
From Stdlib Require Import ZArith Lia Ascii String SpecFloat.
Local Open Scope Z_scope.

(** [chain.NodeStatus] *)
Record NodeStatus := mkNode { NodeChainID : string; NodeHeight : Z; BlockTime : Time }.

(** The reads of [chain.Client]. *)
Record ReadChain := mkReadChain {
  r_render : trace → string → string → res string string;
  r_eval : trace → string → string → res string string;
  r_paths : trace → string → Z → res string (list string);
  r_account : trace → string → res string AccountInfo;
  r_status : trace → res string NodeStatus;
  r_list : trace → string → res string (list string);
  r_file : trace → string → string → res string string;
  r_meta : trace → string → res string PackageMeta;
}.

(** [gnosrc.Extraction] *)
Record Extraction := mkExtraction { XBody : string; Found : list string; Missing : list string; Available : list string; XErrors : list string }.

Section read.
Context (is_print : Z → bool) (arg_text : arg_error → string).
(** [gnolang]'s path predicates *)
Context (IsRealmPath IsPPackagePath : string → bool).
Context (url_parse : string → option URL) (ParseIP : string → option IPKind).
Context (resolver : string → option ReadChain) (srv : Server).

Abbreviation str := (str_arg arg_text).

Definition IsReadablePackagePath (path : string) : bool := IsRealmPath path || IsPPackagePath path.

(** [resolve(profile)] and its nil check. *)
Definition client_for (profile : string) : tool ReadChain :=
  of_res (ok_or (PlainError ("no chain client for profile " +:+ quote is_print profile)) (resolver profile)).

(** A failed read on a path, explained when the path holds a parked package. *)
Definition explained {A} (c : ReadChain) (path : string) (r : res tool_err A) : tool A :=
  match r with
  | Ok a => mret a
  | Err e => on_trace (λ tr, let '(tr, e) := Explain (r_meta c) path e tr in (tr, Err e))
  end.

Definition text_result (text : string) (fields : list (string * json)) : Result := mkResult text "" "" "" fields.
Definition plain_err {A} (prefix : string) (r : res string A) : res tool_err A := map_err (λ e, PlainError (prefix +:+ e)) r.

(** ** Budgets ([budgeted.go]) *)

Definition budgetBody (full gnowebURL : string) (limit : Z) : string * bool :=
  let r := Budget.Apply full gnowebURL limit in
  if Budget.Truncated r then (Budget.Summary r, true) else (Budget.Full r, false).

Definition gnowebURLFor (p : Profile) (realm path : string) : string :=
  let u := RealmViewURL url_parse ParseIP p realm in
  if bool_decide (u = "") || bool_decide (path = "") then u else u +:+ "/" +:+ path.

Definition view_url (profile realm path : string) : string :=
  match cfg srv !! profile with Some p => gnowebURLFor p realm path | None => "" end.

(** ** gno_render, gno_eval *)

Definition renderHandler (args : Args) : tool Result :=
  realm ← str args "realm";
  _ ← need (negb (bool_decide (realm = ""))) "realm is required (e.g. gno.land/r/myorg/blog)";
  _ ← need (IsRealmPath realm) ("realm must be a realm path (gno.land/r/...); got " +:+ quote is_print realm +:+ " (Render is realm-only)");
  path ← str args "path";
  profile ← str args "profile";
  c ← client_for profile;
  r ← ask (EfRender realm path) (λ tr, r_render c tr realm path);
  body ← explained c realm (plain_err "gno_render: " r);
  let source := if bool_decide (path = "") then realm else realm +:+ "/" +:+ path in
  mret (text_result (Budget.WrappedAt is_print body (view_url profile realm path) "render" source Budget.ExplicitBudget).1 []).

Definition evalHandler (args : Args) : tool Result :=
  path ← str args "path";
  _ ← need (negb (bool_decide (path = ""))) "path is required (e.g. gno.land/r/myorg/counter)";
  _ ← need (IsReadablePackagePath path) ("path must be a realm (gno.land/r/...) or pure package (gno.land/p/...); got " +:+ quote is_print path);
  expr ← str args "expr";
  _ ← need (negb (bool_decide (expr = ""))) "expr is required (e.g. 'Counter()')";
  profile ← str args "profile";
  c ← client_for profile;
  r ← ask (EfEval path expr) (λ tr, r_eval c tr path expr);
  out ← explained c path (plain_err "gno_eval: " r);
  mret (text_result (Budget.Wrapped is_print out "" "eval" path).1 []).

(** ** gno_packages *)

Context (parse_float : string → float64) (show_json : json → string).

(** [args["limit"].(float64)], a whole number no less than 0. *)
Definition limit_arg (args : Args) : res tool_err Z :=
  match args !! "limit" with
  | None => Ok 0
  | Some raw =>
      let bad := PlainError ("limit: expected an integer, got " +:+ show_json raw) in
      match raw with
      | JNum lit =>
          let n := parse_float lit in
          if negb (SpecFloat.SFeqb n (f64_of_int (f64_to_int64 n))) then Err bad
          else if f64_lt n f64_zero then Err (PlainError ("limit: must be >= 0, got " +:+ format_int (f64_to_int64 n)))
          else Ok (f64_to_int64 n)
      | _ => Err bad
      end
  end.

Definition packagesHandler (args : Args) : tool Result :=
  path ← str args "path";
  _ ← need (negb (bool_decide (path = ""))) "path is required (e.g. 'gno.land/r/demo/' or '@demo')";
  profile ← str args "profile";
  limit ← of_res (limit_arg args);
  c ← client_for profile;
  r ← ask (EfPaths path limit) (λ tr, r_paths c tr path limit);
  paths ← of_res (plain_err "gno_packages: " r);
  mret (text_result (Budget.Wrapped is_print (GoText.join NL paths) "" "packages" path).1 []).

(** ** gno_account *)

(** [std.Coins.String] *)
Context (coins_text : Coins → string).

Definition accountHandler (args : Args) : tool Result :=
  address ← str args "address";
  _ ← need (negb (bool_decide (address = ""))) "address is required (bech32 'g1…')";
  profile ← str args "profile";
  c ← client_for profile;
  r ← ask (EfAccount address) (λ tr, r_account c tr address);
  info ← of_res (plain_err "gno_account: " r);
  let coins := if bool_decide (coins_text (InfoCoins info) = "") then "0" else coins_text (InfoCoins info) in
  let text :=
    if ChainClient.Exists info then
      "Account " +:+ address +:+ ": balance " +:+ coins +:+ ", sequence " +:+ format_int (InfoSequence info) +:+
      ", account number " +:+ format_int (InfoNumber info) +:+ "."
    else "Account " +:+ address +:+ " has no on-chain record (never funded or used)." in
  mret (text_result (Budget.Wrapped is_print text "" "account" address).1
    [("address", JStr address); ("exists", JBool (ChainClient.Exists info)); ("coins", JStr coins);
     ("sequence", JNum (format_int (InfoSequence info))); ("account_number", JNum (format_int (InfoNumber info)))]).

(** ** gno_read *)

(** [gnosrc.Outline], [gnosrc.ExtractSymbols] and [txtar.Format] *)
Context (Outline : list MemFile → string) (ExtractSymbols : list MemFile → list string → Extraction).
Context (txtar_format : list MemFile → string).

(** [chain.ReadPackageFiles] *)
Fixpoint read_package_files (c : ReadChain) (path : string) (names : list string) : tool (res string (list MemFile)) :=
  match names with
  | [] => mret (Ok [])
  | name :: names =>
      r ← ask (EfFile path name) (λ tr, r_file c tr path name);
      match r with
      | Err e => mret (Err ("read " +:+ path +:+ "/" +:+ name +:+ ": " +:+ e))
      | Ok body => rest ← read_package_files c path names; mret (files ← rest; mret (mkFile name body :: files))
      end
  end.

Definition fetchPackage (c : ReadChain) (path : string) : tool (res string (list MemFile)) :=
  l ← ask (EfListFiles path) (λ tr, r_list c tr path);
  files ← (match l with Err e => mret (Err e) | Ok names => read_package_files c path names end);
  mret (match files with
        | Err e => Err ("gno_read: " +:+ e)
        | Ok [] => Err ("gno_read: no files found at " +:+ quote is_print path +:+ " (not a deployed package?)")
        | Ok files => Ok (sort_by FileName files)
        end).

Definition availableHint (available : list string) : string :=
  if (List.length available <=? 30)%nat then GoText.join ", " available
  else GoText.join ", " (take 30 available) +:+ " (+" +:+ format_int (Z.of_nat (List.length available - 30)) +:+ " more — fetch the outline)".

Definition resource (path frag body mime : string) : Result := mkResult "" ("gno://" +:+ path +:+ frag) body mime [].

(** One file, on its own. *)
Definition readFile (c : ReadChain) (path file : string) : tool (res string string) :=
  r ← ask (EfFile path file) (λ tr, r_file c tr path file);
  mret (map_err (λ e, "gno_read: " +:+ e) r).

Definition readFullFile (c : ReadChain) (path file url : string) : tool (res string Result) :=
  r ← readFile c path file;
  mret (body ← r; mret (resource path ("/" +:+ file) (budgetBody body url Budget.ExplicitBudget).1 "text/x-gno")).

Definition readFullPackage (c : ReadChain) (path url : string) : tool (res string Result) :=
  r ← fetchPackage c path;
  mret (files ← r; mret (resource path "" (budgetBody (txtar_format files) url Budget.DefaultBudget).1 "text/plain")).

Definition readPackageOutline (c : ReadChain) (path url : string) : tool (res string Result) :=
  r ← fetchPackage c path;
  mret (files ← r; mret (resource path "#outline" (budgetBody (Outline files) url Budget.ExplicitBudget).1 "text/plain")).

Definition readFileOutline (c : ReadChain) (path file url : string) : tool (res string Result) :=
  r ← readFile c path file;
  mret (body ← r; mret (resource path ("/" +:+ file +:+ "#outline")
          (budgetBody (Outline [mkFile file body]) url Budget.ExplicitBudget).1 "text/plain")).

Definition symbol_notes (x : Extraction) : list string :=
  (if bool_decide (Missing x = []) then []
   else ["// not found: " +:+ GoText.join ", " (Missing x) +:+ " (fetch the outline for available symbols)"]) ++
  ((λ e, "// parse error: " +:+ e) <$> XErrors x).

Definition symbols_body (x : Extraction) : string :=
  if bool_decide (symbol_notes x = []) then XBody x else GoText.join NL (symbol_notes x) +:+ NL +:+ XBody x.

Definition readSymbols (c : ReadChain) (path : string) (symbols : list string) (url : string) : tool (res string Result) :=
  r ← fetchPackage c path;
  mret (files ← r;
    let x := ExtractSymbols files symbols in
    if bool_decide (Found x = []) then
      Err ("gno_read: no symbol in " +:+ path +:+ " matches " +:+ GoText.join ", " (Missing x) +:+ "; available: " +:+ availableHint (Available x))
    else mret (resource path "#symbols" (budgetBody (symbols_body x) url Budget.ExplicitBudget).1 "text/plain")).

Definition readHandler (args : Args) : tool Result :=
  path ← str args "path";
  _ ← need (negb (bool_decide (path = ""))) "path is required (e.g. gno.land/r/myorg/foo)";
  _ ← need (IsReadablePackagePath path) ("path must be a realm (gno.land/r/...) or pure package (gno.land/p/...); got " +:+ quote is_print path);
  file ← str args "file";
  symbols ← of_res (arg_err arg_text (StringSliceArg args "symbols"));
  full ← of_res (arg_err arg_text (BoolArg args "full"));
  let symbols := default [] symbols in
  let some_symbols := negb (bool_decide (symbols = [])) in
  let some_file := negb (bool_decide (file = "")) in
  _ ← need (negb (some_symbols && full)) "symbols and full are mutually exclusive — symbols already returns verbatim source";
  _ ← need (negb (some_symbols && some_file))
        "symbols and file cannot be combined: symbol names are package-scoped (a file filter would hide cross-file declarations); drop the file arg";
  profile ← str args "profile";
  c ← client_for profile;
  let url := view_url profile path "" in
  r ← (if some_symbols then readSymbols c path symbols url
       else if full && some_file then readFullFile c path file url
       else if full then readFullPackage c path url
       else if some_file then readFileOutline c path file url
       else readPackageOutline c path url);
  explained c path (map_err PlainError r).
End read.

(** ** gno_status *)

Section status.
Context (is_print : Z → bool) (arg_text : arg_error → string).
Context (resolver : string → option ReadChain) (srv : Server).
(** The faucet service's answer to [GET /limits], decoded by [decode_limits],
    and [%g] of a float64. *)
Context (get_limits : trace → string → http_answer) (decode_limits : string → res string AdvertisedLimits).
Context (show_g : float64 → string).

Definition config_fields (profile : string) (p : Profile) : list (string * json) :=
  [("profile", JStr profile); ("chain_id", JStr (ChainID p)); ("rpc_url", JStr (RPCURL p))].

Definition node_report (p : Profile) (r : res string NodeStatus) : string * list (string * json) :=
  match r with
  | Err e => (" Live status query FAILED: " +:+ e +:+ ".", [("height_error", JStr e)])
  | Ok st =>
      let dated := negb (time_is_zero (BlockTime st)) in
      let mismatch := negb (bool_decide (NodeChainID st = ChainID p)) in
      (" Node is up: latest block " +:+ format_int (NodeHeight st) +:+
       (if dated then " at " +:+ RFC3339 (BlockTime st) else "") +:+ "." +:+
       (if mismatch then " WARNING: chain-id mismatch — node reports " +:+ quote is_print (NodeChainID st) +:+
          " but profile declares " +:+ quote is_print (ChainID p) +:+ "." else ""),
       [("node_chain_id", JStr (NodeChainID st)); ("chain_id_mismatch", JBool mismatch); ("height", JNum (format_int (NodeHeight st)))] ++
       (if dated then [("block_time", JStr (RFC3339 (BlockTime st)))] else []))
  end.

Definition faucet_report (r : res string (option AdvertisedLimits)) : string * list (string * json) :=
  match r with
  | Err e => (" Faucet limits query FAILED: " +:+ e +:+ ".", [("faucet_error", JStr e)])
  | Ok None => ("", [])
  | Ok (Some lim) =>
      (" Faucet: " +:+ show_g (f64_div (f64_of_int (alGrantUgnot lim)) (f64_of_int 1000000)) +:+ " GNOT per grant, max " +:+
       format_int (alMax lim) +:+ " per address per " +:+
       show_g (f64_div (f64_of_int (alWindowSeconds lim)) (f64_of_int 3600)) +:+ "h.",
       [("faucet", JObj [("grant_ugnot", JNum (format_int (alGrantUgnot lim)));
          ("per_address", JObj [("max", JNum (format_int (alMax lim))); ("window_seconds", JNum (format_int (alWindowSeconds lim)))])])])
  end.

Definition faucet_limits (p : Profile) : tool (res string (option AdvertisedLimits)) :=
  if bool_decide (FaucetServiceURL p = "") then mret (Ok None)
  else
    answer ← ask (EfLimits (FaucetServiceURL p)) (λ tr, get_limits tr (FaucetServiceURL p));
    mret (FetchServiceLimits decode_limits p answer).

Definition statusHandler (args : Args) : tool Result :=
  profile ← str_arg arg_text args "profile";
  p ← of_res (ok_or (PlainError ("unknown profile " +:+ quote is_print profile)) (cfg srv !! profile));
  c ← client_for is_print resolver profile;
  r ← ask EfStatus (λ tr, r_status c tr);
  lim ← faucet_limits p;
  let node := node_report p r in
  let faucet := faucet_report lim in
  let text := "Profile " +:+ profile +:+ ": chain-id " +:+ ChainID p +:+ ", rpc " +:+ RPCURL p +:+ "." +:+ node.1 +:+ faucet.1 in
  mret (text_result (Budget.Wrapped is_print text "" "status" profile).1 (config_fields profile p ++ node.2 ++ faucet.2)).
End status.

(** ** gno_connect *)

Section connect.
Context (is_print : Z → bool) (arg_text : arg_error → string).
Context (get_page : trace → string → res string page).

Definition connect_command (name : string) (conn : Conn) : string :=
  "gnomcp profile add " +:+ name +:+ " --rpc " +:+ RPC conn +:+ " --chain-id " +:+ ConnChainID conn.

Definition capability_note (readOnly : bool) : string :=
  if readOnly then
    "This is a read-only chain: read tools only — no agent key, no faucet, and --master is refused. That is all an audit needs."
  else
    "For write-as-user sessions, persist the profile with --master <g1...> appended (dynamic profiles support agent-key writes only).".

Definition connect_result (name : string) (conn : Conn) : Result :=
  let cmd := connect_command name conn in
  let readOnly := negb (ChainIDWritable (ConnChainID conn)) in
  let q := quote is_print in
  text_result
    ("Discovered chain " +:+ q (ConnChainID conn) +:+ " at RPC " +:+ RPC conn +:+ "." +:+ NL +:+ NL +:+
     "To use it in this session (in-memory until restart), call gno_profile_add with name=" +:+ q name +:+
     ", rpc_url=" +:+ q (RPC conn) +:+ ", chain_id=" +:+ q (ConnChainID conn) +:+ "." +:+ NL +:+ NL +:+
     "To persist it, run:" +:+ NL +:+ NL +:+ "```" +:+ NL +:+ cmd +:+ NL +:+ "```" +:+ NL +:+ NL +:+
     "Then pass profile=" +:+ q name +:+ " to the read tools. " +:+ capability_note readOnly)
    [("rpc", JStr (RPC conn)); ("chain_id", JStr (ConnChainID conn)); ("name", JStr name); ("command", JStr cmd);
     ("read_only", JBool readOnly)].

(** The ignored error of an ill-typed name leaves it empty. *)
Definition connect_name (args : Args) (conn : Conn) : string :=
  let name := match StringArg args "name" with Ok s => s | Err _ => "" end in
  if bool_decide (name = "") then ConnChainID conn else name.

Definition connectHandler (args : Args) : tool Result :=
  url ← str_arg arg_text args "gnoweb_url";
  _ ← need (negb (bool_decide (url = ""))) "gnoweb_url is required";
  r ← ask (EfDiscover url) (λ tr, Discover is_print (get_page tr) url);
  conn ← of_res (plain_err "gno_connect: " r);
  _ ← of_res (check (ChainIDValid (ConnChainID conn)) (ToolError "chain_id_malformed"
        ("discovered chain-id " +:+ quote is_print (ConnChainID conn) +:+
         " is malformed (want lowercase alphanumeric with '.', '-', '_', ≤64 chars); refusing to build a profile from it")
        (extra2 "chain_id" (ConnChainID conn) "rpc" (RPC conn))));
  _ ← need (ValidRPCURL (RPC conn)) ("gno_connect: discovered RPC " +:+ quote is_print (RPC conn) +:+
        " is not a safe http(s) URL; refusing to build a paste command from it");
  let name := connect_name args conn in
  _ ← need (ValidProfileName name) ("gno_connect: profile name " +:+ quote is_print name +:+
        " must be lowercase alphanumeric with '-' or '_' (e.g. " +:+ quote is_print (ConnChainID conn) +:+ ")");
  mret (connect_result name conn).
End connect.

(** ** gno_profile_list *)

Section profile_list.
Context (srv : Server).

Definition profileStatus (p : Profile) : string :=
  if IsReadOnly p then "read-only — no agent key, faucet, or session"
  else if Sunset p then "sunset — retiring chain, still writable; prefer the current testnet for new work"
  else if IsLocal p then "local dev chain"
  else "current testnet, writable".

Definition endpoint_label (label url : string) : string :=
  if bool_decide (url = "") then "" else " · " +:+ label +:+ " " +:+ url.

Definition profile_text (name : string) (p : Profile) : string :=
  NL +:+ "- " +:+ name +:+ " — chain " +:+ ChainID p +:+ " · " +:+ profileStatus p +:+ NL +:+
  "  rpc " +:+ RPCURL p +:+ endpoint_label "gnoweb" (GnowebURL p) +:+ endpoint_label "indexer" (TxIndexerURL p) +:+
  endpoint_label "faucet-service" (FaucetServiceURL p) +:+ endpoint_label "faucet-page" (FaucetURL p) +:+ NL.

Definition profile_item (name : string) (p : Profile) : json :=
  JObj [("name", JStr name); ("chain_id", JStr (ChainID p)); ("kind", JStr (Profiles.Kind p)); ("sunset", JBool (Sunset p));
        ("rpc_url", JStr (RPCURL p)); ("gnoweb_url", JStr (GnowebURL p)); ("tx_indexer_url", JStr (TxIndexerURL p));
        ("faucet_service_url", JStr (FaucetServiceURL p)); ("faucet_url", JStr (FaucetURL p))].

(** The names in order; [sort.Strings] makes Go's map order irrelevant. *)
Definition sorted_profiles (c : Config) : list (string * Profile) := sort_by fst (map_to_list c).

Definition profileListHandler : Result :=
  let l := sorted_profiles (cfg srv) in
  text_result
    (format_int (Z.of_nat (List.length l)) +:+ " profiles loaded:" +:+ NL +:+
     String.concat "" ((λ np : string * Profile, profile_text np.1 np.2) <$> l))
    [("profiles", JArr ((λ np : string * Profile, profile_item np.1 np.2) <$> l))].
End profile_list.

(** ** Reading only *)

(** The effects of a read tool. *)
Definition is_read (ev : effect) : bool :=
  match ev with
  | EfMeta _ | EfRender _ _ | EfEval _ _ | EfPaths _ _ | EfAccount _ | EfStatus | EfListFiles _ | EfFile _ _
  | EfDiscover _ | EfLimits _ | EfIndexer _ => true
  | _ => false
  end.

(** [m] has read effects only, and what it answers satisfies [Q]. *)
Definition reads {A} (m : tool A) (Q : A → Prop) : Prop := ∀ st,
  wp m (λ st' r, (∃ evs, hist st' = hist st ++ evs ∧ Forall (λ ev, is_read ev = true) evs) ∧
                 match r with Ok a => Q a | Err _ => True end) st.

Lemma reads_ret {A} (a : A) (Q : A → Prop) : Q a → reads (mret a) Q.
Proof. intros H st. apply wp_ret. split; [|done]. exists []. by rewrite app_nil_r. Qed.

Lemma reads_of_res {A} (r : res tool_err A) (Q : A → Prop) : (∀ a, r = Ok a → Q a) → reads (of_res r) Q.
Proof. intros H st. apply wp_of_res. split; [exists []; by rewrite app_nil_r|]. destruct r; auto. Qed.

Lemma reads_ask {A} ev (f : trace → A) (Q : A → Prop) : is_read ev = true → (∀ tr, Q (f tr)) → reads (ask ev f) Q.
Proof. intros Hev H st. apply wp_ask. split; [|done]. exists [ev]. auto. Qed.

Lemma reads_bind {A B} (m : tool A) (f : A → tool B) (R : A → Prop) (Q : B → Prop) :
  reads m R → (∀ a, R a → reads (f a) Q) → reads (m ≫= f) Q.
Proof.
  intros Hm Hf st. apply wp_bind. eapply wp_mono; [apply Hm|]. intros st1 [a|e] [(evs & E1 & H1) Ha].
  - eapply wp_mono; [by apply Hf|]. intros st2 r [(evs' & E2 & H2) Hr]. split; [|done].
    exists (evs ++ evs'). rewrite E2, E1, app_assoc. split; [done|]. by apply Forall_app.
  - split; [|done]. eauto.
Qed.

Lemma reads_str arg_text args n : reads (str_arg arg_text args n) (λ s, StringArg args n = Ok s).
Proof. apply reads_of_res. intros a Ha. by apply arg_err_Ok in Ha. Qed.

Lemma reads_need b e : reads (need b e) (λ _, b = true).
Proof. apply reads_of_res. intros [] Ha. by apply check_Ok in Ha. Qed.

Lemma reads_res {A} (r : res tool_err A) : reads (of_res r) (λ a, r = Ok a).
Proof. by apply reads_of_res. Qed.

Lemma reads_answer {A} ev (f : trace → A) : is_read ev = true → reads (ask ev f) (λ _, True).
Proof. intros H. by apply reads_ask. Qed.

Lemma reads_explained {A} c path (r : res tool_err A) : reads (explained c path r) (λ a, r = Ok a).
Proof.
  destruct r as [a|e]; simpl; [by apply reads_ret|]. intros st. apply wp_on_trace.
  pose proof (Explain_keeps (r_meta c) path e (hist st)) as Hx. destruct (Explain (r_meta c) path e (hist st)) as [tr' e'].
  split; [|done]. simpl.
  destruct Hx as [[_ [-> | ->]]|(text & m & pre & extra & _ & _ & _ & -> & _)]; [exists []|exists [EfMeta path]..];
    rewrite ?app_nil_r; auto.
Qed.

(** One step through a handler that only reads. *)
Ltac reads_step :=
  lazymatch goal with
  | |- reads (str_arg _ _ _ ≫= _) _ => eapply reads_bind; [apply reads_str|let H := fresh in intros ? H; cbn beta in H]
  | |- reads (need _ _ ≫= _) _ => eapply reads_bind; [apply reads_need|let H := fresh in intros ? H; cbn beta in H]
  | |- reads (of_res _ ≫= _) _ => eapply reads_bind; [apply reads_res|let H := fresh in intros ? H; cbn beta in H]
  | |- reads (client_for _ _ _ ≫= _) _ => eapply reads_bind; [apply reads_res|let H := fresh in intros ? H; cbn beta in H]
  | |- reads (ask _ _ ≫= _) _ => eapply reads_bind; [by apply reads_answer|intros ? _]
  | |- reads (explained _ _ _ ≫= _) _ => eapply reads_bind; [apply reads_explained|let H := fresh in intros ? H; cbn beta in H]
  | |- reads (mret _) _ => apply reads_ret
  end.

(** *** What a text tool may answer *)

(** What replaces content over the budget. *)
Definition over_budget (n : Z) (url : string) : string :=
  format_int n +:+ " bytes; preview omitted. " +:+
  (if bool_decide (url = "") then "Request a smaller slice (a specific file, symbol, or path)."
   else "Request a slice (file/symbol/path), or view at " +:+ url).

(** Every string the caller passes is free of ["<"]. *)
Definition args_no_lt (args : Args) : Prop := ∀ n s, StringArg args n = Ok s → no_lt s = true.

(** One envelope, whose kind and source hold no less-than sign unless the
    caller's own strings do; or a summary that holds no chain content: a byte
    count and the tool's own words and link. *)
Definition contained (is_print : Z → bool) (args : Args) (text : string) : Prop :=
  (∃ kind source body, text = Wrap is_print body kind source ∧ no_lt kind = true ∧ (args_no_lt args → no_lt source = true)) ∨
  ∃ n url, text = over_budget n url.

Lemma wrapped_contained is_print args full url kind source limit : no_lt kind = true → (args_no_lt args → no_lt source = true) →
  contained is_print args (Budget.WrappedAt is_print full url kind source limit).1.
Proof.
  intros Hk Hs. unfold Budget.WrappedAt, Budget.Apply. destruct (Z.leb_spec (len full) limit).
  - left. by exists kind, source, full.
  - right. exists (len full), url. unfold over_budget. cbn [Budget.Truncated Budget.Summary fst]. by case_bool_decide.
Qed.

Section contained.
Context (is_print : Z → bool) (arg_text : arg_error → string) (IsRealmPath IsPPackagePath : string → bool).
Context (url_parse : string → option URL) (ParseIP : string → option IPKind).
Context (resolver : string → option ReadChain) (srv : Server) (args : Args).

Abbreviation contains h := (reads h (λ res, contained is_print args (Text res))).

Lemma render_contained : contains (renderHandler is_print arg_text IsRealmPath url_parse ParseIP resolver srv args).
Proof using Type.
  unfold renderHandler. repeat reads_step. apply wrapped_contained; [done|intros Hargs].
  match goal with |- no_lt (if ?b then _ else _) = true => destruct b end; [eapply Hargs; eassumption|].
  unfold no_lt. rewrite !str_forall_app, !andb_true_iff. split_and!; [eapply Hargs; eassumption|done|eapply Hargs; eassumption].
Qed.

Lemma eval_contained : contains (evalHandler is_print arg_text IsRealmPath IsPPackagePath resolver args).
Proof using Type. unfold evalHandler. repeat reads_step. apply wrapped_contained; [done|intros Hargs; eapply Hargs; eassumption]. Qed.

Lemma packages_contained parse_float show_json : contains (packagesHandler is_print arg_text resolver parse_float show_json args).
Proof using Type. unfold packagesHandler. repeat reads_step. apply wrapped_contained; [done|intros Hargs; eapply Hargs; eassumption]. Qed.

Lemma account_contained coins_text : contains (accountHandler is_print arg_text resolver coins_text args).
Proof using Type. unfold accountHandler. repeat reads_step. apply wrapped_contained; [done|intros Hargs; eapply Hargs; eassumption]. Qed.

Lemma status_contained get_limits decode_limits show_g :
  contains (statusHandler is_print arg_text resolver srv get_limits decode_limits show_g args).
Proof using Type.
  unfold statusHandler, faucet_limits. repeat reads_step. eapply reads_bind with (R := λ _, True).
  { case_bool_decide; repeat reads_step; done. }
  intros. repeat reads_step. apply wrapped_contained; [done|intros Hargs; eapply Hargs; eassumption].
Qed.
End contained.

(** ** gno_read *)

Section read_modes.
Context (is_print : Z → bool) (arg_text : arg_error → string) (IsRealmPath IsPPackagePath : string → bool).
Context (url_parse : string → option URL) (ParseIP : string → option IPKind).
Context (resolver : string → option ReadChain) (srv : Server).
Context (Outline : list MemFile → string) (ExtractSymbols : list MemFile → list string → Extraction).
Context (txtar_format : list MemFile → string).

(** Files read one by one after the trace [tr], each with the body the chain
    gave at that moment. *)
Definition read_from (c : ReadChain) (path : string) (tr : trace) (files : list MemFile) : Prop :=
  ∀ i f, files !! i = Some f →
    r_file c (tr ++ (EfFile path <$> (FileName <$> take i files))) path (FileName f) = Ok (Body f).

Lemma read_package_files_spec c path names st :
  wp (read_package_files c path names) (λ st' r, ∃ out, r = Ok out ∧ ∀ files, out = Ok files →
    hist st' = hist st ++ (EfFile path <$> names) ∧ FileName <$> files = names ∧ read_from c path (hist st) files) st.
Proof using Type.
  revert st. induction names as [|name names IH]; intros st; cbn [read_package_files].
  { apply wp_ret. eexists. split; [done|]. intros files [= <-]. rewrite app_nil_r. split_and!; [done..|]. by intros [|i] f [=]. }
  wp_step. wp_step. destruct (r_file c (hist st) path name) as [body|e] eqn:Ef; [|wp_step; by eexists].
  wp_step. eapply wp_mono; [apply IH|]. cbn [hist cell]. intros st' r (out & -> & H). wp_step. eexists. split; [done|].
  intros files Hfiles. destruct out as [rest|e]; [|done]. injection Hfiles as <-. destruct (H rest eq_refl) as (Hh & Hn & Hr).
  split_and!; [by rewrite Hh, <- app_assoc|cbn; by rewrite Hn|]. intros [|i] f Hf; cbn in Hf.
  - injection Hf as <-. cbn. by rewrite app_nil_r.
  - specialize (Hr i f Hf). rewrite <- app_assoc in Hr. exact Hr.
Qed.

(** The files of a package: listed, read one by one, sorted by name. *)
Definition package_read (c : ReadChain) (path : string) (tr : trace) (files : list MemFile) (evs : trace) : Prop :=
  ∃ names raw, r_list c tr path = Ok names ∧ names ≠ [] ∧ FileName <$> raw = names ∧
    read_from c path (tr ++ [EfListFiles path]) raw ∧ files = sort_by FileName raw ∧
    evs = EfListFiles path :: (EfFile path <$> names).

Lemma fetchPackage_spec c path st :
  wp (fetchPackage is_print c path) (λ st' r, ∃ out, r = Ok out ∧ ∀ files, out = Ok files →
    ∃ evs, hist st' = hist st ++ evs ∧ package_read c path (hist st) files evs) st.
Proof using Type.
  unfold fetchPackage. wp_step. wp_step. destruct (r_list c (hist st) path) as [names|e] eqn:El; cycle 1.
  { wp_step. wp_step. wp_step. by eexists. }
  wp_step. eapply wp_mono; [apply read_package_files_spec|]. cbn [hist cell]. intros st' r (out & -> & H). wp_step.
  eexists. split; [done|]. intros files Hf. destruct out as [[|f raw]|e]; simplify_eq.
  destruct (H _ eq_refl) as (Hh & Hn & Hr). exists (EfListFiles path :: (EfFile path <$> names)).
  split; [by rewrite Hh, <- app_assoc|]. exists names, (f :: raw). split_and!; try done. by intros ->.
Qed.

Lemma readFile_spec c path file st :
  wp (readFile c path file) (λ st' r, hist st' = hist st ++ [EfFile path file] ∧
    r = Ok (map_err (λ e, "gno_read: " +:+ e) (r_file c (hist st) path file))) st.
Proof using Type. unfold readFile. wp_step. wp_step. by wp_step. Qed.

(** What gno_read shows for each mode: one file's source or outline, or a
    package's source, outline or named declarations, within its budget. *)
Inductive read_shows (path file : string) (symbols : list string) (full : bool) (c : ReadChain) (url : string) (tr : trace)
    : trace → string → Prop :=
  | ShowsFile body : symbols = [] → file ≠ "" → r_file c tr path file = Ok body →
      read_shows path file symbols full c url tr [EfFile path file]
        (budgetBody (if full then body else Outline [mkFile file body]) url Budget.ExplicitBudget).1
  | ShowsPackage files evs : symbols = [] → file = "" → package_read c path tr files evs →
      read_shows path file symbols full c url tr evs
        (if full then (budgetBody (txtar_format files) url Budget.DefaultBudget).1
         else (budgetBody (Outline files) url Budget.ExplicitBudget).1)
  | ShowsSymbols files evs : symbols ≠ [] → file = "" → full = false → package_read c path tr files evs →
      Found (ExtractSymbols files symbols) ≠ [] →
      read_shows path file symbols full c url tr evs
        (budgetBody (symbols_body (ExtractSymbols files symbols)) url Budget.ExplicitBudget).1.

Abbreviation read := (readHandler is_print arg_text IsRealmPath IsPPackagePath url_parse ParseIP resolver srv Outline ExtractSymbols txtar_format).

(** A mode, run: its effects and what it shows. *)
Definition mode_ok path file symbols full c url (m : tool (res string Result)) : Prop := ∀ st,
  wp m (λ st' r, ∃ out, r = Ok out ∧ ∀ res, out = Ok res →
    ∃ evs, hist st' = hist st ++ evs ∧ read_shows path file symbols full c url (hist st) evs (ResourceBody res)) st.

Lemma file_mode path file full c url frag mime :
  file ≠ "" →
  mode_ok path file [] full c url
    (r ← readFile c path file;
     mret (body ← r; mret (resource path frag (budgetBody (if full then body else Outline [mkFile file body]) url Budget.ExplicitBudget).1 mime))).
Proof using Type.
  intros Hf st. wp_step. eapply wp_mono; [apply readFile_spec|]. intros st' r [Hh ->]. cbn [mbind res_bind]. wp_step.
  eexists. split; [done|]. intros res Hres. destruct (r_file c (hist st) path file) as [body|e] eqn:Er; [|done].
  injection Hres as <-. exists [EfFile path file]. split; [done|]. by apply ShowsFile.
Qed.

Lemma package_mode path file symbols full c url (f : list MemFile → res string Result) :
  (∀ files evs tr res, package_read c path tr files evs → f files = Ok res →
     read_shows path file symbols full c url tr evs (ResourceBody res)) →
  mode_ok path file symbols full c url (r ← fetchPackage is_print c path; mret (files ← r; f files)).
Proof using Type.
  intros Hf st. wp_step. eapply wp_mono; [apply fetchPackage_spec|]. intros st' r (out & -> & H). wp_step.
  eexists. split; [done|]. intros res Hres. destruct out as [files|e]; [|done]. destruct (H files eq_refl) as (evs & Hh & Hp).
  exists evs. split; [done|]. by apply (Hf files).
Qed.

Lemma explained_spec {A} c path (r : res tool_err A) st :
  wp (explained c path r) (λ st' r', ∀ a, r' = Ok a → r = Ok a ∧ hist st' = hist st) st.
Proof using Type.
  destruct r as [a|e]; simpl; [by apply wp_ret; intros b [= <-]|]. apply wp_on_trace.
  by destruct (Explain (r_meta c) path e (hist st)).
Qed.

Lemma dispatch_mode path file syms full c url :
  negb (negb (bool_decide (syms = [])) && full) = true →
  negb (negb (bool_decide (syms = [])) && negb (bool_decide (file = ""))) = true →
  mode_ok path file syms full c url
    (if negb (bool_decide (syms = [])) then readSymbols is_print ExtractSymbols c path syms url
     else if full && negb (bool_decide (file = "")) then readFullFile c path file url
     else if full then readFullPackage is_print txtar_format c path url
     else if negb (bool_decide (file = "")) then readFileOutline Outline c path file url
     else readPackageOutline is_print Outline c path url).
Proof using Type.
  destruct (decide (syms = [])) as [->|Hs]; cycle 1.
  { rewrite (bool_decide_eq_false_2 (syms = [])) by done. intros Hfull%negb_true_iff Hfile. simpl in *.
    rewrite negb_involutive, bool_decide_eq_true in Hfile. subst. unfold readSymbols. apply package_mode.
    intros files evs tr res Hp Hres. destruct (bool_decide (Found _ = [])) eqn:E; [done|]. injection Hres as <-.
    apply ShowsSymbols; try done. by apply bool_decide_eq_false in E. }
  intros _ _. destruct (decide (file = "")) as [->|Hf].
  - destruct full; cbn [negb andb]; rewrite ?bool_decide_eq_true_2 by done; cbn [negb andb];
      unfold readFullPackage, readPackageOutline; apply package_mode; intros files evs tr res Hp [= <-].
    + by apply (ShowsPackage path "" [] true).
    + by apply (ShowsPackage path "" [] false).
  - rewrite (bool_decide_eq_false_2 (file = "")) by done. destruct full; cbn [negb andb];
      rewrite ?(bool_decide_eq_true_2 ([] = [])) by done; cbn [negb andb].
    + by apply (file_mode path file true).
    + by apply (file_mode path file false).
Qed.

(** C17: gno_read shows what the chain holds, one mode at a time.  A result
    means the path is a package path; no symbols were asked with a file or
    with full; and the body is, whole or replaced by a size notice, that of
    exactly one mode: the one file asked for, read once; or the package's
    files, listed once and each read once, sorted by name. *)
Theorem readHandler_modes args st :
  let '(st', r) := readHandler is_print arg_text IsRealmPath IsPPackagePath url_parse ParseIP resolver srv Outline ExtractSymbols txtar_format args st in
  ∀ res, r = Ok res → ∃ path file symbols full profile c evs,
    StringArg args "path" = Ok path ∧ StringArg args "file" = Ok file ∧ StringSliceArg args "symbols" = Ok symbols ∧
    BoolArg args "full" = Ok full ∧ StringArg args "profile" = Ok profile ∧
    IsReadablePackagePath IsRealmPath IsPPackagePath path = true ∧ resolver profile = Some c ∧
    hist st' = hist st ++ evs ∧
    read_shows path file (default [] symbols) full c (view_url url_parse ParseIP srv profile path "") (hist st) evs (ResourceBody res).
Proof.
  apply wp_elim. unfold readHandler, str_arg, need, client_for.
  wp_res path Ep. wp_res u1 E1. wp_res u2 E2. wp_res file Efile. wp_res osyms Es. wp_res full Efull.
  wp_res u3 E3. wp_res u4 E4. wp_res profile Epr. wp_res c Ec.
  rewrite ok_or_Ok in Ec. rewrite check_Ok in E2, E3, E4. rewrite arg_err_Ok in *.
  set (syms := default [] osyms) in *. set (url := view_url _ _ _ _ _ _) in *.
  wp_step. eapply wp_mono with (Q := λ st' r, ∃ out, r = Ok out ∧ ∀ res, out = Ok res →
    ∃ evs, hist st' = hist st ++ evs ∧ read_shows path file syms full c url (hist st) evs (ResourceBody res)).
  - by apply dispatch_mode.
  - intros st' r (out & -> & H). eapply wp_mono; [apply explained_spec|]. intros st'' r' Hx res Hres.
    destruct (Hx res Hres) as [Ho Hh]. apply map_err_Ok in Ho. destruct (H res Ho) as (evs & Hevs & Hshow).
    exists path, file, osyms, full, profile, c, evs. rewrite Hh. by split_and!.
Qed.
End read_modes.

(** ** gno_status *)

Section status_fields.
Context (is_print : Z → bool) (show_g : float64 → string) (profile : string) (p : Profile).

Definition status_fields (r : res string NodeStatus) (lim : res string (option AdvertisedLimits)) : list (string * json) :=
  config_fields profile p ++ (node_report is_print p r).2 ++ (faucet_report show_g lim).2.

(** What the fields say of the node. *)
Definition reports_node (r : res string NodeStatus) (fields : list (string * json)) : Prop :=
  match r with
  | Err e => ("height_error", JStr e) ∈ fields ∧ (∀ v, ("height", v) ∉ fields)
  | Ok node =>
      ("height", JNum (format_int (NodeHeight node))) ∈ fields ∧
      ∃ b, ("chain_id_mismatch", JBool b) ∈ fields ∧ (b = true ↔ NodeChainID node ≠ ChainID p)
  end.

Lemma status_fields_node r lim : reports_node r (status_fields r lim).
Proof using Type.
  unfold status_fields, config_fields. destruct r as [node|e]; simpl.
  - split; [set_solver|]. exists (negb (bool_decide (NodeChainID node = ChainID p))). split; [set_solver|].
    rewrite negb_true_iff, bool_decide_eq_false. done.
  - split; [set_solver|]. intros v. destruct lim as [[l|]|e']; set_solver.
Qed.

Lemma status_fields_config r lim : config_fields profile p ⊆+ status_fields r lim.
Proof using Type. apply submseteq_inserts_r. done. Qed.

Lemma status_fields_faucet r e : ("faucet_error", JStr e) ∈ status_fields r (Err e).
Proof using Type. unfold status_fields. simpl. set_solver. Qed.
End status_fields.

(** gno_status reports what fails instead of failing.  For a profile that
    is configured and has a client, it always answers a result, whatever the
    node and the faucet answer or fail with: it asks the node once and the
    faucet service at most once; the fields always state the configuration;
    an unreachable node is reported as height_error with no height, a reachable
    one with its height and a mismatch flag that is set exactly when its
    chain-id is not the declared one; and a faucet failure is a field. *)
Theorem statusHandler_survives is_print arg_text resolver srv get_limits decode_limits show_g args st profile p c :
  StringArg args "profile" = Ok profile → cfg srv !! profile = Some p → resolver profile = Some c →
  let '(st', r) := statusHandler is_print arg_text resolver srv get_limits decode_limits show_g args st in
  ∃ res, r = Ok res ∧
    hist st' = hist st ++ EfStatus :: (if bool_decide (FaucetServiceURL p = "") then [] else [EfLimits (FaucetServiceURL p)]) ∧
    config_fields profile p ⊆+ StructuredContent res ∧
    reports_node p (r_status c (hist st)) (StructuredContent res) ∧
    (FaucetServiceURL p ≠ "" →
     ∀ e, FetchServiceLimits decode_limits p (get_limits (hist st ++ [EfStatus]) (FaucetServiceURL p)) = Err e →
     ("faucet_error", JStr e) ∈ StructuredContent res).
Proof.
  intros Ha Hp Hc. apply wp_elim. unfold statusHandler, str_arg, client_for. wp_step. wp_step. rewrite Ha. cbn [arg_err map_err].
  wp_step. wp_step. rewrite Hp. cbn [ok_or]. wp_step. wp_step. rewrite Hc. cbn [ok_or]. wp_step. wp_step. wp_step.
  unfold faucet_limits. destruct (decide (FaucetServiceURL p = "")) as [Es|Es].
  - rewrite !bool_decide_eq_true_2 by done. wp_step. wp_step. eexists. split; [done|]. cbn [StructuredContent text_result].
    fold (status_fields is_print show_g profile p (r_status c (hist st)) (Ok None)).
    split_and!; [done|apply status_fields_config|apply status_fields_node|done].
  - rewrite !(bool_decide_eq_false_2 (FaucetServiceURL p = "")) by done. do 4 wp_step. eexists. split; [done|].
    cbn [StructuredContent text_result].
    set (lim := FetchServiceLimits _ _ _). fold (status_fields is_print show_g profile p (r_status c (hist st)) lim).
    split_and!; [by rewrite <- app_assoc|apply status_fields_config|apply status_fields_node|].
    intros _ e ->. apply status_fields_faucet.
Qed.

(** ** gno_profile_list *)

(** The list is the configuration: each profile once, in name order. *)
Lemma profileListHandler_complete srv : ∃ l,
  StructuredContent (profileListHandler srv) = [("profiles", JArr ((λ np : string * Profile, profile_item np.1 np.2) <$> l))] ∧
  StronglySorted (by_key fst) l ∧ NoDup l.*1 ∧ ∀ n p, (n, p) ∈ l ↔ cfg srv !! n = Some p.
Proof.
  exists (sorted_profiles (cfg srv)). unfold sorted_profiles. split_and!; [done|apply sort_by_sorted| |].
  - rewrite (fmap_Permutation fst _ _ (sort_by_perm fst _)). apply NoDup_fst_map_to_list.
  - intros n p. rewrite elem_of_sort_by. apply elem_of_map_to_list.
Qed.

(** ** Runs *)

Definition toy_read_chain : ReadChain := mkReadChain
  (λ _ _ _, Ok "the page") (λ _ _ _, Ok "(42 int)") (λ _ _ _, Ok ["gno.land/r/demo/a"]) (λ _ _, Ok (mkInfo [] 3 7 true))
  (λ _, Ok (mkNode "test5" 12 (63844847999 * Second))) (λ _ _, Ok ["b.gno"; "a.gno"]) (λ _ _ f, Ok ("package " +:+ f))
  (λ _ _, Ok (mkMeta "live" "" false)).
Definition toy_read_server : Server := NewServer {["p" := endpoint "https://rpc.test5.gno.land" "test5"]} "".
Definition toy_st : St := mkSt [] (mkEntry "" "" "" "" "").

Definition toy_render (path : string) : res tool_err Result :=
  (renderHandler (λ _, true) (λ _, "bad argument") (λ _, true) (λ _, None) (λ _, None) (λ _, Some toy_read_chain) toy_read_server
    {["realm" := JStr "gno.land/r/x"; "path" := JStr path; "profile" := JStr "p"]} toy_st).2.

(** The source attribute quotes the caller's path without neutralizing it, so a
    tag in the path is a tag of the text: here a closing tag before the content. *)
Example source_not_neutralized :
  map_err (λ _, tt) (tags ∘ Text <$> toy_render "</untrusted_content>") = Ok [0; 54; 86]%nat.
Proof. vm_compute. reflexivity. Qed.

Definition toy_read (args : Args) : St * res tool_err Result :=
  readHandler (λ _, true) (λ _, "bad argument") (λ _, true) (λ _, true) (λ _, None) (λ _, None) (λ _, Some toy_read_chain) toy_read_server
    (λ _, "outline") (λ _ syms, mkExtraction "body" syms [] [] []) (λ files, String.concat "," (FileName <$> files)) args toy_st.

Lemma readHandler_modes_witness :
  let args : Args := {["path" := JStr "gno.land/r/x"; "full" := JBool true; "profile" := JStr "p"]} in
  (toy_read args).2 = Ok (resource "gno.land/r/x" "" "a.gno,b.gno" "text/plain") ∧
  ∃ file syms full profile c evs, hist (toy_read args).1 = hist toy_st ++ evs ∧
    read_shows (λ _, "outline") (λ _ syms, mkExtraction "body" syms [] [] []) (λ files, String.concat "," (FileName <$> files))
      "gno.land/r/x" file syms full c (view_url (λ _, None) (λ _, None) toy_read_server profile "gno.land/r/x" "") (hist toy_st) evs "a.gno,b.gno".
Proof.
  intros args.
  assert (Hr : (toy_read args).2 = Ok (resource "gno.land/r/x" "" "a.gno,b.gno" "text/plain")) by (vm_compute; reflexivity).
  split; [exact Hr|].
  pose proof (readHandler_modes (λ _, true) (λ _, "bad argument") (λ _, true) (λ _, true) (λ _, None) (λ _, None)
    (λ _, Some toy_read_chain) toy_read_server (λ _, "outline") (λ _ syms, mkExtraction "body" syms [] [] [])
    (λ files, String.concat "," (FileName <$> files)) args toy_st) as H.
  fold (toy_read args) in H. destruct (toy_read args) as [st' r]. simpl in Hr.
  destruct (H _ Hr) as (path & file & syms & full & profile & c & evs & Hp & _ & _ & _ & _ & _ & _ & Hh & Hs).
  injection Hp as <-. exists file, (default [] syms), full, profile, c, evs. split; [exact Hh|exact Hs].
Defined.

Lemma statusHandler_survives_witness :
  let get_limits := λ (_ : trace) (_ : string), TimedOut "timeout" in
  let '(st', r) := statusHandler (λ _, true) (λ _, "bad argument") (λ _, Some toy_read_chain) toy_read_server get_limits
    (λ _, Err "bad") (λ _, "") {["profile" := JStr "p"]} toy_st in
  ∃ res, r = Ok res ∧ hist st' = [EfStatus] ∧ ∃ b, ("chain_id_mismatch", JBool b) ∈ StructuredContent res.
Proof.
  intros get_limits.
  pose proof (statusHandler_survives (λ _, true) (λ _, "bad argument") (λ _, Some toy_read_chain) toy_read_server get_limits
    (λ _, Err "bad") (λ _, "") {["profile" := JStr "p"]} toy_st "p" (endpoint "https://rpc.test5.gno.land" "test5") toy_read_chain
    eq_refl eq_refl eq_refl) as H.
  destruct (statusHandler _ _ _ _ _ _ _ _ _) as [st' r]. destruct H as (res & Hr & Hh & _ & [_ (b & Hb & _)] & _).
  exists res. split; [exact Hr|]. split; [exact Hh|]. exists b. exact Hb.
Defined.
