(* ===== verification/GnoSrc.v ===== *)
(** * Structural views of Gno source ([internal/gnosrc])

    Outlines, symbol extraction and dependency headers over the syntax tree
    [go/parser] answers, which is a parameter together with [go/printer] and
    [txtar.Format].  A tree keeps what the code looks at: identifiers with the
    object the parser resolved them to, selectors, calls, composite literals,
    and the children of every other node. *)
From S2P Require Import Prelude GoText GoPath Untrusted Secret ChainTypes ChainClient ServerCore Handlers Parked AddPkg KeyLife ReadTools.
From stdpp Require Import prelude strings gmap list sorting.
From Stdlib Require Import ZArith Lia Ascii String.
Local Open Scope Z_scope.

(** ** Syntax trees *)

(** [ast.Ident]; its [Obj] is a number within the file. *)
Record ident := mkIdent { IName : string; Obj : option nat }.

Inductive node :=
  | NIdent (i : ident)
  | NSelector (x : node) (sel : string)
  | NCall (fn : node) (args : list node)
  | NComposite (type : option node) (elts : list node)
  | NKeyValue (key value : node)
  | NStar (x : node)
  | NOther (kids : list node).

(** A comment group: its [Text()], and the offset it starts at. *)
Record comment := mkComment { Text : string; CPos : nat }.

Record field := mkField { FieldNames : list ident; FieldType : node }.

Record FuncDecl := mkFunc { FDoc : option comment; FRecv : option (list field); FName : ident; FType : node; FBody : option node }.

Inductive token := IMPORT | CONST | TYPE | VAR.

Record TypeSpec := mkType { TDoc : option comment; TComment : option comment; TName : ident; TType : node }.
Record ValueSpec := mkValue { VDoc : option comment; VComment : option comment; VNames : list ident; VType : option node; VValues : list node }.
Inductive spec := SImport | SType (t : TypeSpec) | SValue (v : ValueSpec).

Record GenDecl := mkGen { GDoc : option comment; Tok : token; Specs : list spec }.

(** A declaration and the offsets of its first byte and after its last. *)
Inductive decl_kind := DFunc (f : FuncDecl) | DGen (g : GenDecl).
Record decl := mkDeclaration { Kind_ : decl_kind; Pos : nat; End_ : nat }.

Record import_spec := mkImport { ImpName : option ident; ImpPath : string }. (* the quoted literal *)
Record ast_file := mkAst { PkgDoc : option comment; PkgName : string; Decls : list decl; Imports : list import_spec }.

(** What [go/printer] is asked to print. *)
Inductive printable := PFunc (f : FuncDecl) | PGen (g : GenDecl).

(** ** Parsing and printing *)

Record parsedFile := mkParsed { PFName : string; PFBody : string; IsGno : bool; Syn : option ast_file; ParseErr : option string }.

Section gnosrc.
Context (ParseFile : string → string → res string ast_file). (* [parser.ParseFile], comments kept *)
Context (Fprint : printable → res string string). (* [printer.Fprint] *)
Context (txtar_format : list MemFile → string).
Context (is_upper : Z → bool). (* [unicode.IsUpper] *)

Definition parse_one (f : MemFile) : parsedFile :=
  let gno := has_suffix (FileName f) ".gno" in
  if gno then
    match ParseFile (FileName f) (Body f) with
    | Ok syn => mkParsed (FileName f) (Body f) gno (Some syn) None
    | Err e => mkParsed (FileName f) (Body f) gno None (Some e)
    end
  else mkParsed (FileName f) (Body f) gno None None.
Definition parseAll (files : list MemFile) : list parsedFile := parse_one <$> files.

Definition printNode (n : printable) : string :=
  match Fprint n with Ok s => s | Err e => "(unprintable: " +:+ e +:+ ")" end.

Definition doc_line (line : string) : string := if bool_decide (line = "") then "//" +:+ NL else "// " +:+ line +:+ NL.
Definition renderDoc (d : option comment) : string :=
  match d with
  | None => ""
  | Some d => String.concat "" (doc_line <$> split_byte "010" (trim_newlines (Text d)))
  end.

Definition elideValues (tok : token) (v : ValueSpec) : GenDecl :=
  mkGen None tok [SValue (mkValue None None (VNames v) (VType v)
    (match VValues v with [] => [] | _ => [NIdent (mkIdent "…" None)] end))].

Definition signatureOf (f : FuncDecl) : FuncDecl := mkFunc None (FRecv f) (FName f) (FType f) None.

(** [ast.IsExported] *)
Definition IsExported (name : string) : bool := match decode_rune name with Some (r, _) => is_upper r | None => false end.

(** ** Outline *)

(** [strings.Trim] of the quotes. *)
Definition trim_quotes (s : string) : string :=
  let s := snd (span (is_char DQ) s) in str_rev (snd (span (is_char DQ) (str_rev s))).

Definition importPaths (f : ast_file) : list string := (λ i, trim_quotes (ImpPath i)) <$> Imports f.

Definition specDoc (d : GenDecl) (doc : option comment) : string :=
  match doc with Some _ => renderDoc doc | None => renderDoc (GDoc d) end.

(** The doc, the rendering and whether it is exported. *)
Definition outlineSpec (d : GenDecl) (s : spec) : string * string * bool :=
  match s with
  | SType t =>
      (specDoc d (TDoc t), printNode (PGen (mkGen None TYPE [SType (mkType None None (TName t) (TType t))])), IsExported (IName (TName t)))
  | SValue v =>
      (specDoc d (VDoc v), printNode (PGen (elideValues (Tok d) v)), existsb (λ n, IsExported (IName n)) (VNames v))
  | SImport => ("", "", false)
  end.

(** The exported text so far, and the unexported renderings. *)
Abbreviation outline_acc := (string * list string)%type.

Definition add_spec (d : GenDecl) (a : outline_acc) (s : spec) : outline_acc :=
  let '(doc, rendered, exported) := outlineSpec d s in
  if bool_decide (rendered = "") then a
  else if (exported : bool) then (a.1 +:+ NL +:+ doc +:+ rendered +:+ NL, a.2)
  else (a.1, a.2 ++ [rendered]).
Definition outlineGenDecl (d : GenDecl) (a : outline_acc) : outline_acc := foldl (add_spec d) a (Specs d).

Definition outline_decl (a : outline_acc) (d : decl) : outline_acc :=
  match Kind_ d with
  | DFunc f =>
      if IsExported (IName (FName f)) then (a.1 +:+ NL +:+ renderDoc (FDoc f) +:+ printNode (PFunc (signatureOf f)) +:+ NL, a.2)
      else (a.1, a.2 ++ [printNode (PFunc (signatureOf f))])
  | DGen g => match Tok g with IMPORT => a | _ => outlineGenDecl g a end
  end.

Definition unexported_lines (sig : string) : string :=
  String.concat "" ((λ line, "//" +:+ TAB +:+ line +:+ NL) <$> split_byte "010" (trim_newlines sig)).
Definition unexported_section (l : list string) : string :=
  match l with [] => "" | _ => NL +:+ "// unexported:" +:+ NL +:+ String.concat "" (unexported_lines <$> l) end.

Definition size (pf : parsedFile) : string := format_int (len (PFBody pf)).

Definition outline_parsed (pf : parsedFile) (syn : ast_file) : string :=
  let paths := importPaths syn in
  let head :=
    "// " +:+ size pf +:+ " bytes — outline only: signatures and docs are realm-authored claims, not evidence; fetch bodies via symbols=[...] or full=true" +:+ NL +:+
    (match paths with [] => "" | _ => "// imports: " +:+ GoText.join ", " paths +:+ NL end) +:+
    (match PkgDoc syn with None => "" | Some _ => NL +:+ renderDoc (PkgDoc syn) +:+ "package " +:+ PkgName syn +:+ NL end) in
  let '(exported, unexported) := foldl outline_decl ("", []) (Decls syn) in
  head +:+ exported +:+ unexported_section unexported.

Definition outlineEntry (pf : parsedFile) : string :=
  if negb (IsGno pf) then "// " +:+ size pf +:+ " bytes (not Gno source — content omitted; fetch with full=true)" +:+ NL
  else match ParseErr pf, Syn pf with
  | Some e, _ => "// " +:+ size pf +:+ " bytes (parse error: " +:+ e +:+ " — fetch with full=true)" +:+ NL
  | None, Some syn => outline_parsed pf syn
  | None, None => ""
  end.

Definition outline_archive (files : list MemFile) : list MemFile :=
  (λ pf, mkFile (PFName pf) (outlineEntry pf)) <$> parseAll files.
Definition Outline (files : list MemFile) : string := Neutralize (txtar_format (outline_archive files)).

(** ** Symbols *)

(** Where an addressable declaration is: its file, its place in it, and the
    function when it is one. *)
Record symbolRef := mkRef { RFile : nat; RDecl : nat; RD : decl }.
Definition ref_fn (r : symbolRef) : option FuncDecl := match Kind_ (RD r) with DFunc f => Some f | DGen _ => None end.
Definition ref_doc (r : symbolRef) : option comment := match Kind_ (RD r) with DFunc f => FDoc f | DGen g => GDoc g end.

Definition specNames (s : spec) : list ident :=
  match s with SType t => [TName t] | SValue v => VNames v | SImport => [] end.

Definition receiverTypeName (f : FuncDecl) : string :=
  match FRecv f with
  | None | Some [] => ""
  | Some (fd :: _) =>
      match (match FieldType fd with NStar x => x | t => t end) with NIdent i => IName i | _ => "" end
  end.

(** The names a declaration is addressed by. *)
Definition addressed (d : decl) : list string :=
  match Kind_ d with
  | DFunc f => let recv := receiverTypeName f in
      [if bool_decide (recv = "") then IName (FName f) else recv +:+ "." +:+ IName (FName f)]
  | DGen g => match Tok g with IMPORT => [] | _ => IName <$> (Specs g ≫= specNames) end
  end.

(** Every declaration with its address, in source order. *)
Definition decls_of (i : nat) (pf : parsedFile) : list symbolRef :=
  match Syn pf with None => [] | Some syn => imap (λ j d, mkRef i j d) (Decls syn) end.
Definition all_refs (parsed : list parsedFile) : list symbolRef := mjoin (imap decls_of parsed).

Definition index_ref (t : gmap string symbolRef) (r : symbolRef) : gmap string symbolRef :=
  foldl (λ t n, <[n := r]> t) t (addressed (RD r)).
Definition symbolTable (parsed : list parsedFile) : gmap string symbolRef := foldl index_ref ∅ (all_refs parsed).

(** *** Package scope *)

Record packageNames := mkPkg { names : gset string; topObjs : gset (nat * nat) }.

Definition add_ident (file : nat) (p : packageNames) (i : ident) : packageNames :=
  mkPkg ({[IName i]} ∪ names p) (match Obj i with Some o => {[(file, o)]} ∪ topObjs p | None => topObjs p end).

(** The identifiers a declaration puts in the package's scope. *)
Definition scope_idents (d : decl) : list ident :=
  match Kind_ d with
  | DFunc f => match FRecv f with Some _ => [] | None => [FName f] end
  | DGen g => match Tok g with IMPORT => [] | _ => Specs g ≫= specNames end
  end.
Definition packageScope (parsed : list parsedFile) : packageNames :=
  foldl (λ p r, foldl (add_ident (RFile r)) p (scope_idents (RD r))) (mkPkg ∅ ∅) (all_refs parsed).

Definition isPackageRef (p : packageNames) (file : nat) (i : ident) : bool :=
  if negb (bool_decide (IName i ∈ names p)) then false
  else match Obj i with Some o => bool_decide ((file, o) ∈ topObjs p) | None => true end.

(** *** Dependencies *)

(** The last path segment. *)
Definition last_segment (path : string) : string := str_rev (fst (span (λ a, negb (Ascii.eqb a "/")) (str_rev path))).
Definition add_import (m : gmap string string) (i : import_spec) : gmap string string :=
  let path := trim_quotes (ImpPath i) in
  let local := match ImpName i with Some n => IName n | None => last_segment path end in
  if bool_decide (local = ".") || bool_decide (local = "_") then m else <[local := path]> m.
Definition importLocalNames (f : ast_file) : gmap string string := foldl add_import ∅ (Imports f).

Definition importQualifier (locals : gmap string string) (x : node) : option string :=
  match x with NIdent (mkIdent n None) => locals !! n | _ => None end.

(** What a walk has met. *)
Record facts := mkFacts { FDeps : gset string; FImports : gset string; FUnresolved : nat }.
Definition no_facts : facts := mkFacts ∅ ∅ 0.
Definition both (a b : facts) : facts := mkFacts (FDeps a ∪ FDeps b) (FImports a ∪ FImports b) (FUnresolved a + FUnresolved b).

Section walk.
Context (locals : gmap string string) (pkg : packageNames) (file : nat) (recvType : string).

Definition unresolved_call (fn : node) : bool :=
  match fn with NSelector x _ => bool_decide (importQualifier locals x = None) | _ => false end.

(** The visitor of [collectDeps] under [ast.Inspect]. *)
Fixpoint visit (n : node) : facts :=
  match n with
  | NSelector x _ =>
      match importQualifier locals x with
      | Some path => mkFacts ∅ {[path]} 0
      | None => visit x
      end
  | NCall fn args =>
      both (mkFacts ∅ ∅ (if unresolved_call fn then 1 else 0)) (both (visit fn) (foldr (λ a f, both (visit a) f) no_facts args))
  | NComposite type elts =>
      both (match type with Some t => visit t | None => no_facts end)
        (foldr (λ e f, both (match e with NKeyValue (NIdent _) v => visit v | _ => visit e end) f) no_facts elts)
  | NIdent i =>
      if negb (bool_decide (IName i = recvType)) && isPackageRef pkg file i then mkFacts {[IName i]} ∅ 0 else no_facts
  | NKeyValue k v => both (visit k) (visit v)
  | NStar x => visit x
  | NOther kids => foldr (λ a f, both (visit a) f) no_facts kids
  end.
End walk.

(** The children of a receiver list. *)
Definition field_nodes (f : field) : list node := (NIdent <$> FieldNames f) ++ [FieldType f].
Definition fields_node (l : list field) : node := NOther (l ≫= field_nodes).

Definition walked (f : FuncDecl) : node :=
  NOther (match FRecv f with Some l => [fields_node l] | None => [] end ++ [FType f] ++ match FBody f with Some b => [b] | None => [] end).

Definition sorted_set (s : gset string) : list string := sort_by id (elements s).

Definition collectDeps (fn : FuncDecl) (syn : ast_file) (file : nat) (pkg : packageNames) : list string * list string * nat :=
  let f := visit (importLocalNames syn) pkg file (receiverTypeName fn) (walked fn) in
  (sorted_set (FDeps f), sorted_set (FImports f), FUnresolved f).

Definition depHeader (fn : FuncDecl) (syn : ast_file) (file : nat) (pkg : packageNames) : string :=
  let '(deps, imports, unresolved) := collectDeps fn syn file pkg in
  (if negb (bool_decide (deps = [])) || (0 <? unresolved)%nat then
     "// deps: " +:+ GoText.join ", " deps +:+
     (if (0 <? unresolved)%nat then
        (if negb (bool_decide (deps = [])) then " " else "") +:+
        "(+" +:+ format_int (Z.of_nat unresolved) +:+ " unresolved method call(s) — dep list incomplete; read the full file for the complete picture)"
      else "") +:+ NL
   else "") +:+
  (if negb (bool_decide (imports = [])) then "// imports: " +:+ GoText.join ", " imports +:+ NL else "").

(** *** Extraction *)

(** A declaration with its doc, byte for byte. *)
Definition verbatim (body : string) (r : symbolRef) : string :=
  let from := match ref_doc r with Some c => CPos c | None => Pos (RD r) end in
  str_take (End_ (RD r) - from) (str_drop from body).

Definition render_ref (pkg : packageNames) (pf : parsedFile) (r : symbolRef) : string :=
  (match ref_fn r, Syn pf with Some fn, Some syn => depHeader fn syn (RFile r) pkg | _, _ => "" end) +:+ verbatim (PFBody pf) r +:+ NL.
Definition renderRefs (pkg : packageNames) (pf : parsedFile) (refs : list symbolRef) : string := GoText.join NL (render_ref pkg pf <$> refs).

(** The loop over the requested names: the names and declarations seen, what
    was found and missed, and the declarations to emit. *)
Record picked := mkPicked {
  seenName : gset string; seenDecl : gset (nat * nat); PFound : list string; PMissing : list string; Blocks : list symbolRef;
}.
Definition ref_id (r : symbolRef) : nat * nat := (RFile r, RDecl r).
Definition pick (table : gmap string symbolRef) (p : picked) (name : string) : picked :=
  if bool_decide (name ∈ seenName p) then p
  else
    let seen := {[name]} ∪ seenName p in
    match table !! name with
    | None => mkPicked seen (seenDecl p) (PFound p) (PMissing p ++ [name]) (Blocks p)
    | Some r =>
        if bool_decide (ref_id r ∈ seenDecl p) then mkPicked seen (seenDecl p) (PFound p ++ [name]) (PMissing p) (Blocks p)
        else mkPicked seen ({[ref_id r]} ∪ seenDecl p) (PFound p ++ [name]) (PMissing p) (Blocks p ++ [r])
    end.
Definition pick_all (table : gmap string symbolRef) (ns : list string) : picked := foldl (pick table) (mkPicked ∅ ∅ [] [] []) ns.

(** [slices.SortFunc] by position. *)
Definition by_pos : relation symbolRef := λ a b, (Pos (RD a) ≤ Pos (RD b))%nat.
#[local] Instance by_pos_dec a b : Decision (by_pos a b).
Proof. unfold by_pos. apply _. Defined.
Definition file_refs (blocks : list symbolRef) (i : nat) : list symbolRef := merge_sort by_pos (filter (λ r, RFile r = i) blocks).

Definition extract_archive (parsed : list parsedFile) (blocks : list symbolRef) : list MemFile :=
  mjoin (imap (λ i pf, match file_refs blocks i with
                       | [] => []
                       | refs => [mkFile (PFName pf) (renderRefs (packageScope parsed) pf refs)]
                       end) parsed).

Definition ExtractSymbols (files : list MemFile) (ns : list string) : Extraction :=
  let parsed := parseAll files in
  let table := symbolTable parsed in
  let p := pick_all table ns in
  let ar := extract_archive parsed (Blocks p) in
  mkExtraction
    (match ar with [] => "" | _ => txtar_format ar end)
    (PFound p) (PMissing p) (sort_by id (map_to_list table).*1)
    (omap (λ pf, (λ e, PFName pf +:+ ": " +:+ e) <$> ParseErr pf) parsed).
End gnosrc.

(** ** The documented reading of a tree

    What a dependency header should tell, from the declarations and imports
    themselves: which subtrees are read, and what each of them references. *)

(** Some declaration of the package, of [file] when given, puts an identifier
    that satisfies [P] in the package's scope. *)
Definition declares (parsed : list parsedFile) (file : option nat) (P : ident → Prop) : Prop :=
  ∃ r j, r ∈ all_refs parsed ∧ from_option (λ f, RFile r = f) True file ∧ j ∈ scope_idents (RD r) ∧ P j.

(** An identifier stands for a package-level name: some file declares it, and
    if the parser bound it within its own file, to a top-level object. *)
Definition package_ref (parsed : list parsedFile) (file : nat) (i : ident) : Prop :=
  declares parsed None (λ j, IName j = IName i) ∧
  ∀ o, Obj i = Some o → declares parsed (Some file) (λ j, Obj j = Some o).

(** The local name of an import: its alias, or the last segment of its path. *)
Definition local_name (i : import_spec) (n : string) : Prop :=
  match ImpName i with
  | Some a => IName a = n
  | None => no_slash n = true ∧ (trim_quotes (ImpPath i) = n ∨ ∃ dir, trim_quotes (ImpPath i) = dir +:+ "/" +:+ n)
  end.
(** The last import of that name gives it its path; [.] and [_] name nothing. *)
Definition imported_as (l : list import_spec) (n path : string) : Prop :=
  n ≠ "." ∧ n ≠ "_" ∧ ∃ pre i post, l = pre ++ i :: post ∧ local_name i n ∧ trim_quotes (ImpPath i) = path ∧
    Forall (λ j, ¬ local_name j n) post.
Definition qualifies (syn : ast_file) (x : node) (path : string) : Prop :=
  ∃ n, x = NIdent (mkIdent n None) ∧ imported_as (Imports syn) n path.

(** An element whose key is an identifier: only its value is read. *)
Definition counted (e : node) : node := match e with NKeyValue (NIdent _) v => v | _ => e end.

Section reading.
Context (syn : ast_file).

(** The node read at a position: every child, but for the root of a selector
    that names an import, and for identifier keys of a literal. *)
Inductive reads_at : node → list nat → node → Prop :=
  | at_root n : reads_at n [] n
  | at_selector x s p m : (∀ path, ¬ qualifies syn x path) → reads_at x p m → reads_at (NSelector x s) (0%nat :: p) m
  | at_callee fn args p m : reads_at fn p m → reads_at (NCall fn args) (0%nat :: p) m
  | at_arg fn args i a p m : args !! i = Some a → reads_at a p m → reads_at (NCall fn args) (S i :: p) m
  | at_type t elts p m : reads_at t p m → reads_at (NComposite (Some t) elts) (0%nat :: p) m
  | at_elt t elts i e p m : elts !! i = Some e → reads_at (counted e) p m → reads_at (NComposite t elts) (S i :: p) m
  | at_key k v p m : reads_at k p m → reads_at (NKeyValue k v) (0%nat :: p) m
  | at_value k v p m : reads_at v p m → reads_at (NKeyValue k v) (1%nat :: p) m
  | at_star x p m : reads_at x p m → reads_at (NStar x) (0%nat :: p) m
  | at_kid kids i a p m : kids !! i = Some a → reads_at a p m → reads_at (NOther kids) (i :: p) m.

Context (parsed : list parsedFile) (file : nat) (recvType : string).

(** A package name, an import, and a method call: a call whose callee is
    written as a selector, with a root that names no import. *)
Definition is_dep (m : node) (d : string) : Prop := ∃ i, m = NIdent i ∧ IName i = d ∧ d ≠ recvType ∧ package_ref parsed file i.
Definition is_import (m : node) (path : string) : Prop := ∃ x s, m = NSelector x s ∧ qualifies syn x path.
Definition is_method_call (m : node) : Prop := ∃ x s args, m = NCall (NSelector x s) args ∧ ∀ path, ¬ qualifies syn x path.
End reading.

(** ** What a tree references *)

Inductive item := Dep (name : string) | Imp (path : string) | MethodCall.

(** An induction principle that reaches the children. *)
Section node_induction.
Context (P : node → Prop).
Context (Hident : ∀ i, P (NIdent i)) (Hsel : ∀ x s, P x → P (NSelector x s)).
Context (Hcall : ∀ fn args, P fn → Forall P args → P (NCall fn args)).
Context (Hlit : ∀ t elts, from_option P True t → Forall P elts → P (NComposite t elts)).
Context (Hkv : ∀ k v, P k → P v → P (NKeyValue k v)) (Hstar : ∀ x, P x → P (NStar x)).
Context (Hother : ∀ kids, Forall P kids → P (NOther kids)).

Fixpoint node_nested_ind (n : node) : P n :=
  let all := fix all l : Forall P l := match l with [] => Forall_nil_2 _ | x :: l => Forall_cons_2 _ _ _ (node_nested_ind x) (all l) end in
  match n with
  | NIdent i => Hident i
  | NSelector x s => Hsel x s (node_nested_ind x)
  | NCall fn args => Hcall fn args (node_nested_ind fn) (all args)
  | NComposite t elts => Hlit t elts (match t return from_option P True t with Some x => node_nested_ind x | None => I end) (all elts)
  | NKeyValue k v => Hkv k v (node_nested_ind k) (node_nested_ind v)
  | NStar x => Hstar x (node_nested_ind x)
  | NOther kids => Hother kids (all kids)
  end.
End node_induction.

Section references.
Context (locals : gmap string string) (pkg : packageNames) (file : nat) (recvType : string).

(** The references in a tree, as the documentation of [collectDeps] tells them. *)
Inductive mentions : node → item → Prop :=
  | m_ident i : IName i ≠ recvType → isPackageRef pkg file i = true → mentions (NIdent i) (Dep (IName i))
  | m_import x s path : importQualifier locals x = Some path → mentions (NSelector x s) (Imp path)
  | m_root x s it : importQualifier locals x = None → mentions x it → mentions (NSelector x s) it
  | m_method x s args : importQualifier locals x = None → mentions (NCall (NSelector x s) args) MethodCall
  | m_fn fn args it : mentions fn it → mentions (NCall fn args) it
  | m_arg fn args a it : a ∈ args → mentions a it → mentions (NCall fn args) it
  | m_type t elts it : mentions t it → mentions (NComposite (Some t) elts) it
  | m_elt t elts e it : e ∈ elts → mentions (counted e) it → mentions (NComposite t elts) it
  | m_key k v it : mentions k it → mentions (NKeyValue k v) it
  | m_value k v it : mentions v it → mentions (NKeyValue k v) it
  | m_star x it : mentions x it → mentions (NStar x) it
  | m_kid kids a it : a ∈ kids → mentions a it → mentions (NOther kids) it.

Definition has (f : facts) (it : item) : Prop :=
  match it with Dep d => d ∈ FDeps f | Imp p => p ∈ FImports f | MethodCall => (0 < FUnresolved f)%nat end.

Lemma has_both a b it : has (both a b) it ↔ has a it ∨ has b it.
Proof using Type. destruct it; cbn; [apply elem_of_union..|lia]. Qed.
Lemma has_none it : ¬ has no_facts it.
Proof using Type. destruct it; cbn; [apply not_elem_of_empty..|lia]. Qed.
Lemma has_all {A} (g : A → facts) l it : has (foldr (λ a f, both (g a) f) no_facts l) it ↔ ∃ a, a ∈ l ∧ has (g a) it.
Proof using Type.
  induction l as [|a l IH]; cbn [foldr].
  - split; [by intros H%has_none|]. intros (a & Ha & _). by apply not_elem_of_nil in Ha.
  - rewrite has_both, IH. setoid_rewrite elem_of_cons. naive_solver.
Qed.

Abbreviation visit := (GnoSrc.visit locals pkg file recvType).

Lemma visit_counted e : (match e with NKeyValue (NIdent _) v => visit v | _ => visit e end) = visit (counted e).
Proof using Type. by destruct e as [| | | |[] ?| |]. Qed.

Definition walks_right (n : node) : Prop := ∀ it, has (visit n) it ↔ mentions n it.

Lemma ident_right i : walks_right (NIdent i).
Proof using Type.
  intros it. cbn [GnoSrc.visit]. destruct (negb _ && _) eqn:E.
  - apply andb_true_iff in E as [E1 E2]. apply negb_true_iff, bool_decide_eq_false_1 in E1. split.
    + destruct it; cbn; [intros ->%elem_of_singleton; by constructor|by intros ?%not_elem_of_empty|lia].
    + inversion 1; subst. cbn. by apply elem_of_singleton.
  - split; [by intros ?%has_none|]. inversion 1; subst. rewrite bool_decide_eq_false_2 in E by done. cbn in E. congruence.
Qed.

Lemma selector_right x s : walks_right x → walks_right (NSelector x s).
Proof using Type.
  intros IH it. cbn [GnoSrc.visit]. destruct (importQualifier locals x) as [path|] eqn:E.
  - split; [|inversion 1; subst; [|congruence]; cbn; set_solver].
    destruct it; cbn; [by intros ?%not_elem_of_empty|intros ->%elem_of_singleton; by constructor|lia].
  - rewrite (IH it). split; [by apply m_root|]. inversion 1; subst; [congruence|done].
Qed.

Lemma call_right fn args : walks_right fn → (∀ a, a ∈ args → walks_right a) → walks_right (NCall fn args).
Proof using Type.
  intros IHf IHa it. cbn [GnoSrc.visit]. rewrite !has_both, (IHf it), has_all. split.
  - intros [H|[H|(a & Ha & H)]]; [|by apply m_fn|].
    + destruct (unresolved_call locals fn) eqn:E; [|by apply has_none in H].
      destruct it; cbn in H; [by apply not_elem_of_empty in H..|]. destruct fn; try done. constructor. cbn in E. b2p. done.
    + apply IHa in H; [|done]. by eapply m_arg.
  - inversion 1; subst; [left; cbn; rewrite bool_decide_eq_true_2 by done; lia|by right; left|].
    right. right. eexists. split; [done|]. by apply IHa.
Qed.

Lemma literal_right t elts : from_option walks_right True t → (∀ e, e ∈ elts → walks_right (counted e)) → walks_right (NComposite t elts).
Proof using Type.
  intros IHt IHe it. cbn [GnoSrc.visit]. rewrite has_both.
  assert (∀ l, foldr (λ e f, both (match e with NKeyValue (NIdent _) v => visit v | _ => visit e end) f) no_facts l =
               foldr (λ e f, both (visit (counted e)) f) no_facts l) as ->
    by (intros l; induction l as [|e l IHl]; [done|]; cbn [foldr]; by rewrite visit_counted, IHl).
  rewrite has_all. split.
  - intros [H|(e & He & H)]; [destruct t as [t|]; [apply m_type; by apply IHt|by apply has_none in H]|].
    eapply m_elt; [done|]. by apply IHe.
  - inversion 1; subst; [left; by apply IHt|right]. eexists. split; [done|]. by apply IHe.
Qed.

(** The walk collects the references of the tree, and nothing else. *)
Lemma visit_mentions n : walks_right n.
Proof using Type.
  enough (walks_right n ∧ walks_right (counted n)) as [H _] by exact H.
  induction n as [i|x s [IH _]|fn args [IHf _] IHa|t elts IHt IHe|k v [IHk _] [IHv _]|x [IH _]|kids IH] using node_nested_ind.
  - split; apply ident_right.
  - split; by apply selector_right.
  - rewrite Forall_forall in IHa. split; apply call_right; try done; intros a Ha; by apply IHa.
  - rewrite Forall_forall in IHe.
    assert (walks_right (NComposite t elts)) as H by (apply literal_right; [by destruct t; [apply IHt|]|intros e He; by apply IHe]). by split.
  - assert (walks_right (NKeyValue k v)) as H.
    { intros it. cbn [GnoSrc.visit]. rewrite has_both, (IHk it), (IHv it). split; [intros []; [by apply m_key|by apply m_value]|inversion 1; auto]. }
    split; [done|]. by destruct k.
  - assert (walks_right (NStar x)) as H by (intros it; cbn [GnoSrc.visit]; rewrite (IH it); split; [by constructor|by inversion 1]). by split.
  - rewrite Forall_forall in IH. assert (walks_right (NOther kids)) as H.
    { intros it. cbn [GnoSrc.visit]. rewrite has_all. split.
      - intros (a & Ha & H). eapply m_kid; [done|]. by apply IH.
      - inversion 1; subst. eexists. split; [done|]. by apply IH. }
    by split.
Qed.
End references.

(** ** Facts on scopes and tables *)

Lemma elem_of_decls_of i pf r :
  r ∈ decls_of i pf ↔ RFile r = i ∧ ∃ syn, Syn pf = Some syn ∧ Decls syn !! RDecl r = Some (RD r).
Proof.
  unfold decls_of. destruct (Syn pf) as [syn|]; [|split; [by intros ?%not_elem_of_nil|naive_solver]].
  rewrite list_elem_of_lookup. setoid_rewrite list_lookup_imap. split.
  - intros (j & H). destruct (Decls syn !! j) as [d|] eqn:E; [|done]. cbn in H. simplify_eq. cbn. eauto.
  - intros (<- & syn' & [= <-] & H). exists (RDecl r). rewrite H. cbn. by destruct r.
Qed.

(** Every declaration of every file, each once. *)
Lemma elem_of_all_refs parsed r :
  r ∈ all_refs parsed ↔ ∃ pf syn, parsed !! RFile r = Some pf ∧ Syn pf = Some syn ∧ Decls syn !! RDecl r = Some (RD r).
Proof.
  unfold all_refs. rewrite list_elem_of_join. setoid_rewrite list_elem_of_lookup at 2. setoid_rewrite list_lookup_imap. split.
  - intros (l & Hr & i & H). destruct (parsed !! i) as [pf|] eqn:E; [|done]. cbn in H. simplify_eq.
    apply elem_of_decls_of in Hr as (<- & syn & Hs & Hd). eauto.
  - intros (pf & syn & Hp & Hs & Hd). exists (decls_of (RFile r) pf). split; [apply elem_of_decls_of; eauto|].
    exists (RFile r). by rewrite Hp.
Qed.

Lemma ref_id_inj parsed r r' : r ∈ all_refs parsed → r' ∈ all_refs parsed → ref_id r = ref_id r' → r = r'.
Proof.
  intros (pf & syn & H1 & H2 & H3)%elem_of_all_refs (pf' & syn' & H1' & H2' & H3')%elem_of_all_refs [= Ef Ed].
  destruct r as [f d D], r' as [f' d' D']. cbn in *. simplify_eq. done.
Qed.

Lemma index_ref_lookup t r n q : index_ref t r !! n = Some q → (q = r ∧ n ∈ addressed (RD r)) ∨ t !! n = Some q.
Proof.
  unfold index_ref. revert t. induction (addressed (RD r)) as [|m l IH]; intros t H; [by right|]. cbn [foldl] in H.
  apply IH in H as [[-> H]|H]; [left; set_solver|]. apply lookup_insert_Some in H as [[-> ->]|[_ H]]; [left; set_solver|by right].
Qed.
Lemma index_ref_in t r n : n ∈ addressed (RD r) ∨ is_Some (t !! n) → is_Some (index_ref t r !! n).
Proof.
  unfold index_ref. revert t. induction (addressed (RD r)) as [|m l IH]; intros t H; cbn [foldl]; [destruct H as [H|H]; [by apply not_elem_of_nil in H|done]|].
  apply IH. destruct H as [[->|H]%elem_of_cons|H]; [right; rewrite lookup_insert_eq; eauto|by left|].
  right. apply lookup_insert_is_Some. destruct (decide (m = n)); auto.
Qed.

(** The table holds declarations of the files under names they are addressed
    by, and every name some declaration is addressed by. *)
Lemma symbolTable_sound parsed n r : symbolTable parsed !! n = Some r → r ∈ all_refs parsed ∧ n ∈ addressed (RD r).
Proof.
  unfold symbolTable. assert (∀ l t, (∀ n r, t !! n = Some r → r ∈ all_refs parsed ∧ n ∈ addressed (RD r)) → (∀ r, r ∈ l → r ∈ all_refs parsed) →
    ∀ n r, foldl index_ref t l !! n = Some r → r ∈ all_refs parsed ∧ n ∈ addressed (RD r)) as G.
  { induction l as [|x l IH]; intros t Ht Hl m q H; [by apply Ht|]. cbn [foldl] in H.
    eapply (IH (index_ref t x)); [|set_solver|exact H]. intros m' q' H'.
    apply index_ref_lookup in H' as [[-> H']|H']; [split; [apply Hl; left|done]|by apply Ht]. }
  apply G; [intros m q; by rewrite lookup_empty|done].
Qed.
Lemma symbolTable_complete parsed n : is_Some (symbolTable parsed !! n) ↔ ∃ r, r ∈ all_refs parsed ∧ n ∈ addressed (RD r).
Proof.
  split; [intros [r Hr]; apply symbolTable_sound in Hr; eauto|]. intros (r & Hr & Hn). unfold symbolTable.
  assert (∀ l t, is_Some (t !! n) ∨ r ∈ l → is_Some (foldl index_ref t l !! n)) as G; [|apply G; by right].
  induction l as [|x l IH]; intros t H; cbn [foldl]; [destruct H as [H|H]; [done|by apply not_elem_of_nil in H]|].
  apply IH. destruct H as [H|[->|H]%elem_of_cons]; [left; apply index_ref_in; by right|left; apply index_ref_in; by left|by right].
Qed.

Lemma add_ident_names i0 p i n : n ∈ names (add_ident i0 p i) ↔ n = IName i ∨ n ∈ names p.
Proof. cbn. set_solver. Qed.

(** A name in scope is one some declaration puts there. *)
Lemma packageScope_names parsed n :
  n ∈ names (packageScope parsed) ↔ ∃ r i, r ∈ all_refs parsed ∧ i ∈ scope_idents (RD r) ∧ IName i = n.
Proof.
  assert (∀ f l p, n ∈ names (foldl (add_ident f) p l) ↔ n ∈ names p ∨ ∃ i, i ∈ l ∧ IName i = n) as G1.
  { intros f. induction l as [|i l IH]; intros p; cbn [foldl]; [set_solver|]. rewrite IH, add_ident_names. setoid_rewrite elem_of_cons. naive_solver. }
  assert (∀ l p, n ∈ names (foldl (λ p r, foldl (add_ident (RFile r)) p (scope_idents (RD r))) p l) ↔
    n ∈ names p ∨ ∃ r i, r ∈ l ∧ i ∈ scope_idents (RD r) ∧ IName i = n) as G2.
  { induction l as [|r l IH]; intros p; cbn [foldl]; [set_solver|]. rewrite IH, G1. setoid_rewrite elem_of_cons. naive_solver. }
  unfold packageScope. rewrite G2. cbn. set_solver.
Qed.

Lemma last_segment_spec path n : last_segment path = n ↔ no_slash n = true ∧ (path = n ∨ ∃ dir, path = dir +:+ "/" +:+ n).
Proof.
  unfold last_segment. change (λ a, negb (Ascii.eqb a "/")) with not_slash. split.
  - intros <-. unfold no_slash. rewrite str_forall_rev. split; [apply span_forall|].
    pose proof (span_app not_slash (str_rev path)) as Happ. destruct (span not_slash (str_rev path)) as [a b] eqn:E. cbn [fst snd] in *.
    assert (Hp : path = str_rev b +:+ str_rev a) by (by rewrite <- str_rev_append, Happ, str_rev_involutive).
    destruct b as [|c b]; [left; exact Hp|right]. exists (str_rev b).
    assert (c = "/"%char) as ->; [|by rewrite Hp; change (String "/" b) with ("/" +:+ b); rewrite str_rev_append, <- str_app_assoc].
    apply (f_equal snd) in E. cbn in E. clear -E. revert E. generalize (str_rev path). induction s as [|x s IH]; [done|]. cbn.
    destruct (not_slash x) eqn:Hx; [destruct (span not_slash s); exact IH|]. cbn. intros [= -> _]. unfold not_slash, slash in Hx.
    apply negb_false_iff, Ascii.eqb_eq in Hx. done.
  - intros [Hn [->|[dir ->]]].
    + rewrite span_all by (by unfold no_slash in Hn; rewrite str_forall_rev). apply str_rev_involutive.
    + rewrite !str_rev_append. change (str_rev "/" +:+ str_rev dir) with (String "/" (str_rev dir)).
      rewrite str_app_assoc. change (str_rev "/" +:+ str_rev dir) with (String "/" (str_rev dir)).
      rewrite span_stop; [apply str_rev_involutive|by unfold no_slash in Hn; rewrite str_forall_rev|done].
Qed.

Lemma local_name_spec i n : local_name i n ↔ match ImpName i with Some a => IName a | None => last_segment (trim_quotes (ImpPath i)) end = n.
Proof. unfold local_name. destruct (ImpName i); [done|]. by rewrite last_segment_spec. Qed.

Lemma importLocalNames_spec f n path : importLocalNames f !! n = Some path ↔ imported_as (Imports f) n path.
Proof.
  unfold importLocalNames. generalize (Imports f) as l. induction l as [|i l IH] using rev_ind.
  { cbn. rewrite lookup_empty. split; [done|]. intros (_ & _ & pre & i & post & H & _). by destruct pre. }
  rewrite foldl_app. cbn [foldl]. unfold add_import. cbv zeta. set (k := match ImpName i with Some a => _ | None => _ end).
  assert (Hk : ∀ n, local_name i n ↔ k = n) by (intros m; apply local_name_spec).
  assert (Hsnoc : imported_as (l ++ [i]) n path ↔ n ≠ "." ∧ n ≠ "_" ∧
    ((local_name i n ∧ trim_quotes (ImpPath i) = path) ∨ (¬ local_name i n ∧ imported_as l n path))).
  { unfold imported_as. split.
    - intros (H1 & H2 & pre & j & post & E & Hj & Hp & Hf). split_and!; [done..|].
      destruct post as [|q post _] using rev_ind.
      + apply app_inj_tail in E as [-> ->]. by left.
      + rewrite app_comm_cons, app_assoc in E. apply app_inj_tail in E as [-> ->]. apply Forall_app in Hf as [Hf Hq].
        apply Forall_cons in Hq as [Hq _]. right. split; [done|]. split_and!; [done..|]. eauto 10.
    - intros (H1 & H2 & [[Hi Hp]|[Hi (_ & _ & pre & j & post & -> & Hj & Hp & Hf)]]); split_and!; try done.
      + exists l, i, []. by split_and!.
      + exists pre, j, (post ++ [i]). rewrite <- app_assoc. split_and!; [done..|]. apply Forall_app. split; [done|]. by constructor. }
  rewrite Hsnoc, Hk, <- IH. destruct (bool_decide (k = ".") || bool_decide (k = "_")) eqn:E.
  - apply orb_true_iff in E. rewrite !bool_decide_eq_true in E. split.
    + intros H. apply IH in H as H'. destruct H' as (H1 & H2 & _). split_and!; [done..|]. right. split; [|done]. intros ->. by destruct E.
    + intros (H1 & H2 & [[Hn _]|[_ H]]); [|done]. subst n. by destruct E.
  - b2p. rewrite lookup_insert. case_decide as Hd.
    + subst n. split; [intros [= <-]; by split_and!; [..|left]|]. intros (_ & _ & [[_ ->]|[Hx _]]); [done|by destruct Hx].
    + split; [intros Hx; apply IH in Hx as Hy; destruct Hy as (H1 & H2 & _); split_and!; [done..|by right]|].
      intros (_ & _ & [[Hx _]|[_ Hx]]); done.
Qed.

Lemma importQualifier_spec syn x path : importQualifier (importLocalNames syn) x = Some path ↔ qualifies syn x path.
Proof.
  unfold importQualifier, qualifies. split.
  - intros H. repeat case_match; simplify_eq. apply importLocalNames_spec in H. eauto.
  - intros (n & -> & H). by apply importLocalNames_spec.
Qed.
Lemma not_qualified syn x : importQualifier (importLocalNames syn) x = None ↔ ∀ path, ¬ qualifies syn x path.
Proof.
  setoid_rewrite <- importQualifier_spec. destruct (importQualifier _ x) as [path|]; [|done]. split; [done|]. intros Hq. by destruct (Hq path).
Qed.

Lemma packageScope_objs parsed file o :
  (file, o) ∈ topObjs (packageScope parsed) ↔ declares parsed (Some file) (λ j, Obj j = Some o).
Proof.
  assert (∀ f l p, (file, o) ∈ topObjs (foldl (add_ident f) p l) ↔ (file, o) ∈ topObjs p ∨ f = file ∧ ∃ i, i ∈ l ∧ Obj i = Some o) as G1.
  { intros f. induction l as [|i l IH]; intros p; cbn [foldl]; [set_solver|]. rewrite IH. unfold add_ident. cbn [topObjs].
    setoid_rewrite elem_of_cons. destruct (Obj i) as [q|] eqn:E; [rewrite elem_of_union, elem_of_singleton|]; naive_solver. }
  assert (∀ l p, (file, o) ∈ topObjs (foldl (λ p r, foldl (add_ident (RFile r)) p (scope_idents (RD r))) p l) ↔
    (file, o) ∈ topObjs p ∨ ∃ r j, r ∈ l ∧ RFile r = file ∧ j ∈ scope_idents (RD r) ∧ Obj j = Some o) as G2.
  { induction l as [|r l IH]; intros p; cbn [foldl]; [set_solver|]. rewrite IH, G1. setoid_rewrite elem_of_cons. naive_solver. }
  unfold packageScope, declares. rewrite G2. cbn. set_solver.
Qed.

Lemma isPackageRef_spec parsed file i : isPackageRef (packageScope parsed) file i = true ↔ package_ref parsed file i.
Proof.
  unfold isPackageRef, package_ref. assert (Hn : IName i ∈ names (packageScope parsed) ↔ declares parsed None (λ j, IName j = IName i)).
  { rewrite packageScope_names. unfold declares. cbn. naive_solver. }
  destruct (decide (IName i ∈ names (packageScope parsed))) as [H|H].
  - rewrite bool_decide_eq_true_2 by done. cbn. destruct (Obj i) as [o|].
    + rewrite bool_decide_eq_true, packageScope_objs, <- Hn. naive_solver.
    + rewrite <- Hn. naive_solver.
  - rewrite bool_decide_eq_false_2 by done. cbn. rewrite <- Hn. naive_solver.
Qed.

Lemma elem_of_sorted_set s x : x ∈ sorted_set s ↔ x ∈ s.
Proof. unfold sorted_set. rewrite elem_of_sort_by. apply elem_of_elements. Qed.
Lemma sorted_set_NoDup s : NoDup (sorted_set s).
Proof. unfold sorted_set. rewrite sort_by_perm. apply NoDup_elements. Qed.

(** ** Counting positions *)

Definition counts (Q : list nat → Prop) (k : nat) : Prop := ∃ ps, NoDup ps ∧ (∀ p, p ∈ ps ↔ Q p) ∧ List.length ps = k.

Section counts.
Implicit Types Q R : list nat → Prop.

Lemma counts_iff Q R k : (∀ p, Q p ↔ R p) → counts Q k → counts R k.
Proof. intros H (ps & H1 & H2 & H3). exists ps. split_and!; [done| |done]. intros p. by rewrite H2, H. Qed.
Lemma counts_none Q : (∀ p, ¬ Q p) → counts Q 0.
Proof. intros H. exists []. split_and!; [constructor| |done]. intros p. split; [by intros ?%not_elem_of_nil|]. intros Hp. by destruct (H p). Qed.
Lemma counts_here : counts (λ p, p = []) 1.
Proof. exists [[]]. split_and!; [apply NoDup_singleton| |done]. intros p. apply list_elem_of_singleton. Qed.
Lemma counts_under j Q k : counts Q k → counts (λ p, ∃ q, p = j :: q ∧ Q q) k.
Proof.
  intros (ps & H1 & H2 & H3). exists (cons j <$> ps). split_and!.
  - apply NoDup_fmap_2; [|done]. by intros x y [= ->].
  - intros p. rewrite list_elem_of_fmap. setoid_rewrite H2. done.
  - by rewrite length_fmap.
Qed.
Lemma counts_or Q R k j : (∀ p, Q p → R p → False) → counts Q k → counts R j → counts (λ p, Q p ∨ R p) (k + j).
Proof.
  intros Hd (ps & H1 & H2 & H3) (qs & H4 & H5 & H6). exists (ps ++ qs). split_and!.
  - apply NoDup_app. split_and!; [done| |done]. intros p Hp Hq. apply (Hd p); [by apply H2|by apply H5].
  - intros p. by rewrite elem_of_app, H2, H5.
  - rewrite length_app. lia.
Qed.

(** The children of a list, numbered from [k]. *)
Lemma counts_list {A} (Q : A → list nat → Prop) (g : A → facts) l : (∀ a, a ∈ l → counts (Q a) (FUnresolved (g a))) →
  ∀ k, counts (λ p, ∃ i a q, l !! i = Some a ∧ p = (k + i)%nat :: q ∧ Q a q) (FUnresolved (foldr (λ a f, both (g a) f) no_facts l)).
Proof.
  induction l as [|a l IH]; intros Hl k; cbn [foldr].
  { apply counts_none. by intros p (i & a & q & H & _). }
  assert (IH' := IH ltac:(set_solver) (S k)). cbn [both FUnresolved].
  eapply counts_iff; [|eapply counts_or; [|apply (counts_under k), (Hl a ltac:(left))|exact IH']].
  - intros p. split.
    + intros [(q & -> & H)|(i & b & q & Hb & -> & H)]; [exists 0%nat, a, q; by rewrite Nat.add_0_r|].
      exists (S i), b, q. split_and!; [done| |done]. f_equal. lia.
    + intros ([|i] & b & q & Hb & -> & H); cbn in Hb; [simplify_eq; left; exists q; by rewrite Nat.add_0_r|].
      right. exists i, b, q. split_and!; [done| |done]. f_equal. lia.
  - intros p (q & -> & _) (i & b & q' & _ & [= E _] & _). lia.
Qed.
End counts.

(** ** The walk follows the reading *)

Section walk_reads.
Context (syn : ast_file) (parsed : list parsedFile) (file : nat) (recvType : string).

Definition shows (m : node) (it : item) : Prop :=
  match it with
  | Dep d => is_dep parsed file recvType m d
  | Imp path => is_import syn m path
  | MethodCall => is_method_call syn m
  end.

Abbreviation mentions := (mentions (importLocalNames syn) (packageScope parsed) file recvType).
Abbreviation visit := (GnoSrc.visit (importLocalNames syn) (packageScope parsed) file recvType).
Abbreviation reads_at := (reads_at syn).

Lemma mentions_reads n it : mentions n it ↔ ∃ p m, reads_at n p m ∧ shows m it.
Proof using Type.
  split.
  - induction 1 as [i Hr Hp|x s path Hq|x s it Hq _ (p & m & ? & ?)|x s args Hq|fn args it _ (p & m & ? & ?)
      |fn args a it Ha _ (p & m & ? & ?)|t elts it _ (p & m & ? & ?)|t elts e it He _ (p & m & ? & ?)|k v it _ (p & m & ? & ?)
      |k v it _ (p & m & ? & ?)|x it _ (p & m & ? & ?)|kids a it Ha _ (p & m & ? & ?)].
    + exists [], (NIdent i). split; [constructor|]. exists i. by rewrite <- isPackageRef_spec.
    + exists [], (NSelector x s). split; [constructor|]. exists x, s. by rewrite <- importQualifier_spec.
    + eexists _, _. split; [|done]. apply at_selector; [by apply not_qualified|done].
    + exists [], (NCall (NSelector x s) args). split; [constructor|]. exists x, s, args. split; [done|]. by apply not_qualified.
    + eexists _, _. split; [by apply at_callee|done].
    + apply list_elem_of_lookup in Ha as [j Ha]. eexists _, _. split; [by eapply at_arg|done].
    + eexists _, _. split; [by apply at_type|done].
    + apply list_elem_of_lookup in He as [j He]. eexists _, _. split; [by eapply at_elt|done].
    + eexists _, _. split; [by apply at_key|done].
    + eexists _, _. split; [by apply at_value|done].
    + eexists _, _. split; [by apply at_star|done].
    + apply list_elem_of_lookup in Ha as [j Ha]. eexists _, _. split; [by eapply at_kid|done].
  - intros (p & m & Hr & Hm). induction Hr as [n|x s p m Hq _ IH|fn args p m _ IH|fn args i a p m Ha _ IH|t elts p m _ IH
      |t elts i e p m He _ IH|k v p m _ IH|k v p m _ IH|x p m _ IH|kids i a p m Ha _ IH].
    + destruct it as [d|path|]; cbn in Hm.
      * destruct Hm as (i & -> & <- & Hne & Hp). apply m_ident; [done|]. by apply isPackageRef_spec.
      * destruct Hm as (x & s & -> & Hq). apply m_import. by apply importQualifier_spec.
      * destruct Hm as (x & s & args & -> & Hq). apply m_method. by apply not_qualified.
    + apply m_root; [by apply not_qualified|auto].
    + apply m_fn; auto.
    + eapply m_arg; [by eapply list_elem_of_lookup_2|auto].
    + apply m_type; auto.
    + eapply m_elt; [by eapply list_elem_of_lookup_2|auto].
    + apply m_key; auto.
    + apply m_value; auto.
    + apply m_star; auto.
    + eapply m_kid; [by eapply list_elem_of_lookup_2|auto].
Qed.

(** Where a tree's method calls are. *)
Definition call_at (n : node) (p : list nat) : Prop := ∃ m, reads_at n p m ∧ is_method_call syn m.
Definition counted_right (n : node) : Prop := counts (call_at n) (FUnresolved (visit n)).

Lemma call_children fn args p : call_at (NCall fn args) p ↔
  (p = [] ∧ is_method_call syn (NCall fn args)) ∨ (∃ q, p = 0%nat :: q ∧ call_at fn q) ∨
  (∃ i a q, args !! i = Some a ∧ p = (1 + i)%nat :: q ∧ call_at a q).
Proof using Type.
  split.
  - intros (m & Hr & Hm). inversion Hr; subst; [by left|right; left|right; right]; unfold call_at; eauto 10.
  - intros [[-> H]|[(q & -> & m & Hr & Hm)|(i & a & q & Ha & -> & m & Hr & Hm)]];
      eexists; (split; [|eassumption]); [constructor|by apply at_callee|by eapply at_arg].
Qed.

Lemma method_call_callee fn args : is_method_call syn (NCall fn args) ↔ unresolved_call (importLocalNames syn) fn = true.
Proof using Type.
  unfold is_method_call, unresolved_call. destruct fn; try (split; [by intros (? & ? & ? & [=] & _)|done]).
  rewrite bool_decide_eq_true, not_qualified. split; [intros (? & ? & ? & [= -> -> ->] & H); exact H|eauto 10].
Qed.

Lemma call_counted fn args : counted_right fn → (∀ a, a ∈ args → counted_right a) → counted_right (NCall fn args).
Proof using Type.
  intros IHf IHa. unfold counted_right. cbn [GnoSrc.visit both FUnresolved].
  eapply counts_iff; [intros p; symmetry; apply call_children|]. apply counts_or; [by intros p [-> _] [(q & [=] & _)|(? & ? & q & _ & [=] & _)]| |].
  - destruct (unresolved_call _ fn) eqn:E.
    + eapply counts_iff; [|apply counts_here]. intros p. cbn. rewrite method_call_callee, E. naive_solver.
    + apply counts_none. intros p [_ H]. apply method_call_callee in H. congruence.
  - apply counts_or; [by intros p (q & -> & _) (? & ? & ? & _ & [=] & _)|by apply counts_under|by apply counts_list].
Qed.

Lemma literal_counted t elts : from_option counted_right True t → (∀ e, e ∈ elts → counted_right (counted e)) → counted_right (NComposite t elts).
Proof using Type.
  intros IHt IHe. unfold counted_right. cbn [GnoSrc.visit both FUnresolved].
  assert (∀ l, foldr (λ e f, both (match e with NKeyValue (NIdent _) v => visit v | _ => visit e end) f) no_facts l =
               foldr (λ e f, both (visit (counted e)) f) no_facts l) as ->
    by (intros l; induction l as [|e l IHl]; [done|]; cbn [foldr]; by rewrite visit_counted, IHl).
  eapply counts_iff; [|apply counts_or;
    [|instantiate (1 := λ p, ∃ x q, t = Some x ∧ p = 0%nat :: q ∧ call_at x q)|apply (counts_list (λ e, call_at (counted e)) _ elts IHe 1)]].
  - intros p. split.
    + intros [(x & q & -> & -> & m & Hr & Hm)|(i & e & q & He & -> & m & Hr & Hm)]; exists m; (split; [|done]); [by apply at_type|by eapply at_elt].
    + intros (m & Hr & Hm). inversion Hr; subst; [by destruct Hm as (? & ? & ? & [=] & _)|left|right]; unfold call_at; eauto 10.
  - intros p (x & q & _ & -> & _) (i & e & q' & _ & [=] & _).
  - destruct t as [x|]; cbn in *.
    + eapply counts_iff; [|apply (counts_under 0), IHt]. intros p. split; [intros (q & -> & H); eauto|by intros (y & q & [= <-] & -> & H); eauto].
    + apply counts_none. by intros p (x & q & [=] & _).
Qed.

Lemma visit_counts n : counted_right n.
Proof using Type.
  enough (counted_right n ∧ counted_right (counted n)) as [H _] by exact H.
  assert (Hone : ∀ n j x f, (∀ p m, reads_at n p m → (p = [] ∧ m = n) ∨ ∃ q, p = j :: q ∧ reads_at x q m) →
    (∀ q m, reads_at x q m → reads_at n (j :: q) m) → ¬ is_method_call syn n → FUnresolved (visit n) = f → counts (call_at x) f → counted_right n).
  { intros n0 j x f Hinv Hin Hno <- Hx. eapply counts_iff; [|apply (counts_under j), Hx]. intros p. split.
    - intros (q & -> & m & Hr & Hm). exists m. auto.
    - intros (m & Hr & Hm). destruct (Hinv _ _ Hr) as [[-> ->]|(q & -> & Hq)]; [done|]. unfold call_at. eauto. }
  assert (Hnot : ∀ n, (∀ f a, n ≠ NCall f a) → ¬ is_method_call syn n) by (intros n0 H (x & s & args & -> & _); by eapply H).
  induction n as [i|x s [IH _]|fn args [IHf _] IHa|t elts IHt IHe|k v [IHk _] [IHv _]|x [IH _]|kids IH] using node_nested_ind.
  - assert (counted_right (NIdent i)) as H; [|by split]. unfold counted_right. cbn [GnoSrc.visit].
    replace (FUnresolved _) with 0%nat by (by destruct (negb _ && _)). apply counts_none. intros p (m & Hr & Hm).
    inversion Hr; subst. by destruct Hm as (? & ? & ? & [=] & _).
  - assert (counted_right (NSelector x s)) as H; [|by split].
    destruct (importQualifier (importLocalNames syn) x) as [path|] eqn:E.
    + unfold counted_right. cbn [GnoSrc.visit]. rewrite E. apply counts_none. intros p (m & Hr & Hm). inversion Hr; subst.
      * by destruct Hm as (? & ? & ? & [=] & _).
      * apply importQualifier_spec in E. match goal with H : ∀ path, ¬ _ |- _ => by destruct (H path) end.
    + eapply (Hone _ 0%nat x); [| |by apply Hnot|cbn [GnoSrc.visit]; by rewrite E|exact IH].
      * intros p m Hr. inversion Hr; subst; [by left|right; eauto].
      * intros q m Hr. apply at_selector; [by apply not_qualified|done].
  - rewrite Forall_forall in IHa. split; apply call_counted; try done; intros a Ha; by apply IHa.
  - rewrite Forall_forall in IHe.
    assert (counted_right (NComposite t elts)) as H by (apply literal_counted; [by destruct t; [apply IHt|]|intros e He; by apply IHe]). by split.
  - assert (counted_right (NKeyValue k v)) as H; [|split; [done|by destruct k]].
    unfold counted_right. cbn [GnoSrc.visit both FUnresolved].
    eapply counts_iff; [|apply counts_or; [|apply (counts_under 0), IHk|apply (counts_under 1), IHv]].
    + intros p. split.
      * intros [(q & -> & m & Hr & Hm)|(q & -> & m & Hr & Hm)]; exists m; (split; [|done]); by constructor.
      * intros (m & Hr & Hm). inversion Hr; subst; [by destruct Hm as (? & ? & ? & [=] & _)|left|right]; unfold call_at; eauto 10.
    + by intros p (q & -> & _) (q' & [=] & _).
  - assert (counted_right (NStar x)) as H; [|by split].
    eapply (Hone _ 0%nat x); [| |by apply Hnot|done|exact IH].
    + intros p m Hr. inversion Hr; subst; [by left|right; eauto].
    + intros q m Hr. by constructor.
  - rewrite Forall_forall in IH. assert (counted_right (NOther kids)) as H; [|by split].
    unfold counted_right. cbn [GnoSrc.visit].
    eapply counts_iff; [|apply (counts_list call_at _ kids (λ a Ha, proj1 (IH a Ha)) 0)]. intros p. cbn. split.
    + intros (i & a & q & Ha & -> & m & Hr & Hm). exists m. split; [by eapply at_kid|done].
    + intros (m & Hr & Hm). inversion Hr; subst; [by destruct Hm as (? & ? & ? & [=] & _)|]. unfold call_at. eauto 10.
Qed.
End walk_reads.


(** ** Extraction *)

Section picking.
Context (parsed : list parsedFile).
Abbreviation table := (symbolTable parsed).

(** What the loop has done after the names [done_]. *)
Record picked_ok (done_ : list string) (p : picked) : Prop := {
  pk_seen : ∀ n, n ∈ seenName p ↔ n ∈ done_;
  pk_found : ∀ n, n ∈ PFound p ↔ n ∈ done_ ∧ is_Some (table !! n);
  pk_missing : ∀ n, n ∈ PMissing p ↔ n ∈ done_ ∧ table !! n = None;
  pk_nodup : NoDup (PFound p ++ PMissing p);
  pk_sub : PFound p `sublist_of` done_ ∧ PMissing p `sublist_of` done_;
  pk_blocks : ∀ r, r ∈ Blocks p ↔ ∃ n, n ∈ done_ ∧ table !! n = Some r;
  pk_decls : ∀ k, k ∈ seenDecl p ↔ k ∈ ref_id <$> Blocks p;
  pk_once : NoDup (ref_id <$> Blocks p);
}.

Lemma sublist_snoc_l {A} (l k : list A) x : l `sublist_of` k → l `sublist_of` k ++ [x].
Proof using Type. intros H. rewrite <- (app_nil_r l). apply sublist_app; [done|]. apply sublist_nil_l. Qed.

Lemma pick_ok done_ p n : picked_ok done_ p → picked_ok (done_ ++ [n]) (pick table p n).
Proof using Type.
  intros [Hs Hf Hm Hn [Hsf Hsm] Hb Hd Ho].
  assert (Hnew : ∀ m (P : Prop), m ∈ done_ ++ [n] ∧ P ↔ m ∈ done_ ∧ P ∨ m = n ∧ P)
    by (intros; rewrite elem_of_app, list_elem_of_singleton; naive_solver).
  assert (Hblk : ∀ r, (∃ m, m ∈ done_ ++ [n] ∧ table !! m = Some r) ↔ r ∈ Blocks p ∨ table !! n = Some r)
    by (intros r; rewrite Hb; setoid_rewrite Hnew; naive_solver).
  unfold pick. case_bool_decide as E.
  { apply Hs in E. constructor; try done.
    - intros m. rewrite Hs, elem_of_app, list_elem_of_singleton. naive_solver.
    - intros m. rewrite Hf, Hnew. naive_solver.
    - intros m. rewrite Hm, Hnew. naive_solver.
    - split; by apply sublist_snoc_l.
    - intros r. rewrite Hblk. split; [by left|]. intros [?|H]; [done|]. apply Hb. eauto. }
  rewrite Hs in E.
  assert (Hseen : ∀ m, m ∈ {[n]} ∪ seenName p ↔ m ∈ done_ ++ [n])
    by (intros m; rewrite elem_of_union, elem_of_singleton, Hs, elem_of_app, list_elem_of_singleton; tauto).
  assert (Hsn : ∀ l : list string, l `sublist_of` done_ → l ++ [n] `sublist_of` done_ ++ [n]) by (intros; by apply sublist_app).
  assert (n ∉ PFound p ∧ n ∉ PMissing p) as [Hnf Hnm] by (rewrite Hf, Hm; tauto).
  destruct (table !! n) as [r|] eqn:T.
  - assert (Hfound : ∀ m, m ∈ PFound p ++ [n] ↔ m ∈ done_ ++ [n] ∧ is_Some (table !! m)).
    { intros m. rewrite Hnew, elem_of_app, Hf, list_elem_of_singleton. split; [intros [?| ->]; [by left|right; by rewrite T]|naive_solver]. }
    assert (Hmiss : ∀ m, m ∈ PMissing p ↔ m ∈ done_ ++ [n] ∧ table !! m = None)
      by (intros m; rewrite Hnew, Hm; split; [by left|intros [?|[-> ?]]; [done|congruence]]).
    assert (Hnd : NoDup ((PFound p ++ [n]) ++ PMissing p)).
    { assert ((PFound p ++ [n]) ++ PMissing p ≡ₚ n :: (PFound p ++ PMissing p)) as ->
        by (rewrite <- app_assoc; cbn; symmetry; apply Permutation_middle).
      apply NoDup_cons. rewrite elem_of_app. tauto. }
    pose proof (proj1 (symbolTable_sound parsed n r T)) as Hr.
    case_bool_decide as D.
    + assert (r ∈ Blocks p) as Hin.
      { apply Hd, list_elem_of_fmap in D as (r' & Hid & Hr'). pose proof Hr' as Hr''. apply Hb in Hr'' as (m & _ & Hm').
        apply symbolTable_sound in Hm' as [Hm' _]. by rewrite (ref_id_inj parsed r r'). }
      constructor; cbn; try done; [split; [by apply Hsn|by apply sublist_snoc_l]|].
      intros q. rewrite Hblk. split; [by left|]. intros [?|?]; [done|congruence].
    + constructor; cbn; try done; [split; [by apply Hsn|by apply sublist_snoc_l]| | |].
      * intros q. rewrite Hblk, elem_of_app, list_elem_of_singleton. naive_solver.
      * intros k. rewrite elem_of_union, elem_of_singleton, Hd, fmap_app, elem_of_app. cbn. rewrite list_elem_of_singleton. tauto.
      * rewrite fmap_app. apply NoDup_app. split; [done|]. split; [|apply NoDup_singleton].
        intros k Hk. cbn. rewrite list_elem_of_singleton. intros ->. apply D. by apply Hd.
  - constructor; cbn; try done.
    + intros m. rewrite Hnew, Hf. split; [by left|]. intros [?|[-> [? ?]]]; [done|congruence].
    + intros m. rewrite Hnew, elem_of_app, Hm, list_elem_of_singleton. naive_solver.
    + rewrite app_assoc. apply NoDup_app. split; [done|]. split; [|apply NoDup_singleton].
      intros m Hm'. rewrite list_elem_of_singleton. intros ->. apply elem_of_app in Hm'. tauto.
    + split; [by apply sublist_snoc_l|by apply Hsn].
    + intros q. rewrite Hblk. split; [by left|]. intros [?|?]; [done|congruence].
Qed.

Lemma pick_all_ok ns : picked_ok ns (pick_all table ns).
Proof using Type.
  unfold pick_all. induction ns as [|n ns IH] using rev_ind.
  - constructor; cbn; try (intros; set_solver); try apply NoDup_nil_2.
  - rewrite foldl_app. cbn. by apply pick_ok.
Qed.
End picking.

#[local] Instance by_pos_total : Total by_pos.
Proof. intros a b. unfold by_pos. lia. Qed.
#[local] Instance by_pos_trans : Transitive by_pos.
Proof. intros a b c. unfold by_pos. lia. Qed.

Lemma elem_of_file_refs blocks i r : r ∈ file_refs blocks i ↔ r ∈ blocks ∧ RFile r = i.
Proof. unfold file_refs. rewrite merge_sort_Permutation, list_elem_of_filter. tauto. Qed.
Lemma file_refs_sorted blocks i : StronglySorted by_pos (file_refs blocks i).
Proof. apply StronglySorted_merge_sort; apply _. Qed.
Lemma file_refs_once blocks i : NoDup (ref_id <$> blocks) → NoDup (ref_id <$> file_refs blocks i).
Proof.
  intros H. unfold file_refs. rewrite (fmap_Permutation _ _ _ (merge_sort_Permutation _ _)).
  eapply sublist_NoDup; [exact H|]. apply fmap_sublist, sublist_filter.
Qed.

(** *** What is shown *)

(** Bytes [from] to [to] of [body], when it has them. *)
Definition bytes_of (body : string) (from to : nat) (src : string) : Prop :=
  ∃ pre post, body = pre +:+ src +:+ post ∧
    ((from ≤ to ≤ String.length body)%nat → String.length pre = from ∧ String.length src = (to - from)%nat).

(** The comment lines over a function: its package-level dependencies, with the
    number of calls not resolved, and the imports it uses; no line that says
    nothing. *)
Inductive dep_line (deps : list string) : nat → string → Prop :=
  | no_deps : deps = [] → dep_line deps 0 ""
  | complete_deps : deps ≠ [] → dep_line deps 0 ("// deps: " +:+ GoText.join ", " deps +:+ NL)
  | open_deps n : dep_line deps (S n)
      ("// deps: " +:+ GoText.join ", " deps +:+ (if bool_decide (deps = []) then "" else " ") +:+ "(+" +:+ format_int (Z.of_nat (S n)) +:+
       " unresolved method call(s) — dep list incomplete; read the full file for the complete picture)" +:+ NL).
Inductive import_line : list string → string → Prop :=
  | no_imports : import_line [] ""
  | used_imports p l : import_line (p :: l) ("// imports: " +:+ GoText.join ", " (p :: l) +:+ NL).

(** One declaration: for a function its header, then its bytes, from its doc
    comment if it has one, and a newline. *)
Definition shown_decl (parsed : list parsedFile) (pf : parsedFile) (r : symbolRef) (text : string) : Prop :=
  ∃ header src, text = header +:+ src +:+ NL ∧
    bytes_of (PFBody pf) (match ref_doc r with Some c => CPos c | None => Pos (RD r) end) (End_ (RD r)) src ∧
    match Kind_ (RD r), Syn pf with
    | DFunc fn, Some syn => ∃ deps imports n d i, collectDeps fn syn (RFile r) (packageScope parsed) = (deps, imports, n) ∧
        dep_line deps n d ∧ import_line imports i ∧ header = d +:+ i
    | _, _ => header = ""
    end.

(** The declarations of one file, a blank line between them. *)
Inductive shown_decls (parsed : list parsedFile) (pf : parsedFile) : list symbolRef → string → Prop :=
  | shown_last r text : shown_decl parsed pf r text → shown_decls parsed pf [r] text
  | shown_next r text refs texts : shown_decl parsed pf r text → shown_decls parsed pf refs texts →
      shown_decls parsed pf (r :: refs) (text +:+ NL +:+ texts).

Lemma verbatim_bytes body r :
  bytes_of body (match ref_doc r with Some c => CPos c | None => Pos (RD r) end) (End_ (RD r)) (verbatim body r).
Proof.
  unfold verbatim. set (from := match ref_doc r with Some c => CPos c | None => Pos (RD r) end).
  exists (str_take from body), (str_drop (End_ (RD r) - from) (str_drop from body)). split; [by rewrite !str_take_drop|].
  intros [H1 H2]. rewrite !str_take_length; [done|rewrite str_drop_length; lia|lia].
Qed.

Lemma dep_line_of deps n : dep_line deps n
  (if negb (bool_decide (deps = [])) || (0 <? n)%nat then
     "// deps: " +:+ GoText.join ", " deps +:+
     (if (0 <? n)%nat then
        (if negb (bool_decide (deps = [])) then " " else "") +:+
        "(+" +:+ format_int (Z.of_nat n) +:+ " unresolved method call(s) — dep list incomplete; read the full file for the complete picture)"
      else "") +:+ NL
   else "").
Proof.
  destruct n as [|n]; cbn -[GoText.join format_int].
  - rewrite orb_false_r. case_bool_decide as E; cbn -[GoText.join]; [by apply no_deps|by apply complete_deps].
  - rewrite orb_true_r. pose proof (open_deps deps n) as H. case_bool_decide; cbn -[GoText.join format_int] in *; rewrite ?str_app_assoc in *; exact H.
Qed.

Lemma depHeader_lines fn syn file pkg : ∃ deps imports n d i, collectDeps fn syn file pkg = (deps, imports, n) ∧
  dep_line deps n d ∧ import_line imports i ∧ depHeader fn syn file pkg = d +:+ i.
Proof.
  unfold depHeader. destruct (collectDeps fn syn file pkg) as [[deps imports] n]. do 5 eexists. split; [done|].
  split; [apply dep_line_of|]. split; [|reflexivity]. destruct imports as [|p l]; constructor.
Qed.

Lemma renderRefs_shown parsed pf refs : refs ≠ [] → shown_decls parsed pf refs (renderRefs (packageScope parsed) pf refs).
Proof.
  assert (Hone : ∀ r, shown_decl parsed pf r (render_ref (packageScope parsed) pf r)).
  { intros r. unfold render_ref, shown_decl, ref_fn. eexists _, _. split; [reflexivity|]. split; [apply verbatim_bytes|].
    destruct (Kind_ (RD r)) as [fn|g]; [|done]. destruct (Syn pf) as [syn|]; [|done]. apply depHeader_lines. }
  intros Hne. unfold renderRefs. induction refs as [|r refs IH]; [done|]. destruct refs as [|r' refs].
  - cbn. by apply shown_last.
  - cbn [fmap list_fmap]. rewrite join_cons_cons. by apply shown_next, IH.
Qed.

(** The entry of one file of the archive. *)
Definition entry_of (parsed : list parsedFile) (blocks : list symbolRef) (i : nat) (f : MemFile) : Prop :=
  ∃ pf, parsed !! i = Some pf ∧ FileName f = PFName pf ∧ shown_decls parsed pf (file_refs blocks i) (Body f).

Lemma extract_archive_entries parsed blocks :
  Forall2 (entry_of parsed blocks) (filter (λ i, file_refs blocks i ≠ []) (seq 0 (List.length parsed))) (extract_archive parsed blocks).
Proof.
  unfold extract_archive. set (scope := packageScope parsed).
  set (one := λ i pf, match file_refs blocks i with [] => [] | refs => [mkFile (PFName pf) (renderRefs scope pf refs)] end).
  assert (H : ∀ l k, (∀ i pf, l !! i = Some pf → parsed !! (k + i)%nat = Some pf) →
    Forall2 (entry_of parsed blocks) (filter (λ i, file_refs blocks i ≠ []) (seq k (List.length l))) (mjoin (imap (λ i, one (k + i)%nat) l))).
  { induction l as [|pf l IH]; intros k Hl; [constructor|].
    change (seq k (List.length (pf :: l))) with (k :: seq (S k) (List.length l)). rewrite imap_cons. cbn [mjoin list_join]. rewrite filter_cons.
    assert (Hrest : Forall2 (entry_of parsed blocks) (filter (λ i, file_refs blocks i ≠ []) (seq (S k) (List.length l)))
      (mjoin (imap ((λ i, one (k + i)%nat) ∘ S) l))).
    { erewrite imap_ext; [apply (IH (S k))|].
      - intros i pf' Hi. specialize (Hl (S i) pf' Hi). by rewrite Nat.add_succ_r in Hl.
      - intros i pf' _. cbn. by rewrite Nat.add_succ_r. }
    unfold one at 1. rewrite Nat.add_0_r. destruct (file_refs blocks k) as [|r refs] eqn:E.
    - rewrite decide_False by tauto. exact Hrest.
    - rewrite decide_True by done. cbn. constructor; [|exact Hrest].
      exists pf. specialize (Hl 0%nat pf eq_refl). rewrite Nat.add_0_r in Hl. split_and!; [done..|]. rewrite E. by apply renderRefs_shown. }
  exact (H parsed 0%nat (λ i pf H, H)).
Qed.

Section extraction.
Context (ParseFile : string → string → res string ast_file) (txtar_format : list MemFile → string).

(** C18: An extraction answers exactly what was asked.  The requested names
    are split into found and missing, each once and in the order asked, and
    what is available is every name a declaration of a parsed file is
    addressed by.  The archive has, in the order of the files, one entry per
    file with a requested declaration; it lists exactly the declarations the
    found names stand for, each once, in source order, and each shown as the
    bytes of the file from its doc comment to its end, under the lines a
    function's dependencies make.  Every file that does not parse is reported. *)
Theorem ExtractSymbols_exact files ns :
  let parsed := parseAll ParseFile files in
  let table := symbolTable parsed in
  let x := ExtractSymbols ParseFile txtar_format files ns in
  ∃ blocks,
    (∀ n, n ∈ Found x ↔ n ∈ ns ∧ is_Some (table !! n)) ∧ (∀ n, n ∈ Missing x ↔ n ∈ ns ∧ table !! n = None) ∧
    NoDup (Found x ++ Missing x) ∧ Found x `sublist_of` ns ∧ Missing x `sublist_of` ns ∧
    (∀ n, n ∈ Available x ↔ ∃ r, r ∈ all_refs parsed ∧ n ∈ addressed (RD r)) ∧ StronglySorted String.le (Available x) ∧
    (∀ n r, table !! n = Some r → r ∈ all_refs parsed ∧ n ∈ addressed (RD r)) ∧
    (∃ ar, XBody x = match ar with [] => "" | _ => txtar_format ar end ∧
       Forall2 (entry_of parsed blocks) (filter (λ i, file_refs blocks i ≠ []) (seq 0 (List.length parsed))) ar) ∧
    (∀ i r, r ∈ file_refs blocks i ↔ RFile r = i ∧ ∃ n, n ∈ Found x ∧ table !! n = Some r) ∧
    (∀ i, NoDup (ref_id <$> file_refs blocks i) ∧ StronglySorted by_pos (file_refs blocks i)) ∧
    (∀ e, e ∈ XErrors x ↔ ∃ pf msg, pf ∈ parsed ∧ ParseErr pf = Some msg ∧ e = PFName pf +:+ ": " +:+ msg).
Proof.
  cbv zeta. set (parsed := parseAll ParseFile files). destruct (pick_all_ok parsed ns) as [Hs Hf Hm Hn [Hsf Hsm] Hb Hd Ho].
  exists (Blocks (pick_all (symbolTable parsed) ns)). unfold ExtractSymbols. cbv zeta. fold parsed. cbn [Found Missing Available XBody XErrors].
  split; [exact Hf|]. split; [exact Hm|]. split; [exact Hn|]. split; [exact Hsf|]. split; [exact Hsm|]. split; [|split; [|split; [|split; [|split; [|split]]]]].
  - intros n. rewrite elem_of_sort_by, <- symbolTable_complete, list_elem_of_fmap. split.
    + intros ([m r] & -> & H). apply elem_of_map_to_list in H. eauto.
    + intros [r H]. exists (n, r). split; [done|]. by apply elem_of_map_to_list.
  - apply sort_by_sorted.
  - intros n r. apply symbolTable_sound.
  - eexists. split; [|apply extract_archive_entries]. by destruct (extract_archive _ _).
  - intros i r. rewrite elem_of_file_refs, Hb. setoid_rewrite Hf. naive_solver.
  - intros i. split; [by apply file_refs_once|apply file_refs_sorted].
  - intros e. rewrite list_elem_of_omap. split.
    + intros (pf & Hp & H). destruct (ParseErr pf) as [msg|] eqn:E; [|done]. cbn in H. simplify_eq. eauto.
    + intros (pf & msg & Hp & E & ->). exists pf. by rewrite E.
Qed.
End extraction.

(** ** Outlines *)

(** A tree without function bodies, initializers and positions: what remains
    of an initializer is that there is one. *)
Definition elided_values (l : list node) : list node := match l with [] => [] | _ => [NIdent (mkIdent "…" None)] end.
Definition elide_spec (s : spec) : spec :=
  match s with SValue v => SValue (mkValue (VDoc v) (VComment v) (VNames v) (VType v) (elided_values (VValues v))) | _ => s end.
Definition surface_kind (k : decl_kind) : decl_kind :=
  match k with
  | DFunc f => DFunc (mkFunc (FDoc f) (FRecv f) (FName f) (FType f) None)
  | DGen g => DGen (mkGen (GDoc g) (Tok g) (elide_spec <$> Specs g))
  end.
Definition surface_decl (d : decl) : decl := mkDeclaration (surface_kind (Kind_ d)) 0 0.
Definition surface (f : ast_file) : ast_file := mkAst (PkgDoc f) (PkgName f) (surface_decl <$> Decls f) (Imports f).

Lemma elided_twice l : elided_values (elided_values l) = elided_values l.
Proof. by destruct l. Qed.

Section outlines.
Context (ParseFile : string → string → res string ast_file) (Fprint : printable → res string string) (txtar_format : list MemFile → string).
Context (is_upper : Z → bool).

Lemma add_spec_surface g a s :
  add_spec Fprint is_upper (mkGen (GDoc g) (Tok g) (elide_spec <$> Specs g)) a (elide_spec s) = add_spec Fprint is_upper g a s.
Proof using Type. destruct s as [|t|v]; [done|done|]. unfold add_spec, outlineSpec, elideValues. cbn. by destruct (VValues v). Qed.

Lemma outline_gen_surface g a :
  outlineGenDecl Fprint is_upper (mkGen (GDoc g) (Tok g) (elide_spec <$> Specs g)) a = outlineGenDecl Fprint is_upper g a.
Proof using Type.
  unfold outlineGenDecl. cbn [Specs].
  assert (∀ l a, foldl (add_spec Fprint is_upper (mkGen (GDoc g) (Tok g) (elide_spec <$> Specs g))) a (elide_spec <$> l) =
                 foldl (add_spec Fprint is_upper g) a l) as G; [|apply G].
  induction l as [|s l IH]; intros a'; [done|]. cbn [foldl fmap list_fmap]. by rewrite add_spec_surface, IH.
Qed.

Lemma outline_decl_surface a d : outline_decl Fprint is_upper a (surface_decl d) = outline_decl Fprint is_upper a d.
Proof using Type.
  unfold outline_decl, surface_decl. cbn [Kind_]. destruct (Kind_ d) as [f|g]; [done|]. cbn [surface_kind Tok].
  rewrite outline_gen_surface. done.
Qed.

Lemma outline_surface pf syn : outline_parsed Fprint is_upper pf (surface syn) = outline_parsed Fprint is_upper pf syn.
Proof using Type.
  unfold outline_parsed. cbn.
  assert (∀ l a, foldl (outline_decl Fprint is_upper) a (surface_decl <$> l) = foldl (outline_decl Fprint is_upper) a l) as ->; [|done].
  induction l as [|d l IH]; intros a; [done|]. cbn. by rewrite outline_decl_surface.
Qed.

(** Two files that an outline cannot tell apart: same name, same size, and
    trees that differ in bodies, initializers and positions alone. *)
Definition same_surface (f f' : MemFile) : Prop :=
  FileName f = FileName f' ∧ len (Body f) = len (Body f') ∧
  match ParseFile (FileName f) (Body f), ParseFile (FileName f') (Body f') with
  | Ok a, Ok b => surface a = surface b
  | Err e, Err e' => e = e'
  | _, _ => False
  end.

Lemma entry_same f f' : same_surface f f' →
  outlineEntry Fprint is_upper (parse_one ParseFile f) = outlineEntry Fprint is_upper (parse_one ParseFile f').
Proof using Type.
  intros (Hn & Hl & Hp). unfold parse_one. rewrite <- Hn in *. destruct (has_suffix (FileName f) ".gno");
    [|unfold outlineEntry, size; cbn; by rewrite Hl].
  destruct (ParseFile _ (Body f)) as [a|e], (ParseFile _ (Body f')) as [b|e']; try done; unfold outlineEntry; cbn.
  - rewrite <- (outline_surface _ a), Hp, outline_surface. unfold outline_parsed, size. cbn. by rewrite Hl.
  - unfold size. cbn. by rewrite Hl, Hp.
Qed.

(** C20: An outline has one entry per file, under its name and in order, not
    one dropped; it does not depend on any function body or initializer, only
    on the files' names, sizes, signatures and docs; and no text in it, docs
    of the realm's authors included, holds a tag of the envelope. *)
Theorem Outline_elides files files' :
  (FileName <$> outline_archive ParseFile Fprint is_upper files = FileName <$> files) ∧
  (Forall2 same_surface files files' →
   Outline ParseFile Fprint txtar_format is_upper files = Outline ParseFile Fprint txtar_format is_upper files') ∧
  tags_from 0 (Outline ParseFile Fprint txtar_format is_upper files) = [].
Proof using Type.
  split; [|split].
  - unfold outline_archive, parseAll. rewrite <- !list_fmap_compose. apply list_fmap_ext. intros i f _. cbn.
    unfold parse_one. repeat case_match; done.
  - intros H. unfold Outline. do 2 f_equal. unfold outline_archive, parseAll. induction H as [|f f' l l' Hf Hl IH]; [done|].
    cbn. rewrite IH. f_equal. f_equal; [|by apply entry_same]. destruct Hf as [Hn _].
    unfold parse_one. rewrite <- Hn. repeat case_match; done.
  - unfold Outline. rewrite Neutralize_escape. apply escape_tags_clean.
Qed.
End outlines.

(** ** Evaluation *)

Definition ex_func (name : string) (pos end_ : nat) (body : node) : decl :=
  mkDeclaration (DFunc (mkFunc None None (mkIdent name (Some 0%nat)) (NOther []) (Some body))) pos end_.

(** Go allows several [init] functions; the name stands for the last one, and
    nothing says there are others. *)
Definition ex_parse (_ body : string) : res string ast_file :=
  Ok (mkAst None "x" [ex_func "init" 0 5 (NOther []); ex_func "init" 5 10 (NOther [])] []).
Theorem earlier_init_hidden :
  let x := ExtractSymbols ex_parse (λ ar, String.concat "|" (Body <$> ar)) [mkFile "a.gno" "firstlater"] ["init"] in
  Found x = ["init"] ∧ Missing x = [] ∧ XBody x = "later" +:+ NL.
Proof. vm_compute. repeat split. Qed.

(** A method call under parentheses, or through a method value, is not among
    the unresolved ones: the header looks complete. *)
Theorem parenthesized_call_uncounted locals pkg file recv :
  let m := NSelector (NIdent (mkIdent "counter" (Some 1%nat))) "Inc" in
  topObjs pkg = ∅ →
  visit locals pkg file recv (NCall (NOther [m]) []) = no_facts ∧ FUnresolved (visit locals pkg file recv (NCall m [])) = 1%nat.
Proof.
  cbv zeta. intros Ht. cbn. assert (isPackageRef pkg file (mkIdent "counter" (Some 1%nat)) = false) as ->.
  { unfold isPackageRef. cbn. destruct (negb _); [done|]. rewrite Ht. by apply bool_decide_eq_false_2, not_elem_of_empty. }
  rewrite andb_false_r. done.
Qed.
