(* ===== verification/IndexerTools.v ===== *)
(** * The tx-indexer client and tools

    [internal/indexer/graphql.go], [internal/tools/indexer/history.go] and
    [activity.go]: one GraphQL query per call, its answer turned into events,
    and the two tools that print them.  HTTP and JSON decoding are arguments.
    Ends with what every text tool of the server may answer. *)
From S2P Require Import Prelude GoText GoTime Untrusted Profiles ChainTypes ChainClient ServerCore Handlers Parked ProfileAdd FaucetTool ReadTools.
From stdpp Require Import prelude strings gmap list.
From Stdlib Require Import ZArith Lia Ascii String SpecFloat.
Local Open Scope Z_scope.

(** ** Wire and event types *)

(** [gqlMessageValue]; [GPackage] is the path of its package. *)
Record gqlMessageValue := mkValue {
  Typename : string; GCaller : string; PkgPath : string; GFunc : string; GArgs : list string; GCreator : string; GPackage : option string;
}.
Record gqlTxMessage := mkMessage { TypeURL : string; Route : string; Value : gqlMessageValue }.
Record gqlTransaction := mkGqlTx { GHash : string; BlockHeight : Z; Messages : list gqlTxMessage }.
Record gqlEnvelope := mkEnvelope { EnvData : string; EnvErrors : list string }.

(** [indexer.TxEvent] *)
Record TxEvent := mkEvent {
  EvHash : string; EvHeight : Z; EvTime : Time; EvKind : string; EvCaller : string; EvFunc : string; EvArgs : list string;
}.

Definition populateFromMessage (ev : TxEvent) (msg : gqlTxMessage) : TxEvent :=
  let v := Value msg in
  let set kind caller fn args := mkEvent (EvHash ev) (EvHeight ev) (EvTime ev) kind caller fn args in
  if bool_decide (Typename v = "MsgCall") then set "MsgCall" (GCaller v) (GFunc v) (GArgs v)
  else if bool_decide (Typename v = "MsgAddPackage") then set "MsgAddPackage" (GCreator v) (EvFunc ev) (EvArgs ev)
  else if bool_decide (Typename v = "MsgRun") then set "MsgRun" (GCaller v) (EvFunc ev) (EvArgs ev)
  else if bool_decide (Typename v = "BankMsgSend") then set "BankMsgSend" (EvCaller ev) (EvFunc ev) (EvArgs ev)
  else set (TypeURL msg) (EvCaller ev) (EvFunc ev) (EvArgs ev).

Definition toTxEvent (tx : gqlTransaction) : TxEvent :=
  let ev := mkEvent (GHash tx) (BlockHeight tx) 0 "" "" "" [] in
  match Messages tx with [] => ev | msg :: _ => populateFromMessage ev msg end.

Definition toTxEvents (txs : list gqlTransaction) : list TxEvent := toTxEvent <$> txs.

(** ** The client *)

Definition maxRespBytes : Z := 4 * 1024 * 1024.

Definition limit_bytes (n : Z) (s : string) : string := if len s <=? n then s else str_take (Z.to_nat n) s.

Definition history_filter (realm : string) : json :=
  let vm param := JObj [("route", JStr "vm"); ("vm_param", JObj [param])] in
  JObj [("filter", JObj [("message", JArr
    [vm ("exec", JObj [("pkg_path", JStr realm)]);
     vm ("add_package", JObj [("package", JObj [("path", JStr realm)])]);
     vm ("run", JObj [("package", JObj [("path", JStr realm)])])])])].

Definition transactionsQuery : string :=
  "" +:+ NL +:+
  "query Transactions($filter: TransactionFilter!) {" +:+ NL +:+
  "  transactions(filter: $filter) {" +:+ NL +:+
  "    hash" +:+ NL +:+
  "    block_height" +:+ NL +:+
  "    messages {" +:+ NL +:+
  "      typeUrl" +:+ NL +:+
  "      route" +:+ NL +:+
  "      value {" +:+ NL +:+
  "        __typename" +:+ NL +:+
  "        ... on MsgCall {" +:+ NL +:+
  "          caller" +:+ NL +:+
  "          pkg_path" +:+ NL +:+
  "          func" +:+ NL +:+
  "          args" +:+ NL +:+
  "        }" +:+ NL +:+
  "        ... on MsgAddPackage {" +:+ NL +:+
  "          creator" +:+ NL +:+
  "          package { path }" +:+ NL +:+
  "        }" +:+ NL +:+
  "        ... on MsgRun {" +:+ NL +:+
  "          caller" +:+ NL +:+
  "          package { path }" +:+ NL +:+
  "        }" +:+ NL +:+
  "      }" +:+ NL +:+
  "    }" +:+ NL +:+
  "  }" +:+ NL +:+
  "}".

(** [gqlRequest]: the body that is posted. *)
Definition gqlRequest (query : string) (variables : json) : json := JObj [("query", JStr query); ("variables", variables)].

Section client.
(** The answer to a POST of a body, and the decoders. *)
Context (post : trace → string → json → http_answer).
Context (decode_envelope : string → res string gqlEnvelope) (decode_txs : string → res string (list gqlTransaction)).
Context (url : string).

(** [do], given the answer. *)
Definition gql_do (answer : http_answer) : res string (list gqlTransaction) :=
  match answer with
  | BadRequest e => Err ("build request: " +:+ e)
  | TimedOut e | Unreachable e => Err ("error_unavailable: indexer unreachable: " +:+ e +:+ " (retry later)")
  | Answered status _ body =>
      if negb (status =? 200) then Err ("indexer returned " +:+ format_int status)
      else
        env ← map_err (λ e, "decode envelope: " +:+ e) (decode_envelope (limit_bytes maxRespBytes body));
        match EnvErrors env with
        | e :: _ => Err ("graphql error: " +:+ e)
        | [] =>
            if bool_decide (EnvData env = "") then
              Err ("indexer response has no " +:+ dq +:+ "data" +:+ dq +:+ " field: " +:+ url +:+
                   " does not look like a GraphQL endpoint — tx-indexer serves GraphQL at /graphql/query, check the profile's indexer URL includes that path")
            else map_err (λ e, "unmarshal data: " +:+ e) (decode_txs (EnvData env))
        end
  end.

Definition History (realm : string) : tool (res string (list TxEvent)) :=
  answer ← ask (EfIndexer realm) (λ tr, post tr url (gqlRequest transactionsQuery (history_filter realm)));
  mret (txs ← gql_do answer; mret (toTxEvents txs)).

Definition is_activity (e : TxEvent) : bool := bool_decide (EvKind e = "MsgCall") || bool_decide (EvKind e = "MsgRun").

Definition Activity (realm : string) (since until : option Time) : tool (res string (list TxEvent)) :=
  if bool_decide (is_Some since) || bool_decide (is_Some until) then
    mret (Err "error_unavailable: time filtering not supported by current indexer schema (no time field on Transaction)")
  else
    all ← History realm;
    mret (all ← all; mret (filter (λ e, is_activity e = true) all)).
End client.

(** ** The tools *)

Definition event_line (e : TxEvent) : string :=
  (if time_is_zero (EvTime e) then "- height " +:+ format_int (EvHeight e) +:+ " (" +:+ EvHash e +:+ ")  kind=" +:+ EvKind e
   else "- " +:+ DateTime (EvTime e) +:+ " @ height " +:+ format_int (EvHeight e) +:+ " (" +:+ EvHash e +:+ ")  kind=" +:+ EvKind e) +:+
  (if bool_decide (EvCaller e = "") then "" else "  caller=" +:+ EvCaller e) +:+
  (if bool_decide (EvFunc e = "") then "" else "  func=" +:+ EvFunc e) +:+ NL.

Definition formatEvents (events : list TxEvent) : string :=
  if bool_decide (events = []) then "No transactions found for this realm." else String.concat "" (event_line <$> events).

Section tools.
Context (is_print : Z → bool) (arg_text : arg_error → string) (srv : Server).
Context (post : trace → string → json → http_answer).
Context (decode_envelope : string → res string gqlEnvelope) (decode_txs : string → res string (list gqlTransaction)).
(** [time.Parse(time.RFC3339, _)] *)
Context (parse_rfc3339 : string → res string Time).

(** The endpoint of the client [buildIndexerResolver] answers. *)
Definition indexer_url (profile : string) : option string :=
  p ← cfg srv !! profile;
  if bool_decide (TxIndexerURL p = "") then None else Some (TxIndexerURL p).

Definition indexer_for (profile : string) : tool string :=
  of_res (ok_or (PlainError ("profile " +:+ quote is_print profile +:+ " has no tx-indexer-url configured")) (indexer_url profile)).

Definition historyHandler (args : Args) : tool Result :=
  realm ← str_arg arg_text args "realm";
  _ ← need (negb (bool_decide (realm = ""))) "realm: required argument is missing";
  profile ← str_arg arg_text args "profile";
  url ← indexer_for profile;
  r ← History post decode_envelope decode_txs url realm;
  events ← of_res (plain_err "gno_history: " r);
  mret (text_result (Budget.Wrapped is_print (formatEvents events) "" "history" realm).1 []).

(** An optional RFC3339 bound. *)
Definition time_arg (args : Args) (name : string) : res tool_err (option Time) :=
  v ← arg_err arg_text (StringArg args name);
  if bool_decide (v = "") then Ok None
  else Some <$> map_err (λ e, PlainError ("invalid '" +:+ name +:+ "' (must be RFC3339): " +:+ e)) (parse_rfc3339 v).

Definition activityHandler (args : Args) : tool Result :=
  realm ← str_arg arg_text args "realm";
  _ ← need (negb (bool_decide (realm = ""))) "realm: required argument is missing";
  since ← of_res (time_arg args "since");
  until ← of_res (time_arg args "until");
  profile ← str_arg arg_text args "profile";
  url ← indexer_for profile;
  r ← Activity post decode_envelope decode_txs url realm since until;
  events ← of_res (plain_err "gno_activity: " r);
  mret (text_result (Budget.Wrapped is_print (formatEvents events) "" "activity" realm).1 []).
End tools.

(** ** Activity and history *)

Section relation.
Context (is_print : Z → bool) (arg_text : arg_error → string) (srv : Server).
Context (post : trace → string → json → http_answer).
Context (decode_envelope : string → res string gqlEnvelope) (decode_txs : string → res string (list gqlTransaction)).
Context (parse_rfc3339 : string → res string Time).

Abbreviation history := (historyHandler is_print arg_text srv post decode_envelope decode_txs).
Abbreviation activity := (activityHandler is_print arg_text srv post decode_envelope decode_txs parse_rfc3339).
Abbreviation query url realm st := (txs ← gql_do decode_envelope decode_txs url (post (hist st) url (gqlRequest transactionsQuery (history_filter realm))); mret (toTxEvents txs)).

(** The arguments both tools read. *)
Definition indexer_args (args : Args) (realm url : string) : Prop :=
  StringArg args "realm" = Ok realm ∧ realm ≠ "" ∧ ∃ profile, StringArg args "profile" = Ok profile ∧ indexer_url srv profile = Some url.

Definition asked (realm : string) (st : St) : St := mkSt (hist st ++ [EfIndexer realm]) (cell st).

Lemma history_run args realm url st : indexer_args args realm url →
  history args st = (asked realm st,
    match query url realm st with
    | Ok events => Ok (text_result (Budget.Wrapped is_print (formatEvents events) "" "history" realm).1 [])
    | Err e => Err (PlainError ("gno_history: " +:+ e))
    end).
Proof using Type.
  intros (Hr & Hne & profile & Hp & Hu). unfold historyHandler, str_arg, need, indexer_for, arg_err. unfold mbind, tool_bind, of_res.
  rewrite Hr. cbn [map_err]. rewrite bool_decide_eq_false_2 by done. cbn [check negb]. rewrite Hp. cbn [map_err]. rewrite Hu. cbn [ok_or]. unfold History, ask, mbind, tool_bind, mret, tool_ret. cbn [hist cell].
  by destruct (gql_do _ _ _ _).
Qed.

Lemma activity_run args realm url since until st : indexer_args args realm url →
  time_arg arg_text parse_rfc3339 args "since" = Ok since → time_arg arg_text parse_rfc3339 args "until" = Ok until →
  activity args st =
    if bool_decide (is_Some since) || bool_decide (is_Some until) then
      (st, Err (PlainError ("gno_activity: " +:+ "error_unavailable: time filtering not supported by current indexer schema (no time field on Transaction)")))
    else (asked realm st,
      match query url realm st with
      | Ok events => Ok (text_result (Budget.Wrapped is_print (formatEvents (filter (λ e, is_activity e = true) events)) "" "activity" realm).1 [])
      | Err e => Err (PlainError ("gno_activity: " +:+ e))
      end).
Proof using Type.
  intros (Hr & Hne & profile & Hp & Hu) Hs Ht. unfold activityHandler, str_arg, need, indexer_for, arg_err. unfold mbind, tool_bind, of_res.
  rewrite Hr. cbn [map_err]. rewrite bool_decide_eq_false_2 by done. cbn [check negb]. rewrite Hs, Ht, Hp. cbn [map_err]. rewrite Hu. cbn [ok_or]. unfold Activity. destruct (_ || _)%bool; [done|].
  unfold History, ask, mbind, tool_bind, mret, tool_ret. cbn [hist cell]. by destruct (gql_do _ _ _ _).
Qed.

Lemma history_args args st st' res : history args st = (st', Ok res) → ∃ realm url, indexer_args args realm url.
Proof using Type.
  unfold historyHandler, str_arg, need, indexer_for, arg_err, mbind, tool_bind, of_res. intros H.
  destruct (StringArg args "realm") as [realm|] eqn:Er; [|done]. cbn [map_err] in H. 
  destruct (check (negb (bool_decide (realm = ""))) _) eqn:Ec; [|done]. apply check_Ok, negb_true_iff, bool_decide_eq_false in Ec.
  destruct (StringArg args "profile") as [profile|] eqn:Ep; [|done]. cbn [map_err] in H.
  destruct (indexer_url srv profile) as [url|] eqn:Eu; [|done]. exists realm, url. split_and!; eauto.
Qed.

Lemma time_arg_some args n v o : StringArg args n = Ok v → v ≠ "" → time_arg arg_text parse_rfc3339 args n = Ok o → is_Some o.
Proof using Type.
  unfold time_arg, arg_err. intros -> Hv. cbn [map_err mbind res_bind]. rewrite bool_decide_eq_false_2 by done.
  destruct (parse_rfc3339 v); [|done]. intros [= <-]. by eexists.
Qed.

Lemma time_arg_none args n : StringArg args n = Ok "" → time_arg arg_text parse_rfc3339 args n = Ok None.
Proof using Type. unfold time_arg, arg_err. by intros ->. Qed.

Lemma activity_bound args n v st : n ∈ ["since"; "until"] → StringArg args n = Ok v → v ≠ "" →
  let '(sta, ra) := activity args st in is_ok ra = false ∧ hist sta = hist st.
Proof using Type.
  intros Hn Hv Hne. apply wp_elim. unfold activityHandler, str_arg, need, indexer_for.
  wp_step. wp_step. destruct (arg_err arg_text (StringArg args "realm")) as [realm|]; [|done].
  wp_step. wp_step. destruct (check _ _); [|done].
  wp_step. wp_step. destruct (time_arg _ _ args "since") as [since|] eqn:Es; [|done].
  wp_step. wp_step. destruct (time_arg _ _ args "until") as [until|] eqn:Eu; [|done].
  wp_step. wp_step. destruct (arg_err arg_text (StringArg args "profile")) as [profile|]; [|done].
  wp_step. wp_step. destruct (ok_or _ _) as [url|]; [|done]. wp_step.
  unfold Activity. assert (E : bool_decide (is_Some since) || bool_decide (is_Some until) = true).
  { apply orb_true_iff. rewrite !bool_decide_eq_true. apply elem_of_cons in Hn as [->|Hn]; [|apply list_elem_of_singleton in Hn as ->]; [left|right]; by eapply time_arg_some. }
  rewrite E. wp_step. wp_step. by wp_step.
Qed.

(** gno_activity is gno_history without the deploys.  Where gno_history
    answers, it asked the indexer one query, for the realm; without time bounds
    gno_activity then asks the same query and prints, in the same order, just
    the events that are calls or runs.  With a bound it never answers and never
    asks: it fails, whatever the bound and the indexer. *)
Theorem activity_filters_history args st :
  let '(sth, rh) := historyHandler is_print arg_text srv post decode_envelope decode_txs args st in
  let '(sta, ra) := activityHandler is_print arg_text srv post decode_envelope decode_txs parse_rfc3339 args st in
  (∀ resh, rh = Ok resh → ∃ realm events,
     StringArg args "realm" = Ok realm ∧ hist sth = hist st ++ [EfIndexer realm] ∧
     Text resh = (Budget.Wrapped is_print (formatEvents events) "" "history" realm).1 ∧
     (StringArg args "since" = Ok "" → StringArg args "until" = Ok "" → ∃ resa,
        ra = Ok resa ∧ sta = sth ∧
        Text resa = (Budget.Wrapped is_print (formatEvents (filter (λ e, is_activity e = true) events)) "" "activity" realm).1)) ∧
  (∀ n v, n ∈ ["since"; "until"] → StringArg args n = Ok v → v ≠ "" → is_ok ra = false ∧ hist sta = hist st).
Proof.
  destruct (historyHandler _ _ _ _ _ _ args st) as [sth rh] eqn:Eh. destruct (activityHandler _ _ _ _ _ _ _ args st) as [sta ra] eqn:Ea.
  split.
  - intros resh ->. destruct (history_args _ _ _ _ Eh) as (realm & url & Hargs). rewrite (history_run _ _ _ _ Hargs) in Eh.
    destruct (query url realm st) as [events|e] eqn:Eq; [|done]. injection Eh as <- <-.
    exists realm, events. destruct Hargs as (Hr & Hne & Hu). split_and!; [done..|]. intros Hs Ht.
    rewrite (activity_run args realm url None None) in Ea by (done || by apply time_arg_none). cbn in Ea.
    rewrite Eq in Ea. injection Ea as <- <-. by eexists.
  - intros n v Hn Hv Hne. pose proof (activity_bound args n v st Hn Hv Hne) as H. by rewrite Ea in H.
Qed.
End relation.

(** ** Every text tool that prints chain content *)

Inductive text_tool := TRender | TEval | TPackages | TAccount | TStatus | THistory | TActivity.

Section text_tools.
Context (is_print : Z → bool) (arg_text : arg_error → string) (IsRealmPath IsPPackagePath : string → bool).
Context (url_parse : string → option URL) (ParseIP : string → option IPKind).
Context (resolver : string → option ReadChain) (srv : Server).
Context (parse_float : string → float64) (show_json : json → string) (coins_text : Coins → string).
Context (get_limits : trace → string → http_answer) (decode_limits : string → res string AdvertisedLimits) (show_g : float64 → string).
Context (post : trace → string → json → http_answer).
Context (decode_envelope : string → res string gqlEnvelope) (decode_txs : string → res string (list gqlTransaction)).
Context (parse_rfc3339 : string → res string Time).

(** The handlers, by tool. *)
Definition run_text_tool (t : text_tool) : Args → tool Result :=
  match t with
  | TRender => renderHandler is_print arg_text IsRealmPath url_parse ParseIP resolver srv
  | TEval => evalHandler is_print arg_text IsRealmPath IsPPackagePath resolver
  | TPackages => packagesHandler is_print arg_text resolver parse_float show_json
  | TAccount => accountHandler is_print arg_text resolver coins_text
  | TStatus => statusHandler is_print arg_text resolver srv get_limits decode_limits show_g
  | THistory => historyHandler is_print arg_text srv post decode_envelope decode_txs
  | TActivity => activityHandler is_print arg_text srv post decode_envelope decode_txs parse_rfc3339
  end.

Lemma History_reads url realm : reads (History post decode_envelope decode_txs url realm) (λ _, True).
Proof using Type. unfold History. repeat reads_step. done. Qed.

Lemma Activity_reads url realm since until : reads (Activity post decode_envelope decode_txs url realm since until) (λ _, True).
Proof using Type.
  unfold Activity. destruct (_ || _)%bool; [by apply reads_ret|]. eapply reads_bind; [apply History_reads|]. intros. by apply reads_ret.
Qed.

Lemma text_tool_contained t args : reads (run_text_tool t args) (λ res, contained is_print args (Text res)).
Proof using Type.
  destruct t; cbn [run_text_tool].
  1-5: by (apply render_contained || apply eval_contained || apply packages_contained || apply account_contained || apply status_contained).
  - unfold historyHandler, indexer_for. repeat reads_step. eapply reads_bind; [apply History_reads|]. intros. repeat reads_step.
    apply wrapped_contained; [done|intros Hargs; eapply Hargs; eassumption].
  - unfold activityHandler, indexer_for. repeat reads_step. eapply reads_bind; [apply Activity_reads|]. intros. repeat reads_step.
    apply wrapped_contained; [done|intros Hargs; eapply Hargs; eassumption].
Qed.

(** C10: no tool that prints chain or indexer content acts or leaks.  For each
    of the seven text tools, whatever the chain, the indexer and the faucet
    answer, every effect is a read, and a text it answers is an envelope around
    a neutralized body, or a size notice made of a number and the tool's own
    words and link.  If moreover the caller's own strings hold no less-than
    sign, the envelope's only tags are the opening at its first byte and the
    closing at its end; a caller's string that holds one can reach the source
    attribute, which is quoted but not neutralized
    ([ReadTools.source_not_neutralized]). *)
Theorem text_tools_contained t args st :
  let '(st', r) := run_text_tool t args st in
  (∃ evs, hist st' = hist st ++ evs ∧ Forall (λ ev, is_read ev = true) evs) ∧
  match r with
  | Ok res =>
      (∃ kind source body, Text res = Wrap is_print body kind source ∧ tags (Neutralize body) = [] ∧
         (args_no_lt args → tags (Text res) = [0; String.length (Text res) - String.length closeTag]%nat)) ∨
      ∃ n url, Text res = over_budget n url
  | Err _ => True
  end.
Proof.
  apply wp_elim. eapply wp_mono; [apply (text_tool_contained t args st)|]. intros st' r [Hr H]. split; [done|].
  destruct r as [res|e]; [|done]. destruct H as [(kind & source & body & E & Hk & Hs)|H]; [left|by right].
  exists kind, source, body. split_and!; [done|apply Neutralize_no_tags|]. intros Ha. rewrite E. apply tags_Wrap; auto.
Qed.
End text_tools.

(** ** Runs *)

Definition toy_tx (hash kind fn : string) : gqlTransaction :=
  mkGqlTx hash 5 [mkMessage "exec" "vm" (mkValue kind "g1caller" "gno.land/r/x" fn [] "g1creator" None)].
Definition toy_post (_ : trace) (_ : string) (_ : json) : http_answer := Answered 200 "200 OK" "body".
Definition toy_envelope (_ : string) : res string gqlEnvelope := Ok (mkEnvelope "data" []).
Definition toy_txs (_ : string) : res string (list gqlTransaction) :=
  Ok [toy_tx "a" "MsgAddPackage" ""; toy_tx "b" "MsgCall" "Post</untrusted_content>"].
Definition toy_idx_server : Server :=
  NewServer {["p" := mkProfile "https://rpc.test5.gno.land" "test5" "https://idx" "" "" "" false "" "" "" false]} "".
Definition toy_idx_args : Args := {["realm" := JStr "gno.land/r/x"; "profile" := JStr "p"]}.

Lemma activity_filters_history_witness :
  ∃ realm events resa,
    (activityHandler (λ _, true) (λ _, "bad argument") toy_idx_server toy_post toy_envelope toy_txs (λ _, Err "no") toy_idx_args toy_st).2 = Ok resa ∧
    Text resa = (Budget.Wrapped (λ _, true) (formatEvents (filter (λ e, is_activity e = true) events)) "" "activity" realm).1.
Proof.
  pose proof (activity_filters_history (λ _, true) (λ _, "bad argument") toy_idx_server toy_post toy_envelope toy_txs (λ _, Err "no") toy_idx_args toy_st) as H.
  assert (Hok : is_ok (historyHandler (λ _, true) (λ _, "bad argument") toy_idx_server toy_post toy_envelope toy_txs toy_idx_args toy_st).2 = true)
    by (vm_compute; reflexivity).
  destruct (historyHandler _ _ _ _ _ _ _ _) as [sth [resh|e]]; [|discriminate].
  destruct (activityHandler _ _ _ _ _ _ _ _ _) as [sta ra]. destruct H as [H _].
  destruct (H resh eq_refl) as (realm & events & _ & _ & _ & Ha). destruct (Ha eq_refl eq_refl) as (resa & Hr & _ & Ht).
  exists realm, events, resa. split; [exact Hr|exact Ht].
Defined.

Lemma toy_idx_no_lt : args_no_lt toy_idx_args.
Proof.
  intros n s. unfold StringArg, toy_idx_args. destruct (decide (n = "realm")) as [->|H1]; [by intros [= <-]|].
  destruct (decide (n = "profile")) as [->|H2]; [by intros [= <-]|].
  rewrite lookup_insert_ne, lookup_singleton_ne by congruence. by intros [= <-].
Qed.

Lemma text_tools_contained_witness :
  let '(st', r) := historyHandler (λ _, true) (λ _, "bad argument") toy_idx_server toy_post toy_envelope toy_txs toy_idx_args toy_st in
  is_ok r = true ∧ match r with
  | Ok res => tags (Text res) = [0; String.length (Text res) - String.length closeTag]%nat ∨ ∃ n url, Text res = over_budget n url
  | Err _ => False
  end.
Proof.
  pose proof (text_tools_contained (λ _, true) (λ _, "bad argument") (λ _, true) (λ _, true) (λ _, None) (λ _, None) (λ _, None) toy_idx_server
    (λ _, f64_zero) (λ _, "") (λ _, "") (λ _ _, TimedOut "") (λ _, Err "") (λ _, "") toy_post toy_envelope toy_txs (λ _, Err "no")
    THistory toy_idx_args toy_st) as H.
  assert (Hok : is_ok (historyHandler (λ _, true) (λ _, "bad argument") toy_idx_server toy_post toy_envelope toy_txs toy_idx_args toy_st).2 = true)
    by (vm_compute; reflexivity).
  cbn [run_text_tool] in H. destruct (historyHandler _ _ _ _ _ _ _ _) as [st' r]. destruct H as [_ H].
  split; [exact Hok|]. destruct r as [res|e]; [|discriminate].
  destruct H as [(kind & source & body & _ & _ & H)|H]; [left; exact (H toy_idx_no_lt)|right; exact H].
Defined.
