(* ===== verification/ProfileCmd.v ===== *)
(** * The gnomcp profile command

    [cmd/gnomcp/profile.go]: the command line that edits the user's profile
    file, the flag parser it uses, and that the commands the tools print for
    the user to paste are read back as meant.  The file system, the TOML codec
    and the gnoweb fetch are arguments. *)
From S2P Require Import Prelude GoText Regex Profiles ServerCore Handlers ProfileAdd ReadTools.
From stdpp Require Import prelude strings gmap list sorting.
From Stdlib Require Import ZArith Lia Ascii String.
Local Open Scope Z_scope.

Definition isReservedName (name : string) : bool :=
  bool_decide (name = "default") || bool_decide (is_Some (BuiltinProfiles !! name)).

Record profileAddOpts := mkOpts { FromGnoweb : string; OptRPC : string; OptChainID : string; OptMaster : string; OptIndexerURL : string }.

(** ** Flags *)

Inductive flag_error := BadFlagSyntax (arg : string) | FlagHelp | FlagUndefined (name : string) | FlagNeedsArgument (name : string).

(** [-name], [--name], [-name=value]: the name and the value if attached. *)
Inductive flag_word := NotAFlag | EndOfFlags | BadWord | FlagWord (name : string) (value : option string).

(** The part of a word before its first [=], and what follows it. *)
Definition cut_equals (s : string) : string * option string :=
  match span (λ a, negb (Ascii.eqb a "=")) s with
  | (name, String _ value) => (name, Some value)
  | (name, EmptyString) => (name, None)
  end.

Definition flag_of (s : string) : flag_word :=
  match s with
  | String "-" (String b t as rest) =>
      let body := if Ascii.eqb b "-" then t else rest in
      if Ascii.eqb b "-" && bool_decide (t = "") then EndOfFlags
      else match body with
      | EmptyString => BadWord
      | String c _ => if Ascii.eqb c "-" || Ascii.eqb c "=" then BadWord else let '(n, v) := cut_equals body in FlagWord n v
      end
  | _ => NotAFlag
  end.

(** [fs.StringVar]'s setters, by flag name. *)
Definition set_flag (o : profileAddOpts) (name value : string) : option profileAddOpts :=
  if bool_decide (name = "from-gnoweb") then Some (mkOpts value (OptRPC o) (OptChainID o) (OptMaster o) (OptIndexerURL o))
  else if bool_decide (name = "rpc") then Some (mkOpts (FromGnoweb o) value (OptChainID o) (OptMaster o) (OptIndexerURL o))
  else if bool_decide (name = "chain-id") then Some (mkOpts (FromGnoweb o) (OptRPC o) value (OptMaster o) (OptIndexerURL o))
  else if bool_decide (name = "master") then Some (mkOpts (FromGnoweb o) (OptRPC o) (OptChainID o) value (OptIndexerURL o))
  else if bool_decide (name = "indexer-url") then Some (mkOpts (FromGnoweb o) (OptRPC o) (OptChainID o) (OptMaster o) value)
  else None.

Definition no_opts : profileAddOpts := mkOpts "" "" "" "" "".

(** [fs.Parse]: flags up to the first word that is none; the rest is ignored. *)
Fixpoint parse_flags (o : profileAddOpts) (args : list string) : res flag_error profileAddOpts :=
  match args with
  | [] => Ok o
  | s :: args =>
      match flag_of s with
      | NotAFlag | EndOfFlags => Ok o
      | BadWord => Err (BadFlagSyntax s)
      | FlagWord name value =>
          match set_flag o name "" with
          | None => Err (if bool_decide (name = "help") || bool_decide (name = "h") then FlagHelp else FlagUndefined name)
          | Some _ =>
              match value, args with
              | Some v, _ => parse_flags (default o (set_flag o name v)) args
              | None, v :: args => parse_flags (default o (set_flag o name v)) args
              | None, [] => Err (FlagNeedsArgument name)
              end
          end
      end
  end.

Inductive parse_error := NameRequired | FlagError (e : flag_error).

Definition parseProfileAddArgs (args : list string) : res parse_error (string * profileAddOpts) :=
  match args with
  | [] => Err NameRequired
  | name :: rest =>
      if has_prefix name "-" then Err NameRequired
      else o ← map_err FlagError (parse_flags no_opts rest); mret (name, o)
  end.

(** ** The file *)

Inductive cmd_error :=
  | CReserved (name : string)
  | CDiscover (e : string)
  | CNeedEndpoint
  | CLoad (path : string)
  | CNotFound (name path : string)
  | CResolve (e : profile_error)
  | CWrite (e : write_error).

Section file.
Context {W : Type} (os_open : W → string → open_result) (Load : string → option Config).
Context (Encode : Config → option string) (WriteFileAtomic : W → string → string → Z → W * option string).
Context (AddressFromBech32 : string → bool) (url_parse : string → option URL) (order : Config → list (string * Profile)).
(** [gnoweb.Discover] *)
Context (discover : string → res string Conn).

Abbreviation write := (WriteFile AddressFromBech32 url_parse order Encode WriteFileAtomic).

Definition loadGlobal (w : W) (path : string) : res cmd_error Config :=
  match os_open w path with
  | NotExist => Ok ∅
  | OpenError => Err (CLoad path)
  | Contents b => ok_or (CLoad path) (Load b)
  end.

Definition added_profile (rpc chainID : string) (opts : profileAddOpts) : Profile :=
  mkProfile rpc chainID (OptIndexerURL opts) "" "" "" false (OptMaster opts) "" "" false.

Definition endpoint_opts (opts : profileAddOpts) : res cmd_error (string * string) :=
  rc ← (if bool_decide (FromGnoweb opts = "") then Ok (OptRPC opts, OptChainID opts)
        else conn ← map_err CDiscover (discover (FromGnoweb opts)); mret (RPC conn, ConnChainID conn));
  _ ← check (negb (bool_decide (rc.1 = "") || bool_decide (rc.2 = ""))) CNeedEndpoint;
  mret rc.

Definition write_config (w : W) (path : string) (c : Config) : W * res cmd_error unit :=
  let '(w, r) := write w path c in (w, map_err CWrite r).

Definition profileAdd (w : W) (path name : string) (opts : profileAddOpts) : W * res cmd_error unit :=
  if isReservedName name then (w, Err (CReserved name))
  else match (rc ← endpoint_opts opts; cur ← loadGlobal w path; mret (rc, cur)) with
  | Err e => (w, Err e)
  | Ok (rc, cur) => write_config w path (<[name := added_profile rc.1 rc.2 opts]> cur)
  end.

Definition profileRemove (w : W) (path name : string) : W * res cmd_error unit :=
  match loadGlobal w path with
  | Err e => (w, Err e)
  | Ok cur =>
      match cur !! name with
      | None => (w, Err (CNotFound name path))
      | Some _ => write_config w path (delete name cur)
      end
  end.

(** [%-ns]: padded on the right to [n] runes. *)
Fixpoint rune_count (n : nat) (s : string) : nat :=
  match n, s with
  | S n, String _ t => S (rune_count n (match decode_rune s with Some (_, rest) => rest | None => t end))
  | _, _ => 0
  end.
Definition pad_right (w : nat) (s : string) : string :=
  s +:+ String.concat "" (repeat " " (w - rune_count (String.length s) s)).

Definition list_line (n : string) (p : Profile) : string :=
  let mode := if bool_decide (MasterAddress p = "") then "read-only" else "writable" in
  pad_right 12 n +:+ " " +:+ pad_right 10 (ChainID p) +:+ " " +:+ RPCURL p +:+ "  [" +:+ mode +:+ "]" +:+ NL.

Definition profileList (w : W) (path : string) : res cmd_error string :=
  c ← map_err CResolve (LoadResolved AddressFromBech32 url_parse order (os_open w) Load
        {| GlobalPath := path; ProjectPath := "profiles.toml"; ExplicitPath := "" |});
  mret (String.concat "" ((λ np : string * Profile, list_line np.1 np.2) <$> sorted_profiles c)).

(** What [runProfile] prints, and whether the process exits with 1. *)
Inductive outcome := Usage | UnknownSubcommand (s : string) | AddUsage (e : parse_error) | Failed (e : cmd_error) | Printed (text : string).

Context (is_print : Z → bool).

Definition done_ {A} (w : W) (r : res cmd_error A) (text : A → string) : W * outcome :=
  (w, match r with Ok a => Printed (text a) | Err e => Failed e end).

Definition runProfile (w : W) (path : string) (args : list string) : W * outcome :=
  match args with
  | [] => (w, Usage)
  | sub :: rest =>
      if bool_decide (sub = "list") then done_ w (profileList w path) id
      else if bool_decide (sub = "add") then
        match parseProfileAddArgs rest with
        | Err e => (w, AddUsage e)
        | Ok (name, o) =>
            let '(w, r) := profileAdd w path name o in
            done_ w r (λ _, "added profile " +:+ quote is_print name +:+ " to " +:+ path +:+ NL)
        end
      else if bool_decide (sub = "remove") then
        match rest with
        | [] => (w, Usage)
        | name :: _ => let '(w, r) := profileRemove w path name in done_ w r (λ _, "removed profile " +:+ quote is_print name +:+ NL)
        end
      else (w, UnknownSubcommand sub)
  end.
End file.

(** ** Pasted commands *)

Lemma safe_no_space w : safe_word w = true → str_forall (λ a, negb (Ascii.eqb a " ")) w = true.
Proof.
  intros H%safe_word_all. apply (str_forall_impl shell_safe); [|done].
  intros a. by apply (class_sub_spec shell_safe (λ a, negb (Ascii.eqb a " "))).
Qed.

(** Safe words on a line are what the shell splits it into. *)
Lemma split_safe_words w l : Forall (λ w, safe_word w = true) (w :: l) →
  split_byte " " (GoText.join " " (w :: l)) = w :: l.
Proof. intros H. apply split_byte_join. eapply Forall_impl; [exact H|]. apply safe_no_space. Qed.

(** The words of [gnomcp profile add] after the name. *)
Definition add_words (rpc chain idx : string) : list string :=
  ["--rpc"; rpc; "--chain-id"; chain] ++ (if bool_decide (idx = "") then [] else ["--indexer-url"; idx]).

Lemma parse_add_words name rpc chain idx : starts_alnum name = true →
  parseProfileAddArgs (name :: add_words rpc chain idx) = Ok (name, mkOpts "" rpc chain "" idx).
Proof.
  intros Hn. unfold parseProfileAddArgs. assert (Hp : has_prefix name "-" = false).
  { apply not_true_iff_false. by intros (r & ->)%has_prefix_spec. }
  rewrite Hp. unfold add_words. destruct (decide (idx = "")) as [->|Hi]; [done|]. by rewrite bool_decide_eq_false_2.
Qed.

Section pasted.
Context {W : Type} (os_open : W → string → open_result) (Load : string → option Config).
Context (Encode : Config → option string) (WriteFileAtomic : W → string → string → Z → W * option string).
Context (AddressFromBech32 : string → bool) (url_parse : string → option URL) (order : Config → list (string * Profile)).

(** What the file system and the TOML codec promise: a file written is read
    back, and an encoded configuration decodes to itself. *)
Class FileLaws : Prop := {
  written w path b mode w' : WriteFileAtomic w path b mode = (w', None) → os_open w' path = Contents b;
  encoded c b : Encode c = Some b → Load b = Some c;
  ordered c : order c ≡ₚ map_to_list c;
}.
Context {laws : FileLaws}.

Abbreviation valid := (Validate AddressFromBech32 url_parse order).
Abbreviation load := (loadGlobal os_open Load).

Lemma Validate_Forall c : c ≠ ∅ →
  valid c = Ok tt ↔ map_Forall (λ n p, validate_profile AddressFromBech32 url_parse n p = Ok tt) c.
Proof using laws.
  intros Hne. unfold Validate. rewrite bool_decide_eq_false_2, validate_all_Ok, ordered by done.
  rewrite map_Forall_to_list. split; intros H; (eapply Forall_impl; [exact H|]); by intros [n p].
Qed.

(** A configuration the file may hold: empty or valid. *)
Definition file_ok (c : Config) : Prop := c = ∅ ∨ valid c = Ok tt.

Lemma insert_valid c n p : file_ok c → validate_profile AddressFromBech32 url_parse n p = Ok tt → valid (<[n:=p]> c) = Ok tt.
Proof using laws.
  intros Hc Hp. apply Validate_Forall; [apply insert_non_empty|]. apply map_Forall_insert_2; [done|].
  destruct Hc as [->|Hc]; [apply map_Forall_empty|]. apply Validate_Forall; [|done]. by intros ->.
Qed.

(** Writing a configuration: it is then what the file holds, or it was refused,
    or encoding or the disk failed. *)
Lemma write_config_spec w path c :
  let '(w', r) := write_config Encode WriteFileAtomic AddressFromBech32 url_parse order w path c in
  match r with
  | Ok _ => load w' path = Ok c ∧ file_ok c
  | Err e => (∃ e', e = CWrite (WInvalid e') ∧ w' = w ∧ ¬ file_ok c) ∨ e = CWrite WEncode ∨ ∃ msg, e = CWrite (WWrite msg)
  end.
Proof using laws.
  unfold write_config, WriteFile. destruct (if bool_decide (c = ∅) then _ else _) as [[]|e] eqn:Ev; cycle 1.
  { left. exists e. split_and!; [done..|]. intros [->|Hc]; [by rewrite bool_decide_eq_true_2 in Ev|].
    case_bool_decide; [done|]. by rewrite Hc in Ev. }
  destruct (Encode c) as [b|] eqn:Ee; [|simpl; auto].
  destruct (WriteFileAtomic w path b 384) as [w' [msg|]] eqn:Ew; simpl; [right; right; by eexists|].
  unfold loadGlobal. rewrite (written _ _ _ _ _ Ew), (encoded _ _ Ee). split; [done|].
  destruct (decide (c = ∅)) as [->|Hne]; [by left|right]. by rewrite bool_decide_eq_false_2 in Ev.
Qed.
End pasted.

(** ** The commands *)

Section commands.
Context {W : Type} (os_open : W → string → open_result) (Load : string → option Config).
Context (Encode : Config → option string) (WriteFileAtomic : W → string → string → Z → W * option string).
Context (AddressFromBech32 : string → bool) (url_parse : string → option URL) (order : Config → list (string * Profile)).
Context {laws : FileLaws os_open Load Encode WriteFileAtomic order}.
Context (discover : string → res string Conn).

Abbreviation load := (loadGlobal os_open Load).
Abbreviation add := (profileAdd os_open Load Encode WriteFileAtomic AddressFromBech32 url_parse order discover).
Abbreviation remove := (profileRemove os_open Load Encode WriteFileAtomic AddressFromBech32 url_parse order).
Abbreviation okfile := (file_ok AddressFromBech32 url_parse order).

(** What adding an explicit endpoint does. *)
Lemma profileAdd_spec w path name rpc chain idx cur :
  isReservedName name = false → load w path = Ok cur → okfile cur →
  validate_profile AddressFromBech32 url_parse name (added_profile rpc chain (mkOpts "" rpc chain "" idx)) = Ok tt →
  let '(w', r) := add w path name (mkOpts "" rpc chain "" idx) in
  match r with
  | Ok _ => load w' path = Ok (<[name := added_profile rpc chain (mkOpts "" rpc chain "" idx)]> cur)
  | Err e => e = CWrite WEncode ∨ ∃ msg, e = CWrite (WWrite msg)
  end.
Proof using laws.
  intros Hn Hl Hf Hv. unfold profileAdd. rewrite Hn, Hl. unfold endpoint_opts.
  assert (Hne : rpc ≠ "" ∧ chain ≠ "").
  { unfold validate_profile in Hv. inv_unless. b2p. done. }
  cbn [FromGnoweb OptRPC OptChainID bool_decide mbind res_bind mret res_ret fst snd].
  rewrite (bool_decide_eq_true_2 ("" = "")) by done. cbn [mbind res_bind fst snd].
  rewrite !bool_decide_eq_false_2 by apply Hne. cbn [orb negb check mbind res_bind mret res_ret fst snd].
  pose proof (write_config_spec os_open Load Encode WriteFileAtomic AddressFromBech32 url_parse order w path
    (<[name := added_profile rpc chain (mkOpts "" rpc chain "" idx)]> cur)) as H.
  destruct (write_config _ _ _ _ _ _ _ _) as [w' [u|e]]; [by apply H|].
  destruct H as [(e' & -> & _ & Hbad)|H]; [|done]. exfalso. apply Hbad. right. by eapply insert_valid.
Qed.

(** An endpoint with a valid RPC URL and chain-id validates. *)
Lemma endpoint_valid name rpc chain idx : ValidRPCURL rpc = true → ChainIDValid chain = true →
  validate_profile AddressFromBech32 url_parse name (added_profile rpc chain (mkOpts "" rpc chain "" idx)) = Ok tt.
Proof using Type.
  intros Hr Hc. unfold validate_profile, unless, validate_faucet, added_profile.
  cbn [RPCURL ChainID DefaultExpiresIn DefaultSpendLimit BypassHardLimits MasterAddress FaucetURL FaucetServiceURL OptMaster].
  pose proof (ValidRPCURL_safe _ Hr) as [Hr' _]. pose proof (ChainIDValid_safe _ Hc) as [Hc' _].
  rewrite Hr, Hc. unfold safe_word in *.
  rewrite (bool_decide_eq_false_2 (rpc = "")) by (by intros ->). rewrite (bool_decide_eq_false_2 (chain = "")) by (by intros ->). done.
Qed.

Lemma connect_command_words name conn :
  connect_command name conn = GoText.join " " ("gnomcp" :: "profile" :: "add" :: name :: add_words (RPC conn) (ConnChainID conn) "").
Proof using Type. reflexivity. Qed.

(** C21: the commands gnomcp tells its user to paste do what they say.  When
    gno_connect answers, it fetched the page the caller named once, and its
    command is a line of shell-safe words that the shell splits back into
    themselves; [gnomcp profile add] reads from them exactly the endpoint the
    page's head names, under the name the caller asked for, or the chain-id.
    If that name is reserved, running the command is refused and changes
    nothing ([connect_suggests_reserved]: gno_connect does not check).
    Otherwise, on a profile file that is absent, empty or valid, it leaves in
    the file what was there plus that one profile, or fails to encode or to
    write — it is never refused as invalid. *)
Theorem connect_command_runs is_print arg_text get_page args st :
  let '(st', r) := connectHandler is_print arg_text get_page args st in
  ∀ res, r = Ok res → ∃ url status tokens name conn words,
    StringArg args "gnoweb_url" = Ok url ∧ hist st' = hist st ++ [EfDiscover url] ∧ get_page (hist st) url = Ok (status, tokens) ∧
    conn = mkConn (last_meta metaNameRPC "" (metas (head_of tokens))) (last_meta metaNameChainID "" (metas (head_of tokens))) ∧
    (StringArg args "name" = Ok name ∧ name ≠ "" ∨
     name = ConnChainID conn ∧ ∀ n, StringArg args "name" = Ok n → n = "") ∧
    ("command", JStr (connect_command name conn)) ∈ StructuredContent res ∧
    words = "gnomcp" :: "profile" :: "add" :: name :: add_words (RPC conn) (ConnChainID conn) "" ∧
    Forall (λ w, safe_word w = true) words ∧ split_byte " " (connect_command name conn) = words ∧
    parseProfileAddArgs (drop 3 words) = Ok (name, mkOpts "" (RPC conn) (ConnChainID conn) "" "") ∧
    ∀ w path cur,
      loadGlobal os_open Load w path = Ok cur → file_ok AddressFromBech32 url_parse order cur →
      let '(w', out) := runProfile os_open Load Encode WriteFileAtomic AddressFromBech32 url_parse order discover is_print w path (drop 2 words) in
      if isReservedName name then w' = w ∧ out = Failed (CReserved name)
      else match out with
      | Printed _ => loadGlobal os_open Load w' path = Ok (<[name := endpoint (RPC conn) (ConnChainID conn)]> cur)
      | Failed e => e = CWrite WEncode ∨ ∃ msg, e = CWrite (WWrite msg)
      | _ => False
      end.
Proof.
  apply wp_elim. unfold connectHandler, str_arg, need, plain_err.
  wp_res url Eu. wp_res u1 E1. do 2 wp_step. wp_res conn Ec. apply map_err_Ok in Ec.
  apply Discover_reads_head in Ec as (status & tokens & Hget & Econn & _). wp_res u2 E2. wp_res u3 E3. wp_res u4 E4.
  set (name := connect_name args conn) in *. wp_step. intros res [= <-]. rewrite check_Ok in E2, E3, E4.
  assert (Hsafe : Forall (λ w, safe_word w = true) ("gnomcp" :: "profile" :: "add" :: name :: add_words (RPC conn) (ConnChainID conn) "")).
  { repeat (apply Forall_cons; split); try done; [by apply ValidProfileName_safe|by apply ValidRPCURL_safe|by apply ChainIDValid_safe]. }
  apply arg_err_Ok in Eu. exists url, status, tokens, name, conn. eexists.
  split_and!; [exact Eu|done|exact Hget|exact Econn| |cbn; set_solver|reflexivity|exact Hsafe| | |].
  - unfold name, connect_name. destruct (StringArg args "name") as [n|]; [|right; by rewrite bool_decide_eq_true_2].
    destruct (decide (n = "")) as [En|En]; [rewrite bool_decide_eq_true_2 by done; right; split; [done|]; by intros ? [= <-]|].
    rewrite bool_decide_eq_false_2 by done. by left.
  - rewrite connect_command_words. by apply split_safe_words.
  - cbn [drop]. apply parse_add_words. by apply ValidProfileName_safe.
  - intros w path cur Hl Hf. cbn [drop]. unfold runProfile. cbn [bool_decide].
    rewrite (bool_decide_eq_false_2 ("add" = "list")), (bool_decide_eq_true_2 ("add" = "add")) by done.
    rewrite parse_add_words by (by apply ValidProfileName_safe).
    destruct (isReservedName name) eqn:Hres; [unfold profileAdd; by rewrite Hres|].
    pose proof (profileAdd_spec w path name _ _ "" cur Hres Hl Hf (endpoint_valid name _ _ "" E3 E2)) as H.
    destruct (profileAdd _ _ _ _ _ _ _ _ _ _ _ _) as [w' [u|e]]; cbn [done_]; exact H.
Qed.
End commands.

(** ** Runs *)

Definition toy_connect (name : string) : res tool_err Result :=
  (connectHandler (λ _, true) (λ _, "bad argument") (λ _ _, Ok (200, onyx_page))
     {["gnoweb_url" := JStr "https://onyx.gno.land"; "name" := JStr name]} toy_st).2.

(** A suggested name that the command refuses. *)
Example connect_suggests_reserved : is_ok (toy_connect "testnet") = true ∧ isReservedName "testnet" = true.
Proof. vm_compute. split; reflexivity. Qed.

(** A chain-id with a dot is refused as a name, and offered as the example of one. *)
Definition dotted_page : list token :=
  [StartTag "head" []; StartTag "meta" [("name", metaNameRPC); ("content", "https://rpc.test.gno.land")];
   StartTag "meta" [("name", metaNameChainID); ("content", "test.5")]; EndTag "head"].
Example connect_bad_example :
  (connectHandler (λ _, true) (λ _, "bad argument") (λ _ _, Ok (200, dotted_page)) {["gnoweb_url" := JStr "https://gno.land"]} toy_st).2 =
  Err (PlainError ("gno_connect: profile name " +:+ quote (λ _, true) "test.5" +:+
    " must be lowercase alphanumeric with '-' or '_' (e.g. " +:+ quote (λ _, true) "test.5" +:+ ")")).
Proof. vm_compute. reflexivity. Qed.

(** The list calls a writable chain read-only when it has no master address. *)
Example list_calls_local_read_only :
  IsReadOnly (endpoint "http://127.0.0.1:26657" "dev") = false ∧
  has_suffix (list_line "local" (endpoint "http://127.0.0.1:26657" "dev")) ("[read-only]" +:+ NL) = true.
Proof. vm_compute. split; reflexivity. Qed.

#[local] Instance Profile_eq_dec : EqDecision Profile.
Proof. solve_decision. Defined.

Abbreviation toy_files := (gmap string string).
Definition toy_open_file (w : toy_files) (path : string) : open_result :=
  match w !! path with None => NotExist | Some b => Contents b end.
Definition toy_entry : Config := {["onyx-1" := endpoint "https://rpc.onyx.gno.land" "onyx-1"]}.
Definition toy_encode (c : Config) : option string := if decide (c = toy_entry) then Some "onyx" else None.
Definition toy_load (b : string) : option Config := Some toy_entry.
Definition toy_write (w : toy_files) (path b : string) (_ : Z) : toy_files * option string := (<[path := b]> w, None).

#[export] Instance toy_laws : FileLaws toy_open_file toy_load toy_encode toy_write map_to_list.
Proof.
  split; [| |done].
  - intros w path b mode w' [= <-]. unfold toy_open_file. by rewrite lookup_insert_eq.
  - intros c b. unfold toy_encode, toy_load. destruct (decide (c = toy_entry)) as [->|]; by intros [= <-].
Qed.

Definition toy_connect_args : Args := {["gnoweb_url" := JStr "https://onyx.gno.land"]}.

Definition toy_run (words : list string) : toy_files * outcome :=
  runProfile toy_open_file toy_load toy_encode toy_write (λ _, true) (λ _, None) map_to_list (λ _, Err "no") (λ _, true) ∅ "f" words.

Lemma connect_command_runs_witness :
  ∃ name conn words, parseProfileAddArgs (drop 3 words) = Ok (name, mkOpts "" (RPC conn) (ConnChainID conn) "" "") ∧
    split_byte " " (connect_command name conn) = words ∧
    (isReservedName name = false → let '(w', out) := toy_run (drop 2 words) in
       match out with
       | Printed _ => loadGlobal toy_open_file toy_load w' "f" = Ok {[name := endpoint (RPC conn) (ConnChainID conn)]}
       | Failed e => e = CWrite WEncode ∨ ∃ msg, e = CWrite (WWrite msg)
       | _ => False
       end).
Proof.
  pose proof (connect_command_runs toy_open_file toy_load toy_encode toy_write (λ _, true) (λ _, None) map_to_list (λ _, Err "no")
    (λ _, true) (λ _, "bad argument") (λ _ _, Ok (200, onyx_page)) toy_connect_args toy_st) as H.
  assert (Hok : is_ok (connectHandler (λ _, true) (λ _, "bad argument") (λ _ _, Ok (200, onyx_page)) toy_connect_args toy_st).2 = true)
    by (vm_compute; reflexivity).
  destruct (connectHandler _ _ _ _ _) as [st' [res|e]]; [|discriminate].
  destruct (H res eq_refl) as (url & status & tokens & name & conn & words & _ & _ & _ & _ & _ & _ & _ & _ & Hsplit & Hparse & Hrun).
  exists name, conn, words. split; [exact Hparse|]. split; [exact Hsplit|].
  intros Hn. specialize (Hrun ∅ "f" ∅ eq_refl (or_introl eq_refl)). rewrite Hn in Hrun. exact Hrun.
Defined.

(** The command of a discovered chain, run on an absent file. *)
Example toy_run_onyx :
  let '(w', out) := toy_run ["add"; "onyx-1"; "--rpc"; "https://rpc.onyx.gno.land"; "--chain-id"; "onyx-1"] in
  w' !! "f" = Some "onyx" ∧ out = Printed ("added profile " +:+ dq +:+ "onyx-1" +:+ dq +:+ " to f" +:+ NL).
Proof. vm_compute. split; reflexivity. Qed.
