(* ===== verification/ClaInfo.v ===== *)
(** * gno_cla_info

    The reading half of [internal/tools/write/clasign.go]: the state of the
    chain's contributor agreement, extracted by two regular expressions from
    the page of a realm, which is not trusted. *)
From S2P Require Import Prelude GoText Regex Untrusted Profiles ServerCore Handlers WriteTools AddPkg ReadTools.
From stdpp Require Import prelude strings gmap list.
From Stdlib Require Import ZArith Lia Ascii String.
Local Open Scope Z_scope.

Definition claDisabledMarker : string := "CLA enforcement is currently DISABLED".

(** ** Searching ([FindStringSubmatch]) *)

(** The submatch of the leftmost match; [match_at] matches at a position. *)
Fixpoint find_submatch (match_at : string → option string) (s : string) : option string :=
  match match_at s with
  | Some m => Some m
  | None => match s with EmptyString => None | String _ t => find_submatch match_at t end
  end.

Definition is_hex_char (a : ascii) : bool := is_digit a || one_of "abcdefABCDEF" a.
Definition skip_space (s : string) : string := (span re_space s).2.

(** A nonempty run of a class that ends right before [stop]. *)
Definition run_until (p : ascii → bool) (stop s : string) : option string :=
  let '(run, rest) := span p s in
  if bool_decide (run = "") then None else if has_prefix rest stop then Some run else None.

Definition BT : string := String "096"%char EmptyString.

Definition claHashRe (s : string) : option string :=
  s ← cut_prefix "**Required Hash**" s;
  s ← cut_prefix "|" (skip_space s);
  s ← cut_prefix BT (skip_space s);
  run_until is_hex_char BT s.

Definition url_char (a : ascii) : bool := negb (Ascii.eqb a ")") && negb (re_space a).

(** [\((https?://[^)\s]+)\)] after the closing bracket. *)
Definition link_target (s : string) : option string :=
  s ← cut_prefix "(" s;
  let try pre := rest ← cut_prefix pre s; run ← run_until url_char ")" rest; Some (pre +:+ run) in
  match try "https://" with Some u => Some u | None => try "http://" end.

(** [.*?\]] and the target: the first bracket on the line that works. *)
Fixpoint link_text (s : string) : option string :=
  match (t ← cut_prefix "]" s; link_target t) with
  | Some u => Some u
  | None => match s with
            | EmptyString => None
            | String a t => if Ascii.eqb a "010"%char then None else link_text t
            end
  end.

Definition claURLRe (s : string) : option string := t ← cut_prefix "[" s; link_text t.

(** ** The handler *)

Section cla_info.
Context (is_print : Z → bool) (arg_text : arg_error → string) (srv : Server).
(** The [Render] of the client a profile resolves to. *)
Context (resolver : string → option (trace → string → string → res string string)).

Definition cla_action : string := "Show this URL to the user and ask for confirmation before signing with gno_cla_sign".

Definition cla_text (hash url : string) : string :=
  "CLA information fetched from " +:+ claRealm +:+ NL +:+ NL +:+ "Required Hash: " +:+ hash +:+ NL +:+
  (if bool_decide (url = "") then ""
   else "CLA document URL (realm-reported):" +:+ NL +:+ Wrap is_print url "cla_url" claRealm +:+ NL +:+ NL) +:+
  "ACTION REQUIRED: Show the CLA URL to the user and ask for their explicit confirmation before signing with gno_cla_sign and the hash above." +:+ NL.

Definition cla_disabled : Result :=
  text_result ("CLA enforcement is disabled on " +:+ claRealm +:+ " — no signature is required to deploy." +:+ NL) [("enabled", JBool false)].

Definition cla_result (hash url : string) : Result :=
  text_result (cla_text hash url)
    [("enabled", JBool true); ("hash", JStr hash); ("cla_url", JStr url); ("action_required", JStr cla_action)].

(** What a page says. *)
Definition cla_answer (rendered : string) : res tool_err Result :=
  if contains rendered claDisabledMarker then Ok cla_disabled
  else match find_submatch claHashRe rendered with
  | None => Err (ToolError "cla_hash_not_found"
      ("could not extract the required CLA hash from " +:+ claRealm +:+ " — the realm format may have changed") (extra1 "realm" claRealm))
  | Some hash => Ok (cla_result hash (default "" (find_submatch claURLRe rendered)))
  end.

Definition claInfoHandler (args : Args) : tool Result :=
  np ← of_res (requireProfile is_print arg_text args srv);
  render ← of_res (ok_or (PlainError ("profile " +:+ quote is_print np.1 +:+ ": no chain client available")) (resolver np.1));
  r ← ask (EfRender claRealm "") (λ tr, render tr claRealm "");
  rendered ← of_res (plain_err ("gno_cla_info: render " +:+ claRealm +:+ ": ") r);
  of_res (cla_answer rendered).
End cla_info.

(** ** What a hostile page can say *)

Lemma find_submatch_some match_at s m :
  find_submatch match_at s = Some m → ∃ pre t, s = pre +:+ t ∧ match_at t = Some m.
Proof.
  induction s as [|a s IH]; cbn [find_submatch]; destruct (match_at _) eqn:E.
  1, 3: intros [= <-]; by eexists "", _.
  - done.
  - intros (pre & t & -> & H)%IH. by exists (String a pre), t.
Qed.

Lemma find_submatch_none match_at pre t : find_submatch match_at (pre +:+ t) = None → match_at t = None.
Proof.
  induction pre as [|a pre IH]; [rewrite str_app_nil_l|rewrite str_app_cons; cbn [find_submatch]].
  - destruct t; cbn [find_submatch]; by destruct (match_at _).
  - destruct (match_at (String a _)); [done|exact IH].
Qed.

Lemma run_until_spec p stop s m :
  run_until p stop s = Some m → m ≠ "" ∧ str_forall p m = true ∧ ∃ t, s = m +:+ stop +:+ t.
Proof.
  unfold run_until. pose proof (span_forall p s) as H. pose proof (span_app p s) as Ha.
  destruct (span p s) as [run rest]. simpl in H, Ha.
  case_bool_decide; [done|]. destruct (has_prefix rest stop) eqn:E; [|done]. intros [= <-].
  apply has_prefix_spec in E as [t ->]. split_and!; try done. by exists t.
Qed.

Lemma run_until_hit p a m t : m ≠ "" → str_forall p m = true → p a = false →
  run_until p (String a "") (m +:+ String a t) = Some m.
Proof.
  intros Hm Hp Ha. unfold run_until. rewrite (span_unique p m (String a t) Hp Ha), bool_decide_eq_false_2 by done.
  replace (has_prefix _ _) with true; [done|]. symmetry. apply has_prefix_spec. by exists t.
Qed.

(** *** Reading a page, without the expressions *)

Definition only (class : list ascii) (s : string) : Prop := str_forall (λ a, bool_decide (a ∈ class)) s = true.
Definition blanks : list ascii := [" "; "009"; "010"; "012"; "013"]%char.
Definition hexadecimal (s : string) : Prop := s ≠ "" ∧ str_forall (one_of "0123456789abcdefABCDEF") s = true.

(** The page's table row gives the hash in backquotes. *)
Definition announces (page hash : string) : Prop := hexadecimal hash ∧ ∃ pre s1 s2 post,
  only blanks s1 ∧ only blanks s2 ∧ page = pre +:+ "**Required Hash**" +:+ s1 +:+ "|" +:+ s2 +:+ BT +:+ hash +:+ BT +:+ post.

(** An http(s) address that is one word, without a closing parenthesis. *)
Definition link_word (u : string) : Prop := ∃ pre w, u = pre +:+ w ∧ pre ∈ ["https://"; "http://"] ∧ w ≠ "" ∧
  str_forall (λ a, bool_decide (a ∉ ")"%char :: blanks)) w = true.

(** The page has a Markdown link to it, its text on one line. *)
Definition links_to (page u : string) : Prop := link_word u ∧ ∃ pre text post,
  str_forall (λ a, negb (Ascii.eqb a "010"%char)) text = true ∧ page = pre +:+ "[" +:+ text +:+ "](" +:+ u +:+ ")" +:+ post.

Lemma class_same (p q : ascii → bool) s : class_sub p q = true → class_sub q p = true → str_forall p s = str_forall q s.
Proof.
  intros H1 H2. apply eq_true_iff_eq. split; apply str_forall_impl; intros a; by apply class_sub_spec.
Qed.
Lemma only_space s : only blanks s ↔ str_forall re_space s = true.
Proof. unfold only. rewrite (class_same _ re_space) by (vm_compute; reflexivity). done. Qed.
Lemma hexadecimal_class s : hexadecimal s ↔ s ≠ "" ∧ str_forall is_hex_char s = true.
Proof. unfold hexadecimal. rewrite (class_same _ is_hex_char) by (vm_compute; reflexivity). done. Qed.
Lemma link_class w : str_forall (λ a, bool_decide (a ∉ ")"%char :: blanks)) w = str_forall url_char w.
Proof. apply class_same; vm_compute; reflexivity. Qed.

Lemma skip_space_split s : ∃ x, only blanks x ∧ s = x +:+ skip_space s.
Proof. exists (span re_space s).1. rewrite only_space. split; [apply span_forall|symmetry; apply span_app]. Qed.
Lemma skip_space_stop x a y : only blanks x → re_space a = false → skip_space (x +:+ String a y) = String a y.
Proof. intros Hx%only_space Ha. unfold skip_space. by rewrite (span_unique re_space x (String a y)). Qed.

Lemma claHashRe_announces page hash : find_submatch claHashRe page = Some hash → announces page hash.
Proof.
  intros (pre & t & -> & H)%find_submatch_some. unfold claHashRe in H.
  apply bind_Some in H as (t1 & ->%cut_prefix_Some & H).
  destruct (skip_space_split t1) as (s1 & Hs1 & E1). apply bind_Some in H as (t2 & Ht2%cut_prefix_Some & H).
  destruct (skip_space_split t2) as (s2 & Hs2 & E2). apply bind_Some in H as (t3 & Ht3%cut_prefix_Some & H).
  apply run_until_spec in H as (Hne & Hhex & t4 & ->). split; [by apply hexadecimal_class|].
  exists pre, s1, s2, t4. split_and!; try done. rewrite E1, Ht2, E2, Ht3. by rewrite ?str_app_assoc.
Qed.

Lemma claHashRe_none page : find_submatch claHashRe page = None → ∀ hash, ¬ announces page hash.
Proof.
  intros H hash ([Hne Hhex]%hexadecimal_class & pre & s1 & s2 & post & Hs1 & Hs2 & ->).
  apply find_submatch_none in H. unfold claHashRe in H.
  rewrite cut_prefix_app in H. cbn [mbind option_bind] in H.
  change ("|" +:+ ?x) with (String "|" x) in H. rewrite skip_space_stop in H by done.
  change (String "|" ?x) with ("|" +:+ x) in H. rewrite cut_prefix_app in H. cbn [mbind option_bind] in H.
  change (BT +:+ hash +:+ ?x) with (String "096" (hash +:+ x)) in H. rewrite skip_space_stop in H by done.
  change (String "096" ?x) with (BT +:+ x) in H. rewrite cut_prefix_app in H. cbn [mbind option_bind] in H.
  change (BT +:+ post) with (String "096" post) in H. unfold BT in H. by rewrite run_until_hit in H.
Qed.

Lemma link_text_some s u : link_text s = Some u → ∃ text t,
  str_forall (λ a, negb (Ascii.eqb a "010"%char)) text = true ∧ s = text +:+ "]" +:+ t ∧ link_target t = Some u.
Proof.
  assert (Hit : ∀ s v, (t ← cut_prefix "]" s; link_target t) = Some v → ∃ t, s = "]" +:+ t ∧ link_target t = Some v).
  { intros s' v (t & ->%cut_prefix_Some & H)%bind_Some. by exists t. }
  induction s as [|a s IH]; cbn [link_text].
  - destruct (_ ≫= _) as [v|] eqn:E; [|done]. intros [= <-]. apply Hit in E as (t & Ht & H). by exists "", t.
  - destruct (_ ≫= _) as [v|] eqn:E.
    + intros [= <-]. apply Hit in E as (t & Ht & H). by exists "", t.
    + destruct (Ascii.eqb a "010") eqn:Ea; [done|]. intros (text & t & H1 & -> & H2)%IH.
      exists (String a text), t. cbn [str_forall]. rewrite Ea. done.
Qed.

Lemma link_text_none text t : str_forall (λ a, negb (Ascii.eqb a "010"%char)) text = true →
  link_text (text +:+ "]" +:+ t) = None → link_target t = None.
Proof.
  induction text as [|a text IH].
  - intros _. rewrite str_app_nil_l. change ("]" +:+ t) with (String "]" t). cbn [link_text].
    change (String "]" t) with ("]" +:+ t). rewrite cut_prefix_app. cbn [mbind option_bind]. by destruct (link_target t).
  - cbn [str_forall]. intros [Ha Ht]%andb_true_iff. rewrite str_app_cons. cbn [link_text].
    destruct (_ ≫= _); [done|]. apply negb_true_iff in Ha. rewrite Ha. by apply IH.
Qed.

Lemma link_target_some t u : link_target t = Some u → link_word u ∧ ∃ post, t = "(" +:+ u +:+ ")" +:+ post.
Proof.
  unfold link_target. intros (x & ->%cut_prefix_Some & H)%bind_Some.
  assert (Htry : ∀ pre v, pre ∈ ["https://"; "http://"] →
    (rest ← cut_prefix pre x; run ← run_until url_char ")" rest; Some (pre +:+ run)) = Some v →
    link_word v ∧ ∃ post, "(" +:+ x = "(" +:+ v +:+ ")" +:+ post).
  { intros pre v Hpre Hp. apply bind_Some in Hp as (r & ->%cut_prefix_Some & Hp). apply bind_Some in Hp as (w & Hw & [= <-]).
    apply run_until_spec in Hw as (Hne & Hall & post & ->). split.
    - exists pre, w. by rewrite link_class.
    - exists post. by rewrite !str_app_assoc. }
  destruct (cut_prefix "https://" x ≫= _) as [v|] eqn:E.
  - injection H as ->. apply (Htry "https://" _ ltac:(set_solver) E).
  - apply (Htry "http://" _ ltac:(set_solver) H).
Qed.

Lemma link_target_none u post : link_word u → link_target ("(" +:+ u +:+ ")" +:+ post) ≠ None.
Proof.
  intros (pre & w & -> & Hpre & Hne & Hw). rewrite link_class in Hw. unfold link_target.
  rewrite cut_prefix_app. cbn [mbind option_bind]. change (")" +:+ post) with (String ")" post).
  apply elem_of_cons in Hpre as [-> | ->%list_elem_of_singleton]; rewrite !str_app_assoc.
  - rewrite cut_prefix_app. cbn [mbind option_bind]. by rewrite run_until_hit.
  - destruct (cut_prefix "https://" _ ≫= _); [done|].
    rewrite cut_prefix_app. cbn [mbind option_bind]. by rewrite run_until_hit.
Qed.

Lemma claURLRe_links page u : find_submatch claURLRe page = Some u → links_to page u.
Proof.
  intros (pre & t & -> & H)%find_submatch_some. apply bind_Some in H as (t1 & ->%cut_prefix_Some & H).
  apply link_text_some in H as (text & t2 & Htext & -> & H). apply link_target_some in H as (Hu & post & ->).
  split; [done|]. exists pre, text, post. done.
Qed.

Lemma claURLRe_none page : find_submatch claURLRe page = None → ∀ u, ¬ links_to page u.
Proof.
  intros H u (Hu & pre & text & post & Htext & ->). apply find_submatch_none in H. unfold claURLRe in H.
  rewrite cut_prefix_app in H. cbn [mbind option_bind] in H.
  change ("](" +:+ ?x) with ("]" +:+ "(" +:+ x) in H. apply link_text_none in H; [|done].
  by apply link_target_none in H.
Qed.

Lemma hex_no_lt s : str_forall is_hex_char s = true → no_lt s = true.
Proof. apply str_forall_impl. intros a. by apply (class_sub_spec is_hex_char (λ a, negb (Ascii.eqb a "<"))). Qed.

(** The answer to a page that announces [hash] and links to [url], or to
    nothing: the link is inside an envelope of its own, and nothing else of
    the text is a tag. *)
Definition cla_shown (is_print : Z → bool) (page hash url : string) (res : Result) : Prop :=
  res = cla_result is_print hash url ∧ announces page hash ∧
  ((url = "" ∧ (∀ u, ¬ links_to page u) ∧ no_lt (Text res) = true) ∨
   (links_to page url ∧ ∃ pre post,
      Text res = pre +:+ Wrap is_print url "cla_url" claRealm +:+ post ∧ no_lt pre = true ∧ no_lt post = true)).

(** What is said of a page that announces no hash. *)
Definition cla_hash_not_found : tool_err :=
  ToolError "cla_hash_not_found"
    ("could not extract the required CLA hash from " +:+ claRealm +:+ " — the realm format may have changed") (extra1 "realm" claRealm).

(** What is said of a page. *)
Definition cla_reading (is_print : Z → bool) (page : string) (r : res tool_err Result) : Prop :=
  if contains page claDisabledMarker then r = Ok cla_disabled
  else (r = Err cla_hash_not_found ∧ ∀ hash, ¬ announces page hash) ∨
       ∃ hash url res, r = Ok res ∧ cla_shown is_print page hash url res.

Lemma link_ne u : link_word u → u ≠ "".
Proof. intros (p & w & -> & _ & Hw & _). by destruct p; [destruct w|]. Qed.

Lemma cla_result_shown is_print page hash :
  announces page hash →
  let url := default "" (find_submatch claURLRe page) in cla_shown is_print page hash url (cla_result is_print hash url).
Proof.
  intros Ha. split_and!; try done.
  set (pre := "CLA information fetched from " +:+ claRealm +:+ NL +:+ NL +:+ "Required Hash: " +:+ hash +:+ NL).
  set (post := "ACTION REQUIRED: Show the CLA URL to the user and ask for their explicit confirmation before signing with gno_cla_sign and the hash above." +:+ NL).
  assert (Hpre : no_lt pre = true).
  { destruct Ha as [[_ Hhex]%hexadecimal_class _].
    unfold pre, no_lt. rewrite !str_forall_app. fold (no_lt hash). by rewrite (hex_no_lt hash). }
  cbn [cla_result text_result Text].
  destruct (find_submatch claURLRe page) as [url|] eqn:Eu; cbn [default]; [right|left].
  - apply claURLRe_links in Eu. split; [done|].
    exists (pre +:+ "CLA document URL (realm-reported):" +:+ NL), (NL +:+ NL +:+ post).
    unfold cla_text. rewrite bool_decide_eq_false_2 by (apply link_ne, Eu). split_and!.
    + unfold pre, post. by rewrite !str_app_assoc.
    + unfold no_lt in *. by rewrite !str_forall_app, Hpre.
    + done.
  - split_and!; [done|by apply claURLRe_none|]. assert (E : cla_text is_print hash "" = pre +:+ post).
    { unfold cla_text, pre, post. rewrite bool_decide_eq_true_2 by done. by rewrite !str_app_assoc. }
    rewrite E. unfold no_lt in *. by rewrite str_forall_app, Hpre.
Qed.

Lemma cla_answer_reading is_print page : cla_reading is_print page (cla_answer is_print page).
Proof.
  unfold cla_reading, cla_answer. destruct (contains page claDisabledMarker); [done|].
  destruct (find_submatch claHashRe page) as [hash|] eqn:Eh.
  - right. eexists hash, _, _. split; [done|]. by apply cla_result_shown, claHashRe_announces.
  - left. split; [done|]. by apply claHashRe_none.
Qed.

(** C22: a hostile agreement page reaches the user only as a hash and a link.
    gno_cla_info asks at most one thing, the page of gno.land/r/sys/cla, and
    without it says why, in words no page has a part in: the profile is not
    usable, has no client, or the render failed. Of a page that carries the
    disabled notice it says the fixed notice; of one that announces no
    hexadecimal hash in the row's place, a fixed error; of any other, the
    tool's own words around such a hash of the page and its Markdown link, if it
    has one to an http(s) word without space or closing parenthesis, whose
    envelope then holds the only tags of the text. *)
Theorem claInfoHandler_contained is_print arg_text srv resolver args st :
  let '(st', r) := claInfoHandler is_print arg_text srv resolver args st in
  (hist st' = hist st ∧
   ((∃ e, requireProfile is_print arg_text args srv = Err e ∧ r = Err e) ∨
    ∃ np, requireProfile is_print arg_text args srv = Ok np ∧ resolver np.1 = None ∧
      r = Err (PlainError ("profile " +:+ quote is_print np.1 +:+ ": no chain client available")))) ∨
  (hist st' = hist st ++ [EfRender claRealm ""] ∧
   ∃ np render, requireProfile is_print arg_text args srv = Ok np ∧ resolver np.1 = Some render ∧
     match render (hist st) claRealm "" with
     | Err e => r = Err (PlainError ("gno_cla_info: render " +:+ claRealm +:+ ": " +:+ e))
     | Ok page => cla_reading is_print page r
     end).
Proof.
  apply wp_elim. unfold claInfoHandler. do 2 wp_step. destruct (requireProfile _ _ _ _) as [np|e]; [|left; eauto].
  do 2 wp_step. destruct (resolver np.1) as [render|] eqn:Er; cbn [ok_or]; [|left; split; [done|]; right; by exists np].
  do 2 wp_step. do 2 wp_step. cbn [hist].
  destruct (render (hist st) claRealm "") as [page|e] eqn:Ep; cbn [plain_err map_err].
  - wp_step. right. split; [done|]. exists np, render. split_and!; try done. rewrite Ep. apply cla_answer_reading.
  - right. split; [done|]. exists np, render. split_and!; try done. by rewrite Ep.
Qed.

(** ** Runs *)

Definition toy_page : string :=
  "| **Required Hash** | " +:+ BT +:+ "a1B2" +:+ BT +:+ " |" +:+ NL +:+ "[sign]($help) [the <b>text](https://gno.land/cla<x>) end".
Definition toy_cla (page : string) : res tool_err Result :=
  (claInfoHandler (λ _, true) (λ _, "bad argument") toy_read_server (λ _, Some (λ _ _ _, Ok page)) {["profile" := JStr "p"]} toy_st).2.

Example toy_cla_page : toy_cla toy_page = Ok (cla_result (λ _, true) "a1B2" "https://gno.land/cla<x>").
Proof. vm_compute. reflexivity. Qed.
Example toy_cla_off : toy_cla claDisabledMarker = Ok cla_disabled.
Proof. vm_compute. reflexivity. Qed.
Example toy_cla_odd : toy_cla ("<b>" +:+ toy_page) = toy_cla toy_page ∧ toy_cla "**Required Hash** none" = Err cla_hash_not_found.
Proof. split; vm_compute; reflexivity. Qed.
