(* ===== verification/Registration.v ===== *)
(** * Tool registration

    What each [Register*] function of [internal/tools] declares (name, input
    schema, capability, hints, self-auditing), the profile argument of each
    family, [cmd/gnomcp/register.go]'s list of tools and its gates, and that a
    tool reads no argument its schema does not declare.  Descriptions, patterns
    and formats, which no code reads, are left out. *)
From S2P Require Import Prelude GoText GoTime Untrusted Profiles ChainTypes ChainClient SessionManager Keystore ServerCore Handlers WriteTools.
From S2P Require Import KeyTools Parked AddPkg TxTools SessionTools ProfileAdd FaucetTool KeyLife ReadTools IndexerTools ClaInfo.
From stdpp Require Import prelude strings gmap list sorting.
From Stdlib Require Import ZArith Lia Ascii String.
Local Open Scope Z_scope.

(** ** Input schemas *)

Inductive prop_type := PString | PBoolean | PInteger | PStrings | PObjects (fields : list string).

Record prop := mkProp { PType : prop_type; PEnum : option (list string); PDefault : option json }.

(** The properties and the required ones; additional properties are refused. *)
Record input_schema := mkInput { Props : list (string * prop); Req : list string }.

Definition prop_of (t : prop_type) : prop := mkProp t None None.
Definition identity_prop : prop := mkProp PString (Some ["agent"; "session"]) None.
Definition flag_prop : prop := mkProp PBoolean None (Some (JBool false)).

Definition default_prop (d : string) : option json := if bool_decide (d = "") then None else Some (JStr d).
Definition require_profile (ps : ProfileSchema) (req : list string) : list string :=
  req ++ (if Required ps then ["profile"] else []).

(** [addProfileArg] of the read tools: any name, a default if there is one. *)
Definition addProfileArg_read (s : Server) (i : input_schema) : input_schema :=
  let ps := Schema s in
  mkInput (Props i ++ [("profile", mkProp PString None (default_prop (Default ps)))]) (require_profile ps (Req i)).

(** The profiles of the schema that pass a filter. *)
Definition kept_profiles (s : Server) (keep : Profile → bool) : list string :=
  filter (λ n, keep (default (endpoint "" "") (cfg s !! n)) = true) (Enum (Schema s)).

Definition addProfileArgFiltered (keep : Profile → bool) (s : Server) (i : input_schema) : input_schema :=
  let ps := Schema s in
  let d := Default ps in
  mkInput (Props i ++ [("profile", mkProp PString (Some (kept_profiles s keep))
             (if negb (bool_decide (d = "")) && keep (default (endpoint "" "") (cfg s !! d)) then Some (JStr d) else None))])
          (require_profile ps (Req i)).

(** [addProfileArg] of the indexer tools: profiles with an indexer. *)
Definition has_indexer (p : Profile) : bool := negb (bool_decide (TxIndexerURL p = "")).
Definition addProfileArg_indexer : Server → input_schema → input_schema := addProfileArgFiltered has_indexer.

Definition profileWritableBySession (p : Profile) : bool := negb (bool_decide (Profiles.MasterAddress p = "")).
Definition profileSessionEligible (p : Profile) : bool := negb (IsReadOnly p).
Definition profileWritableByAgent (p : Profile) : bool := negb (IsReadOnly p).

Definition addProfileArg : Server → input_schema → input_schema := addProfileArgFiltered profileSessionEligible.
Definition addAgentProfileArg : Server → input_schema → input_schema := addProfileArgFiltered profileWritableByAgent.
Definition addTestnetProfileArg : Server → input_schema → input_schema := addProfileArgFiltered IsTestnet.
Definition addWritableProfileArg : Server → input_schema → input_schema :=
  addProfileArgFiltered (λ p, profileWritableByAgent p || profileWritableBySession p).

Definition addOptionalKeyArg (i : input_schema) : input_schema := mkInput (Props i ++ [("key", prop_of PString)]) (Req i).

Definition no_input : input_schema := mkInput [] [].

(** *** Read tools *)

Definition renderInputSchema (s : Server) : input_schema :=
  addProfileArg_read s (mkInput [("realm", prop_of PString); ("path", prop_of PString)] ["realm"]).
Definition evalInputSchema (s : Server) : input_schema :=
  addProfileArg_read s (mkInput [("path", prop_of PString); ("expr", prop_of PString)] ["path"; "expr"]).
Definition readInputSchema (s : Server) : input_schema :=
  addProfileArg_read s (mkInput
    [("path", prop_of PString); ("file", prop_of PString); ("symbols", prop_of PStrings); ("full", prop_of PBoolean)] ["path"]).
Definition packagesInputSchema (s : Server) : input_schema :=
  addProfileArg_read s (mkInput [("path", prop_of PString); ("limit", prop_of PInteger)] ["path"]).
Definition accountInputSchema (s : Server) : input_schema := addProfileArg_read s (mkInput [("address", prop_of PString)] ["address"]).
Definition statusInputSchema (s : Server) : input_schema := addProfileArg_read s no_input.
Definition connectInputSchema : input_schema := mkInput [("gnoweb_url", prop_of PString); ("name", prop_of PString)] ["gnoweb_url"].

(** *** Indexer tools *)

Definition historyInputSchema (s : Server) : input_schema := addProfileArg_indexer s (mkInput [("realm", prop_of PString)] ["realm"]).
Definition activityInputSchema (s : Server) : input_schema :=
  addProfileArg_indexer s (mkInput [("realm", prop_of PString); ("since", prop_of PString); ("until", prop_of PString)] ["realm"]).

(** *** Write tools *)

Definition callInputSchema (s : Server) : input_schema :=
  addOptionalKeyArg (addWritableProfileArg s (mkInput
    [("realm", prop_of PString); ("func", prop_of PString); ("args", prop_of PStrings); ("send", prop_of PString);
     ("simulate", flag_prop); ("identity", identity_prop)] ["realm"; "func"])).
Definition runInputSchema (s : Server) : input_schema :=
  addOptionalKeyArg (addWritableProfileArg s (mkInput
    [("code", prop_of PString); ("simulate", flag_prop); ("identity", identity_prop)] ["code"])).
Definition claInfoInputSchema (s : Server) : input_schema := addProfileArgFiltered profileWritableByAgent s no_input.
Definition claSignInputSchema (s : Server) : input_schema :=
  addOptionalKeyArg (addProfileArgFiltered profileWritableByAgent s (mkInput [("hash", prop_of PString)] ["hash"])).
Definition authStatusInputSchema (s : Server) : input_schema := addProfileArg s no_input.
Definition sessionProposeInputSchema (s : Server) : input_schema :=
  addProfileArg s (mkInput
    [("allow_paths", prop_of PStrings); ("allow_run", flag_prop); ("spend_limit", prop_of PString);
     ("expires_in", prop_of PString); ("master_address", prop_of PString)] []).
Definition sessionRevokeInputSchema (s : Server) : input_schema :=
  addProfileArg s (mkInput [("session_address", prop_of PString)] ["session_address"]).
Definition addpkgInputSchema (s : Server) : input_schema :=
  addOptionalKeyArg (addAgentProfileArg s (mkInput
    [("deploy_path", prop_of PString); ("files", prop_of (PObjects ["name"; "body"])); ("simulate", flag_prop)] ["deploy_path"; "files"])).
Definition keySendInputSchema (s : Server) : input_schema :=
  addTestnetProfileArg s (mkInput
    [("from", mkProp PString None (Some (JStr "default"))); ("to", prop_of PString); ("amount", prop_of PInteger)] ["to"; "amount"]).
Definition keyAddrInputSchema (s : Server) : input_schema := addOptionalKeyArg (addAgentProfileArg s no_input).
Definition keyListInputSchema (s : Server) : input_schema := addAgentProfileArg s no_input.
Definition keyGenInputSchema (s : Server) : input_schema := addOptionalKeyArg (addTestnetProfileArg s no_input).
Definition keyDeleteInputSchema (s : Server) : input_schema :=
  let i := addOptionalKeyArg (addTestnetProfileArg s (mkInput [] ["key"])) in
  mkInput (Props i ++ [("sweep_to", prop_of PString); ("force", prop_of PBoolean)]) (Req i).
Definition faucetFundInputSchema (s : Server) : input_schema := addOptionalKeyArg (addTestnetProfileArg s no_input).
Definition profileAddInputSchema : input_schema :=
  mkInput ((λ n, (n, prop_of PString)) <$> ["name"; "rpc_url"; "chain_id"; "gnoweb_url"; "tx_indexer_url"; "faucet_service_url"; "faucet_url"]) ["name"].

(** ** Declarations *)

Record tool_decl := mkDecl {
  DName : string; DInput : input_schema; DKind : OutputKind; DCap : Capability; DAnn : Annotations; DSelf : bool;
}.

Definition no_ann : Annotations := mkAnn false false false false.
Definition read_ann : Annotations := mkAnn true false true true.
Definition tx_ann : Annotations := mkAnn false true false true.

Definition RegisterRender s := mkDecl "gno_render" (renderInputSchema s) OutputText CapBaseRead no_ann false.
Definition RegisterEval s := mkDecl "gno_eval" (evalInputSchema s) OutputText CapBaseRead no_ann false.
Definition RegisterRead s := mkDecl "gno_read" (readInputSchema s) OutputResource CapBaseRead no_ann false.
Definition RegisterPackages s := mkDecl "gno_packages" (packagesInputSchema s) OutputText CapBaseRead read_ann false.
Definition RegisterAccount s := mkDecl "gno_account" (accountInputSchema s) OutputText CapBaseRead read_ann false.
Definition RegisterStatus s := mkDecl "gno_status" (statusInputSchema s) OutputText CapBaseRead read_ann false.
Definition RegisterConnect := mkDecl "gno_connect" connectInputSchema OutputText CapBaseRead read_ann false.
Definition RegisterProfileList := mkDecl "gno_profile_list" no_input OutputText CapBaseRead (mkAnn true false true false) false.
Definition RegisterHistory s := mkDecl "gno_history" (historyInputSchema s) OutputText CapIndexerRead read_ann false.
Definition RegisterActivity s := mkDecl "gno_activity" (activityInputSchema s) OutputText CapIndexerRead read_ann false.
Definition RegisterCall s := mkDecl "gno_call" (callInputSchema s) OutputText CapWrite tx_ann true.
Definition RegisterRun s := mkDecl "gno_run" (runInputSchema s) OutputText CapWrite tx_ann true.
Definition RegisterCLAInfo s := mkDecl "gno_cla_info" (claInfoInputSchema s) OutputText CapWritePrep read_ann false.
Definition RegisterCLASign s := mkDecl "gno_cla_sign" (claSignInputSchema s) OutputText CapWrite tx_ann true.
Definition RegisterAuthStatus s := mkDecl "gno_auth_status" (authStatusInputSchema s) OutputText CapWritePrep (mkAnn true false true false) false.
Definition RegisterSessionPropose s := mkDecl "gno_session_propose" (sessionProposeInputSchema s) OutputText CapWritePrep (mkAnn false false true false) false.
Definition RegisterSessionRevoke s := mkDecl "gno_session_revoke" (sessionRevokeInputSchema s) OutputText CapWritePrep (mkAnn false true true false) false.
Definition RegisterAddPkg s := mkDecl "gno_addpkg" (addpkgInputSchema s) OutputText CapWrite tx_ann true.
Definition RegisterKeySend s := mkDecl "gno_key_send" (keySendInputSchema s) OutputText CapWrite tx_ann false.
Definition RegisterKeyAddress s := mkDecl "gno_key_address" (keyAddrInputSchema s) OutputText CapBaseRead (mkAnn true false true false) false.
Definition RegisterKeyList s := mkDecl "gno_key_list" (keyListInputSchema s) OutputText CapBaseRead (mkAnn true false true false) false.
Definition RegisterKeyGenerate s := mkDecl "gno_key_generate" (keyGenInputSchema s) OutputText CapWrite no_ann false.
Definition RegisterKeyDelete s := mkDecl "gno_key_delete" (keyDeleteInputSchema s) OutputText CapWrite tx_ann false.
Definition RegisterFaucetFund s := mkDecl "gno_faucet_fund" (faucetFundInputSchema s) OutputText CapWrite (mkAnn false false true true) false.
Definition RegisterProfileAdd := mkDecl "gno_profile_add" profileAddInputSchema OutputText CapWritePrep (mkAnn false false true true) false.

(** [registerAllTools]: what it adds, in order. *)
Definition registerAllTools (s : Server) : list tool_decl :=
  [RegisterRender s; RegisterEval s; RegisterRead s; RegisterPackages s; RegisterAccount s; RegisterStatus s; RegisterConnect; RegisterProfileList] ++
  (if AnyProfileHasIndexer s then [RegisterHistory s; RegisterActivity s] else []) ++
  [RegisterCall s; RegisterRun s; RegisterCLAInfo s; RegisterCLASign s; RegisterAuthStatus s; RegisterSessionPropose s; RegisterSessionRevoke s;
   RegisterAddPkg s; RegisterKeySend s; RegisterKeyAddress s; RegisterKeyList s; RegisterKeyGenerate s; RegisterKeyDelete s] ++
  (if AnyProfileTestnet s then [RegisterFaucetFund s] else []) ++
  [RegisterProfileAdd].

(** ** Declared arguments *)

Definition arg_names (d : tool_decl) : list string := (Props (DInput d)).*1.

(** The type a schema gives a property, and the arguments that respect it:
    an integer is one an int64 holds. *)
Definition type_of (i : input_schema) (n : string) : option prop_type :=
  PType ∘ snd <$> find (λ np, String.eqb np.1 n) (Props i).

Section fits.
Context (parse_float : string → float64).

Definition is_str (v : json) : bool := match v with JStr _ => true | _ => false end.
Definition typed (t : prop_type) (v : json) : bool :=
  match t, v with
  | PString, JStr _ => true
  | PBoolean, JBool _ => true
  | PInteger, JNum lit => SpecFloat.SFeqb (parse_float lit) (f64_of_int (f64_to_int64 (parse_float lit)))
  | PStrings, JArr l => forallb is_str l
  | PObjects fs, JArr l => forallb (λ v, match v with JObj o => forallb (λ f, existsb (λ fv, String.eqb fv.1 f && is_str fv.2) o) fs | _ => false end) l
  | _, _ => false
  end.

Definition conforms (i : input_schema) (args : Args) : Prop :=
  ∀ n t v, type_of i n = Some t → args !! n = Some v → typed t v = true.

(** A handler (of the text of an argument error and the arguments) fits a
    declaration: it depends on no argument outside the schema, and never
    reports an argument of the wrong type when the types are the schema's. *)
Definition fits {A} (d : tool_decl) (h : (arg_error → string) → Args → A) : Prop :=
  (∀ arg_text args args', (∀ n, n ∈ arg_names d → args !! n = args' !! n) → h arg_text args = h arg_text args') ∧
  (∀ arg_text arg_text' args, conforms (DInput d) args → h arg_text args = h arg_text' args).

Section readers.
Context (args args' : Args) (n : string) (Hn : args !! n = args' !! n).

Lemma StringArg_ext : StringArg args n = StringArg args' n.
Proof using Hn. unfold StringArg. by rewrite Hn. Qed.
Lemma BoolArg_ext : BoolArg args n = BoolArg args' n.
Proof using Hn. unfold BoolArg. by rewrite Hn. Qed.
Lemma StringSliceArg_ext : StringSliceArg args n = StringSliceArg args' n.
Proof using Hn. unfold StringSliceArg. by rewrite Hn. Qed.
Lemma Int64Arg_ext : Int64Arg parse_float args n = Int64Arg parse_float args' n.
Proof using Hn. unfold Int64Arg. by rewrite Hn. Qed.
End readers.

Section typed_readers.
Context (i : input_schema) (args : Args) (Hc : conforms i args) (n : string).

Lemma StringArg_typed : type_of i n = Some PString → ∃ s, StringArg args n = Ok s.
Proof using Hc.
  intros H. unfold StringArg. destruct (args !! n) as [v|] eqn:E; [|eauto].
  pose proof (Hc _ _ _ H E). destruct v; try done. eauto.
Qed.
Lemma BoolArg_typed : type_of i n = Some PBoolean → ∃ b, BoolArg args n = Ok b.
Proof using Hc.
  intros H. unfold BoolArg. destruct (args !! n) as [v|] eqn:E; [|eauto].
  pose proof (Hc _ _ _ H E). destruct v; try done. eauto.
Qed.
Lemma string_elems_typed m k l : forallb is_str l = true → ∃ ss, string_elems m k l = Ok ss.
Proof using Type.
  revert k. induction l as [|v l IH]; intros k H; [cbn; eauto|].
  cbn in H. apply andb_true_iff in H as [Hv Hl]. destruct v; try done.
  destruct (IH (S k) Hl) as [ss E]. cbn. rewrite E. cbn. eauto.
Qed.
Lemma StringSliceArg_typed : type_of i n = Some PStrings → ∃ l, StringSliceArg args n = Ok l.
Proof using Hc.
  intros H. unfold StringSliceArg. destruct (args !! n) as [v|] eqn:E; [|eauto].
  pose proof (Hc _ _ _ H E) as T. destruct v; try done. cbn in T.
  destruct (string_elems_typed n 0 l T) as [ss ->]. cbn. eauto.
Qed.
Lemma Int64Arg_typed : type_of i n = Some PInteger → ∃ z, Int64Arg parse_float args n = Ok z.
Proof using Hc.
  intros H. unfold Int64Arg. destruct (args !! n) as [v|] eqn:E; [|eauto].
  pose proof (Hc _ _ _ H E) as T. destruct v; try done. cbn in T. rewrite T. eauto.
Qed.
End typed_readers.
End fits.

(** The name is one of the declared ones, found by running through them. *)
Ltac in_names := cbn; repeat first [apply list_elem_of_here | apply list_elem_of_further].
Ltac declared H := apply H; solve [in_names].
Ltac same_reads :=
  let args := fresh "args" in let args' := fresh "args'" in let H := fresh "H" in
  intros ? args args' H;
  repeat match goal with
  | |- context [StringArg args ?n] => rewrite (StringArg_ext args args' n) by declared H
  | |- context [BoolArg args ?n] => rewrite (BoolArg_ext args args' n) by declared H
  | |- context [StringSliceArg args ?n] => rewrite (StringSliceArg_ext args args' n) by declared H
  | |- context [Int64Arg ?f args ?n] => rewrite (Int64Arg_ext f args args' n) by declared H
  | |- context [args !! ?n] => rewrite (H n) by in_names
  end;
  lazymatch goal with
  | |- context [args] => fail "an argument is read that is not declared"
  | |- _ => reflexivity
  end.
Ltac typed_reads :=
  let args := fresh "args" in let H := fresh "H" in let E := fresh "E" in
  intros ? ? args H;
  repeat match goal with
  | |- context [StringArg args ?n] => destruct (StringArg_typed _ _ args H n eq_refl) as [? E]; rewrite !E; clear E
  | |- context [BoolArg args ?n] => destruct (BoolArg_typed _ _ args H n eq_refl) as [? E]; rewrite !E; clear E
  | |- context [StringSliceArg args ?n] => destruct (StringSliceArg_typed _ _ args H n eq_refl) as [? E]; rewrite !E; clear E
  | |- context [Int64Arg _ args ?n] => destruct (Int64Arg_typed _ _ args H n eq_refl) as [? E]; rewrite !E; clear E
  end; reflexivity.
(** Both halves of [fits], once the handler is unfolded down to the readers. *)
Ltac fit := unfold str_arg, requireProfile, keyArg; split; [same_reads | typed_reads].

Section tools.
Context (parse_float : string → float64) (is_print : Z → bool) (srv : Server).
Abbreviation fits := (fits parse_float).

Lemma render_fits IsRealmPath url_parse ParseIP resolver :
  fits (RegisterRender srv) (λ at_, renderHandler is_print at_ IsRealmPath url_parse ParseIP resolver srv).
Proof using Type. unfold renderHandler. fit. Qed.
Lemma eval_fits IsRealmPath IsPPackagePath resolver :
  fits (RegisterEval srv) (λ at_, evalHandler is_print at_ IsRealmPath IsPPackagePath resolver).
Proof using Type. unfold evalHandler. fit. Qed.
Lemma read_fits IsRealmPath IsPPackagePath url_parse ParseIP resolver Outline Extract txtar :
  fits (RegisterRead srv) (λ at_, readHandler is_print at_ IsRealmPath IsPPackagePath url_parse ParseIP resolver srv Outline Extract txtar).
Proof using Type. unfold readHandler. fit. Qed.
Lemma packages_fits resolver show_json :
  fits (RegisterPackages srv) (λ at_, packagesHandler is_print at_ resolver parse_float show_json).
Proof using Type. unfold packagesHandler, limit_arg. fit. Qed.
Lemma account_fits resolver coins_text : fits (RegisterAccount srv) (λ at_, accountHandler is_print at_ resolver coins_text).
Proof using Type. unfold accountHandler. fit. Qed.
Lemma status_fits resolver get_limits decode_limits show_g :
  fits (RegisterStatus srv) (λ at_, statusHandler is_print at_ resolver srv get_limits decode_limits show_g).
Proof using Type. unfold statusHandler. fit. Qed.
Lemma connect_fits get_page : fits RegisterConnect (λ at_, connectHandler is_print at_ get_page).
Proof using Type. unfold connectHandler, connect_name. fit. Qed.
Lemma history_fits post decode_envelope decode_txs :
  fits (RegisterHistory srv) (λ at_, historyHandler is_print at_ srv post decode_envelope decode_txs).
Proof using Type. unfold historyHandler. fit. Qed.
Lemma activity_fits post decode_envelope decode_txs parse_rfc3339 :
  fits (RegisterActivity srv) (λ at_, activityHandler is_print at_ srv post decode_envelope decode_txs parse_rfc3339).
Proof using Type. unfold activityHandler, time_arg. fit. Qed.
Lemma cla_info_fits resolver : fits (RegisterCLAInfo srv) (λ at_, claInfoHandler is_print at_ srv resolver).
Proof using Type. unfold claInfoHandler. fit. Qed.
End tools.

Section write_tools.
Context (parse_float : string → float64) (is_print : Z → bool) (ks_text : ks_error → string) (srv : Server).
Context {Signer : Type} (signer_for : string → string → Profile → res ks_error Signer) (info : Signer → res string string).
Abbreviation fits := (fits parse_float).

Lemma call_fits pick_text ParseCoins :
  fits (RegisterCall srv) (λ at_ args, callHandler is_print ks_text at_ pick_text ParseCoins signer_for info args srv).
Proof using Type. unfold callHandler, call_args, identity_arg. fit. Qed.
Lemma run_fits pick_text fold_key runes :
  fits (RegisterRun srv) (λ at_ args, runHandler is_print ks_text at_ pick_text fold_key runes signer_for info args srv).
Proof using Type. unfold runHandler, run_args, identity_arg. fit. Qed.
Lemma cla_sign_fits : fits (RegisterCLASign srv) (λ at_ args, claSignHandler is_print ks_text at_ signer_for info args srv).
Proof using Type. unfold claSignHandler. fit. Qed.
Lemma key_send_fits address :
  fits (RegisterKeySend srv) (λ at_ args, keySendHandler is_print ks_text at_ parse_float signer_for info address args srv).
Proof using Type. unfold keySendHandler. fit. Qed.
Lemma addpkg_fits url_parse ParseIP GenGnoModLatest :
  fits (RegisterAddPkg srv) (λ at_ args, addpkgHandler is_print ks_text at_ url_parse ParseIP GenGnoModLatest signer_for info args srv).
Proof using Type. unfold addpkgHandler, addpkg_args. fit. Qed.
End write_tools.

Section session_and_key_tools.
Context (parse_float : string → float64) (is_print : Z → bool) (srv : Server).
Abbreviation fits := (fits parse_float).

Lemma auth_status_fits {D} (store : StoreOps D) order :
  fits (RegisterAuthStatus srv) (λ at_ args, authStatusHandler is_print at_ store order args srv).
Proof using Type. unfold authStatusHandler. fit. Qed.
Lemma session_propose_fits AddressFromBech32 IsRealmPath scope_text mgr_text {D} (store : StoreOps D) :
  fits (RegisterSessionPropose srv)
    (λ at_ args, sessionProposeHandler is_print at_ AddressFromBech32 IsRealmPath scope_text mgr_text store args srv).
Proof using Type. unfold sessionProposeHandler, propose_request. fit. Qed.
Lemma session_revoke_fits : fits (RegisterSessionRevoke srv) (λ at_ args, sessionRevokeHandler is_print at_ args srv).
Proof using Type. unfold sessionRevokeHandler. fit. Qed.

Context (ks_text : ks_error → string) (k : Keystore).
Context {Signer : Type} (SignerFromBip39 : string → string → option Signer) (Info : Signer → option string).

Lemma key_generate_fits NewMnemonic scrypt new_gcm Seal :
  fits (RegisterKeyGenerate srv) (λ at_ args, keyGenHandler is_print SignerFromBip39 Info NewMnemonic scrypt new_gcm Seal ks_text at_ k args srv).
Proof using Type. unfold keyGenHandler. fit. Qed.
Lemma key_address_fits scrypt new_gcm Open :
  fits (RegisterKeyAddress srv) (λ at_ args, keyAddrHandler is_print SignerFromBip39 Info scrypt new_gcm Open ks_text at_ k args srv).
Proof using Type. unfold keyAddrHandler. fit. Qed.
Lemma key_list_fits scrypt new_gcm Open :
  fits (RegisterKeyList srv) (λ at_ args, keyListHandler is_print SignerFromBip39 Info scrypt new_gcm Open ks_text at_ k args srv).
Proof using Type. unfold keyListHandler. fit. Qed.
Lemma key_delete_fits scrypt new_gcm Open :
  fits (RegisterKeyDelete srv) (λ at_ args, keyDeleteHandler is_print SignerFromBip39 Info scrypt new_gcm Open ks_text at_ k args srv).
Proof using Type. unfold keyDeleteHandler, delete_args. fit. Qed.
Lemma faucet_fund_fits StatusText decode_tx decode_rate address :
  fits (RegisterFaucetFund srv) (λ at_ args, faucetFundHandler StatusText decode_tx decode_rate is_print ks_text at_ address args srv).
Proof using Type. unfold faucetFundHandler. fit. Qed.
End session_and_key_tools.

Lemma read_strings_ext args args' l :
  (∀ n, n ∈ l → args !! n = args' !! n) → read_strings args l = read_strings args' l.
Proof.
  induction l as [|n l IH]; intros H; [done|]. cbn.
  rewrite (StringArg_ext args args' n) by set_solver. rewrite IH by set_solver. done.
Qed.

(** [gno_profile_add] reads its arguments in a map's order. *)
Section profile_add.
Context (parse_float : string → float64) (is_print : Z → bool).

Lemma add_arg_typed args n : conforms parse_float profileAddInputSchema args → n ∈ add_arg_names → ∃ s, StringArg args n = Ok s.
Proof using Type.
  intros H Hn. eapply StringArg_typed; [exact H|]. unfold add_arg_names in Hn.
  repeat (apply elem_of_cons in Hn as [->|Hn]; [reflexivity|]). by apply not_elem_of_nil in Hn.
Qed.
Lemma read_strings_typed args l :
  conforms parse_float profileAddInputSchema args → l ⊆ add_arg_names → read_strings args l = Ok tt.
Proof using Type.
  intros H. induction l as [|n l IH]; intros Hl; [done|].
  destruct (add_arg_typed args n H) as [s E]; [set_solver|]. cbn. rewrite E. cbn. apply IH. set_solver.
Qed.
Lemma profile_add_fits profile_text fold_key runes url_parse ParseIP AddressFromBech32 order get verify onAdded arg_order :
  arg_order ≡ₚ add_arg_names →
  fits parse_float RegisterProfileAdd
    (λ at_, profileAddHandler is_print at_ profile_text fold_key runes url_parse ParseIP AddressFromBech32 order get verify onAdded arg_order).
Proof using Type.
  intros Ho. assert (arg_order ⊆ add_arg_names) as Hs by (intros n; by rewrite Ho).
  unfold profileAddHandler, add_args. split.
  - intros at_ args args' H. unfold str_of.
    rewrite (read_strings_ext args args' arg_order) by (intros n Hn; apply H; apply Hs in Hn; exact Hn).
    revert args args' H. clear -at_. intros args args' H.
    repeat match goal with
    | |- context [StringArg args ?n] => rewrite (StringArg_ext args args' n) by declared H
    end. reflexivity.
  - intros at_ at_' args H. rewrite (read_strings_typed args arg_order H Hs). reflexivity.
Qed.
End profile_add.

(** ** Every tool fits its declaration *)

Ltac conjuncts := repeat lazymatch goal with |- _ ∧ _ => split end.

(** What the process hands each family of tools: clients, signers, parsers
    and texts. *)
Section all_tools.
Context (parse_float : string → float64) (is_print : Z → bool) (ks_text : ks_error → string) (srv : Server).

Definition read_tools_fit : Prop :=
  (∀ IsRealmPath url_parse ParseIP resolver,
     fits parse_float (RegisterRender srv) (λ at_, renderHandler is_print at_ IsRealmPath url_parse ParseIP resolver srv)) ∧
  (∀ IsRealmPath IsPPackagePath resolver,
     fits parse_float (RegisterEval srv) (λ at_, evalHandler is_print at_ IsRealmPath IsPPackagePath resolver)) ∧
  (∀ IsRealmPath IsPPackagePath url_parse ParseIP resolver Outline Extract txtar,
     fits parse_float (RegisterRead srv)
       (λ at_, readHandler is_print at_ IsRealmPath IsPPackagePath url_parse ParseIP resolver srv Outline Extract txtar)) ∧
  (∀ resolver show_json, fits parse_float (RegisterPackages srv) (λ at_, packagesHandler is_print at_ resolver parse_float show_json)) ∧
  (∀ resolver coins_text, fits parse_float (RegisterAccount srv) (λ at_, accountHandler is_print at_ resolver coins_text)) ∧
  (∀ resolver get_limits decode_limits show_g,
     fits parse_float (RegisterStatus srv) (λ at_, statusHandler is_print at_ resolver srv get_limits decode_limits show_g)) ∧
  (∀ get_page, fits parse_float RegisterConnect (λ at_, connectHandler is_print at_ get_page)) ∧
  (∀ post decode_envelope decode_txs,
     fits parse_float (RegisterHistory srv) (λ at_, historyHandler is_print at_ srv post decode_envelope decode_txs)) ∧
  (∀ post decode_envelope decode_txs parse_rfc3339,
     fits parse_float (RegisterActivity srv) (λ at_, activityHandler is_print at_ srv post decode_envelope decode_txs parse_rfc3339)) ∧
  (∀ resolver, fits parse_float (RegisterCLAInfo srv) (λ at_, claInfoHandler is_print at_ srv resolver)).

Definition tx_tools_fit : Prop :=
  ∀ (Signer : Type) (signer_for : string → string → Profile → res ks_error Signer) (info : Signer → res string string),
  (∀ pick_text ParseCoins,
     fits parse_float (RegisterCall srv) (λ at_ args, callHandler is_print ks_text at_ pick_text ParseCoins signer_for info args srv)) ∧
  (∀ pick_text fold_key runes,
     fits parse_float (RegisterRun srv) (λ at_ args, runHandler is_print ks_text at_ pick_text fold_key runes signer_for info args srv)) ∧
  fits parse_float (RegisterCLASign srv) (λ at_ args, claSignHandler is_print ks_text at_ signer_for info args srv) ∧
  (∀ address, fits parse_float (RegisterKeySend srv)
     (λ at_ args, keySendHandler is_print ks_text at_ parse_float signer_for info address args srv)) ∧
  (∀ url_parse ParseIP GenGnoModLatest, fits parse_float (RegisterAddPkg srv)
     (λ at_ args, addpkgHandler is_print ks_text at_ url_parse ParseIP GenGnoModLatest signer_for info args srv)).

Definition session_tools_fit : Prop :=
  ∀ (D : Type) (store : StoreOps D),
  (∀ order, fits parse_float (RegisterAuthStatus srv) (λ at_ args, authStatusHandler is_print at_ store order args srv)) ∧
  (∀ AddressFromBech32 IsRealmPath scope_text mgr_text, fits parse_float (RegisterSessionPropose srv)
     (λ at_ args, sessionProposeHandler is_print at_ AddressFromBech32 IsRealmPath scope_text mgr_text store args srv)) ∧
  fits parse_float (RegisterSessionRevoke srv) (λ at_ args, sessionRevokeHandler is_print at_ args srv).

Definition key_tools_fit : Prop :=
  ∀ (k : Keystore) (Signer : Type) (SignerFromBip39 : string → string → option Signer) (Info : Signer → option string),
  (∀ NewMnemonic scrypt new_gcm Seal, fits parse_float (RegisterKeyGenerate srv)
     (λ at_ args, keyGenHandler is_print SignerFromBip39 Info NewMnemonic scrypt new_gcm Seal ks_text at_ k args srv)) ∧
  (∀ scrypt new_gcm Open,
     fits parse_float (RegisterKeyAddress srv)
       (λ at_ args, keyAddrHandler is_print SignerFromBip39 Info scrypt new_gcm Open ks_text at_ k args srv) ∧
     fits parse_float (RegisterKeyList srv)
       (λ at_ args, keyListHandler is_print SignerFromBip39 Info scrypt new_gcm Open ks_text at_ k args srv) ∧
     fits parse_float (RegisterKeyDelete srv)
       (λ at_ args, keyDeleteHandler is_print SignerFromBip39 Info scrypt new_gcm Open ks_text at_ k args srv)) ∧
  (∀ StatusText decode_tx decode_rate address, fits parse_float (RegisterFaucetFund srv)
     (λ at_ args, faucetFundHandler StatusText decode_tx decode_rate is_print ks_text at_ address args srv)).

(** The order in which [gno_profile_add] ranges over its map is any. *)
Definition profile_add_fit : Prop :=
  ∀ profile_text fold_key runes url_parse ParseIP AddressFromBech32 order get verify onAdded arg_order,
  arg_order ≡ₚ add_arg_names →
  fits parse_float RegisterProfileAdd
    (λ at_, profileAddHandler is_print at_ profile_text fold_key runes url_parse ParseIP AddressFromBech32 order get verify onAdded arg_order).

(** C33: Every registered tool and its declared input schema agree, on every
    branch of the handler: two calls whose declared arguments agree have the
    same outcome (no handler reads an argument the schema does not declare),
    and on arguments of the declared types no handler reports an argument of
    the wrong type (the text of such an error never appears in its outcome). *)
Theorem tools_fit_schemas : read_tools_fit ∧ tx_tools_fit ∧ session_tools_fit ∧ key_tools_fit ∧ profile_add_fit.
Proof using Type.
  split; [|split; [|split; [|split]]].
  - unfold read_tools_fit. conjuncts; intros; auto using render_fits, eval_fits, read_fits, packages_fits, account_fits, status_fits,
      connect_fits, history_fits, activity_fits, cla_info_fits.
  - intros Signer signer_for info. conjuncts; intros; auto using call_fits, run_fits, cla_sign_fits, key_send_fits, addpkg_fits.
  - intros D store. conjuncts; intros; auto using auth_status_fits, session_propose_fits, session_revoke_fits.
  - intros k Signer SignerFromBip39 Info. conjuncts; intros; conjuncts;
      auto using key_generate_fits, key_address_fits, key_list_fits, key_delete_fits, faucet_fund_fits.
  - intros profile_text fold_key runes url_parse ParseIP AddressFromBech32 order get verify onAdded arg_order.
    apply profile_add_fits.
Qed.
End all_tools.

(** ** What is published *)

(** [Registry.Add] of the whole list, over what an earlier registration left. *)
Abbreviation tools := (gmap string tool_decl).
Definition publish (s : Server) (r : tools) : tools := foldl (λ r d, <[DName d := d]> r) r (registerAllTools s).

(** The server starts with its tools published, and publishes again after
    each profile added while it runs. *)
Inductive serves : Server → tools → Prop :=
  | serves_start c d : serves (NewServer c d) (publish (NewServer c d) ∅)
  | serves_add s s' r name p : serves s r → AddDynamicProfile s name p = (s', Ok tt) → serves s' (publish s' r).

(** The profiles a schema offers by name. *)
Definition offered (d : tool_decl) : option (list string) :=
  p ← snd <$> find (λ np : string * prop, String.eqb np.1 "profile") (Props (DInput d)); PEnum p.
Definition default_profile (d : tool_decl) : option json :=
  p ← snd <$> find (λ np : string * prop, String.eqb np.1 "profile") (Props (DInput d)); PDefault p.

Lemma publish_foldl_other l (r : tools) name :
  name ∉ DName <$> l → foldl (λ r d, <[DName d := d]> r) r l !! name = r !! name.
Proof.
  revert r. induction l as [|d l IH]; intros r H; [done|]. cbn in *.
  rewrite IH by set_solver. apply lookup_insert_ne. set_solver.
Qed.
Lemma publish_foldl_in l (r : tools) d :
  NoDup (DName <$> l) → d ∈ l → foldl (λ r d, <[DName d := d]> r) r l !! DName d = Some d.
Proof.
  revert r. induction l as [|d' l IH]; intros r Hn Hd; [by apply not_elem_of_nil in Hd|]. cbn in *.
  apply NoDup_cons in Hn as [Hn Hl]. apply elem_of_cons in Hd as [->|Hd]; [|auto].
  rewrite publish_foldl_other by done. apply lookup_insert_eq.
Qed.

Definition gated : list string := ["gno_history"; "gno_activity"; "gno_faucet_fund"].

Definition names_of (ix fc : bool) : list string :=
  ["gno_render"; "gno_eval"; "gno_read"; "gno_packages"; "gno_account"; "gno_status"; "gno_connect"; "gno_profile_list"] ++
  (if ix then ["gno_history"; "gno_activity"] else []) ++
  ["gno_call"; "gno_run"; "gno_cla_info"; "gno_cla_sign"; "gno_auth_status"; "gno_session_propose"; "gno_session_revoke";
   "gno_addpkg"; "gno_key_send"; "gno_key_address"; "gno_key_list"; "gno_key_generate"; "gno_key_delete"] ++
  (if fc then ["gno_faucet_fund"] else []) ++ ["gno_profile_add"].

Lemma registered_names s : DName <$> registerAllTools s = names_of (AnyProfileHasIndexer s) (AnyProfileTestnet s).
Proof. unfold registerAllTools. by destruct (AnyProfileHasIndexer s), (AnyProfileTestnet s). Qed.
Lemma registered_NoDup s : NoDup (DName <$> registerAllTools s).
Proof.
  rewrite registered_names. apply (bool_decide_eq_true_1 _).
  by destruct (AnyProfileHasIndexer s), (AnyProfileTestnet s); vm_compute.
Qed.
Lemma names_of_all ix fc name : name ∈ names_of true true → name ∈ names_of ix fc ∨ name ∈ gated.
Proof.
  intros H. apply (bool_decide_eq_true_1 (name ∈ names_of ix fc ∨ name ∈ gated)).
  unfold names_of in H. cbn [app] in H.
  repeat (apply elem_of_cons in H as [->|H]; [by destruct ix, fc; vm_compute|]). by apply not_elem_of_nil in H.
Qed.

Lemma publish_fresh s r d : d ∈ registerAllTools s → publish s r !! DName d = Some d.
Proof. intros H. apply publish_foldl_in; [apply registered_NoDup|done]. Qed.

(** What is published is fresh, or was there before under a name not registered now. *)
Lemma publish_inv s r name d :
  publish s r !! name = Some d →
  d ∈ registerAllTools s ∧ DName d = name ∨ r !! name = Some d ∧ name ∉ DName <$> registerAllTools s.
Proof.
  intros H. destruct (decide (name ∈ DName <$> registerAllTools s)) as [Hin|Hout].
  - apply list_elem_of_fmap in Hin as (d' & -> & Hd'). rewrite (publish_fresh s r d') in H by done. simplify_eq. by left.
  - right. split; [|done]. unfold publish in H. by rewrite publish_foldl_other in H.
Qed.

(** How a registered tool offers profiles: none by name, or the kept ones. *)
Definition choice (s : Server) (d : tool_decl) : Prop :=
  offered d = None ∧ (default_profile d = None ∨ default_profile d = default_prop (Default (Schema s))) ∨
  ∃ keep, offered d = Some (kept_profiles s keep) ∧
    default_profile d = (if negb (bool_decide (Default (Schema s) = "")) && keep (default (endpoint "" "") (cfg s !! Default (Schema s)))
                         then Some (JStr (Default (Schema s))) else None).

Definition well_declared (s : Server) (d : tool_decl) : Prop := choice s d ∧ AnnotationsValid (DAnn d) = true.

Ltac free_choice := split; [left; split; [reflexivity|first [left; reflexivity | right; reflexivity]] | reflexivity].
Ltac kept_choice := split; [right; eexists; split; reflexivity | reflexivity].
Ltac declare_all :=
  lazymatch goal with
  | |- Forall _ [] => apply Forall_nil_2
  | |- Forall _ (_ :: _) => apply Forall_cons; split; [first [free_choice | kept_choice] | declare_all]
  end.

Lemma registered_well_declared s : Forall (well_declared s) (registerAllTools s).
Proof.
  unfold registerAllTools. repeat (rewrite Forall_app; split); try declare_all.
  - destruct (AnyProfileHasIndexer s); declare_all.
  - destruct (AnyProfileTestnet s); declare_all.
Qed.

(** Offers of configured profiles only, the default among them. *)
Definition offers_configured (s : Server) (d : tool_decl) : Prop :=
  (∀ l n, offered d = Some l → n ∈ l → is_Some (cfg s !! n)) ∧
  (∀ j, default_profile d = Some j → ∃ n, j = JStr n ∧ is_Some (cfg s !! n) ∧ ∀ l, offered d = Some l → n ∈ l).

Lemma default_configured s : Default (Schema s) ≠ "" → is_Some (cfg s !! Default (Schema s)).
Proof. intros H. by destruct (ProfileArgSchema_default (cfg s) (discoveredLocal s)) as [?|[? _]]. Qed.

Lemma elem_of_kept s keep n :
  n ∈ kept_profiles s keep ↔ keep (default (endpoint "" "") (cfg s !! n)) = true ∧ is_Some (cfg s !! n).
Proof.
  unfold kept_profiles. rewrite list_elem_of_filter. unfold Schema.
  by rewrite ProfileArgSchema_enum, elem_of_sorted_names.
Qed.

Lemma choice_configured s d : choice s d → offers_configured s d.
Proof.
  intros [[Ho Hd]|(keep & Ho & Hd)]; split.
  - intros l n H. congruence.
  - intros j Hj. destruct Hd as [Hd|Hd]; [congruence|]. rewrite Hd in Hj. unfold default_prop in Hj.
    case_bool_decide as E; [done|]. simplify_eq. exists (Default (Schema s)).
    repeat split; [by apply default_configured|congruence].
  - intros l n H Hn. rewrite Ho in H. simplify_eq. by apply elem_of_kept in Hn as [_ ?].
  - intros j Hj. rewrite Hd in Hj.
    destruct (negb (bool_decide (Default (Schema s) = ""))) eqn:E; [|done]. cbn in Hj. destruct (keep _) eqn:K; [|done].
    simplify_eq. apply negb_true_iff, bool_decide_eq_false_1 in E. pose proof (default_configured s E) as Hc.
    exists (Default (Schema s)). repeat split; [done|].
    intros l Hl. rewrite Ho in Hl. simplify_eq. by apply elem_of_kept.
Qed.

Lemma AddDynamicProfile_grows s name p s' n :
  AddDynamicProfile s name p = (s', Ok tt) → is_Some (cfg s !! n) → is_Some (cfg s' !! n).
Proof.
  unfold AddDynamicProfile. destruct (CheckDynamicProfileName s name) as [[]|e]; intros H Hn; simplify_eq; cbn.
  apply lookup_insert_is_Some. destruct (decide (name = n)); auto.
Qed.

Lemma offers_configured_grows s s' name p d :
  AddDynamicProfile s name p = (s', Ok tt) → offers_configured s d → offers_configured s' d.
Proof.
  intros H [Ho Hd]. pose proof (fun n => AddDynamicProfile_grows _ _ _ _ n H) as G. split.
  - intros l n Hl Hn. eauto.
  - intros j Hj. destruct (Hd j Hj) as (n & -> & Hn & Hl). exists n. eauto.
Qed.

(** What an entry of the registry is: current, or an entry of a tool whose
    gate has closed. *)
Definition entry_ok (s : Server) (name : string) (d : tool_decl) : Prop :=
  (d ∈ registerAllTools s ∨ name ∈ gated ∧ name ∉ DName <$> registerAllTools s) ∧
  DName d = name ∧ AnnotationsValid (DAnn d) = true ∧ offers_configured s d.

Lemma entry_registered s d : d ∈ registerAllTools s → entry_ok s (DName d) d.
Proof.
  intros H. pose proof (registered_well_declared s) as W. rewrite Forall_forall in W. destruct (W d H) as [C A].
  split; [by left|]. split; [done|]. split; [done|]. by apply choice_configured.
Qed.

Lemma gated_or_registered s s' name :
  name ∈ DName <$> registerAllTools s → name ∉ DName <$> registerAllTools s' → name ∈ gated.
Proof.
  rewrite !registered_names. intros H H'.
  assert (name ∈ names_of true true) as T.
  { unfold names_of in H |- *. rewrite !elem_of_app in H |- *.
    destruct H as [?|[H|[?|[H|?]]]]; [auto| |auto| |auto]; repeat case_match; (try by apply not_elem_of_nil in H); auto 6. }
  by destruct (names_of_all (AnyProfileHasIndexer s') (AnyProfileTestnet s') name T).
Qed.

Lemma entry_published s r s' name d :
  (∀ name d, r !! name = Some d → entry_ok s name d) → (∀ d, offers_configured s d → offers_configured s' d) →
  publish s' r !! name = Some d → entry_ok s' name d.
Proof.
  intros Hr Hg H. destruct (publish_inv _ _ _ _ H) as [[Hd <-]|[Hd Hn]]; [by apply entry_registered|].
  destruct (Hr _ _ Hd) as (Hin & HN & HA & HO). split; [|auto]. right. split; [|done].
  destruct Hin as [Hin|[Hin _]]; [|done]. apply (gated_or_registered s s'); [|done]. subst name. by apply list_elem_of_fmap_2.
Qed.

Lemma serves_entries s r name d : serves s r → r !! name = Some d → entry_ok s name d.
Proof.
  intros H. revert name d. induction H as [c dl|s s' r n p Hs IH Ha]; intros name d H.
  - apply (entry_published (NewServer c dl) ∅ _ name d); [intros ? ?; by rewrite lookup_empty|done|done].
  - apply (entry_published s r s' name d); [done| |done]. intros d' Hd'. eapply offers_configured_grows; eauto.
Qed.

Lemma serves_fresh s r d : serves s r → d ∈ registerAllTools s → r !! DName d = Some d.
Proof. intros [] Hd; by apply publish_fresh. Qed.

(** *** What opens a gate *)

Definition indexer_tools : list string := ["gno_history"; "gno_activity"].
Definition faucet_tool : string := "gno_faucet_fund".
(** The tools of every configuration. *)
Definition always_tools : list string :=
  ["gno_render"; "gno_eval"; "gno_read"; "gno_packages"; "gno_account"; "gno_status"; "gno_connect"; "gno_profile_list";
   "gno_call"; "gno_run"; "gno_cla_info"; "gno_cla_sign"; "gno_auth_status"; "gno_session_propose"; "gno_session_revoke";
   "gno_addpkg"; "gno_key_send"; "gno_key_address"; "gno_key_list"; "gno_key_generate"; "gno_key_delete"; "gno_profile_add"].

(** A profile of the configuration names a tx-indexer; one is a testnet's. *)
Definition some_indexer (s : Server) : Prop := ∃ n p, cfg s !! n = Some p ∧ TxIndexerURL p ≠ "".
Definition some_testnet (s : Server) : Prop := ∃ n p, cfg s !! n = Some p ∧ IsTestnet p = true.

(** The tools of a configuration by name, said without the registration. *)
Definition offers_tool (s : Server) (name : string) : Prop :=
  name ∈ always_tools ∨ (name ∈ indexer_tools ∧ some_indexer s) ∨ (name = faucet_tool ∧ some_testnet s).

Lemma existsb_cfg (s : Server) (f : Profile → bool) :
  existsb (λ np : string * Profile, f np.2) (map_to_list (cfg s)) = true ↔ ∃ n p, cfg s !! n = Some p ∧ f p = true.
Proof.
  rewrite existsb_exists. split.
  - intros ([n p] & H%list_elem_of_In%elem_of_map_to_list & Hf). eauto.
  - intros (n & p & H & Hf). exists (n, p). split; [|done]. by apply list_elem_of_In, elem_of_map_to_list.
Qed.

Lemma AnyProfileHasIndexer_spec s : AnyProfileHasIndexer s = true ↔ some_indexer s.
Proof.
  etransitivity; [exact (existsb_cfg s (λ p, negb (bool_decide (TxIndexerURL p = ""))))|].
  unfold some_indexer. setoid_rewrite negb_true_iff. by setoid_rewrite bool_decide_eq_false.
Qed.
Lemma AnyProfileTestnet_spec s : AnyProfileTestnet s = true ↔ some_testnet s.
Proof. apply (existsb_cfg s IsTestnet). Qed.

Lemma offered_by_registration s name : name ∈ DName <$> registerAllTools s ↔ offers_tool s name.
Proof.
  rewrite registered_names. unfold offers_tool. rewrite <- AnyProfileHasIndexer_spec, <- AnyProfileTestnet_spec.
  unfold names_of, always_tools, indexer_tools, faucet_tool.
  destruct (AnyProfileHasIndexer s), (AnyProfileTestnet s); set_solver.
Qed.

(** The server's configurations from its start, the latest first, and what it
    publishes. *)
Inductive served : list Server → tools → Prop :=
  | served_start c d : served [NewServer c d] (publish (NewServer c d) ∅)
  | served_add s past r name p s' :
      served (s :: past) r → AddDynamicProfile s name p = (s', Ok tt) → served (s' :: s :: past) (publish s' r).

Lemma served_serves s past r : served (s :: past) r → serves s r.
Proof.
  remember (s :: past) as l eqn:E. intros H. revert s past E. induction H as [|s1 past1 r n p s' H IH Ha]; intros s0 past0 [= <- <-].
  - constructor.
  - econstructor; [by eapply IH|done].
Qed.

(** What a name is declared as: by the latest configuration that calls for it. *)
Definition latest_declares (l : list Server) (name : string) (d : tool_decl) : Prop :=
  ∃ newer s0 older, l = newer ++ s0 :: older ∧ (∀ s1, s1 ∈ newer → ¬ offers_tool s1 name) ∧ d ∈ registerAllTools s0.

Lemma served_declares l r name d : served l r → r !! name = Some d → latest_declares l name d.
Proof.
  intros H. revert name d. induction H as [c dl|s past r n p s' H IH Ha]; intros name d Hd.
  all: destruct (publish_inv _ _ _ _ Hd) as [[Hin _]|[Hr Hout]].
  1, 3: eexists [], _, _; split; [done|]; split; [set_solver|done].
  - by rewrite lookup_empty in Hr.
  - destruct (IH name d Hr) as (newer & s0 & older & -> & Hn & Hin). exists (s' :: newer), s0, older.
    rewrite offered_by_registration in Hout. split; [done|]. split; [|done]. intros s1 [->|?]%elem_of_cons; auto.
Qed.

Lemma served_names l r name : served l r → is_Some (r !! name) ↔ ∃ s, s ∈ l ∧ offers_tool s name.
Proof.
  assert (Hp : ∀ s r, is_Some (publish s r !! name) ↔ offers_tool s name ∨ is_Some (r !! name)).
  { intros s r0. rewrite <- offered_by_registration.
    destruct (decide (name ∈ DName <$> registerAllTools s)) as [Hin|Hout].
    - apply list_elem_of_fmap in Hin as (d & -> & Hd). rewrite publish_fresh by done.
      split; [|eauto]. left. by apply list_elem_of_fmap_2.
    - unfold publish. rewrite publish_foldl_other by done. tauto. }
  induction 1 as [c d|s past r n p s' H IH Ha]; rewrite Hp.
  - rewrite lookup_empty, is_Some_alt. set_solver.
  - rewrite IH. set_solver.
Qed.

(** C34: what is published, however profiles are added while the server runs. A
    tool is published exactly when one of the configurations so far calls for
    it: the indexer tools when a profile names a tx-indexer, the faucet tool when
    a profile is a testnet, the others always. Its declaration is the one of the
    latest configuration that calls for it, so the current one unless its gate
    has closed since. And no published tool offers a profile, or defaults to one, that is not configured;
    a default is one of the profiles offered; none is both read-only and
    destructive. *)
Theorem published_tools s past r :
  served (s :: past) r →
  (∀ name, is_Some (r !! name) ↔ ∃ s0, s0 ∈ s :: past ∧
     (name ∈ always_tools ∨ (name ∈ indexer_tools ∧ some_indexer s0) ∨ (name = faucet_tool ∧ some_testnet s0))) ∧
  (∀ name d, r !! name = Some d →
     latest_declares (s :: past) name d ∧ DName d = name ∧ AnnotationsValid (DAnn d) = true ∧ offers_configured s d).
Proof.
  intros H. split; [intros name; by apply served_names|]. intros name d Hd. split; [by apply (served_declares _ r)|].
  destruct (serves_entries s r name d) as (_ & ? & ? & ?); [by eapply served_serves|done|done].
Qed.

(** A profile added with an indexer, and added again without: the gate closes
    and the tools it opened stay. *)
Definition startup : Server := NewServer ∅ "".
Definition indexed : Profile := mkProfile "https://rpc.x.land" "x-1" "https://indexer.x.land" "" "" "" false "" "" "" false.
Definition opened : Server := (AddDynamicProfile startup "x" indexed).1.
Definition closed : Server := (AddDynamicProfile opened "x" (endpoint "https://rpc.x.land" "x-1")).1.

Lemma closed_served : served [closed; opened; startup] (publish closed (publish opened (publish startup ∅))).
Proof.
  assert (served [startup] (publish startup ∅)) as H0 by apply served_start.
  assert (served [opened; startup] (publish opened (publish startup ∅))) as H1
    by (apply (served_add startup [] _ "x" indexed opened); [exact H0|vm_compute; reflexivity]).
  apply (served_add opened [startup] _ "x" (endpoint "https://rpc.x.land" "x-1") closed); [exact H1|vm_compute; reflexivity].
Qed.

Theorem gate_closes :
  AnyProfileHasIndexer startup = false ∧ AnyProfileHasIndexer opened = true ∧ AnyProfileHasIndexer closed = false ∧
  is_Some (publish closed (publish opened (publish startup ∅)) !! "gno_history").
Proof.
  repeat (split; [vm_compute; reflexivity|]).
  unfold publish at 1. rewrite publish_foldl_other by (apply (bool_decide_eq_true_1 _); vm_compute; reflexivity).
  assert (RegisterHistory opened ∈ registerAllTools opened) as Hin
    by (unfold registerAllTools; replace (AnyProfileHasIndexer opened) with true by (vm_compute; reflexivity); set_solver).
  pose proof (publish_fresh opened (publish startup ∅) _ Hin) as P.
  change (DName (RegisterHistory opened)) with "gno_history" in P. rewrite P. eauto.
Qed.

Theorem published_tools_witness :
  served [closed; opened; startup] (publish closed (publish opened (publish startup ∅))) ∧
  is_Some (publish closed (publish opened (publish startup ∅)) !! "gno_history").
Proof.
  split; [exact closed_served|].
  apply (proj1 (published_tools closed [opened; startup] _ closed_served) "gno_history").
  exists opened. split; [set_solver|]. right. left. split; [unfold indexer_tools; set_solver|].
  exists "x", indexed. split; [vm_compute; reflexivity|done].
Defined.
