(* ===== verification/AuditCmd.v ===== *)
(** * The audit log and its reader

    [internal/audit/log.go]: a record as one JSON line, as [encoding/json]
    writes it without HTML escaping, and [cmd/gnomcp]'s [audit tail] and [audit
    grep] over [bufio.Scanner], whose tokens are under 64 KiB. *)
From S2P Require Import Prelude GoText GoTime GoPath Profiles ServerCore.
From stdpp Require Import prelude strings gmap list.
From Stdlib Require Import ZArith Lia Ascii String.
Local Open Scope Z_scope.

(** ** Encoding *)

(** One rune inside a JSON string; [raw] holds its bytes. *)
Definition json_rune (r : Z) (raw : string) : string :=
  if (r =? 34) || (r =? 92) then String "\" raw
  else if r =? 8 then "\b" else if r =? 12 then "\f" else if r =? 10 then "\n" else if r =? 13 then "\r" else if r =? 9 then "\t"
  else if r <? 32 then "\u" +:+ hex 4 r
  else if (r =? 8232) || (r =? 8233) then "\u" +:+ hex 4 r
  else raw.

(** An invalid byte is replaced; [n] bounds the runes left. *)
Fixpoint json_body (n : nat) (s : string) : string :=
  match n, s with
  | S n, String _ s' =>
      match decode_rune s with
      | Some (r, rest) => json_rune r (str_take (String.length s - String.length rest) s) +:+ json_body n rest
      | None => "\ufffd" +:+ json_body n s'
      end
  | _, _ => EmptyString
  end.

Definition json_string (s : string) : string := dq +:+ json_body (String.length s) s +:+ dq.

(** A member, and one with [omitempty]. *)
Definition member (k v : string) : string := json_string k +:+ ":" +:+ v.
Definition opt_member (k s : string) : list string := if bool_decide (s = "") then [] else [member k (json_string s)].

(** [time.RFC3339Nano] of a UTC time: the fraction without its last zeros. *)
Fixpoint strip_zeros (n : nat) (z : Z) (w : nat) : string :=
  match n with
  | O => ""
  | S n => if z mod 10 =? 0 then strip_zeros n (z / 10) (pred w) else "." +:+ pad0 w z
  end.
Definition fraction (t : Time) : string := let f := t mod Second in if f =? 0 then "" else strip_zeros 9 f 9.
Definition RFC3339Nano (t : Time) : string := format_date t +:+ "T" +:+ format_clock t +:+ fraction t +:+ "Z".

(** A record with when it was made and how long the call took. *)
Record stamped := mkStamped { At : Time; Millis : Z; Rec : Entry }.

Definition entry_json (e : stamped) : string :=
  "{" +:+ GoText.join ","
    ([member "time" (dq +:+ RFC3339Nano (At e) +:+ dq); member "tool" (json_string (EntryTool (Rec e)))] ++
     opt_member "profile" (EntryProfile (Rec e)) ++ opt_member "args_summary" (EntryArgs (Rec e)) ++
     [member "result" (json_string (EntryResult (Rec e))); member "duration_ms" (format_int (Millis e))] ++
     opt_member "session_address" (EntrySession (Rec e))) +:+ "}".

(** [time.Time] encodes the years JSON allows alone. *)
Definition year_of (t : Time) : Z := (civil (utc_day t)).1.1.
Definition encodes (e : stamped) : bool := (0 <=? year_of (At e)) && (year_of (At e) <=? 9999).
Definition year_error : string :=
  "json: error calling MarshalJSON for type time.Time: Time.MarshalJSON: year outside of range [0,9999]".

(** [Log.Append], on a file opened to append: a zero time becomes the clock's;
    what does not encode is not written; [write] answers what of the line is on
    disk and the error, if any. *)
Definition stamp (now : Time) (e : stamped) : stamped := if time_is_zero (At e) then mkStamped now (Millis e) (Rec e) else e.
Definition Append (now : Time) (write : string → string * option string) (file : string) (e : stamped) : string * res string unit :=
  let e := stamp now e in
  if negb (encodes e) then (file, Err ("audit append: " +:+ year_error)) else
  let '(written, err) := write (entry_json e +:+ NL) in
  (file +:+ written, match err with None => Ok tt | Some e => Err ("audit append: " +:+ e) end).

(** [Log.Record] reports a failed append to the process's log alone. *)
Definition Record_ (now : Time) (write : string → string * option string) (file : string) (e : stamped) : string :=
  (Append now write file e).1.

(** ** Reading *)

Definition MaxScanTokenSize : nat := 65536.

Definition dropCR (s : string) : string := trim_suffix s (String "013" EmptyString).

(** [Scanner.Scan] with [ScanLines], over the pieces between newlines: what is
    left after the last newline is a line when it is not empty.  A piece that
    fills the buffer ends the scan. *)
Fixpoint scan (pieces : list string) : list string * bool :=
  match pieces with
  | [] => ([], true)
  | x :: rest =>
      if (MaxScanTokenSize <=? String.length x)%nat then ([], false)
      else match rest with
      | [] => (if bool_decide (x = "") then [] else [dropCR x], true)
      | _ :: _ => let '(ls, ok) := scan rest in (dropCR x :: ls, ok)
      end
  end.

Record cmd_out := mkOut { Stdout : list string; Stderr : string; ExitCode : Z }.

Definition tailAudit (file : res string string) : cmd_out :=
  match file with
  | Err e => mkOut [] ("open audit log: " +:+ e) 1
  | Ok content =>
      let '(ls, ok) := scan (split_byte "010" content) in
      if ok then mkOut ls "" 0 else mkOut ls "read audit log: bufio.Scanner: token too long" 1
  end.

Definition grepAudit (file : res string string) (pattern : string) : cmd_out :=
  match file with
  | Err e => mkOut [] ("open audit log: " +:+ e) 1
  | Ok content =>
      let '(ls, ok) := scan (split_byte "010" content) in
      let ls := filter (λ l, contains l pattern = true) ls in
      if ok then mkOut ls "" 0 else mkOut ls "read audit log: bufio.Scanner: token too long" 1
  end.

Definition runAudit (is_print : Z → bool) (args : list string) (file : res string string) : cmd_out :=
  match args with
  | [] => mkOut [] ("usage: gnomcp audit <tail|grep <pattern>>" +:+ NL) 1
  | "tail" :: _ => tailAudit file
  | "grep" :: rest =>
      match rest with
      | [] => mkOut [] ("usage: gnomcp audit grep <pattern>" +:+ NL) 1
      | p :: _ => grepAudit file p
      end
  | a :: _ => mkOut [] ("unknown audit subcommand " +:+ quote is_print a +:+ NL) 1
  end.

Example json_string_ex : json_string ("a" +:+ dq +:+ "\" +:+ NL +:+ String "001" (String "200" "z")) = dq +:+ "a\" +:+ dq +:+ "\\\n\u0001\ufffdz" +:+ dq.
Proof. vm_compute. reflexivity. Qed.
Example nano_ex : RFC3339Nano (63844847999 * Second + 120300000) = "2024-02-29T23:59:59.1203Z".
Proof. vm_compute. reflexivity. Qed.
Example entry_ex :
  entry_json (mkStamped 0 12 (mkEntry "gno_call" "onyx" "" "ok" "")) =
  "{" +:+ dq +:+ "time" +:+ dq +:+ ":" +:+ dq +:+ "0001-01-01T00:00:00Z" +:+ dq +:+ "," +:+ dq +:+ "tool" +:+ dq +:+ ":" +:+ dq +:+ "gno_call" +:+ dq +:+ ","
  +:+ dq +:+ "profile" +:+ dq +:+ ":" +:+ dq +:+ "onyx" +:+ dq +:+ "," +:+ dq +:+ "result" +:+ dq +:+ ":" +:+ dq +:+ "ok" +:+ dq +:+ ","
  +:+ dq +:+ "duration_ms" +:+ dq +:+ ":12}".
Proof. vm_compute. reflexivity. Qed.

(** ** Facts on the encoding *)

(** A decoded rune is one ASCII byte, or bytes above ASCII and a rune above. *)
Lemma decode_rune_raw s r rest :
  decode_rune s = Some (r, rest) →
  ∃ x, s = x +:+ rest ∧ (0 < String.length x ≤ 4)%nat ∧
    ((∃ a, x = String a "" ∧ byte_val a = r) ∨ str_forall (λ b, 128 <=? byte_val b) x = true ∧ 128 ≤ r).
Proof.
  destruct s as [|a s]; [done|]. cbn [decode_rune]. cbv zeta. intros H.
  pose proof (byte_val_range a) as Ra. unfold cont, byte_in in *.
  destruct (byte_val a <? 128) eqn:E1; [simplify_eq; exists (String a ""); split; [done|]; split; [simpl; lia|left; eauto]|].
  destruct (byte_val a <? 194) eqn:E2; [done|].
  destruct s as [|b s]; [done|].
  destruct (byte_val a <? 224) eqn:E3.
  { destruct (_ && _) eqn:Eb in H; [|done]. simplify_eq. exists (String a (String b "")).
    split; [done|]; split; [simpl; lia|]. right. cbn. rewrite andb_true_r. b2p. split; [apply andb_true_iff; split; lia|lia]. }
  destruct (negb _) eqn:Eb in H; [done|]. destruct s as [|c s]; [done|].
  destruct (negb ((128 <=? byte_val c) && (byte_val c <=? 191))) eqn:Ec; [done|].
  apply negb_false_iff, andb_true_iff in Eb as [Eb1 Eb2]. apply negb_false_iff, andb_true_iff in Ec as [Ec1 Ec2].
  assert (128 ≤ byte_val b) by (repeat case_match; lia).
  assert (byte_val a = 224 → 160 ≤ byte_val b) by (intros E; rewrite E in Eb1; simpl in Eb1; lia).
  assert (byte_val a = 240 → 144 ≤ byte_val b) by (intros E; rewrite E in Eb1; simpl in Eb1; lia).
  destruct (byte_val a <? 240) eqn:E4.
  { simplify_eq. exists (String a (String b (String c ""))). split; [done|]; split; [simpl; lia|]. right. cbn.
    rewrite andb_true_r. split; [repeat (apply andb_true_iff; split); lia|lia]. }
  destruct (244 <? byte_val a) eqn:E5; [done|]. destruct s as [|d s]; [done|].
  destruct (_ && _) eqn:Ed in H; [|done]. simplify_eq. apply andb_true_iff in Ed as [Ed1 Ed2].
  exists (String a (String b (String c (String d "")))). split; [done|]; split; [simpl; lia|]. right. cbn.
  rewrite andb_true_r. split; [repeat (apply andb_true_iff; split); lia|lia].
Qed.

(** No control character, so no newline. *)
Definition shown (a : ascii) : bool := 32 <=? byte_val a.

(** What is left after a JSON string's closing quote, from inside it. *)
Fixpoint past_quote (s : string) : option string :=
  match s with
  | EmptyString => None
  | String a r =>
      if Ascii.eqb a DQ then Some r
      else if Ascii.eqb a "\" then match r with EmptyString => None | String _ r => past_quote r end
      else past_quote r
  end.

(** Text that neither closes the string nor leaves an escape open. *)
Definition inner (s : string) : Prop := ∀ rest, past_quote (s +:+ rest) = past_quote rest.

Lemma inner_app s t : inner s → inner t → inner (s +:+ t).
Proof. intros Hs Ht rest. by rewrite str_app_assoc, Hs. Qed.
Lemma inner_plain s : str_forall (λ a, negb (Ascii.eqb a DQ) && negb (Ascii.eqb a "\")) s = true → inner s.
Proof.
  intros H rest. induction s as [|a s IH]; [done|]. cbn in H. apply andb_true_iff in H as [Ha Hs].
  apply andb_true_iff in Ha as [H1%negb_true_iff H2%negb_true_iff]. rewrite str_app_cons. cbn. by rewrite H1, H2, IH.
Qed.
Lemma hex_inner n z : inner (hex n z).
Proof.
  apply inner_plain. unfold hex. assert (H : str_forall (λ a, negb (Ascii.eqb a DQ) && negb (Ascii.eqb a "\")) EmptyString = true) by done.
  revert z H. generalize EmptyString. induction n as [|n IH]; intros acc z H; [done|]. cbn [hex_go]. apply IH. cbn [str_forall].
  rewrite H, andb_true_r. pose proof (Z.mod_pos_bound z 16 ltac:(lia)) as B. generalize dependent (z mod 16). intros d B.
  assert (d = 0 ∨ d = 1 ∨ d = 2 ∨ d = 3 ∨ d = 4 ∨ d = 5 ∨ d = 6 ∨ d = 7 ∨ d = 8 ∨ d = 9 ∨
          d = 10 ∨ d = 11 ∨ d = 12 ∨ d = 13 ∨ d = 14 ∨ d = 15) as Hc by lia.
  by destruct_or! Hc; subst d.
Qed.
Lemma escaped_inner a : inner (String "\" (String a "")).
Proof. intros rest. rewrite !str_app_cons. done. Qed.
Lemma unicode_inner r : inner ("\u" +:+ hex 4 r).
Proof. apply inner_app; [apply escaped_inner|apply hex_inner]. Qed.

Lemma byte_eqb a b : Ascii.eqb a b = (byte_val a =? byte_val b).
Proof.
  apply eq_true_iff_eq. rewrite Ascii.eqb_eq, Z.eqb_eq. split; [by intros ->|]. unfold byte_val.
  intros H%N2Z.inj. by apply (f_equal ascii_of_N) in H; rewrite !ascii_N_embedding in H.
Qed.

Lemma hex_shown n z : str_forall shown (hex n z) = true.
Proof. apply hex_ok. intros a Ha. apply (bool_decide_eq_true_1 (shown a = true)). unfold quote_alphabet in Ha.
  repeat (apply elem_of_cons in Ha as [->|Ha]; [reflexivity|]). by apply not_elem_of_nil in Ha. Qed.

(** One rune: printable, inside the string, and at most six bytes. *)
Lemma json_rune_ok x r :
  (0 < String.length x ≤ 4)%nat →
  (∃ a, x = String a "" ∧ byte_val a = r) ∨ str_forall (λ b, 128 <=? byte_val b) x = true ∧ 128 ≤ r →
  str_forall shown (json_rune r x) = true ∧ inner (json_rune r x) ∧ (String.length x ≤ String.length (json_rune r x) ≤ 6 * String.length x)%nat.
Proof.
  intros Hl H. unfold json_rune.
  assert (Hu : ∀ r, str_forall shown ("\u" +:+ hex 4 r) = true ∧ inner ("\u" +:+ hex 4 r) ∧ (String.length x ≤ String.length ("\u" +:+ hex 4 r) ≤ 6 * String.length x)%nat).
  { intros r'. split; [by rewrite str_forall_app, hex_shown|]. split; [apply unicode_inner|].
    rewrite str_length_app. change (String.length (hex 4 r')) with 4%nat. cbn. lia. }
  assert (Hs : r < 128 → String.length x = 1%nat) by (intros; destruct H as [(a & -> & _)|[_ H]]; [done|lia]).
  destruct ((r =? 34) || (r =? 92)) eqn:E1.
  { destruct H as [(a & -> & Ha)|[_ H]]; [|b2p; lia].
    split; [|split; [apply escaped_inner|cbn; lia]].
    cbn [str_forall]. rewrite andb_true_r. unfold shown. change (byte_val "\") with 92. lia. }
  repeat (match goal with |- context [if ?b then String "\" _ else _] => destruct b eqn:?; [split; [done|]; split; [apply escaped_inner|rewrite Hs by lia; cbn; lia]|] end).
  destruct (r <? 32) eqn:E7; [apply Hu|]. destruct ((r =? 8232) || (r =? 8233)); [apply Hu|].
  split; [|split; [|lia]].
  - destruct H as [(a & -> & Ha)|[H _]]; [cbn [str_forall]; unfold shown; rewrite andb_true_r; lia|].
    eapply str_forall_impl; [|exact H]. intros b. unfold shown. lia.
  - apply inner_plain. destruct H as [(a & -> & Ha)|[H _]].
    + cbn [str_forall]. rewrite andb_true_r, !byte_eqb. change (byte_val DQ) with 34. change (byte_val "\") with 92. rewrite Ha.
      destruct (r =? 34), (r =? 92); done.
    + eapply str_forall_impl; [|exact H]. intros b Hb. cbn beta in Hb. rewrite !byte_eqb. change (byte_val DQ) with 34. change (byte_val "\") with 92.
      apply andb_true_iff; split; apply negb_true_iff, Z.eqb_neq; lia.
Qed.

Lemma json_body_ok n s :
  str_forall shown (json_body n s) = true ∧ inner (json_body n s) ∧ (String.length (json_body n s) ≤ 6 * String.length s)%nat.
Proof.
  revert s. induction n as [|n IH]; intros [|a s]; try (split; [done|split; [done|cbn; lia]]).
  cbn [json_body]. destruct (decode_rune (String a s)) as [[r rest]|] eqn:E.
  - destruct (decode_rune_raw _ _ _ E) as (x & Hx & Hl & Hr). rewrite Hx, str_take_app.
    destruct (json_rune_ok x r Hl Hr) as (H1 & H2 & H3). destruct (IH rest) as (I1 & I2 & I3).
    rewrite str_forall_app, H1, I1. split; [done|]. split; [by apply inner_app|]. rewrite !str_length_app. lia.
  - destruct (IH s) as (I1 & I2 & I3). rewrite str_forall_app, I1. split; [done|]. split.
    + apply inner_app; [|done]. apply (inner_app "\u" "fffd"); [apply escaped_inner|by apply inner_plain].
    + rewrite str_length_app. cbn [String.length]. lia.
Qed.

(** A string ends at its own closing quote, whatever it holds. *)
Lemma json_string_closed s rest : ∃ body, json_string s +:+ rest = String DQ (body +:+ String DQ rest) ∧ past_quote (body +:+ String DQ rest) = Some rest.
Proof.
  exists (json_body (String.length s) s). split; [unfold json_string; by rewrite !str_app_assoc|].
  destruct (json_body_ok (String.length s) s) as (_ & H & _). by rewrite H.
Qed.

Lemma json_string_shown s : str_forall shown (json_string s) = true.
Proof. unfold json_string. rewrite !str_forall_app. by rewrite (proj1 (json_body_ok _ _)). Qed.

Lemma json_string_length s : (String.length (json_string s) ≤ 6 * String.length s + 2)%nat.
Proof. unfold json_string. rewrite !str_length_app. pose proof (proj2 (proj2 (json_body_ok (String.length s) s))). cbn [String.length dq]. lia. Qed.

Lemma digits_shown s : str_forall is_digit s = true → str_forall shown s = true.
Proof. apply str_forall_impl. intros a. unfold is_digit, byte_in, shown. lia. Qed.
Lemma format_int_shown z : str_forall shown (format_int z) = true.
Proof.
  unfold format_int. destruct (z <? 0); [cbn [str_forall]; apply andb_true_iff; split; [done|]|]; by apply digits_shown, format_digits_digits.
Qed.
Lemma pad0_shown w z : str_forall shown (pad0 w z) = true.
Proof.
  unfold pad0. rewrite str_forall_app, format_int_shown, andb_true_r. generalize (w - String.length (format_int z))%nat. intros n.
  induction n as [|[|n] IH]; [done|done|]. change (String.concat "" (repeat "0" (S (S n)))) with ("0" +:+ "" +:+ String.concat "" (repeat "0" (S n))).
  rewrite !str_forall_app. cbn [repeat] in *. by rewrite IH.
Qed.
Lemma strip_zeros_shown n z w : str_forall shown (strip_zeros n z w) = true.
Proof.
  revert z w. induction n as [|n IH]; intros z w; [done|]. cbn [strip_zeros].
  destruct (_ =? 0); [apply IH|]. by rewrite str_forall_app, pad0_shown.
Qed.
Lemma fraction_shown t : str_forall shown (fraction t) = true.
Proof.
  unfold fraction. cbv zeta. destruct (_ =? 0); [done|]. apply strip_zeros_shown.
Qed.
Lemma RFC3339Nano_shown t : str_forall shown (RFC3339Nano t) = true.
Proof.
  unfold RFC3339Nano, format_date, format_clock. destruct (civil _) as [[y m] d]. cbv zeta.
  rewrite !str_forall_app, !pad0_shown, fraction_shown. done.
Qed.

Lemma member_shown k v : str_forall shown v = true → str_forall shown (member k v) = true.
Proof. intros H. unfold member. by rewrite !str_forall_app, json_string_shown, H. Qed.

Definition members (e : stamped) : list string :=
  [member "time" (dq +:+ RFC3339Nano (At e) +:+ dq); member "tool" (json_string (EntryTool (Rec e)))] ++
  opt_member "profile" (EntryProfile (Rec e)) ++ opt_member "args_summary" (EntryArgs (Rec e)) ++
  [member "result" (json_string (EntryResult (Rec e))); member "duration_ms" (format_int (Millis e))] ++
  opt_member "session_address" (EntrySession (Rec e)).

Lemma opt_member_shown k s : Forall (λ m, str_forall shown m = true) (opt_member k s).
Proof. unfold opt_member. case_bool_decide; [constructor|]. repeat constructor. apply member_shown, json_string_shown. Qed.

Lemma members_shown e : Forall (λ m, str_forall shown m = true) (members e).
Proof.
  unfold members. repeat (rewrite Forall_app; split); try apply opt_member_shown.
  - repeat constructor; apply member_shown; [|apply json_string_shown]. by rewrite !str_forall_app, RFC3339Nano_shown.
  - repeat constructor; apply member_shown; [apply json_string_shown|apply format_int_shown].
Qed.

Lemma join_shown sep l : str_forall shown sep = true → Forall (λ m, str_forall shown m = true) l → str_forall shown (GoText.join sep l) = true.
Proof.
  intros Hs. induction l as [|x [|y l] IH]; intros H; [done|by apply Forall_cons in H as [H _]|].
  apply Forall_cons in H as [Hx H]. rewrite GoPath.join_cons_cons, !str_forall_app. by rewrite Hx, Hs, IH.
Qed.

Lemma entry_json_shown e : str_forall shown (entry_json e) = true.
Proof. unfold entry_json. fold (members e). rewrite !str_forall_app, join_shown; [done|done|apply members_shown]. Qed.

(** ** Reading back *)

(** The lines up to the first that does not fit the scanner's buffer. *)
Fixpoint until_long (l : list string) : list string :=
  match l with [] => [] | x :: l => if (MaxScanTokenSize <=? String.length x)%nat then [] else x :: until_long l end.
Definition fits_buffer (x : string) : bool := (String.length x <? MaxScanTokenSize)%nat.

Lemma dropCR_shown s : str_forall shown s = true → dropCR s = s.
Proof.
  intros H. unfold dropCR, trim_suffix. destruct (cut_suffix _ s) as [r|] eqn:E; [|done]. exfalso.
  apply cut_suffix_Some in E as ->. rewrite str_forall_app in H. apply andb_true_iff in H as [_ H]. done.
Qed.

Lemma scan_lines l :
  Forall (λ x, str_forall shown x = true) l →
  scan (l ++ [""]) = (until_long l, forallb fits_buffer l).
Proof.
  induction l as [|x l IH]; intros H; [done|]. apply Forall_cons in H as [Hx Hl].
  change ((x :: l) ++ [""]) with (x :: (l ++ [""])). cbn [scan until_long forallb]. unfold fits_buffer at 1.
  rewrite Nat.leb_antisym. destruct (String.length x <? MaxScanTokenSize)%nat; cbn [negb andb]; [|done].
  destruct (l ++ [""]) as [|y l'] eqn:E; [by destruct l|]. rewrite IH by done. by rewrite dropCR_shown.
Qed.

Definition full_write (line : string) : string * option string := (line, None).

(** The file after records [es], each appended when its clock says. *)
Definition log_file (es : list (Time * stamped)) : string := foldl (λ f e, Record_ e.1 full_write f e.2) "" es.
Definition entry_line (e : Time * stamped) : string := entry_json (stamp e.1 e.2).
(** The records whose year JSON can write. *)
Definition kept (es : list (Time * stamped)) : list (Time * stamped) := filter (λ e, encodes (stamp e.1 e.2) = true) es.

Lemma log_file_from f es :
  foldl (λ f (e : Time * stamped), Record_ e.1 full_write f e.2) f es = f +:+ foldr (λ e s, entry_line e +:+ NL +:+ s) "" (kept es).
Proof.
  revert f. induction es as [|e es IH]; intros f; [by rewrite str_app_nil_r|]. cbn [foldl]. rewrite IH.
  unfold kept. rewrite filter_cons. unfold Record_, Append, full_write. cbv zeta.
  destruct (encodes (stamp e.1 e.2)); cbn [negb fst foldr]; [by rewrite decide_True, !str_app_assoc|by rewrite decide_False].
Qed.

Lemma entry_line_shown e : str_forall shown (entry_line e) = true.
Proof. apply entry_json_shown. Qed.

Lemma log_pieces es : split_byte "010" (log_file es) = (entry_line <$> kept es) ++ [""].
Proof.
  unfold log_file. rewrite log_file_from, str_app_nil_l. induction (kept es) as [|e l IH]; [done|]. cbn [foldr].
  change (NL +:+ ?s) with (String "010" s). rewrite split_byte_app, split_byte_none, IH; [done|].
  eapply str_forall_impl; [|apply entry_line_shown]. intros a. unfold shown. rewrite byte_eqb. change (byte_val "010") with 10. lia.
Qed.

(** C35: What the server logs is what the user reads: each record whose year
    JSON can write, any from 0 to 9999, is one line whatever text it carries (every string ends at its own closing quote), and
    [audit tail] prints exactly the records' lines in order and [audit grep]
    those that contain the pattern, up to the first line of 64 KiB or more,
    where both stop with an error. *)
Theorem audit_readable is_print es p rest :
  let lines := entry_line <$> filter (λ e, 0 ≤ year_of (At (stamp e.1 e.2)) ≤ 9999) es in
  let code := if forallb fits_buffer lines then 0 else 1 in
  let err := if forallb fits_buffer lines then "" else "read audit log: bufio.Scanner: token too long" in
  runAudit is_print ("tail" :: rest) (Ok (log_file es)) = mkOut (until_long lines) err code ∧
  runAudit is_print ("grep" :: p :: rest) (Ok (log_file es)) = mkOut (filter (λ l, contains l p = true) (until_long lines)) err code ∧
  Forall (λ x, str_forall shown x = true) lines ∧
  (∀ s t, ∃ body, json_string s +:+ t = String DQ (body +:+ String DQ t) ∧ past_quote (body +:+ String DQ t) = Some t).
Proof.
  cbv zeta. assert (filter (λ e, 0 ≤ year_of (At (stamp e.1 e.2)) ≤ 9999) es = kept es) as ->.
  { apply list_filter_iff. intros e. unfold encodes. rewrite andb_true_iff, !Z.leb_le. lia. }
  assert (Forall (λ x, str_forall shown x = true) (entry_line <$> kept es)) as Hs
    by (apply Forall_fmap, Forall_true; intros e; apply entry_line_shown).
  cbn [runAudit tailAudit grepAudit]. rewrite log_pieces, scan_lines by done.
  split; [|split; [|split; [done|intros s t; apply json_string_closed]]]; by destruct (forallb _ _).
Qed.

(** ** What fits *)

Lemma format_int_length z : (String.length (format_int z) ≤ 20)%nat.
Proof.
  unfold format_int. destruct (z <? 0); cbn [String.length].
  - pose proof (format_digits_length 19 (- z) ""). cbn [String.length] in *. lia.
  - pose proof (format_digits_length 19 z ""). cbn [String.length] in *. lia.
Qed.
Lemma pad0_length w z : (String.length (pad0 w z) ≤ w + 20)%nat.
Proof.
  unfold pad0. rewrite str_length_app. pose proof (format_int_length z).
  assert (∀ n, String.length (String.concat "" (repeat "0" n)) = n) as ->; [|lia].
  induction n as [|[|n] IH]; [done|done|].
  change (String.concat "" (repeat "0" (S (S n)))) with ("0" +:+ "" +:+ String.concat "" (repeat "0" (S n))).
  rewrite !str_length_app, IH. done.
Qed.
Lemma strip_zeros_length n z w : (String.length (strip_zeros n z w) ≤ w + 21)%nat.
Proof.
  revert z w. induction n as [|n IH]; intros z w; [cbn; lia|]. cbn [strip_zeros].
  destruct (_ =? 0); [etransitivity; [apply IH|lia]|]. rewrite str_length_app. pose proof (pad0_length w z). cbn [String.length]. lia.
Qed.
Lemma RFC3339Nano_length t : (String.length (RFC3339Nano t) ≤ 250)%nat.
Proof.
  unfold RFC3339Nano, format_date, format_clock, fraction. destruct (civil _) as [[y m] d]. cbv zeta. rewrite !str_length_app.
  repeat match goal with |- context [pad0 ?w ?z] => pose proof (pad0_length w z); generalize dependent (pad0 w z); intros end.
  destruct (_ =? 0); [|match goal with |- context [strip_zeros ?n ?z ?w] => pose proof (strip_zeros_length n z w) end];
    cbn [String.length] in *; lia.
Qed.

Definition weight (l : list string) : nat := foldr (λ m n, String.length m + 1 + n)%nat 0%nat l.
Lemma join_length l : (String.length (GoText.join "," l) ≤ weight l)%nat.
Proof.
  induction l as [|x [|y l] IH]; [done|cbn; lia|]. rewrite GoPath.join_cons_cons, !str_length_app.
  change (weight (x :: y :: l)) with (String.length x + 1 + weight (y :: l))%nat. cbn [String.length]. lia.
Qed.
Lemma weight_app a b : weight (a ++ b) = (weight a + weight b)%nat.
Proof. induction a as [|x a IH]; [done|]. cbn. unfold weight in *. cbn. lia. Qed.
Lemma member_length k v : (String.length (member k v) ≤ 6 * String.length k + String.length v + 3)%nat.
Proof. unfold member. rewrite !str_length_app. pose proof (json_string_length k). cbn [String.length]. lia. Qed.
Lemma opt_member_weight k s : (weight (opt_member k s) ≤ 6 * String.length k + 6 * String.length s + 6)%nat.
Proof.
  unfold opt_member. case_bool_decide; [cbn; lia|]. unfold weight. cbn [foldr].
  pose proof (member_length k (json_string s)). pose proof (json_string_length s). lia.
Qed.

Lemma weight_pair a b : weight [a; b] = (String.length a + 1 + (String.length b + 1))%nat.
Proof. cbn. lia. Qed.

(** The caller's text in a record. *)
Definition text_length (e : Entry) : nat :=
  (String.length (EntryTool e) + String.length (EntryProfile e) + String.length (EntryArgs e) +
   String.length (EntryResult e) + String.length (EntrySession e))%nat.

(** A record of at most ten thousand bytes of text is read back. *)
Lemma entry_fits e : (Z.of_nat (text_length (Rec e.2)) ≤ 10000) → fits_buffer (entry_line e) = true.
Proof.
  intros H. unfold fits_buffer, MaxScanTokenSize, entry_line, entry_json. apply Nat.ltb_lt.
  assert (Rec e.2 = Rec (stamp e.1 e.2)) as E by (unfold stamp; by destruct (time_is_zero _)). rewrite E in H. clear E.
  generalize dependent (stamp e.1 e.2). clear e. intros e H. fold (members e). rewrite !str_length_app.
  pose proof (join_length (members e)) as J. assert (W : weight (members e) = weight (members e)) by done. unfold members at 2 in W. rewrite !weight_app, !weight_pair in W.
  pose proof (opt_member_weight "profile" (EntryProfile (Rec e))) as Hp.
  pose proof (opt_member_weight "args_summary" (EntryArgs (Rec e))) as Ha.
  pose proof (opt_member_weight "session_address" (EntrySession (Rec e))) as Hs.
  pose proof (member_length "time" (dq +:+ RFC3339Nano (At e) +:+ dq)) as Mt. rewrite !str_length_app in Mt. pose proof (RFC3339Nano_length (At e)) as Lt.
  pose proof (member_length "tool" (json_string (EntryTool (Rec e)))) as Mo. pose proof (json_string_length (EntryTool (Rec e))) as Lo.
  pose proof (member_length "result" (json_string (EntryResult (Rec e)))) as Mr. pose proof (json_string_length (EntryResult (Rec e))) as Lr.
  pose proof (member_length "duration_ms" (format_int (Millis e))) as Md. pose proof (format_int_length (Millis e)) as Ld.
  unfold text_length in H. cbn [String.length dq] in *.
  apply Nat2Z.inj_lt. change (Z.of_nat 65536) with 65536. lia.
Qed.

(** An over-long profile argument hides what is logged after it. *)
Lemma json_body_longer s n : (String.length s ≤ n)%nat → (String.length s ≤ String.length (json_body n s))%nat.
Proof.
  revert s. induction n as [|n IH]; intros [|a s] H; cbn [String.length] in *; try lia.
  cbn [json_body]. destruct (decode_rune (String a s)) as [[r rest]|] eqn:E.
  - destruct (decode_rune_raw _ _ _ E) as (x & Hx & Hl & Hr). rewrite Hx, str_take_app, str_length_app.
    destruct (json_rune_ok x r Hl Hr) as (_ & _ & H3).
    apply (f_equal String.length) in Hx. rewrite str_length_app in Hx. cbn [String.length] in Hx.
    pose proof (IH rest ltac:(lia)). lia.
  - rewrite str_length_app. pose proof (IH s ltac:(lia)). cbn [String.length]. lia.
Qed.

Lemma join_longer sep x l : x ∈ l → (String.length x ≤ String.length (GoText.join sep l))%nat.
Proof.
  induction l as [|y [|z l] IH]; intros H; [by apply not_elem_of_nil in H|apply list_elem_of_singleton in H as ->; done|].
  rewrite GoPath.join_cons_cons, !str_length_app. apply elem_of_cons in H as [->|H]; [lia|]. apply IH in H. lia.
Qed.

Theorem oversized_profile_hides now e es :
  encodes (stamp now e) = true →
  (MaxScanTokenSize ≤ String.length (EntryProfile (Rec e)))%nat →
  tailAudit (Ok (log_file ((now, e) :: es))) = mkOut [] "read audit log: bufio.Scanner: token too long" 1.
Proof.
  intros Henc H. assert (fits_buffer (entry_line (now, e)) = false) as F.
  { unfold fits_buffer. apply Nat.ltb_ge. etransitivity; [exact H|]. unfold entry_line, entry_json. cbn [fst snd].
    assert (Rec e = Rec (stamp now e)) as -> by (unfold stamp; by destruct (time_is_zero _)).
    generalize (stamp now e). intros e'. unfold opt_member at 1. case_bool_decide as E; [rewrite E; apply Nat.le_0_l|].
    rewrite !str_length_app. etransitivity; [|etransitivity; [apply Nat.le_add_r|apply Nat.le_add_l]].
    etransitivity; [|apply (join_longer _ (member "profile" (json_string (EntryProfile (Rec e'))))); set_solver].
    unfold member. rewrite !str_length_app. unfold json_string at 2. rewrite !str_length_app.
    pose proof (json_body_longer (EntryProfile (Rec e')) _ (le_n _)). lia. }
  cbn [tailAudit]. rewrite log_pieces. unfold kept. rewrite filter_cons_True by done.
  change (entry_line <$> (now, e) :: ?l) with (entry_line (now, e) :: (entry_line <$> l)).
  cbn [app scan]. unfold fits_buffer in F. apply Nat.ltb_ge in F. by rewrite (proj2 (Nat.leb_le _ _) F).
Qed.
