(* ===== verification/Startup.v ===== *)
(** * Start-up wiring of the server ([cmd/gnomcp/main.go])

    The client caches behind [buildChainResolver] and [buildIndexerResolver],
    as steps of concurrent calls over the shared server; where the files are
    (flags, environment, home directory); the bound on agent keys; and which
    local chain is found.  [os.UserHomeDir] answers [home], [os.Getenv] answers
    [env] (empty when unset). *)
From S2P Require Import Prelude GoText GoPath Profiles ServerCore.
From stdpp Require Import prelude strings gmap list.
From Stdlib Require Import ZArith Lia Ascii String.
Local Open Scope Z_scope.

(** ** A cache of clients *)

(** A client, and which construction made it. *)
Record client (K : Type) := mkClient { made_for : K; serial : nat }.
Arguments mkClient {K}. Arguments made_for {K}. Arguments serial {K}.

Section cache.
Context {K : Type} `{!EqDecision K}.
(** What of a profile a client is built from ([None]: no client for it), and
    why building fails. *)
Context (key_of : Profile → option K) (build : K → option string).

Record cache := mkCache { entries : gmap string (client K); made : nat }.

Definition new_client (c : cache) (name : string) (k : K) : cache * client K :=
  let cl := mkClient k (made c) in (mkCache (<[name := cl]> (entries c)) (S (made c)), cl).

(** What runs under the mutex, for the profile the caller read before it. *)
Definition lookup_or_build (c : cache) (name : string) (k : K) : cache * option (client K) :=
  match entries c !! name with
  | Some cl => if bool_decide (made_for cl = k) then (c, Some cl) else
      match build k with Some _ => (c, None) | None => let '(c, cl) := new_client c name k in (c, Some cl) end
  | None =>
      match build k with Some _ => (c, None) | None => let '(c, cl) := new_client c name k in (c, Some cl) end
  end.

Definition answer (c : cache) (name : string) (p : option Profile) : cache * option (client K) :=
  match p ≫= key_of with None => (c, None) | Some k => lookup_or_build c name k end.

(** The profiles of the configuration dialled at start-up, in the map's order. *)
Context (is_print : Z → bool).
Fixpoint seed (profs : list (string * Profile)) (c : cache) : res string cache :=
  match profs with
  | [] => Ok c
  | (name, p) :: rest =>
      match key_of p with
      | None => seed rest c
      | Some k => match build k with
                  | Some e => Err ("chain client for profile " +:+ quote is_print name +:+ ": " +:+ e)
                  | None => seed rest (new_client c name k).1
                  end
      end
  end.

(** ** Concurrent calls

    A call reads the profile from the current configuration, then takes the
    mutex; profiles are added in between. *)
Record world := mkWorld {
  wsrv : Server;
  wcache : cache;
  pending : gmap nat (string * option Profile);
  answers : list (string * option Profile * option (client K));
}.

Inductive step : world → world → Prop :=
  | step_read w t name :
      step w (mkWorld (wsrv w) (wcache w) (<[t := (name, cfg (wsrv w) !! name)]> (pending w)) (answers w))
  | step_answer w t name p :
      pending w !! t = Some (name, p) →
      step w (mkWorld (wsrv w) (answer (wcache w) name p).1 (delete t (pending w))
                (answers w ++ [(name, p, (answer (wcache w) name p).2)]))
  | step_add w name p :
      step w (mkWorld (AddDynamicProfile (wsrv w) name p).1 (wcache w) (pending w) (answers w)).

Definition start (s : Server) (c : cache) : world := mkWorld s c ∅ [].

(** *** Facts *)

(** The answer is for the profile the call read, and is missing only when the
    profile has no client or it cannot be built. *)
Definition answer_ok (a : string * option Profile * option (client K)) : Prop :=
  match a.1.2 ≫= key_of, a.2 with
  | None, r => r = None
  | Some k, Some cl => made_for cl = k
  | Some k, None => is_Some (build k)
  end.

Lemma answer_answers c name p : answer_ok (name, p, (answer c name p).2).
Proof.
  unfold answer_ok, answer. cbn [fst snd]. destruct (p ≫= key_of) as [k|]; [|done].
  unfold lookup_or_build. destruct (entries c !! name) as [cl|].
  - case_bool_decide as E; [done|]. destruct (build k) eqn:B; cbn; eauto.
  - destruct (build k) eqn:B; cbn; eauto.
Qed.

Lemma step_answers_ok w w' : step w w' → Forall answer_ok (answers w) → Forall answer_ok (answers w').
Proof.
  intros S H. destruct S; cbn; [done| |done]. rewrite Forall_app. split; [done|]. apply Forall_singleton, answer_answers.
Qed.

(** Asking again with the same profile gives the same client and builds nothing. *)
Lemma answer_again c name p cl : (answer c name p).2 = Some cl → answer (answer c name p).1 name p = ((answer c name p).1, Some cl).
Proof.
  unfold answer. destruct (p ≫= key_of) as [k|]; [|done]. unfold lookup_or_build.
  destruct (entries c !! name) as [cl'|] eqn:E.
  - case_bool_decide as D; cbn [fst snd].
    + intros ?; simplify_eq. by rewrite E, bool_decide_eq_true_2.
    + destruct (build k); [done|]. cbn. intros ?; simplify_eq. by rewrite lookup_insert_eq, bool_decide_eq_true_2.
  - destruct (build k); [done|]. cbn. intros ?; simplify_eq. by rewrite lookup_insert_eq, bool_decide_eq_true_2.
Qed.

(** What an answer does to the cache. *)
Lemma answer_other c name p n : n ≠ name → entries (answer c name p).1 !! n = entries c !! n.
Proof.
  intros Hn. unfold answer. destruct (p ≫= key_of) as [k|]; [|done]. unfold lookup_or_build.
  destruct (entries c !! name); [case_bool_decide; [done|]|]; (destruct (build k); [done|]); cbn; by apply lookup_insert_ne.
Qed.
Lemma answer_hit c name p cl :
  entries c !! name = Some cl → key_of p = Some (made_for cl) → answer c name (Some p) = (c, Some cl).
Proof. intros H K'. unfold answer. cbn. rewrite K'. unfold lookup_or_build. by rewrite H, bool_decide_eq_true_2. Qed.
Lemma answer_kept c name p cl : (answer c name p).2 = Some cl → entries (answer c name p).1 !! name = Some cl.
Proof.
  unfold answer. destruct (p ≫= key_of) as [k|]; [|done]. unfold lookup_or_build.
  destruct (entries c !! name) as [cl'|] eqn:E.
  - case_bool_decide; cbn; [by intros ?; simplify_eq|]. destruct (build k); [done|]. cbn. intros ?; simplify_eq. apply lookup_insert_eq.
  - destruct (build k); [done|]. cbn. intros ?; simplify_eq. apply lookup_insert_eq.
Qed.
Lemma answer_none c name p : entries c !! name = None → (answer c name p).2 = None → entries (answer c name p).1 !! name = None.
Proof.
  unfold answer. destruct (p ≫= key_of) as [k|]; [|done]. unfold lookup_or_build. intros E. rewrite E. by destruct (build k).
Qed.

(** A profile of the start-up configuration has one client, whatever is added
    and however the calls interleave. *)
Definition settled (s0 : Server) (c0 : cache) (w : world) : Prop :=
  initNames (wsrv w) = initNames s0 ∧
  ∀ name p, name ∈ initNames s0 → cfg s0 !! name = Some p →
    cfg (wsrv w) !! name = Some p ∧
    (∀ t q, pending w !! t = Some (name, q) → q = Some p) ∧
    (∀ cl, entries (wcache w) !! name = Some cl → key_of p = Some (made_for cl)) ∧
    (∀ cl, entries c0 !! name = Some cl → entries (wcache w) !! name = Some cl) ∧
    (∀ q r, (name, q, r) ∈ answers w → q = Some p ∧ ∀ cl, r = Some cl → entries (wcache w) !! name = Some cl).

Definition well_seeded (s0 : Server) (c0 : cache) : Prop :=
  ∀ name p cl, cfg s0 !! name = Some p → entries c0 !! name = Some cl → key_of p = Some (made_for cl).

Lemma settled_start s0 c0 : well_seeded s0 c0 → settled s0 c0 (start s0 c0).
Proof.
  intros W. split; [done|]. intros name p Hn Hp. split; [done|]. split; [intros t q; cbn; by rewrite lookup_empty|].
  split; [by intros cl; apply W|]. split; [done|]. intros q r H. by apply not_elem_of_nil in H.
Qed.

Lemma settled_step s0 c0 w w' : step w w' → settled s0 c0 w → settled s0 c0 w'.
Proof.
  intros S [Hi H]. destruct S as [w t name|w t name q Hq|w name q]; (split; [|intros n p Hn Hp; destruct (H n p Hn Hp) as (H1 & H2 & H3 & H4 & H5)]);
    cbn [wsrv wcache pending answers] in *; try done.
  - split; [done|]. split; [|done]. intros t' q'. destruct (decide (t = t')) as [<-|Ht].
    + rewrite lookup_insert_eq. intros ?; by simplify_eq.
    + rewrite lookup_insert_ne by done. apply H2.
  - split; [done|]. split; [intros t' q' H'; apply lookup_delete_Some in H' as [_ H']; eauto|].
    destruct (decide (n = name)) as [->|Hne].
    + rewrite (H2 _ _ Hq) in *. clear Hq H2. destruct (entries (wcache w) !! name) as [cl|] eqn:E.
      * rewrite (answer_hit _ _ _ cl) by auto. cbn [fst snd]. rewrite E. split; [done|]. split; [done|].
        intros q' r [Hin|Hin]%elem_of_app; [by apply H5|]. apply list_elem_of_singleton in Hin. by simplify_eq.
      * destruct (answer (wcache w) name (Some p)).2 as [cl|] eqn:A.
        -- pose proof (answer_kept _ _ _ _ A) as Hk. pose proof (answer_answers (wcache w) name (Some p)) as Ha.
           unfold answer_ok in Ha. cbn [fst snd mbind option_bind] in Ha. rewrite A in Ha. rewrite Hk.
           assert (key_of p = Some (made_for cl)) as Hc by (destruct (key_of p); [by subst|done]).
           split; [by intros ? [= <-]|]. split; [by intros cl' ?%H4|].
           intros q' r [Hin|Hin]%elem_of_app; [|apply list_elem_of_singleton in Hin; by simplify_eq].
           destruct (H5 _ _ Hin) as [-> H6]. split; [done|]. by intros cl' ?%H6.
        -- rewrite (answer_none _ _ _ E A). split; [done|]. split; [by intros cl' ?%H4|].
           intros q' r [Hin|Hin]%elem_of_app; [|apply list_elem_of_singleton in Hin; by simplify_eq].
           destruct (H5 _ _ Hin) as [-> H6]. split; [done|]. by intros cl' ?%H6.
    + rewrite answer_other by done. split; [done|]. split; [done|].
      intros q' r [Hin|Hin]%elem_of_app; [by apply H5|]. apply list_elem_of_singleton in Hin. by simplify_eq.
  - by destruct (AddDynamicProfile_cases (wsrv w) name q) as [[-> _]|(_ & _ & _ & ->)].
  - split; [|done]. destruct (AddDynamicProfile_cases (wsrv w) name q) as [[-> _]|(_ & _ & Hni & ->)]; [done|]. cbn.
    rewrite lookup_insert_ne; [done|]. intros ->. by rewrite Hi in Hni.
Qed.

Lemma rtc_settled s0 c0 w : well_seeded s0 c0 → rtc step (start s0 c0) w → settled s0 c0 w ∧ Forall answer_ok (answers w).
Proof.
  intros W H. refine (rtc_ind_r (λ w, settled s0 c0 w ∧ Forall answer_ok (answers w)) (start s0 c0) _ _ w H).
  - split; [by apply settled_start|constructor].
  - intros w1 w2 _ S [Hs Ha]. split; [by eapply settled_step|by eapply step_answers_ok].
Qed.

(** Dialling at start-up. *)
Lemma seed_other profs c c' n : seed profs c = Ok c' → n ∉ profs.*1 → entries c' !! n = entries c !! n.
Proof.
  revert c. induction profs as [|[name p] profs IH]; intros c H Hn; cbn in *; [by simplify_eq|].
  destruct (key_of p) as [k|]; [destruct (build k); [done|]|]; (rewrite (IH _ H); [|set_solver]); [|done].
  cbn. apply lookup_insert_ne. set_solver.
Qed.
Lemma seed_dials profs c c' name p k :
  seed profs c = Ok c' → NoDup profs.*1 → (name, p) ∈ profs → key_of p = Some k →
  ∃ cl, entries c' !! name = Some cl ∧ made_for cl = k.
Proof.
  revert c. induction profs as [|[n q] profs IH]; intros c H Hn Hin Hk; [by apply not_elem_of_nil in Hin|]. cbn in H, Hn.
  apply NoDup_cons in Hn as [Hn Hl]. apply elem_of_cons in Hin as [[= <- <-]|Hin].
  - rewrite Hk in H. destruct (build k); [done|]. rewrite (seed_other _ _ _ _ H) by done.
    exists (mkClient k (made c)). split; [apply lookup_insert_eq|done].
  - destruct (key_of q) as [k'|]; [destruct (build k'); [done|]|]; eauto.
Qed.
Lemma seed_builds profs c c' name p k :
  seed profs c = Ok c' → (name, p) ∈ profs → key_of p = Some k → ¬ is_Some (build k).
Proof.
  revert c. induction profs as [|[n q] profs IH]; intros c H Hin Hk; [by apply not_elem_of_nil in Hin|]. cbn in H.
  apply elem_of_cons in Hin as [[= <- <-]|Hin].
  - rewrite Hk in H. intros [e E]. by rewrite E in H.
  - destruct (key_of q) as [k'|]; [destruct (build k'); [done|]|]; eauto.
Qed.
End cache.

(** ** The two resolvers *)

Section resolvers.
Context (is_print : Z → bool).
(** [rpcclient.NewHTTPClient]: why it refuses a URL. *)
Context (NewHTTPClient : string → option string).
Context (order : Config → list (string * Profile)).

(** [chain.NewReal]: the endpoint it talks to and the chain-id it signs for. *)
Definition NewReal (rpcURL chainID : string) : res string (string * string) :=
  _ ← check (negb (bool_decide (rpcURL = ""))) "rpc-url must not be empty";
  _ ← check (negb (bool_decide (chainID = ""))) "chain-id must not be empty";
  _ ← match NewHTTPClient rpcURL with Some e => Err ("rpc client: " +:+ e) | None => Ok tt end;
  mret (rpcURL, chainID).

Definition chain_key (p : Profile) : option (string * string) := Some (RPCURL p, ChainID p).
Definition chain_build (k : string * string) : option string := match NewReal k.1 k.2 with Err e => Some e | Ok _ => None end.

Definition indexer_key (p : Profile) : option string := if bool_decide (TxIndexerURL p = "") then None else Some (TxIndexerURL p).
Definition indexer_build (_ : string) : option string := None.

(** What they start with; a chain client that cannot be built ends the process. *)
Definition buildChainResolver (s : Server) : res string (cache (K := string * string)) :=
  seed chain_key chain_build is_print (order (cfg s)) (mkCache ∅ 0).
Definition buildIndexerResolver : cache (K := string) := mkCache ∅ 0.

Definition chain_step := step chain_key chain_build.
Definition indexer_step := step indexer_key indexer_build.
End resolvers.

(** C38: However calls interleave with each other and with profiles being
    added, a client answered was built for the very endpoint and chain-id (or
    indexer URL) of the profile the call read, a missing answer means that
    profile is unknown or no client can be built for it, and every call on a
    start-up profile gets the one client that was dialled at start-up (for an
    indexer, at first use). *)
Theorem resolvers_match is_print NewHTTPClient order c d c0 w wi :
  (∀ m, order m ≡ₚ map_to_list m) →
  buildChainResolver is_print NewHTTPClient order (NewServer c d) = Ok c0 →
  rtc (chain_step NewHTTPClient) (start (NewServer c d) c0) w →
  rtc indexer_step (start (NewServer c d) buildIndexerResolver) wi →
  Forall (answer_ok chain_key (chain_build NewHTTPClient)) (answers w) ∧
  Forall (answer_ok indexer_key indexer_build) (answers wi) ∧
  (∀ name p q r, c !! name = Some p → (name, q, r) ∈ answers w →
     q = Some p ∧ ∃ cl, r = Some cl ∧ entries c0 !! name = Some cl ∧ made_for cl = (RPCURL p, ChainID p)) ∧
  (∀ name q q' cl cl', is_Some (c !! name) → (name, q, Some cl) ∈ answers wi → (name, q', Some cl') ∈ answers wi → cl = cl').
Proof.
  intros Ho H0 Hc Hi.
  assert (∀ name p, c !! name = Some p → ∃ cl, entries c0 !! name = Some cl ∧ made_for cl = (RPCURL p, ChainID p)) as Hd.
  { intros name p Hp. eapply seed_dials; [exact H0| | |reflexivity].
    - rewrite (fmap_Permutation fst _ _ (Ho c)). apply NoDup_fst_map_to_list.
    - rewrite (Ho c). by apply elem_of_map_to_list. }
  assert (well_seeded chain_key (NewServer c d) c0) as Wc.
  { intros name p cl Hp Hcl. destruct (Hd name p Hp) as (cl' & E & Hm). rewrite Hcl in E. simplify_eq. unfold chain_key. by rewrite Hm. }
  assert (well_seeded indexer_key (NewServer c d) buildIndexerResolver) as Wi.
  { intros name p cl _ Hcl. cbn in Hcl. by rewrite lookup_empty in Hcl. }
  destruct (rtc_settled _ _ _ _ _ Wc Hc) as [[_ Sc] Ac]. destruct (rtc_settled _ _ _ _ _ Wi Hi) as [[_ Si] Ai].
  split; [exact Ac|]. split; [exact Ai|]. split.
  - intros name p q r Hp Hin. destruct (Sc name p) as (_ & _ & _ & H4 & H5); [cbn; by apply elem_of_dom_2 in Hp|done|].
    destruct (H5 q r Hin) as [-> H6]. split; [done|]. destruct (Hd name p Hp) as (cl & E & Hm). exists cl. split; [|done].
    rewrite Forall_forall in Ac. pose proof (Ac _ Hin) as A. unfold answer_ok, chain_key in A. cbn in A.
    destruct r as [cl'|]; [f_equal; pose proof (H6 _ eq_refl); pose proof (H4 _ E); congruence|].
    exfalso. eapply seed_builds; [exact H0| |reflexivity|exact A]. rewrite (Ho c). by apply elem_of_map_to_list.
  - intros name q q' cl cl' [p Hp] H1 H2. destruct (Si name p) as (_ & _ & _ & _ & H5); [cbn; by apply elem_of_dom_2 in Hp|done|].
    destruct (H5 _ _ H1) as [_ E1]. destruct (H5 _ _ H2) as [_ E2].
    pose proof (E1 _ eq_refl). pose proof (E2 _ eq_refl). congruence.
Qed.

Definition ex_profile : Profile := mkProfile "http://127.0.0.1:26657" "dev" "http://127.0.0.1:8546" "" "" "" false "" "" "" false.
Definition ex_cfg : Config := {["dev" := ex_profile]}.
Definition ex_cache : cache (K := string * string) := mkCache {["dev" := mkClient ("http://127.0.0.1:26657", "dev") 0]} 1.
Definition ex_reading : world (K := string * string) :=
  let w := start (NewServer ex_cfg "") ex_cache in
  mkWorld (wsrv w) (wcache w) (<[7%nat := ("dev", cfg (wsrv w) !! "dev")]> (pending w)) (answers w).
Definition ex_world : world (K := string * string) :=
  let w := ex_reading in
  let a := answer chain_key (chain_build (λ _, None)) (wcache w) "dev" (ex_cfg !! "dev") in
  mkWorld (wsrv w) a.1 (delete 7%nat (pending w)) (answers w ++ [("dev", ex_cfg !! "dev", a.2)]).

Theorem resolvers_match_witness :
  rtc (chain_step (λ _, None)) (start (NewServer ex_cfg "") ex_cache) ex_world ∧
  (∃ cl, entries ex_cache !! "dev" = Some cl ∧ made_for cl = ("http://127.0.0.1:26657", "dev")).
Proof.
  assert (rtc (chain_step (λ _, None)) (start (NewServer ex_cfg "") ex_cache) ex_world) as R.
  { apply (rtc_l _ _ ex_reading); [exact (step_read _ _ (start (NewServer ex_cfg "") ex_cache) 7%nat "dev")|].
    apply rtc_once. apply (step_answer chain_key (chain_build (λ _, None)) ex_reading 7%nat "dev" (ex_cfg !! "dev")). vm_compute. reflexivity. }
  split; [exact R|].
  assert (buildChainResolver (λ _, true) (λ _, None) map_to_list (NewServer ex_cfg "") = Ok ex_cache) as H0 by (vm_compute; reflexivity).
  pose proof (resolvers_match (λ _, true) (λ _, None) map_to_list ex_cfg "" ex_cache ex_world
                (start (NewServer ex_cfg "") buildIndexerResolver) (λ m, Permutation_refl _) H0 R (rtc_refl _ _)) as H.
  destruct H as (_ & _ & H & _).
  assert (ex_cfg !! "dev" = Some ex_profile) as Hp by (vm_compute; reflexivity).
  assert (("dev", ex_cfg !! "dev", Some (mkClient ("http://127.0.0.1:26657", "dev") 0)) ∈ answers ex_world) as Ha by (vm_compute; left).
  destruct (H "dev" ex_profile _ _ Hp Ha) as (_ & cl & _ & Hcl). exists cl. exact Hcl.
Defined.

(** ** Where things are *)

Section paths.
Context (env : string → string) (home : option string).

(** [filepath.Join] of several elements, the first not empty. *)
Definition Join_all (root : string) (elems : list string) : string := foldl GoPath.Join root elems.

Definition resolveSources (explicit : string) : Sources :=
  Build_Sources (match home with Some h => Join_all h [".config"; "gnomcp"; "profiles.toml"] | None => "" end)
    "profiles.toml" (if bool_decide (explicit = "") then env "GNOMCP_CONFIG" else explicit).

(** The file [gnomcp profile] edits ([profile.go]). *)
Definition globalProfilePath : string :=
  match home with Some h => Join_all h [".config"; "gnomcp"; "profiles.toml"] | None => "profiles.toml" end.

(** With a home directory, it is the global file the server reads. *)
Lemma globalProfilePath_read explicit h : home = Some h → GlobalPath (resolveSources explicit) = globalProfilePath.
Proof. unfold resolveSources, globalProfilePath. by intros ->. Qed.

Definition env_path (var : string) (elems : list string) (fallback : string) : string :=
  if negb (bool_decide (env var = "")) then env var
  else match home with Some h => Join_all h elems | None => fallback end.

Definition defaultAuditPath : string := env_path "GNOMCP_AUDIT_PATH" [".local"; "share"; "gnomcp"; "audit.jsonl"] "audit.jsonl".
Definition defaultSessionsPath : string := env_path "GNOMCP_SESSIONS_PATH" [".local"; "share"; "gnomcp"; "sessions"] "./sessions".
Definition defaultAgentKeysPath : string := env_path "GNOMCP_AGENT_KEYS_PATH" [".local"; "share"; "gnomcp"; "agent-keys"] "./agent-keys".

(** [strconv.Atoi] on a 64-bit machine: [parse_int]. *)
Definition defaultAgentMaxKeys : Z :=
  let v := env "GNOMCP_AGENT_MAX_KEYS" in
  if bool_decide (v = "") then 5
  else match parse_int v with Some n => if 0 <? n then n else 5 | None => 5 end.

Lemma defaultAgentMaxKeys_positive : 0 < defaultAgentMaxKeys.
Proof using Type. unfold defaultAgentMaxKeys. case_bool_decide; [lia|]. destruct (parse_int _) as [n|]; [|lia]. destruct (0 <? n) eqn:E; [b2p|]; lia. Qed.
End paths.

(** [discoverLocal]: the first profile, in the map's order, whose node answers. *)
Fixpoint discoverLocal (profs : list (string * Profile)) (status : Profile → status_answer) : string :=
  match profs with
  | [] => ""
  | (name, p) :: rest => match DiscoverLocal p (status p) with Ok true => name | _ => discoverLocal rest status end
  end.

(** What is found is a configured local profile whose node reports its chain-id;
    nothing is found only when there is none. *)
Lemma discoverLocal_found profs status :
  (∃ p, (discoverLocal profs status, p) ∈ profs ∧ IsLocal p = true ∧ status p = SCode 200 (Some (ChainID p))) ∨
  discoverLocal profs status = "" ∧ ∀ name p, (name, p) ∈ profs → ¬ (IsLocal p = true ∧ status p = SCode 200 (Some (ChainID p))).
Proof.
  induction profs as [|[name p] profs IH]; [right; split; [done|]; intros ? ? H; by apply not_elem_of_nil in H|]. cbn [discoverLocal].
  assert (DiscoverLocal p (status p) = Ok true ↔ IsLocal p = true ∧ status p = SCode 200 (Some (ChainID p))) as D.
  { unfold DiscoverLocal. destruct (IsLocal p); cbn; [|naive_solver]. destruct (status p) as [|code n]; [naive_solver|].
    destruct (code =? 200) eqn:E; cbn; [b2p; subst|b2p; naive_solver]. destruct n as [n|]; [|naive_solver].
    destruct (decide (n = ChainID p)) as [->|Hn]; [rewrite bool_decide_eq_true_2 by done; naive_solver|rewrite bool_decide_eq_false_2 by done; naive_solver]. }
  destruct (DiscoverLocal p (status p)) as [[]|] eqn:E.
  { left. exists p. split; [by left|]. by apply D. }
  all: destruct IH as [(q & Hq & Hl)|[Hn Ha]]; [left; exists q; split; [by right|done]|right; split; [done|]].
  all: intros n q [[= -> ->]|Hq]%elem_of_cons; [intros Hd; apply D in Hd; done|by eapply Ha].
Qed.
