(* ===== verification/ServerMain.v ===== *)
(** * The server process ([main] of [cmd/gnomcp/main.go], [publishTools])

    What [main] does with its arguments before it serves: the subcommands, the
    flags, the configuration, the audit file, the client caches, the sessions
    read from disk, the tools pushed to the SDK; and what each component's
    theorems start from.  Signals, the SDK and its transport are library
    calls. *)
From S2P Require Import Prelude GoText GoPath Profiles ChainTypes SessionManager ServerCore Registration Startup.
From stdpp Require Import prelude strings gmap list relations.
From Stdlib Require Import ZArith Lia Ascii String.
Local Open Scope Z_scope.

(** ** Arguments *)

Inductive subcommand := CmdVersion | CmdAudit (args : list string) | CmdProfile (args : list string) | CmdServe (args : list string).

(** [argv] is [os.Args[1:]]. *)
Definition subcommand_of (argv : list string) : subcommand :=
  match argv with
  | arg :: rest =>
      if bool_decide (arg = "version") then CmdVersion
      else if bool_decide (arg = "audit") then CmdAudit rest
      else if bool_decide (arg = "profile") then CmdProfile rest
      else CmdServe argv
  | [] => CmdServe []
  end.

Record serve_flags := mkServe { configPath : string; auditPath : string; auditReads : bool; sessionsPath : string }.

Definition default_serve (env : string → string) (home : option string) : serve_flags :=
  mkServe "" (defaultAuditPath env home) false (defaultSessionsPath env home).

(** ** What the SDK is told of a tool *)

Record ToolAnnotations := mkHints { ReadOnlyHint : bool; DestructiveHint : option bool; IdempotentHint : bool; OpenWorldHint : option bool }.

(** Both pointers are set: no hint is left to the SDK's default. *)
Definition toSDKAnnotations (a : Annotations) : ToolAnnotations :=
  mkHints (ReadOnly a) (Some (Destructive a)) (Idempotent a) (Some (OpenWorld a)).

Record sdk_tool := mkSdk { SdkInput : input_schema; SdkHints : ToolAnnotations }.
Definition sdk_of (d : tool_decl) : sdk_tool := mkSdk (DInput d) (toSDKAnnotations (DAnn d)).

Section publish.
(** Why a tool's schema does not survive its JSON round trip. *)
Context (mapToSchema : tool_decl → option string) (is_print : Z → bool).

(** Tools are pushed in the registry's order; the first bad schema ends it. *)
Fixpoint push_tools (m : gmap string sdk_tool) (l : list tool_decl) : gmap string sdk_tool * option string :=
  match l with
  | [] => (m, None)
  | d :: l =>
      match mapToSchema d with
      | Some e => (m, Some ("build schema for tool " +:+ quote is_print (DName d) +:+ ": " +:+ e))
      | None => push_tools (<[DName d := sdk_of d]> m) l
      end
  end.

Definition all_decls (r : tools) : list tool_decl := sort_by DName (map_to_list r).*2.
Definition publishTools (m : gmap string sdk_tool) (r : tools) : gmap string sdk_tool * option string := push_tools m (all_decls r).

Lemma push_tools_None l m m' : push_tools m l = (m', None) ↔
  Forall (λ d, mapToSchema d = None) l ∧ m' = foldl (λ m d, <[DName d := sdk_of d]> m) m l.
Proof using Type.
  revert m. induction l as [|d l IH]; intros m; simpl; [naive_solver|]. rewrite Forall_cons.
  destruct (mapToSchema d); [naive_solver|]. rewrite IH. naive_solver.
Qed.

Lemma foldl_sdk l (m : gmap string sdk_tool) name :
  (∀ d, d ∈ l → DName d ≠ name) ∧ foldl (λ m d, <[DName d := sdk_of d]> m) m l !! name = m !! name ∨
  ∃ d, d ∈ l ∧ DName d = name ∧ foldl (λ m d, <[DName d := sdk_of d]> m) m l !! name = Some (sdk_of d).
Proof using Type.
  revert m. induction l as [|d l IH]; intros m; simpl; [left; split; [|done]; intros ? H; by apply not_elem_of_nil in H|].
  destruct (IH (<[DName d := sdk_of d]> m)) as [[Hn E]|(d' & Hin & Hd & E)]; [|right; exists d'; split; [by right|done]].
  destruct (decide (DName d = name)) as [Hd|Hd].
  - right. exists d. split; [left|split; [done|]]. rewrite E, Hd. apply lookup_insert_eq.
  - left. split; [intros d' [->|Hin]%elem_of_cons; [done|by apply Hn]|]. by rewrite E, lookup_insert_ne.
Qed.

(** Publishing a registry replaces exactly its own names. *)
Lemma publishTools_exact m r m' : (∀ name d, r !! name = Some d → DName d = name) → publishTools m r = (m', None) →
  ∀ name, m' !! name = match r !! name with Some d => Some (sdk_of d) | None => m !! name end.
Proof using Type.
  intros Hk [_ ->]%push_tools_None name.
  assert (Hin : ∀ d, d ∈ all_decls r ↔ ∃ n, r !! n = Some d).
  { intros d. unfold all_decls. rewrite sort_by_perm, list_elem_of_fmap. split.
    - intros ([n d'] & -> & H). exists n. by apply elem_of_map_to_list in H.
    - intros [n H]. exists (n, d). split; [done|]. by apply elem_of_map_to_list. }
  destruct (foldl_sdk (all_decls r) m name) as [[Hn ->]|(d & Hd & Hname & ->)].
  - destruct (r !! name) as [d|] eqn:E; [|done]. exfalso. apply (Hn d); [apply Hin; eauto|by eapply Hk].
  - apply Hin in Hd as [n Hd]. pose proof (Hk _ _ Hd). subst n name. by rewrite Hd.
Qed.
End publish.

(** ** [main] *)

(** Why the process ends before it serves. *)
Inductive fatal := LoadConfig (e : profile_error) | MkdirAudit (e : string) | OpenAudit (e : string) | BadClient (e : string) | PublishTools (e : string).

(** What it serves with. *)
Record serving {D : Type} := mkServing {
  sv_srv : Server;
  sv_tools : tools;
  sv_published : gmap string sdk_tool;
  sv_instructions : string;
  sv_clients : Startup.cache (K := string * string);
  sv_indexers : Startup.cache (K := string);
  sv_mem : Sessions;
  sv_dsk : D;
  sv_maxKeys : Z;
}.
Arguments serving : clear implicits.

Section main.
Context (is_print : Z → bool) (env : string → string) (home : option string).
Context (addr_ok : string → bool) (url_parse : string → option URL) (order : Config → list (string * Profile)).
Context (os_open : string → open_result) (Load : string → option Config).
(** Answers to a node's status request, and sessions of a client's chain. *)
Context (status : Profile → status_answer) (QuerySession : string * string → SessionQuery).
Context (MkdirAll : string → option string) (OpenAppend : string → option string) (NewHTTPClient : string → option string).
Context (mapToSchema : tool_decl → option string) {D : Type} (store : StoreOps D).

(** [chainResolver] as [Hydrate] calls it: the client of the profile's entry. *)
Definition hydrate_query (cc : Startup.cache (K := string * string)) (c : Config) (profile : string) : option SessionQuery :=
  (λ cl, QuerySession (made_for cl)) <$> (Startup.answer chain_key (chain_build NewHTTPClient) cc profile (c !! profile)).2.

Definition main (fl : serve_flags) (d0 : D) : res fatal (serving D) :=
  c ← map_err LoadConfig (LoadResolved addr_ok url_parse order os_open Load (resolveSources env home (configPath fl)));
  let discovered := discoverLocal (order c) status in
  _ ← match MkdirAll (GoPath.Dir (auditPath fl)) with Some e => Err (MkdirAudit e) | None => Ok tt end;
  _ ← match OpenAppend (auditPath fl) with Some e => Err (OpenAudit e) | None => Ok tt end;
  let s := NewServer c discovered in
  cc ← map_err BadClient (buildChainResolver is_print NewHTTPClient order s);
  let '(mem, d, _) := Hydrate store (λ p ma a, queryChain (hydrate_query cc c p) ma a) ∅ d0 in
  let r := publish s ∅ in
  match publishTools mapToSchema is_print ∅ r with
  | (_, Some e) => Err (PublishTools e)
  | (published, None) =>
      Ok (mkServing D s r published (buildServerInstructions c) cc buildIndexerResolver mem d (defaultAgentMaxKeys env))
  end.

(** [onProfileAdded]: register and publish again, over what is published. *)
Definition onProfileAdded (s : Server) (r : tools) (m : gmap string sdk_tool) : tools * gmap string sdk_tool * option string :=
  let r := publish s r in
  let '(m, e) := publishTools mapToSchema is_print m r in
  (r, m, e).
End main.

(** ** Properties *)

Section ready.
Context (is_print : Z → bool) (env : string → string) (home : option string).
Context (addr_ok : string → bool) (url_parse : string → option URL) (order : Config → list (string * Profile)).
Context (os_open : string → open_result) (Load : string → option Config).
Context (status : Profile → status_answer) (QuerySession : string * string → SessionQuery).
Context (MkdirAll : string → option string) (OpenAppend : string → option string) (NewHTTPClient : string → option string).
Context (mapToSchema : tool_decl → option string) {D : Type} (store : StoreOps D).

Abbreviation start_up := (main is_print env home addr_ok url_parse order os_open Load status QuerySession MkdirAll OpenAppend
  NewHTTPClient mapToSchema store).

(** What a session may be active on the word of: the chain of its own profile,
    asked at start-up, or the record found on disk. *)
Definition vouched (c : Config) (d0 : D) : Reported := λ p ma a st,
  (∃ q k, c !! p = Some q ∧ queryChain (Some (QuerySession (RPCURL q, ChainID q))) ma a = Ok k ∧ ckActive k = true ∧ st = ckStatus k) ∨
  (∃ a' mt, sr store d0 p a' = Some mt ∧ mState mt = StateActive ∧ SessionManager.MasterAddress mt = ma ∧ SessionAddress mt = a ∧
     mAllowPaths mt = stAllowPaths st ∧ mAllowRun mt = stAllowRun st ∧ ExpiresAt mt = stExpiresAt st).

Lemma published_keyed s name d : publish s ∅ !! name = Some d → DName d = name.
Proof using Type.
  intros H. destruct (publish_inv _ _ _ _ H) as [[_ E]|[E _]]; [done|]. by rewrite lookup_empty in E.
Qed.

(** The clients of the configuration answer the hydration queries. *)
Lemma hydrate_query_own cc c d p q : buildChainResolver is_print NewHTTPClient order (NewServer c d) = Ok cc →
  (∀ c, order c ≡ₚ map_to_list c) → c !! p = Some q →
  ∃ cl, entries cc !! p = Some cl ∧ made_for cl = (RPCURL q, ChainID q) ∧
    hydrate_query QuerySession NewHTTPClient cc c p = Some (QuerySession (RPCURL q, ChainID q)).
Proof using Type.
  intros Hb Ho Hq. destruct (seed_dials _ _ _ _ _ _ p q (RPCURL q, ChainID q) Hb) as (cl & Hcl & Hm).
  - rewrite (fmap_Permutation fst _ _ (Ho c)). apply NoDup_fst_map_to_list.
  - cbn. rewrite (Ho c). by apply elem_of_map_to_list.
  - done.
  - exists cl. split_and!; [done|done|]. unfold hydrate_query, Startup.answer. rewrite Hq. cbn [mbind option_bind chain_key].
    unfold lookup_or_build. rewrite Hcl, bool_decide_eq_true_2 by done. simpl. by rewrite Hm.
Qed.

Lemma main_inv fl d0 sv : start_up fl d0 = Ok sv → ∃ c cc mem d r published,
  let s := NewServer c (discoverLocal (order c) status) in
  LoadResolved addr_ok url_parse order os_open Load (resolveSources env home (configPath fl)) = Ok c ∧
  buildChainResolver is_print NewHTTPClient order s = Ok cc ∧
  Hydrate store (λ p ma a, queryChain (hydrate_query QuerySession NewHTTPClient cc c p) ma a) ∅ d0 = (mem, d, r) ∧
  publishTools mapToSchema is_print ∅ (publish s ∅) = (published, None) ∧
  sv = mkServing D s (publish s ∅) published (buildServerInstructions c) cc buildIndexerResolver mem d (defaultAgentMaxKeys env).
Proof using Type.
  intros H. unfold main in H. apply bind_Ok in H as (c & Hc & H). apply map_err_Ok in Hc.
  apply bind_Ok in H as (? & _ & H). apply bind_Ok in H as (? & _ & H). apply bind_Ok in H as (cc & Hcc & H). apply map_err_Ok in Hcc.
  destruct (Hydrate store _ ∅ d0) as [[mem d] r] eqn:Eh. destruct (publishTools _ _ _ _) as [pub [e|]] eqn:Ep; [done|].
  injection H as <-. exists c, cc, mem, d, r, pub. done.
Qed.

(** Hydration asks each profile's own chain, and keeps what it is told. *)
Lemma hydrated c d0 cc l mem d r : StoreLaws store → (∀ c, order c ≡ₚ map_to_list c) →
  buildChainResolver is_print NewHTTPClient order (NewServer c l) = Ok cc →
  Hydrate store (λ p ma a, queryChain (hydrate_query QuerySession NewHTTPClient cc c p) ma a) ∅ d0 = (mem, d, r) →
  hinv store (vouched c d0) mem d.
Proof using Type.
  intros HL Ho Hcc Hh. refine (Hydrate_inv store (vouched c d0) _ d0 mem d r _ _ Hh).
  - intros p ma a k Hk Hact. left. destruct (c !! p) as [q|] eqn:Hq.
    + destruct (hydrate_query_own cc c l p q Hcc Ho Hq) as (_ & _ & _ & E). rewrite E in Hk. by exists q, k.
    + unfold hydrate_query, Startup.answer in Hk. rewrite Hq in Hk. done.
  - intros p a mt Hr Ha. exists (mkStatus true (mAllowPaths mt) (mAllowRun mt) "" "" (ExpiresAt mt)).
    split; [|done]. right. by exists a, mt.
Qed.

(** C37: a server that starts is ready.  Whatever the configuration files, the
    nodes and the session directory hold, when [main] gets to serving: every
    profile configured validates and has a client dialled for its very endpoint
    and chain-id; the preselected local profile is a configured one whose own
    node answered with its chain-id, or there is none; every registered tool is
    published, and nothing else, its hints set explicitly and never read-only
    and destructive at once; the instructions fit the client's cut; agent keys
    are bounded; and no session is active in memory unless the chain of its own
    profile said so at start-up or the disk holds it active, with exactly that
    scope. *)
Theorem main_ready fl d0 sv : StoreLaws store → (∀ c, order c ≡ₚ map_to_list c) →
  start_up fl d0 = Ok sv → let c := cfg (sv_srv sv) in
  (∀ name p, c !! name = Some p → profile_ok p ∧
     ∃ cl, entries (sv_clients sv) !! name = Some cl ∧ made_for cl = (RPCURL p, ChainID p)) ∧
  (let l := discoveredLocal (sv_srv sv) in l = "" ∨ ∃ p, c !! l = Some p ∧ IsLocal p = true ∧ status p = SCode 200 (Some (ChainID p))) ∧
  (initNames (sv_srv sv) = dom c ∧ serves (sv_srv sv) (sv_tools sv) ∧
     (∀ name, sv_published sv !! name = sdk_of <$> sv_tools sv !! name) ∧
     ∀ name t, sv_published sv !! name = Some t →
       ∃ b o, DestructiveHint (SdkHints t) = Some b ∧ OpenWorldHint (SdkHints t) = Some o ∧ (ReadOnlyHint (SdkHints t) && b = false)) ∧
  ((rune_count (sv_instructions sv) ≤ maxMCPTextLen)%nat ∧ 0 < sv_maxKeys sv) ∧
  ∀ p a ss, getState (sv_mem sv) p a = Some ss → SessionAddress (meta ss) = a ∧
    (state ss = StateActive → confirmed (vouched c d0) p (meta ss)).
Proof using Type.
  intros HL Ho (c & cc & mem & d & r & pub & Hc & Hcc & Hh & Hp & ->)%main_inv. simpl.
  set (l := discoverLocal (order c) status) in *. set (s := NewServer c l) in *.
  assert (Hv : Validate addr_ok url_parse order c = Ok tt)
    by (apply LoadResolved_precedence in Hc as (? & ? & ? & _ & _ & _ & _ & Hv & _); exact Hv).
  assert (Hserves : serves s (publish s ∅)) by apply serves_start.
  pose proof (publishTools_exact _ _ _ _ _ (published_keyed s) Hp) as Hpub.
  split_and!.
  - intros name p Hname. split; [by eapply (proj1 (Validate_sound addr_ok url_parse order order c Ho Ho Hv))|].
    destruct (hydrate_query_own cc c l name p Hcc Ho Hname) as (cl & Hcl & Hm & _). by exists cl.
  - pose proof (discoverLocal_found (order c) status) as Hd. fold l in Hd. destruct Hd as [(p & Hin & Hl)|[E _]]; [right|by left].
    exists p. split; [|done]. rewrite (Ho c) in Hin. by apply elem_of_map_to_list in Hin.
  - done.
  - done.
  - intros name. rewrite Hpub. by destruct (publish s ∅ !! name).
  - intros name t Ht. rewrite Hpub in Ht. destruct (publish s ∅ !! name) as [dl|] eqn:E; [|done].
    injection Ht as <-. destruct (serves_entries s (publish s ∅) name dl Hserves E) as (_ & _ & Ha & _).
    exists (Destructive (DAnn dl)), (OpenWorld (DAnn dl)). split; [done|]. split; [done|]. by apply negb_true_iff.
  - destruct (buildServerInstructions_fits c) as (? & ? & _ & _ & Hn). exact Hn.
  - apply defaultAgentMaxKeys_positive.
  - intros p a ss Hg. destruct (hydrated c d0 cc l mem d r HL Ho Hcc Hh) as [Hm _]. destruct (Hm _ _ _ Hg) as [H1 H2].
    split; [done|]. intros Hst. apply H2. by left.
Qed.
End ready.

(** After each profile added the SDK holds the registry again, and each
    published tool's registration is the registry's. *)
Lemma onProfileAdded_mirrors mapToSchema is_print s r m r' m' :
  (∀ name d, r !! name = Some d → DName d = name) → (∀ name, m !! name = sdk_of <$> r !! name) →
  onProfileAdded is_print mapToSchema s r m = (r', m', None) →
  r' = publish s r ∧ ∀ name, m' !! name = sdk_of <$> r' !! name.
Proof.
  intros Hk Hm. unfold onProfileAdded. destruct (publishTools _ _ _ _) as [m1 e] eqn:Ep. intros [= <- <- ->].
  split; [done|]. intros name. erewrite publishTools_exact; [|intros n d H|exact Ep].
  - destruct (publish s r !! name) as [d|] eqn:E; [done|]. rewrite Hm.
    destruct (r !! name) as [d|] eqn:Er; [|done]. exfalso.
    destruct (decide (name ∈ DName <$> registerAllTools s)) as [Hin|Hout].
    + apply list_elem_of_fmap in Hin as (d' & -> & Hd). by rewrite (publish_fresh s r d' Hd) in E.
    + unfold publish in E. rewrite publish_foldl_other in E by done. congruence.
  - destruct (publish_inv _ _ _ _ H) as [[_ Ed]|[Ed _]]; [done|by apply Hk].
Qed.

(** ** A concrete start *)

(** The built-in profiles and one live node, over the manager's toy disk. *)
Definition toy_main : res fatal (serving (gmap (string * string) SessionMeta)) :=
  main (λ _, true) (λ _, "") (Some "/home/u") (λ _, true) toy_url map_to_list (λ _, NotExist) (λ _, None)
    (λ _, SUnreachable) (λ _ _ _, Err EQueryOther) (λ _, None) (λ _, None) (λ _, None) (λ _, None) toy_store
    (default_serve (λ _, "") (Some "/home/u")) ∅.

Lemma toy_starts : is_ok toy_main = true.
Proof. vm_compute. reflexivity. Qed.

Example subcommands :
  subcommand_of ["audit"; "tail"] = CmdAudit ["tail"] ∧ subcommand_of ["-config"; "x"] = CmdServe ["-config"; "x"] ∧ subcommand_of [] = CmdServe [].
Proof. by vm_compute. Qed.

Lemma main_ready_witness : ∃ sv, toy_main = Ok sv ∧ 0 < sv_maxKeys sv ∧ initNames (sv_srv sv) = dom (cfg (sv_srv sv)).
Proof.
  pose proof toy_starts as H. destruct toy_main as [sv|e] eqn:E; [|discriminate H]. exists sv. split; [reflexivity|].
  destruct (main_ready (λ _, true) (λ _, "") (Some "/home/u") (λ _, true) toy_url map_to_list (λ _, NotExist) (λ _, None)
    (λ _, SUnreachable) (λ _ _ _, Err EQueryOther) (λ _, None) (λ _, None) (λ _, None) (λ _, None) toy_store
    (default_serve (λ _, "") (Some "/home/u")) ∅ sv toy_store_laws (λ c, reflexivity _) E) as (_ & _ & (Hi & _) & (_ & Hk) & _).
  split; [exact Hk|exact Hi].
Defined.
