(* ===== verification/NodeReads.v ===== *)
(** * The node's reads ([internal/chain/status.go], [path.go], [real.go])

    What [chain.Real] answers to the read tools, as their client, and the
    chain-id query behind gno_profile_add.  The node's status, gnoclient's
    Render and QEval, and [gnolang]'s path predicates are arguments. *)
From S2P Require Import Prelude GoText GoTime Profiles ChainTypes ChainClient ServerCore Handlers Parked ProfileAdd ReadTools Registration Startup ServerMain.
From stdpp Require Import prelude strings gmap list.
From Stdlib Require Import ZArith Lia Ascii String.
Local Open Scope Z_scope.

(** [ctypes.ResultStatus], as far as it is read. *)
Record ResultStatus := mkStatusRes { Network : string; LatestBlockHeight : Z; LatestBlockTime : Time }.

Section reads.
(** [rpcclient.NewHTTPClient], and the node behind an endpoint. *)
Context (is_print : Z → bool) (NewHTTPClient : string → option string) (status_of : string → res string ResultStatus).

(** A fresh client per call, closed after it. *)
Definition QueryChainID (rpcURL : string) : res string string :=
  if bool_decide (rpcURL = "") then Err "rpc-url must not be empty"
  else match NewHTTPClient rpcURL with
  | Some e => Err ("rpc client for " +:+ quote is_print rpcURL +:+ ": " +:+ e)
  | None =>
      match status_of rpcURL with
      | Err e => Err ("status query against " +:+ quote is_print rpcURL +:+ ": " +:+ e)
      | Ok st => Ok (Network st)
      end
  end.

Definition Status (rpcURL : string) : res string NodeStatus :=
  match status_of rpcURL with
  | Err e => Err ("status query: " +:+ e)
  | Ok st => Ok (mkNode (Network st) (LatestBlockHeight st) (LatestBlockTime st))
  end.

(** The chain-id query and gno_status hear the same node. *)
Lemma QueryChainID_Ok rpcURL id : QueryChainID rpcURL = Ok id ↔
  rpcURL ≠ "" ∧ NewHTTPClient rpcURL = None ∧ ∃ st, Status rpcURL = Ok st ∧ NodeChainID st = id.
Proof using Type.
  unfold QueryChainID, Status. case_bool_decide; [naive_solver|]. destruct (NewHTTPClient rpcURL); [naive_solver|].
  destruct (status_of rpcURL); naive_solver.
Qed.
(** gnoclient's queries. *)
Context (cli_Render cli_QEval : string → string → res string string).

Definition Render (realm path : string) : res string string := map_err (λ e, "vm/qrender: " +:+ e) (cli_Render realm path).
Definition Eval (realm expr : string) : res string string := map_err (λ e, "vm/qeval: " +:+ e) (cli_QEval realm expr).

(** [path.go] *)
Context (gnolang_IsRealmPath : string → bool).
Definition IsRealmPath (pkgPath : string) : bool := gnolang_IsRealmPath pkgPath.

(** [chain.Real] as the read tools' client. *)
Context (node : Node) (account : string → res string AccountInfo) (meta : string → res string PackageMeta).
Context (node_at : trace → history) (rpcURL : string).
Definition real_reads : ReadChain := {|
  r_render := λ _, Render;
  r_eval := λ _, Eval;
  r_paths := λ tr, ListPaths node (node_at tr);
  r_account := λ _, account;
  r_status := λ _, Status rpcURL;
  r_list := λ tr, ListFiles node (node_at tr);
  r_file := λ tr, File node (node_at tr);
  r_meta := λ _, meta;
|}.
End reads.

(** ** A profile added while the server runs *)

Section live.
Context (is_print : Z → bool) (arg_text : arg_error → string) (profile_text : profile_error → string).
Context (fold_key : Z → Z) (runes : string → list Z) (url_parse : string → option URL) (ParseIP : string → option IPKind).
Context (AddressFromBech32 : string → bool) (order : Config → list (string * Profile)).
Context (get : string → res string page) (NewHTTPClient : string → option string) (status_of : string → res string ResultStatus).
Context (mapToSchema : tool_decl → option string).

(** gno_profile_add wired as [main] wires it: the node is asked by
    [QueryChainID], and the tools [r], published as [m], are published again. *)
Definition live_add (r : tools) (m : gmap string sdk_tool) :=
  profileAddHandler is_print arg_text profile_text fold_key runes url_parse ParseIP AddressFromBech32 order get
    (QueryChainID is_print NewHTTPClient status_of) (λ s, (onProfileAdded is_print mapToSchema s r m).2).

(** What is published over a registry: the configuration's tools as it
    declares them, and any other as it was. *)
Lemma published_over s (r : tools) n :
  (offers_tool s n ∧ ∃ d, d ∈ registerAllTools s ∧ DName d = n ∧ sdk_of <$> publish s r !! n = Some (sdk_of d)) ∨
  (¬ offers_tool s n ∧ sdk_of <$> publish s r !! n = sdk_of <$> r !! n).
Proof using Type.
  rewrite <- offered_by_registration. destruct (decide (n ∈ DName <$> registerAllTools s)) as [Hin|Hout]; [left|right].
  - split; [done|]. apply list_elem_of_fmap in Hin as (d & -> & Hd). exists d. by rewrite publish_fresh.
  - split; [done|]. unfold publish. by rewrite publish_foldl_other.
Qed.

(** C36: a profile added while the server runs is served at once.  When
    gno_profile_add answers, the one new profile is a validated one whose own
    node reports its chain-id; the registry is the earlier one with the new
    configuration's tools published over it; the SDK holds every tool the new
    configuration calls for, as that configuration declares it, and any other
    exactly as before, so a tool whose gate has closed keeps its old
    declaration; and the chain resolver answers, from any cache it may have, a
    client built for that profile's endpoint and chain-id. *)
Theorem added_profile_served args_order args srv r m srv' ios res :
  (∀ c, order c ≡ₚ map_to_list c) → serves srv r → (∀ name, m !! name = sdk_of <$> r !! name) →
  live_add r m args_order args srv = (srv', ios, Ok res) →
  ∃ name p m', cfg srv' = <[name := p]> (cfg srv) ∧ profile_ok p ∧
    (∃ st, Status status_of (RPCURL p) = Ok st ∧ NodeChainID st = ChainID p) ∧
    serves srv' (publish srv' r) ∧
    onProfileAdded is_print mapToSchema srv' r m = (publish srv' r, m', None) ∧
    (∀ n, (offers_tool srv' n ∧ ∃ d, d ∈ registerAllTools srv' ∧ DName d = n ∧ m' !! n = Some (sdk_of d)) ∨
          (¬ offers_tool srv' n ∧ m' !! n = m !! n)) ∧
    ∀ cc, ∃ cl, (Startup.answer chain_key (chain_build NewHTTPClient) cc name (cfg srv' !! name)).2 = Some cl ∧
      made_for cl = (RPCURL p, ChainID p).
Proof using Type.
  intros Ho Hs Hm H. unfold live_add in H.
  pose proof (handler_outcome is_print arg_text profile_text fold_key runes url_parse ParseIP AddressFromBech32 order Ho get
    (QueryChainID is_print NewHTTPClient status_of) (λ s, (onProfileAdded is_print mapToSchema s r m).2) args_order args srv) as Hh.
  rewrite H in Hh. destruct Hh as [(q & rpc & chain & pre & -> & Hv & Hne & Hni & Hok & _ & _ & _ & _ & Hver & _ & _ & Ha)|(_ & Hf & _)]; [|done].
  set (p := candidate q rpc chain) in *. set (srv' := mkServer _ _ _) in *.
  apply QueryChainID_Ok in Hver as (Hrpc & Hdial & st & Hst & Hid).
  destruct (onProfileAdded is_print mapToSchema srv' r m) as [[r' m'] e] eqn:Ea. simpl in Ha. destruct e as [e|]; [done|].
  destruct (onProfileAdded_mirrors mapToSchema is_print srv' r m r' m') as [-> Hm']; [|done|done|].
  { intros n d Hd. by destruct (serves_entries srv r n d Hs Hd) as (_ & ? & _). }
  exists (ad_name q), p, m'. split; [done|]. split; [done|]. split; [by exists st|]. split.
  { apply (serves_add srv srv' r (ad_name q) p Hs). by apply AddDynamicProfile_fresh. }
  split; [done|]. split; [intros n; rewrite Hm', Hm; apply published_over|]. intros cc. subst srv'. cbn [cfg]. rewrite lookup_insert_eq.
  assert (Hb : chain_build NewHTTPClient (RPCURL p, ChainID p) = None).
  { unfold chain_build, NewReal. cbn [fst snd candidate RPCURL ChainID p]. rewrite Hdial.
    rewrite (bool_decide_eq_false_2 (rpc = "")) by done. rewrite (bool_decide_eq_false_2 (chain = "")); [done|].
    intros E. destruct (po_chain _ Hok) as [_ Hc]. unfold p in Hc. cbn [candidate ChainID] in Hc. by rewrite E in Hc. }
  unfold Startup.answer. cbn [mbind option_bind chain_key]. unfold lookup_or_build, new_client.
  destruct (entries cc !! ad_name q) as [cl|]; [case_bool_decide as Ecl|]; rewrite ?Hb; simpl; eauto.
Qed.
End live.

(** The onyx page's profile, added to a server with one testnet profile. *)
Definition onyx_srv : Server := NewServer {["p" := endpoint "https://rpc.test5.gno.land" "test5"]} "".
Definition onyx_tools : tools := publish onyx_srv ∅.
Definition onyx_published : gmap string sdk_tool := (publishTools (λ _, None) (λ _, true) ∅ onyx_tools).1.
Definition onyx_status (_ : string) : res string ResultStatus := Ok (mkStatusRes "onyx-1" 7 0).

Definition onyx_add :=
  live_add (λ _, true) (λ _, "") (λ _, "") id (λ s, Z.of_nat ∘ Ascii.nat_of_ascii <$> list_ascii_of_string s)
    toy_parse (λ _, None) (λ _, true) map_to_list toy_get (λ _, None) onyx_status (λ _, None) onyx_tools onyx_published
    add_arg_names gnoweb_args onyx_srv.

Lemma onyx_adds : is_ok onyx_add.2 = true.
Proof. vm_compute. reflexivity. Qed.

Lemma push_all is_print l m : (push_tools (λ _, None) is_print m l).2 = None.
Proof. revert m. induction l as [|d l IH]; intros m; [done|]. apply IH. Qed.

Lemma onyx_mirror : ∀ name, onyx_published !! name = sdk_of <$> onyx_tools !! name.
Proof.
  intros name. unfold onyx_published.
  rewrite (publishTools_exact (λ _, None) (λ _, true) ∅ onyx_tools (publishTools (λ _, None) (λ _, true) ∅ onyx_tools).1 (published_keyed onyx_srv)).
  - by destruct (onyx_tools !! name).
  - apply injective_projections; [reflexivity|apply push_all].
Qed.

Lemma added_profile_served_witness :
  ∃ srv' ios res p, onyx_add = (srv', ios, Ok res) ∧ profile_ok p ∧ (∃ st, Status onyx_status (RPCURL p) = Ok st ∧ NodeChainID st = ChainID p).
Proof.
  pose proof onyx_adds as H. destruct onyx_add as [[srv' ios] [res|e]] eqn:E; [|discriminate H].
  destruct (added_profile_served (λ _, true) (λ _, "") (λ _, "") id (λ s, Z.of_nat ∘ Ascii.nat_of_ascii <$> list_ascii_of_string s)
    toy_parse (λ _, None) (λ _, true) map_to_list toy_get (λ _, None) onyx_status (λ _, None)
    add_arg_names gnoweb_args onyx_srv onyx_tools onyx_published srv' ios res (λ c, reflexivity _) (serves_start _ _) onyx_mirror E)
    as (name & p & m' & _ & Hok & Hst & _).
  exists srv', ios, res, p. split; [reflexivity|]. split; [exact Hok|exact Hst].
Defined.
