(* ===== verification/ChainFake.v ===== *)
(** * The in-memory chain client

    [internal/chain/fake.go]: the [Client] the handlers are tested against, its
    scripted answers and the counters the tests read, and what those counters
    prove of a handler that ran over it. *)
From S2P Require Import Prelude GoText GoTime GasPrice Untrusted Profiles ChainTypes ChainClient Keystore ServerCore Handlers Parked WriteTools AddPkg ReadTools IndexerTools.
From stdpp Require Import prelude strings gmap list.
From Stdlib Require Import ZArith Lia Ascii String.
Local Open Scope Z_scope.

Module Fake.

(** ** State *)

Section state.
Context {E : Type}.

(** A map of errors holds nil where one was set: [Some None]. *)
Record Reads := mkReads { renders : gmap string string; evals : gmap string string; files : gmap string string;
  listings : gmap string (list string); paths : gmap string (list string); docs : gmap string string }.
Record UserTxs := mkUser { calls : gmap string TxResult; callErrors : gmap string (option E);
  runs : gmap string TxResult; runErrors : gmap string (option E); lastAsUserMstr : string }.
Record AgentTxs := mkAgent { agentCalls : gmap string TxResult; agentCallErrors : gmap string (option E);
  agentRuns : gmap string TxResult }.
Record Deploys := mkDeploys { addPkgs : gmap string TxResult; addPkgErrs : gmap string (option E);
  addPkgBcasts : gmap string Z; lastAddPkgFiles : gmap string (list MemFile) }.
Record Accounts := mkAccounts { sessions : gmap string SessionStatus; sessionErrors : gmap string (option E);
  accounts : gmap string AccountInfo; accountErrors : gmap string (option E) }.
Record Bank := mkBank { balances : gmap string Z; bankSends : list (string * Z); sendErr : option E }.
Record Packages := mkPackages { pkgMetas : gmap string (list PackageMeta); pkgMetaErrs : gmap string (option E);
  pkgMetaCalls : gmap string Z; pkgMetaFailAt : gmap string Z }.
(** [status] with [statusSet]. *)
Record Node := mkNodeSt { status : option NodeStatus; statusErr : option E; gasFee : Z; gasFeeErr : option E;
  policy : string; policyErr : option E; runSubmitters : list string; runSubmitErr : option E }.

Record state := mkFake { reads : Reads; user : UserTxs; agent : AgentTxs; lastSend : string;
  deploys : Deploys; accts : Accounts; bank : Bank; packages : Packages; node : Node }.

(** What an operation fails with: the error a test seeded, or its own. *)
Inductive failure := Seeded (e : E) | Own (text : string).
End state.
Arguments UserTxs : clear implicits.
Arguments AgentTxs : clear implicits.
Arguments Deploys : clear implicits.
Arguments Accounts : clear implicits.
Arguments Bank : clear implicits.
Arguments Packages : clear implicits.
Arguments Node : clear implicits.
Arguments state : clear implicits.
Arguments failure : clear implicits.

Definition no_result : TxResult := ChainTypes.mkTx "" 0 "" 0 0 0 false.
Definition no_account : AccountInfo := mkInfo [] 0 0 false.
Definition unread_meta : PackageMeta := mkMeta "" "" false.

Definition callKey (realm fn : string) (args : list string) : string := realm +:+ "|" +:+ fn +:+ "|" +:+ GoText.join "," args.
Definition sessionKey (master sessionAddr : string) : string := master +:+ "|" +:+ sessionAddr.
Definition pair_key (realm rest : string) : string := realm +:+ "|" +:+ rest.

(** [%v] of a slice of strings *)
Definition show_list (l : list string) : string := "[" +:+ GoText.join " " l +:+ "]".

Section fake.
Context {E : Type} (is_print : Z → bool).
Implicit Types (f : state E).

Definition NewFake : state E :=
  mkFake (mkReads ∅ ∅ ∅ ∅ ∅ ∅) (mkUser ∅ ∅ ∅ ∅ "") (mkAgent ∅ ∅ ∅) "" (mkDeploys ∅ ∅ ∅ ∅) (mkAccounts ∅ ∅ ∅ ∅)
    (mkBank ∅ [] None) (mkPackages ∅ ∅ ∅ ∅) (mkNodeSt None None DefaultGasFeeUgnot None "" None [] None).

Definition with_reads (r : Reads) f := mkFake r (user f) (agent f) (lastSend f) (deploys f) (accts f) (bank f) (packages f) (node f).
Definition with_user (u : UserTxs E) f := mkFake (reads f) u (agent f) (lastSend f) (deploys f) (accts f) (bank f) (packages f) (node f).
Definition with_agent (a : AgentTxs E) f := mkFake (reads f) (user f) a (lastSend f) (deploys f) (accts f) (bank f) (packages f) (node f).
Definition with_send (s : string) f := mkFake (reads f) (user f) (agent f) s (deploys f) (accts f) (bank f) (packages f) (node f).
Definition with_deploys (d : Deploys E) f := mkFake (reads f) (user f) (agent f) (lastSend f) d (accts f) (bank f) (packages f) (node f).
Definition with_accts (a : Accounts E) f := mkFake (reads f) (user f) (agent f) (lastSend f) (deploys f) a (bank f) (packages f) (node f).
Definition with_bank (b : Bank E) f := mkFake (reads f) (user f) (agent f) (lastSend f) (deploys f) (accts f) b (packages f) (node f).
Definition with_packages (p : Packages E) f := mkFake (reads f) (user f) (agent f) (lastSend f) (deploys f) (accts f) (bank f) p (node f).
Definition with_node (n : Node E) f := mkFake (reads f) (user f) (agent f) (lastSend f) (deploys f) (accts f) (bank f) (packages f) n.

(** ** The node's settings *)

Definition SetStatus (st : NodeStatus) f := let n := node f in
  with_node (mkNodeSt (Some st) (statusErr n) (gasFee n) (gasFeeErr n) (policy n) (policyErr n) (runSubmitters n) (runSubmitErr n)) f.
Definition SetStatusError (err : option E) f := let n := node f in
  with_node (mkNodeSt (status n) err (gasFee n) (gasFeeErr n) (policy n) (policyErr n) (runSubmitters n) (runSubmitErr n)) f.
Definition SetGasFee (ugnot : Z) f := let n := node f in
  with_node (mkNodeSt (status n) (statusErr n) ugnot (gasFeeErr n) (policy n) (policyErr n) (runSubmitters n) (runSubmitErr n)) f.
Definition SetGasFeeErr (err : option E) f := let n := node f in
  with_node (mkNodeSt (status n) (statusErr n) (gasFee n) err (policy n) (policyErr n) (runSubmitters n) (runSubmitErr n)) f.
Definition SetSubmissionPolicy (p : string) f := let n := node f in
  with_node (mkNodeSt (status n) (statusErr n) (gasFee n) (gasFeeErr n) p (policyErr n) (runSubmitters n) (runSubmitErr n)) f.
Definition SetSubmissionPolicyErr (err : option E) f := let n := node f in
  with_node (mkNodeSt (status n) (statusErr n) (gasFee n) (gasFeeErr n) (policy n) err (runSubmitters n) (runSubmitErr n)) f.
Definition SetRunSubmitters (addrs : list string) f := let n := node f in
  with_node (mkNodeSt (status n) (statusErr n) (gasFee n) (gasFeeErr n) (policy n) (policyErr n) addrs (runSubmitErr n)) f.
Definition SetRunSubmittersErr (err : option E) f := let n := node f in
  with_node (mkNodeSt (status n) (statusErr n) (gasFee n) (gasFeeErr n) (policy n) (policyErr n) (runSubmitters n) err) f.

(** [if err != nil { return zero, err }; return v] *)
Definition unless {A} (err : option E) (v : A) : res (failure E) A :=
  match err with Some e => Err (Seeded e) | None => Ok v end.

Definition Status f : res (failure E) NodeStatus :=
  match statusErr (node f) with
  | Some e => Err (Seeded e)
  | None => ok_or (Own "fake: no status seeded") (status (node f))
  end.
Definition GasFeeUgnot f : res (failure E) Z := unless (gasFeeErr (node f)) (gasFee (node f)).
Definition SubmissionPolicy f : res (failure E) string := unless (policyErr (node f)) (policy (node f)).
Definition RunSubmitters f : res (failure E) (list string) := unless (runSubmitErr (node f)) (runSubmitters (node f)).

Definition withFee f (fee : Z) : Z := if fee =? 0 then gasFee (node f) else fee.

(** A seeded result as a broadcast or a simulation answers it. *)
Definition stamped f (simulate : bool) (r : TxResult) : TxResult :=
  ChainTypes.mkTx (TxHash r) (Height r) (Data r) (GasUsed r) (GasWanted r) (withFee f (ChainTypes.GasFee r)) (if simulate then true else Simulated r).

(** The lookup of an error with "comma ok", then of a result. *)
Definition seeded_tx f (err : option (option E)) (r : option TxResult) (missing : string) (simulate : bool) : res (failure E) TxResult :=
  match err with
  | Some None => Ok no_result
  | Some (Some e) => Err (Seeded e)
  | None => stamped f simulate <$> ok_or (Own missing) r
  end.

(** ** Reads *)

Definition SetRender (realm path body : string) f := let r := reads f in
  with_reads (mkReads (<[pair_key realm path := body]> (renders r)) (evals r) (files r) (listings r) (paths r) (docs r)) f.
Definition SetEval (realm expr result : string) f := let r := reads f in
  with_reads (mkReads (renders r) (<[pair_key realm expr := result]> (evals r)) (files r) (listings r) (paths r) (docs r)) f.
Definition SetFile (realm file body : string) f := let r := reads f in
  with_reads (mkReads (renders r) (evals r) (<[pair_key realm file := body]> (files r)) (listings r) (paths r) (docs r)) f.
Definition SetListing (realm : string) (l : list string) f := let r := reads f in
  with_reads (mkReads (renders r) (evals r) (files r) (<[realm := l]> (listings r)) (paths r) (docs r)) f.
Definition SetPaths (target : string) (l : list string) f := let r := reads f in
  with_reads (mkReads (renders r) (evals r) (files r) (listings r) (<[target := l]> (paths r)) (docs r)) f.
Definition SetDoc (realm doc : string) f := let r := reads f in
  with_reads (mkReads (renders r) (evals r) (files r) (listings r) (paths r) (<[realm := doc]> (docs r))) f.

Abbreviation q := (quote is_print).

Definition Render f (realm path : string) : res (failure E) string :=
  ok_or (Own ("fake: no render for realm=" +:+ q realm +:+ " path=" +:+ q path)) (renders (reads f) !! pair_key realm path).
Definition Eval f (realm expr : string) : res (failure E) string :=
  ok_or (Own ("fake: no eval for realm=" +:+ q realm +:+ " expr=" +:+ q expr)) (evals (reads f) !! pair_key realm expr).
Definition File f (realm file : string) : res (failure E) string :=
  ok_or (Own ("fake: no file for realm=" +:+ q realm +:+ " file=" +:+ q file)) (files (reads f) !! pair_key realm file).
Definition ListFiles f (realm : string) : res (failure E) (list string) :=
  ok_or (Own ("fake: no listing for realm=" +:+ q realm)) (listings (reads f) !! realm).
(** The limit is not looked at. *)
Definition ListPaths f (target : string) (limit : Z) : res (failure E) (list string) :=
  ok_or (Own ("fake: no paths for target=" +:+ q target)) (paths (reads f) !! target).
Definition Doc f (realm : string) : res (failure E) string :=
  ok_or (Own ("fake: no doc for realm=" +:+ q realm)) (docs (reads f) !! realm).

(** ** Session-signed transactions *)

Definition SetCallAsUser (realm fn : string) (args : list string) (result : TxResult) f := let u := user f in
  with_user (mkUser (<[callKey realm fn args := result]> (calls u)) (callErrors u) (runs u) (runErrors u) (lastAsUserMstr u)) f.
Definition SetCallAsUserError (realm fn : string) (err : option E) f := let u := user f in
  with_user (mkUser (calls u) (<[callKey realm fn [] := err]> (callErrors u)) (runs u) (runErrors u) (lastAsUserMstr u)) f.
Definition SetRunAsUser (code : string) (result : TxResult) f := let u := user f in
  with_user (mkUser (calls u) (callErrors u) (<[code := result]> (runs u)) (runErrors u) (lastAsUserMstr u)) f.
Definition SetRunAsUserError (code : string) (err : option E) f := let u := user f in
  with_user (mkUser (calls u) (callErrors u) (runs u) (<[code := err]> (runErrors u)) (lastAsUserMstr u)) f.
Definition note_master (master : string) f := let u := user f in
  with_user (mkUser (calls u) (callErrors u) (runs u) (runErrors u) master) f.

Definition no_call (realm fn : string) (args : list string) : string :=
  "fake: no call for realm=" +:+ q realm +:+ " fn=" +:+ q fn +:+ " args=" +:+ show_list args.
Definition no_run (code : string) : string := "fake: no run for code (" +:+ format_int (len code) +:+ " chars)".

Definition CallAsUser f (master realm fn : string) (args : list string) (send : string) (simulate : bool)
    : state E * res (failure E) TxResult :=
  (note_master master (with_send send f),
   seeded_tx f (callErrors (user f) !! callKey realm fn []) (calls (user f) !! callKey realm fn args) (no_call realm fn args) simulate).
Definition RunAsUser f (master code : string) (simulate : bool) : state E * res (failure E) TxResult :=
  (note_master master f, seeded_tx f (runErrors (user f) !! code) (runs (user f) !! code) (no_run code) simulate).

Definition LastSend f : string := lastSend f.
Definition LastAsUserMaster f : string := lastAsUserMstr (user f).

(** ** Agent-signed transactions *)

Definition SetCall (realm fn : string) (args : list string) (result : TxResult) f := let a := agent f in
  with_agent (mkAgent (<[callKey realm fn args := result]> (agentCalls a)) (agentCallErrors a) (agentRuns a)) f.
Definition SetCallError (realm fn : string) (err : option E) f := let a := agent f in
  with_agent (mkAgent (agentCalls a) (<[callKey realm fn [] := err]> (agentCallErrors a)) (agentRuns a)) f.
Definition SetRun (code : string) (result : TxResult) f := let a := agent f in
  with_agent (mkAgent (agentCalls a) (agentCallErrors a) (<[code := result]> (agentRuns a))) f.

Definition Call f (realm fn : string) (args : list string) (send : string) (simulate : bool) : state E * res (failure E) TxResult :=
  (with_send send f,
   seeded_tx f (agentCallErrors (agent f) !! callKey realm fn []) (agentCalls (agent f) !! callKey realm fn args) (no_call realm fn args) simulate).
Definition Run f (code : string) (simulate : bool) : res (failure E) TxResult :=
  seeded_tx f None (agentRuns (agent f) !! code) (no_run code) simulate.

(** ** Deploys *)

Definition SetAddPackage (deployPath : string) (result : TxResult) f := let d := deploys f in
  with_deploys (mkDeploys (<[deployPath := result]> (addPkgs d)) (addPkgErrs d) (addPkgBcasts d) (lastAddPkgFiles d)) f.
Definition SetAddPackageError (deployPath : string) (err : option E) f := let d := deploys f in
  with_deploys (mkDeploys (addPkgs d) (<[deployPath := err]> (addPkgErrs d)) (addPkgBcasts d) (lastAddPkgFiles d)) f.

Definition AddPackageBroadcasts f (deployPath : string) : Z := default 0 (addPkgBcasts (deploys f) !! deployPath).
Definition LastAddPackageFiles f (deployPath : string) : list MemFile := default [] (lastAddPkgFiles (deploys f) !! deployPath).

Definition AddPackage f (deployPath : string) (fs : list MemFile) (simulate : bool) : state E * res (failure E) TxResult :=
  let d := deploys f in
  (with_deploys (mkDeploys (addPkgs d) (addPkgErrs d)
     (if simulate then addPkgBcasts d else <[deployPath := AddPackageBroadcasts f deployPath + 1]> (addPkgBcasts d))
     (<[deployPath := fs]> (lastAddPkgFiles d))) f,
   seeded_tx f (addPkgErrs d !! deployPath) (addPkgs d !! deployPath) ("fake: no addpackage for deployPath=" +:+ q deployPath) simulate).

(** ** Package statuses *)

Definition SetPackageMetaErr (path : string) (err : option E) f := let p := packages f in
  with_packages (mkPackages (pkgMetas p) (<[path := err]> (pkgMetaErrs p)) (pkgMetaCalls p) (delete path (pkgMetaFailAt p))) f.
Definition SetPackageMetaSequence (path : string) (metas : list PackageMeta) f := let p := packages f in
  with_packages (mkPackages (<[path := metas]> (pkgMetas p)) (pkgMetaErrs p) (pkgMetaCalls p) (pkgMetaFailAt p)) f.
Definition FailPackageMetaFrom (path : string) (call : Z) (err : option E) f := let p := packages f in
  with_packages (mkPackages (pkgMetas p) (<[path := err]> (pkgMetaErrs p)) (pkgMetaCalls p) (<[path := call]> (pkgMetaFailAt p))) f.
Definition PackageMetaCalls f (path : string) : Z := default 0 (pkgMetaCalls (packages f) !! path).

(** What call number [n] answers. *)
Definition nth_meta f (path : string) (n : Z) : res (failure E) PackageMeta :=
  let p := packages f in
  let scripted :=
    match default [] (pkgMetas p !! path) with
    | [] => mkMeta PackageAbsent "" false
    | m :: metas => nth (Z.to_nat (Z.min n (Z.of_nat (List.length metas)))) (m :: metas) unread_meta
    end in
  match pkgMetaErrs p !! path with
  | Some (Some e) => if default 0 (pkgMetaFailAt p !! path) <=? n then Err (Seeded e) else Ok scripted
  | _ => Ok scripted
  end.

Definition PackageMeta_ f (path : string) : state E * res (failure E) PackageMeta :=
  let p := packages f in
  let n := PackageMetaCalls f path in
  (with_packages (mkPackages (pkgMetas p) (pkgMetaErrs p) (<[path := n + 1]> (pkgMetaCalls p)) (pkgMetaFailAt p)) f, nth_meta f path n).

(** ** Accounts, sessions and funds *)

Definition SetSession (master sessionAddr : string) (st : SessionStatus) f := let a := accts f in
  with_accts (mkAccounts (<[sessionKey master sessionAddr := st]> (sessions a)) (sessionErrors a) (accounts a) (accountErrors a)) f.
Definition SetSessionError (master sessionAddr : string) (err : option E) f := let a := accts f in
  with_accts (mkAccounts (sessions a) (<[sessionKey master sessionAddr := err]> (sessionErrors a)) (accounts a) (accountErrors a)) f.
Definition SetAccount (addr : string) (info : AccountInfo) f := let a := accts f in
  with_accts (mkAccounts (sessions a) (sessionErrors a) (<[addr := info]> (accounts a)) (accountErrors a)) f.
Definition SetAccountError (addr : string) (err : option E) f := let a := accts f in
  with_accts (mkAccounts (sessions a) (sessionErrors a) (accounts a) (<[addr := err]> (accountErrors a))) f.

Definition QuerySession f (master sessionAddr : string) : res (failure E) SessionStatus :=
  unless (mjoin (sessionErrors (accts f) !! sessionKey master sessionAddr))
    (default inactive (sessions (accts f) !! sessionKey master sessionAddr)).
Definition Account f (addr : string) : res (failure E) AccountInfo :=
  unless (mjoin (accountErrors (accts f) !! addr)) (default no_account (accounts (accts f) !! addr)).

Definition balance_of f (addr : string) : Z := default 0 (balances (bank f) !! addr).
Definition Balance f (addr : string) : res (failure E) Z := Ok (balance_of f addr).
Definition SetBalance (addr : string) (ugnot : Z) f := let b := bank f in
  with_bank (mkBank (<[addr := ugnot]> (balances b)) (bankSends b) (sendErr b)) f.
Definition SetSendError (err : option E) f := let b := bank f in with_bank (mkBank (balances b) (bankSends b) err) f.
Definition BankSends f : list (string * Z) := bankSends (bank f).

Definition move (m : gmap string Z) (addr : string) (d : Z) : gmap string Z := <[addr := wrap64 (default 0 (m !! addr) + d)]> m.

(** [from] is the signer's address, [None] without a signer that has one. *)
Definition Send f (from : option string) (toAddr : string) (amountUgnot : Z) : state E * res (failure E) TxResult :=
  let b := bank f in
  match sendErr b with
  | Some e => (f, Err (Seeded e))
  | None =>
      if amountUgnot <=? 0 then (f, Err (Own ("send: amount must be positive, got " +:+ format_int amountUgnot)))
      else
        let debited := match from with Some a => move (balances b) a (- amountUgnot) | None => balances b end in
        (with_bank (mkBank (move debited toAddr amountUgnot) (bankSends b ++ [(toAddr, amountUgnot)]) (sendErr b)) f,
         Ok (ChainTypes.mkTx "0xsend" 1 "" 1 0 (gasFee (node f)) false))
  end.
End fake.

(** ** The double as the tools' client

    A handler's client answers as a function of the effects so far: the double
    answers from the state those effects left it in. *)
Section client.
Context {E : Type} (is_print : Z → bool).
Implicit Types f : state E.

Definition effect_on f (e : effect) : state E :=
  match e with
  | EfAddPkg _ path fs simulate => (AddPackage is_print f path fs simulate).1
  | EfMeta path => (PackageMeta_ f path).1
  | EfSend from to amount => (Send f (Some from) to amount).1
  | _ => f
  end.
Definition replay f (tr : trace) : state E := foldl effect_on f tr.

Lemma replay_app f a b : replay f (a ++ b) = replay (replay f a) b.
Proof. apply foldl_app. Qed.

(** Nothing a handler does changes what was seeded, balances apart. *)
Record same_seeds f f' : Prop := {
  same_reads : reads f' = reads f;
  same_accts : accts f' = accts f;
  same_node : node f' = node f;
  same_addPkgs : addPkgs (deploys f') = addPkgs (deploys f);
  same_addPkgErrs : addPkgErrs (deploys f') = addPkgErrs (deploys f);
  same_metas : pkgMetas (packages f') = pkgMetas (packages f);
  same_metaErrs : pkgMetaErrs (packages f') = pkgMetaErrs (packages f);
  same_failAt : pkgMetaFailAt (packages f') = pkgMetaFailAt (packages f);
  same_sendErr : sendErr (bank f') = sendErr (bank f);
}.

Lemma same_seeds_refl f : same_seeds f f.
Proof. done. Qed.

Lemma effect_on_seeds f e : same_seeds f (effect_on f e).
Proof. destruct e; try done. cbn. unfold Send. destruct (sendErr (bank f)) eqn:He; [done|]. case_match; [done|]. by split; cbn. Qed.

Lemma replay_seeds f tr : same_seeds f (replay f tr).
Proof.
  revert f. induction tr as [|e tr IH]; intros f; [done|]. change (replay f (e :: tr)) with (replay (effect_on f e) tr). pose proof (effect_on_seeds f e) as [].
  destruct (IH (effect_on f e)) as []. split; congruence.
Qed.

(** *** What the tests read *)

Definition is_broadcast (path : string) (e : effect) : bool := match e with EfAddPkg _ p _ false => bool_decide (p = path) | _ => false end.
Definition is_poll (path : string) (e : effect) : bool := match e with EfMeta p => bool_decide (p = path) | _ => false end.
Definition count (p : effect → bool) (tr : trace) : Z := Z.of_nat (List.length (List.filter p tr)).
Definition deployed_files (path : string) (e : effect) : option (list MemFile) :=
  match e with EfAddPkg _ p fs _ => if bool_decide (p = path) then Some fs else None | _ => None end.
Definition transfer (e : effect) : option (string * Z) :=
  match e with EfSend _ to amount => if amount <=? 0 then None else Some (to, amount) | _ => None end.

Lemma count_cons p e tr : count p (e :: tr) = (if p e then 1 else 0) + count p tr.
Proof. unfold count. cbn. destruct (p e); cbn [List.length]; lia. Qed.

Lemma count_app p a b : count p (a ++ b) = count p a + count p b.
Proof. unfold count. rewrite List.filter_app, length_app. lia. Qed.

Lemma effect_broadcasts f e path : AddPackageBroadcasts (effect_on f e) path =
  AddPackageBroadcasts f path + (if is_broadcast path e then 1 else 0).
Proof.
  destruct e as [| | | | | | | a p fs sim| |? to amount|p| | | | | | | | | | | | | |]; cbn; try lia.
  - destruct sim; unfold AddPackageBroadcasts; cbn; [lia|]. case_bool_decide as E0.
    + subst. by rewrite lookup_insert_eq.
    + rewrite lookup_insert_ne by done. cbn. lia.
  - unfold Send. repeat case_match; unfold AddPackageBroadcasts; cbn; lia.
  - unfold AddPackageBroadcasts. cbn. lia.
Qed.

(** [AddPackageBroadcasts] counts the broadcasts at the path, and nothing
    else. *)
Lemma replay_broadcasts f tr path :
  AddPackageBroadcasts (replay f tr) path = AddPackageBroadcasts f path + count (is_broadcast path) tr.
Proof.
  revert f. induction tr as [|e tr IH]; intros f; [unfold count; cbn; lia|].
  cbn. fold (replay (effect_on f e) tr). rewrite IH, effect_broadcasts, count_cons. lia.
Qed.

Lemma effect_meta_calls f e path : PackageMetaCalls (effect_on f e) path =
  PackageMetaCalls f path + (if is_poll path e then 1 else 0).
Proof.
  destruct e as [| | | | | | | a p fs sim| |? to amount|p| | | | | | | | | | | | | |]; cbn; try lia.
  - unfold PackageMetaCalls. cbn. lia.
  - unfold Send. repeat case_match; unfold PackageMetaCalls; cbn; lia.
  - unfold PackageMetaCalls. cbn. case_bool_decide as E0.
    + subst. by rewrite lookup_insert_eq.
    + rewrite lookup_insert_ne by done. cbn. lia.
Qed.

Lemma replay_meta_calls f tr path : PackageMetaCalls (replay f tr) path = PackageMetaCalls f path + count (is_poll path) tr.
Proof.
  revert f. induction tr as [|e tr IH]; intros f; [unfold count; cbn; lia|].
  cbn. fold (replay (effect_on f e) tr). rewrite IH, effect_meta_calls, count_cons. lia.
Qed.

Lemma replay_files f tr path :
  LastAddPackageFiles (replay f tr) path = default (LastAddPackageFiles f path) (last (omap (deployed_files path) tr)).
Proof.
  induction tr as [|e tr IH] using rev_ind; [done|]. rewrite replay_app, omap_app. cbn [replay foldl omap list_omap].
  destruct e as [| | | | | | | a p fs sim| |? to amount|p| | | | | | | | | | | | | |]; cbn [effect_on deployed_files]; rewrite ?app_nil_r; try exact IH.
  - case_bool_decide as E0.
    + subst. rewrite last_snoc. unfold LastAddPackageFiles. cbn. by rewrite lookup_insert_eq.
    + rewrite app_nil_r, <- IH. unfold LastAddPackageFiles. cbn. by rewrite lookup_insert_ne.
  - rewrite <- IH. unfold Send. repeat case_match; done.
Qed.

(** [BankSends] are the accepted transfers, in order. *)
Lemma replay_sends f tr : sendErr (bank f) = None → BankSends (replay f tr) = BankSends f ++ omap transfer tr.
Proof.
  intros Hs. induction tr as [|e tr IH] using rev_ind; [by rewrite app_nil_r|]. rewrite replay_app, omap_app. cbn [replay foldl].
  destruct (replay_seeds f tr) as [_ _ _ _ _ _ _ _ Hse]. rewrite Hs in Hse. rewrite app_assoc, <- IH.
  destruct e as [| | | | | | | a p fs sim| |? to amount|p| | | | | | | | | | | | | |]; cbn [effect_on omap list_omap transfer]; rewrite ?app_nil_r; try done.
  unfold Send. rewrite Hse. by destruct (amount <=? 0); cbn; rewrite ?app_nil_r.
Qed.
End client.

(** ** gno_addpkg over the double *)

Definition as_go (e : failure go_error) : go_error :=
  match e with Seeded e => e | Own text => mkGoErr text [text] false end.
Definition as_text (e : failure go_error) : string := ge_text (as_go e).

Section addpkg.
Context (is_print : Z → bool) {Signer : Type} (now : trace → Time) (done_ : trace → bool).
Implicit Types f : state go_error.

Abbreviation after := (replay is_print).

Definition fake_chain f : Chain (Signer := Signer) := mkChain
  (λ tr, map_err as_text (SubmissionPolicy (after f tr)))
  (λ tr addr, map_err as_text (Balance (after f tr) addr))
  (λ tr _ path fs simulate, map_err as_go (AddPackage is_print (after f tr) path fs simulate).2)
  (λ tr path, map_err as_text (PackageMeta_ (after f tr) path).2)
  now done_.

(** A seeded error fails every deploy of its path. *)
Lemma seeded_fails f tr signer path fs simulate e : addPkgErrs (deploys f) !! path = Some (Some e) →
  c_addpkg (fake_chain f) tr signer path fs simulate = Err e.
Proof.
  intros H. cbn. unfold AddPackage. cbn. destruct (replay_seeds is_print f tr) as [_ _ _ _ He _ _ _ _]. by rewrite He, H.
Qed.

Lemma policy_quiet (p : Profile) (simulate : bool) addr path :
  count (is_broadcast path) (EfPolicy :: balance_read p simulate addr) = 0 ∧
  omap (deployed_files path) (EfPolicy :: balance_read p simulate addr) = [].
Proof. unfold balance_read. by case_match. Qed.

Lemma waits_quiet w path p evs : Forall (wait_event path w) evs → count (is_broadcast p) evs = 0 ∧ omap (deployed_files p) evs = [].
Proof.
  induction 1 as [|e evs He _ IH]; [done|]. rewrite count_cons. destruct IH as [-> H].
  destruct He as [-> |(d & -> & _)]; done.
Qed.

Lemma status_quiet (c : Chain (Signer := Signer)) w path policy res tr evs status p :
  status_true w c path policy res tr evs status → count (is_broadcast p) evs = 0 ∧ omap (deployed_files p) evs = [].
Proof. destruct 1 as [_ -> |_ _ -> |out _ _ []]; [done|done|]. by eapply waits_quiet. Qed.

(** How the audit record tells that a broadcast was tried. *)
Definition broadcast_results : list string := ["broadcast_err"; "ok"; "parked"; "status_unknown"].
Definition unsent_results : list string := ["tool_err"; "validate_err"; "sim"; "sim_err"].

Lemma audit_of_sent status : audit_of false status ∈ broadcast_results.
Proof. unfold audit_of, broadcast_results. repeat case_match; set_solver. Qed.

(** One call's effect on the counters: [n] broadcasts of [path], and its files
    when it succeeded. *)
Record counted (path : string) (files : list MemFile) (evs : trace) (result : string) (ok : bool) (n : Z) : Prop := {
  counted_here : count (is_broadcast path) evs = n;
  counted_else : ∀ p, p ≠ path → count (is_broadcast p) evs = 0;
  counted_result : (n = 1 ∧ result ∈ broadcast_results) ∨ (n = 0 ∧ result ∈ unsent_results);
  counted_files : ok = true → last (omap (deployed_files path) evs) = Some files;
}.

Lemma went_counted w (c : Chain (Signer := Signer)) signer addr path policy files simulate tr evs result ok :
  went w c signer addr path policy files simulate tr evs result ok → ∃ n, counted path files evs result ok n.
Proof.
  assert (Hone : ∀ sim q, count (is_broadcast q) [EfAddPkg addr path files sim] = if sim then 0 else if bool_decide (path = q) then 1 else 0).
  { intros [] q; unfold count; cbn; [done|]. by case_bool_decide. }
  assert (Hf : ∀ sim, omap (deployed_files path) [EfAddPkg addr path files sim] = [files]).
  { intros sim. cbn. by rewrite bool_decide_eq_true_2. }
  destruct 1 as [e -> _|pre ask -> _ res es status _ Hs|pre e -> _ _].
  - exists 0. split; [by rewrite Hone|intros; by rewrite Hone|right; split; [done|set_solver]|done].
  - assert (Hq : ∀ p, count (is_broadcast p) es = 0 ∧ omap (deployed_files p) es = []) by (intros; by eapply status_quiet).
    assert (Hc : ∀ p, count (is_broadcast p) ((if simulate then [] else [EfAddPkg addr path files true]) ++ ask :: es) =
                 if simulate then 0 else if bool_decide (path = p) then 1 else 0).
    { intros p. rewrite count_app. change (ask :: es) with ([ask] ++ es). rewrite count_app, (proj1 (Hq p)). unfold ask. rewrite Hone.
      destruct simulate; rewrite ?Hone; unfold count; cbn; lia. }
    eexists. split; [done|intros p Hp; rewrite Hc; rewrite bool_decide_eq_false_2 by done; by destruct simulate| |].
    + rewrite Hc, bool_decide_eq_true_2 by done. destruct simulate; [right; split; [done|set_solver]|left; split; [done|apply audit_of_sent]].
    + intros _. change (ask :: es) with ([ask] ++ es). unfold ask. rewrite !omap_app, Hf, (proj2 (Hq path)), app_nil_r. by rewrite last_snoc.
  - assert (Hc : ∀ p, count (is_broadcast p) ((if simulate then [] else [EfAddPkg addr path files true]) ++ [EfAddPkg addr path files simulate]) =
                 if simulate then 0 else if bool_decide (path = p) then 1 else 0).
    { intros p. rewrite count_app, Hone. destruct simulate; rewrite ?Hone; unfold count; cbn; lia. }
    eexists. split; [done|intros p Hp; rewrite Hc; rewrite bool_decide_eq_false_2 by done; by destruct simulate| |done].
    rewrite Hc, bool_decide_eq_true_2 by done. destruct simulate; [right; split; [done|set_solver]|left; split; [done|set_solver]].
Qed.

Lemma went_seeded w f signer addr path policy files simulate tr evs result ok e :
  went w (fake_chain f) signer addr path policy files simulate tr evs result ok → addPkgErrs (deploys f) !! path = Some (Some e) →
  count (is_broadcast path) evs = 0 ∧ ok = false.
Proof.
  intros H He. pose proof (λ tr sim, seeded_fails f tr signer path files sim e He) as Hf.
  destruct H as [e' -> _|pre ask -> _ res es status Hok _|pre e' -> Hsim _]; [done|by rewrite Hf in Hok|].
  destruct simulate; [done|]. specialize (Hsim eq_refl). by rewrite Hf in Hsim.
Qed.

Lemma no_deploy_quiet p evs : filter (λ e, is_deploy e = true) evs = [] → count (is_broadcast p) evs = 0.
Proof.
  induction evs as [|e evs IH]; [done|]. rewrite count_cons. destruct e; try (rewrite filter_cons_False by done; intros H; rewrite IH by done; done).
  by rewrite filter_cons_True.
Qed.

Section run.
Context (ks_text : ks_error → string) (arg_text : arg_error → string).
Context (url_parse : string → option URL) (ParseIP : string → option IPKind) (GenGnoModLatest : string → string).
Context (signer_for : string → string → Profile → res ks_error Signer) (info : Signer → res string string).

(** What the double's counters say of one gno_addpkg call: at most one path's
    count moves, by one exactly when the audit record says a broadcast was
    tried; a path with a seeded error is never broadcast, so a count of 0 proves
    it; after a success the recorded files are the ones the request stands for. *)
Theorem fake_counts_deploys f w args srv tr : Clock now done_ → 0 < w_interval w ≤ maxInt64 →
  let '(tr', entry, r) := audited "gno_addpkg"
    (addpkgHandler is_print ks_text arg_text url_parse ParseIP GenGnoModLatest signer_for info args srv (λ _, Some (fake_chain f)) w) tr in
  ∃ path n,
    AddPackageBroadcasts (after f tr') path = AddPackageBroadcasts (after f tr) path + n ∧
    (∀ p, p ≠ path → AddPackageBroadcasts (after f tr') p = AddPackageBroadcasts (after f tr) p) ∧
    ((n = 1 ∧ EntryResult entry ∈ broadcast_results) ∨ (n = 0 ∧ EntryResult entry ∈ unsent_results)) ∧
    (∀ e, addPkgErrs (deploys f) !! path = Some (Some e) → n = 0 ∧ is_ok r = false) ∧
    (is_ok r = true → ∃ pn p q addr, addpkg_args is_print arg_text args srv pn p = Ok q ∧
       consistent GenGnoModLatest q addr path (LastAddPackageFiles (after f tr') path)).
Proof.
  intros Hclk Hw.
  pose proof (addpkgHandler_calls is_print ks_text arg_text url_parse ParseIP GenGnoModLatest signer_for info w args srv
    (λ _, Some (fake_chain f)) tr) as H.
  destruct (audited _ _ tr) as [[tr' entry] r]. destruct H as (evs & -> & H); [by intros ? ? [= <-]|done|].
  rewrite replay_app.
  assert (Hb : ∀ p, AddPackageBroadcasts (after (after f tr) evs) p = AddPackageBroadcasts (after f tr) p + count (is_broadcast p) evs)
    by (intros; apply replay_broadcasts).
  remember (is_ok r) as ok eqn:Eok. clear Eok r.
  destruct H as [evs entry Hno Hres|pn p q c policy signer addr path files evs0 entry ok _ Hargs Hc _ _ _ _ Hcons Hwent _].
  - exists "", 0. rewrite Hb, no_deploy_quiet by done. split; [done|]. split.
    { intros p _. rewrite Hb, no_deploy_quiet by done. lia. }
    rewrite Hres. split; [right; split; [done|set_solver]|]. by split.
  - injection Hc as <-. destruct (went_counted _ _ _ _ _ _ _ _ _ _ _ _ Hwent) as (n & [Hh Helse Hres Hf]).
    set (pre := EfPolicy :: balance_read p (ap_simulate q) addr) in *.
    assert (Hq : ∀ x, count (is_broadcast x) (pre ++ evs0) = count (is_broadcast x) evs0).
    { intros x. rewrite count_app. unfold pre. by rewrite (proj1 (policy_quiet p (ap_simulate q) addr x)). }
    change (EfPolicy :: balance_read p (ap_simulate q) addr ++ evs0) with (pre ++ evs0) in *.
    exists path, n. split; [by rewrite Hb, Hq, Hh|]. split.
    { intros x Hx. rewrite Hb, Hq, Helse by done. lia. }
    split; [done|]. split.
    + intros e He. destruct (went_seeded _ _ _ _ _ _ _ _ _ _ _ _ e Hwent He) as [H0 ->]. split; [congruence|done].
    + intros Hok. exists pn, p, q, addr. split; [done|].
      rewrite replay_files, omap_app. unfold pre. rewrite (proj2 (policy_quiet p (ap_simulate q) addr path)). cbn [app].
      rewrite (Hf Hok). exact Hcons.
Qed.
End run.
End addpkg.

(** ** A scripted package *)

Section script.
Context (is_print : Z → bool) {Signer : Type} (f : state go_error) (path : string).
Abbreviation c := (fake_chain (Signer := Signer) is_print slept (λ _, false) f).
Abbreviation calls_at tr := (PackageMetaCalls (replay is_print f tr) path).

(** A poll answers by its number alone. *)
Lemma poll_numbered tr : c_meta c tr path = map_err as_text (nth_meta f path (calls_at tr)).
Proof.
  cbn. unfold PackageMeta_. cbn. destruct (replay_seeds is_print f tr) as [_ _ _ _ _ Hm He Hf _].
  unfold nth_meta. by rewrite Hm, He, Hf.
Qed.

Definition live_at (n : Z) : bool := match nth_meta f path n with Ok m => Live m | Err _ => false end.

Lemma live_at_answer n : live_answer (map_err as_text (nth_meta f path n)) = live_at n.
Proof. unfold live_at. by destruct (nth_meta f path n). Qed.

Lemma calls_snoc tr e : calls_at (tr ++ [e]) = calls_at tr + (if is_poll path e then 1 else 0).
Proof. rewrite replay_app. cbn. apply effect_meta_calls. Qed.

Lemma scripted_loop w deadline m j : 0 < w_interval w ≤ maxInt64 → ∀ fuel prev prevErr st,
  nth_meta f path (calls_at (hist st) + Z.of_nat j) = Ok m → Live m = true →
  (∀ i, (i < j)%nat → live_at (calls_at (hist st) + Z.of_nat i) = false) →
  (j < fuel)%nat → slept (hist st) + Z.of_nat j * w_interval w < deadline →
  wp (wait_loop c fuel path w deadline prev prevErr)
    (λ st' r, r = Ok (Some (Ok m)) ∧ calls_at (hist st') = calls_at (hist st) + Z.of_nat j + 1) st.
Proof.
  intros Hw. induction j as [|j IH]; intros [|fuel] prev prevErr st Hm Hl Hn Hfu Ht; try lia; cbn [wait_loop]; repeat wp_step; rewrite poll_numbered.
  - rewrite Z.add_0_r in Hm. rewrite Hm. cbn [map_err]. rewrite Hl. wp_step. split; [done|].
    rewrite calls_snoc. cbn. rewrite bool_decide_eq_true_2 by done. lia.
  - pose proof (Hn 0%nat ltac:(lia)) as H0. rewrite Z.add_0_r, <- live_at_answer in H0. unfold live_answer in H0. rewrite H0.
    repeat wp_step.
    assert (Hs1 : slept (hist st ++ [EfMeta path]) = slept (hist st)) by (rewrite slept_app; cbn; lia).
    change (c_now c) with slept. rewrite Hs1.
    assert (Hleft : time_sub deadline (slept (hist st)) <=? 0 = false ∧ Z.min (w_interval w) (time_sub deadline (slept (hist st))) = w_interval w).
    { unfold time_sub. repeat case_match; b2p; split; try apply Z.leb_gt; unfold minInt64, maxInt64 in *; nia. }
    destruct Hleft as [-> Hmin]. repeat wp_step. change (c_done c) with (λ _ : trace, false). cbv beta iota. rewrite ?Hs1, Hmin.
    assert (Hc : calls_at ((hist st ++ [EfMeta path]) ++ [EfSleep (w_interval w)]) = calls_at (hist st) + 1).
    { rewrite !calls_snoc. cbn. rewrite bool_decide_eq_true_2 by done. lia. }
    eapply wp_mono; [apply IH|]; cbn [hist].
    + rewrite Hc. by replace (calls_at (hist st) + 1 + Z.of_nat j) with (calls_at (hist st) + Z.of_nat (S j)) by lia.
    + done.
    + intros i Hi. rewrite Hc. replace (calls_at (hist st) + 1 + Z.of_nat i) with (calls_at (hist st) + Z.of_nat (S i)) by lia. apply Hn. lia.
    + lia.
    + rewrite !slept_app. cbn. lia.
    + intros st' r [-> ->]. split; [done|]. rewrite Hc. lia.
Qed.

(** gno_addpkg's wait over a scripted double: when answer number [k] is the
    first live one and its turn comes within the timeout, the wait reports it,
    after exactly [k + 1] polls. *)
Theorem scripted_wait w st m (k : nat) : 0 < w_interval w ≤ maxInt64 → calls_at (hist st) = 0 →
  nth_meta f path (Z.of_nat k) = Ok m → Live m = true → (∀ i, (i < k)%nat → live_at (Z.of_nat i) = false) →
  Z.of_nat k * w_interval w < w_timeout w →
  let '(st', r) := waitLive c path w st in r = Ok (Some (Ok m)) ∧ calls_at (hist st') = Z.of_nat k + 1.
Proof.
  intros Hw H0 Hm Hl Hn Ht. apply (wp_elim _ (λ st' r, r = Ok (Some (Ok m)) ∧ calls_at (hist st') = Z.of_nat k + 1)).
  unfold waitLive. repeat wp_step. eapply wp_mono; [apply (scripted_loop w _ m k Hw)|]; rewrite ?H0; try done.
  - unfold wait_fuel. pose proof (wait_fuel_enough w (proj1 Hw)).
    set (q := Z.to_nat _) in *. assert (Z.of_nat k < Z.of_nat q) by nia. lia.
  - cbn. unfold time_add. lia.
Qed.
End script.

(** A script without errors: its entries in order, the last one for good. *)
Lemma nth_meta_script {E} (f : state E) path metas n m : pkgMetas (packages f) !! path = Some metas →
  mjoin (pkgMetaErrs (packages f) !! path) = None → 0 ≤ n →
  metas !! Z.to_nat (Z.min n (Z.of_nat (List.length metas) - 1)) = Some m → nth_meta f path n = Ok m.
Proof.
  intros Hm He Hn H. unfold nth_meta. rewrite Hm. unfold default, id.
  destruct metas as [|m0 metas]; [done|]. cbn [List.length] in H.
  replace (Z.of_nat (S (List.length metas)) - 1) with (Z.of_nat (List.length metas)) in H by lia.
  cbv beta iota zeta. rewrite (nth_lookup_Some _ _ unread_meta _ H). destruct (pkgMetaErrs (packages f) !! path) as [[e|]|]; done.
Qed.

(** From call [call] on the script fails, and before it answers as seeded. *)
Lemma nth_meta_fails {E} (f : state E) path call e n :
  nth_meta (FailPackageMetaFrom path call (Some e) f) path n =
    if call <=? n then Err (Seeded e) else nth_meta (SetPackageMetaErr path None f) path n.
Proof. unfold nth_meta. cbn. by rewrite !lookup_insert_eq. Qed.

(** ** Transfers *)

Section transfers.
Context {E : Type}.
Implicit Types f : state E.

(** An accepted transfer moves the amount, as the chain would, and a transfer
    to oneself moves nothing. *)
Theorem Send_moves f from to amount f' r : Send f (Some from) to amount = (f', Ok r) →
  (∀ a, int64 (balance_of f a)) → int64 amount →
  0 < amount ∧
  (from ≠ to → balance_of f' from = wrap64 (balance_of f from - amount) ∧ balance_of f' to = wrap64 (balance_of f to + amount)) ∧
  (from = to → balance_of f' to = balance_of f to) ∧
  (∀ a, a ≠ from → a ≠ to → balance_of f' a = balance_of f a).
Proof.
  unfold Send. intros H Hb Ha. destruct (sendErr (bank f)); [done|]. destruct (amount <=? 0) eqn:Hpos; [done|]. injection H as <- _. b2p.
  split; [done|]. unfold balance_of, move. cbn. split; [|split].
  - intros Hne. rewrite (lookup_insert_ne _ to from) by done. rewrite !lookup_insert_eq. rewrite lookup_insert_ne by done. done.
  - intros ->. rewrite !lookup_insert_eq. cbn. rewrite wrap64_add_l.
    replace (default 0 (balances (bank f) !! to) + - amount + amount) with (balance_of f to) by (unfold balance_of; lia).
    apply wrap64_id, Hb.
  - intros a Hf Ht. by rewrite !lookup_insert_ne.
Qed.

(** The double refuses what [Real.Send] refuses: an amount that is not
    positive, before anything else happens on either side. *)
Theorem Send_as_real f from to amount {S} (decode : string → option GasPrice) node parse Info (sg : option S) : sendErr (bank f) = None → amount ≤ 0 →
  ChainClient.Send parse decode Info node sg to amount [] = ([], Err (mkErr "send" (BadAmount amount))) ∧
  Send f from to amount = (f, Err (Own ("send: amount must be positive, got " +:+ format_int amount))).
Proof.
  intros Hs Ha. unfold Send, ChainClient.Send. rewrite Hs, (proj2 (Z.leb_le _ _) Ha). done.
Qed.
End transfers.

(** ** Keys *)

Lemma cut_bar a b a' b' : str_forall (λ x, negb (is_char "|" x)) a = true → str_forall (λ x, negb (is_char "|" x)) a' = true →
  a +:+ "|" +:+ b = a' +:+ "|" +:+ b' → a = a' ∧ b = b'.
Proof.
  revert a'. induction a as [|x a IH]; intros [|x' a'] Ha Ha' H; cbn in *.
  - injection H as H. by split.
  - injection H as <- _. done.
  - injection H as -> _. done.
  - injection H as -> H. b2p. destruct (IH a') as [-> ->]; done.
Qed.

(** Keys tell the master, and the realm and function, apart unless they hold a bar. *)
Lemma sessionKey_inj m s m' s' : str_forall (λ x, negb (is_char "|" x)) m = true → str_forall (λ x, negb (is_char "|" x)) m' = true →
  sessionKey m s = sessionKey m' s' → m = m' ∧ s = s'.
Proof. apply cut_bar. Qed.

Lemma callKey_inj r fn args r' fn' args' :
  Forall (λ s, str_forall (λ x, negb (is_char "|" x)) s = true) [r; fn; r'; fn'] →
  callKey r fn args = callKey r' fn' args' → r = r' ∧ fn = fn' ∧ GoText.join "," args = GoText.join "," args'.
Proof.
  intros H Hk. rewrite !Forall_cons in H. destruct H as (? & ? & ? & ? & _).
  apply cut_bar in Hk as [-> Hk]; [|done..]. by apply cut_bar in Hk as [-> ->].
Qed.

(** The arguments themselves are not told apart: a comma in one reads as two. *)
Example callKey_conflates : callKey "r" "F" ["a,b"] = callKey "r" "F" ["a"; "b"] ∧ callKey "r" "F" [""] = callKey "r" "F" [].
Proof. done. Qed.

(** ** Sessions *)

(** As the session manager's client: an address nothing was seeded for is not a
    session, a seeded status is the answer, and a seeded error comes through
    whatever else was seeded. *)
Lemma QuerySession_answers {E} (f : state E) m s m' s' st e :
  QuerySession (NewFake (E := E)) m s = Ok inactive ∧
  (sessionErrors (accts f) !! sessionKey m s = None → QuerySession (SetSession m s st f) m s = Ok st) ∧
  (sessionKey m' s' ≠ sessionKey m s → QuerySession (SetSession m s st f) m' s' = QuerySession f m' s') ∧
  QuerySession (SetSession m s st (SetSessionError m s (Some e) f)) m s = Err (Seeded e).
Proof.
  unfold QuerySession. cbn. split_and!.
  - done.
  - intros ->. by rewrite lookup_insert_eq.
  - intros Hk. by rewrite lookup_insert_ne.
  - by rewrite lookup_insert_eq.
Qed.

(** *** Runs *)

Definition toy_fake : state go_error :=
  SetSubmissionPolicy "inert" (SetBalance "g1sg" 7 (SetAddPackage "gno.land/r/g1sg/hello" (ChainTypes.mkTx "0xabc" 9 "" 5 0 0 false)
    (SetPackageMetaSequence "gno.land/r/g1sg/hello" [mkMeta "inert" "queued" true; mkMeta "inert" "queued" true; mkMeta "live" "" false] NewFake))).

Definition toy_deploy (f : state go_error) : tool Result :=
  addpkgHandler (λ _, true) (λ _, "") (λ _, "") (λ _, None) (λ _, None) (λ path, "module = " +:+ path) (λ _ _ _, Ok "sg")
    (λ sg, Ok ("g1" +:+ sg)) toy_args (NewServer {["p" := endpoint "https://rpc.test5.gno.land" "test5"]} "")
    (λ _, Some (fake_chain (λ _, true) slept (λ _, false) f)) parkWaitDefault.

(** A parked deploy whose approver answers at the third poll. *)
Example parked_then_live :
  let '(tr, entry, r) := audited "gno_addpkg" (toy_deploy toy_fake) [] in
  let f := replay (λ _, true) toy_fake tr in
  (EntryResult entry, AddPackageBroadcasts f "gno.land/r/g1sg/hello", PackageMetaCalls f "gno.land/r/g1sg/hello",
   FileName <$> LastAddPackageFiles f "gno.land/r/g1sg/hello") = ("ok", 1, 3, ["gnomod.toml"; "hello.gno"]).
Proof. vm_compute. reflexivity. Qed.

(** A refused validation: nothing was broadcast. *)
Example refused_never_broadcast :
  let f := SetAddPackageError "gno.land/r/g1sg/hello" (Some (mkGoErr "type check failed" [] false)) toy_fake in
  let '(tr, entry, r) := audited "gno_addpkg" (toy_deploy f) [] in
  (EntryResult entry, AddPackageBroadcasts (replay (λ _, true) f tr) "gno.land/r/g1sg/hello") = ("validate_err", 0).
Proof. vm_compute. reflexivity. Qed.

Lemma fake_counts_deploys_witness :
  let '(tr', entry, r) := audited "gno_addpkg" (toy_deploy toy_fake) [] in
  ∃ path n, AddPackageBroadcasts (replay (λ _, true) toy_fake tr') path = 0 + n ∧ (n = 0 ∨ n = 1).
Proof.
  pose proof (fake_counts_deploys (λ _, true) slept (λ _, false) (λ _, "") (λ _, "") (λ _, None) (λ _, None) (λ path, "module = " +:+ path)
    (λ _ _ _, Ok "sg") (λ sg, Ok ("g1" +:+ sg)) toy_fake parkWaitDefault toy_args
    (NewServer {["p" := endpoint "https://rpc.test5.gno.land" "test5"]} "") [] slept_clock) as H.
  unfold toy_deploy. destruct (audited _ _ []) as [[tr' entry] r].
  destruct H as (path & n & Hn & _ & Hr & _); [vm_compute; split; [reflexivity|discriminate]|].
  exists path, n. split; [exact Hn|]. destruct Hr as [[-> _]|[-> _]]; auto.
Defined.

Lemma scripted_wait_witness :
  let '(st', r) := waitLive (fake_chain (Signer := string) (λ _, true) slept (λ _, false) toy_fake) "gno.land/r/g1sg/hello" parkWaitDefault
    (mkSt [] (mkEntry "" "" "" "" "")) in r = Ok (Some (Ok (mkMeta "live" "" false))).
Proof.
  pose proof (scripted_wait (Signer := string) (λ _, true) toy_fake "gno.land/r/g1sg/hello" parkWaitDefault (mkSt [] (mkEntry "" "" "" "" ""))
    (mkMeta "live" "" false) 2) as H.
  destruct (waitLive _ _ _ _) as [st' r]. apply H; try reflexivity.
  - vm_compute. split; [reflexivity|discriminate].
  - intros [|[|i]] Hi; [reflexivity..|lia].
Defined.

Lemma Send_moves_witness :
  let f := SetBalance "g1a" 10 (NewFake (E := go_error)) in
  ∃ f' r, Send f (Some "g1a") "g1b" 4 = (f', Ok r) ∧ balance_of f' "g1a" = 6 ∧ balance_of f' "g1b" = 4.
Proof.
  intros f. eexists _, _. split; [reflexivity|].
  destruct (Send_moves f "g1a" "g1b" 4 _ _ eq_refl) as (_ & H & _).
  - intros a. unfold balance_of. cbn. destruct (decide (a = "g1a")) as [->|Ha]; [by vm_compute|].
    rewrite lookup_insert_ne by congruence. by vm_compute.
  - by vm_compute.
  - destruct H as [-> ->]; [discriminate|]. by vm_compute.
Defined.

End Fake.

(** ** The tx-indexer's double *)

Module IndexerFake.

Record state := mkFake { histories : gmap string (list TxEvent); activities : gmap string (list TxEvent) }.
Definition NewFake : state := mkFake ∅ ∅.
Definition SetHistory (realm : string) (events : list TxEvent) (f : state) : state := mkFake (<[realm := events]> (histories f)) (activities f).
Definition SetActivity (realm : string) (events : list TxEvent) (f : state) : state := mkFake (histories f) (<[realm := events]> (activities f)).

Definition History (f : state) (realm : string) : res string (list TxEvent) :=
  ok_or ("fake: no history for " +:+ realm) (histories f !! realm).

Definition within (since until : option Time) (e : TxEvent) : bool :=
  negb (match since with Some s => EvTime e <? s | None => false end) && negb (match until with Some u => u <? EvTime e | None => false end).

Definition Activity (f : state) (realm : string) (since until : option Time) : res string (list TxEvent) :=
  v ← ok_or ("fake: no activity for " +:+ realm) (activities f !! realm);
  mret (filter (λ e, within since until e = true) v).

(** Without bounds the double agrees with the real client when it was seeded
    with what that answers; with a bound the real client answers nothing, while
    the double filters. *)
Theorem Activity_as_real f realm events post dec_env dec_txs url st all :
  (IndexerTools.History post dec_env dec_txs url realm st).2 = Ok (Ok all) → events = filter (λ e, is_activity e = true) all →
  activities f !! realm = Some events →
  (IndexerTools.Activity post dec_env dec_txs url realm None None st).2 = Ok (Activity f realm None None) ∧
  ∀ since until, is_Some since ∨ is_Some until →
    (∃ e, (IndexerTools.Activity post dec_env dec_txs url realm since until st).2 = Ok (Err e)) ∧
    is_ok (Activity f realm since until) = true.
Proof.
  intros Hh -> Ha. split.
  - unfold IndexerTools.Activity. cbn [bool_decide is_Some_dec orb]. unfold mbind, tool_bind.
    destruct (IndexerTools.History _ _ _ _ _ _) as [st' r]. cbn in Hh. subst r. cbn. unfold Activity. rewrite Ha. cbn.
    do 2 f_equal. symmetry. apply filter_all. apply Forall_forall. done.
  - intros since until Hb. unfold IndexerTools.Activity.
    rewrite (proj2 (orb_true_iff _ _)) by (rewrite !bool_decide_eq_true; done). cbn. split; [by eexists|]. unfold Activity. by rewrite Ha.
Qed.

(** Every event that is shown lies within the bounds, in the seeded order. *)
Lemma Activity_within f realm since until out : Activity f realm since until = Ok out → ∃ all,
  activities f !! realm = Some all ∧ out `sublist_of` all ∧
  Forall (λ e, (∀ s, since = Some s → s ≤ EvTime e) ∧ (∀ u, until = Some u → EvTime e ≤ u)) out.
Proof.
  unfold Activity. intros H. inv_res. exists x. split; [done|]. split; [apply sublist_filter|].
  eapply Forall_impl; [apply Forall_filter|]. cbn. unfold within. intros e He. b2p. split; intros ? ->; b2p; lia.
Qed.
End IndexerFake.
