(* ===== verification/Playground.v ===== *)
(** * The end-to-end playground ([src/playground/e2e])

    [cmd/gnoquery]: the command that reads the chain below gnomcp.  [simnet]:
    the simulated network gnomcp is run against, its genesis, its faucet and
    its gnoweb front.  gno's node, loader and gnoweb are arguments. *)
From S2P Require Import Prelude GoText GoTime GasPrice Profiles ChainTypes ChainClient Limiter FaucetSvc Keystore ServerCore TxTools ProfileAdd ProfileCmd NodeReads.
From stdpp Require Import prelude strings gmap list relations.
From Stdlib Require Import ZArith Lia Ascii String.
Local Open Scope Z_scope.

Module GnoQuery.

Definition defaultRPC : string := "http://testnet.gnomcp.sim:26687".

Definition usage : string :=
  "usage: gnoquery [-rpc URL] <command>" +:+ NL +:+
  "  status                       chain-id and latest height" +:+ NL +:+
  "  height                       latest block height" +:+ NL +:+
  "  render <pkgpath> [path]      a realm's Render(path) output" +:+ NL +:+
  "  eval   <pkgpath> <expr>      evaluate an expression (e.g. " +:+ dq +:+ "Total()" +:+ dq +:+ ")" +:+ NL +:+
  "  balance <bech32-addr>        an account's coins".

(** What the process wrote and its exit code, with the queries it made. *)
Inductive query := QStatus | QRender (pkg path : string) | QEval (pkg expr : string) | QAccount (addr : string).
Record run_result := mkRun { code : Z; stdout : string; stderr : string; asked : list (string * query) }.

Section gnoquery.
Context (is_print : Z → bool) (NewHTTPClient : string → option string).
Context (status_of : string → res string ResultStatus) (render qeval : string → string → string → res string string).
(** [None] is an account the node does not know. *)
Context (QueryAccount : string → string → res string (option Coins)) (coins_string : Coins → string).
Context (AddressFromBech32 : string → res string string).
(** What package flag prints when it refuses the words. *)
Context (flag_complaint : flag_error → string).

(** [fs.Parse] and [fs.Args] with the one flag [-rpc]. *)
Fixpoint parse_rpc (rpc : string) (argv : list string) : res flag_error (string * list string) :=
  match argv with
  | [] => Ok (rpc, [])
  | s :: rest =>
      match flag_of s with
      | NotAFlag => Ok (rpc, argv)
      | EndOfFlags => Ok (rpc, rest)
      | BadWord => Err (BadFlagSyntax s)
      | FlagWord name value =>
          if bool_decide (name = "rpc") then
            match value, rest with
            | Some v, _ => parse_rpc v rest
            | None, v :: rest => parse_rpc v rest
            | None, [] => Err (FlagNeedsArgument name)
            end
          else Err (if bool_decide (name = "help") || bool_decide (name = "h") then FlagHelp else FlagUndefined name)
      end
  end.

Definition usage_error (text : string) : run_result := mkRun 2 "" text [].
Definition fail (err : string) (qs : list (string * query)) : run_result := mkRun 1 "" ("gnoquery: " +:+ err +:+ NL) qs.
Definition emit (r : res string string) (qs : list (string * query)) : run_result :=
  match r with Ok out => mkRun 0 (out +:+ NL) "" qs | Err e => fail e qs end.

Definition withClient (rpcURL : string) (fn : run_result) : run_result :=
  match NewHTTPClient rpcURL with Some e => fail e [] | None => fn end.

Definition print_status (st : ResultStatus) : string :=
  "chain-id: " +:+ Network st +:+ NL +:+ "height: " +:+ format_int (LatestBlockHeight st).

Definition run_command (rpc : string) (args : list string) : run_result :=
  match args with
  | [] => usage_error (usage +:+ NL)
  | cmd :: rest =>
      if bool_decide (cmd = "status") then
        withClient rpc (emit (print_status <$> status_of rpc) [(rpc, QStatus)])
      else if bool_decide (cmd = "height") then
        withClient rpc (emit ((λ st, format_int (LatestBlockHeight st)) <$> status_of rpc) [(rpc, QStatus)])
      else if bool_decide (cmd = "render") then
        match rest with
        | [] => usage_error ("usage: gnoquery render <pkgpath> [path]" +:+ NL)
        | pkg :: more =>
            let path := default "" (head more) in
            withClient rpc (emit (render rpc pkg path) [(rpc, QRender pkg path)])
        end
      else if bool_decide (cmd = "eval") then
        match rest with
        | pkg :: expr :: _ => withClient rpc (emit (qeval rpc pkg expr) [(rpc, QEval pkg expr)])
        | _ => usage_error ("usage: gnoquery eval <pkgpath> <expr>" +:+ NL)
        end
      else if bool_decide (cmd = "balance") then
        match rest with
        | [] => usage_error ("usage: gnoquery balance <bech32-addr>" +:+ NL)
        | a :: _ =>
            match AddressFromBech32 a with
            | Err e => usage_error ("gnoquery: invalid address " +:+ quote is_print a +:+ ": " +:+ e +:+ NL)
            | Ok addr =>
                withClient rpc
                  match QueryAccount rpc addr with
                  | Err e => fail e [(rpc, QAccount addr)]
                  | Ok None => mkRun 1 ("(account not found)" +:+ NL) "" [(rpc, QAccount addr)]
                  | Ok (Some coins) => mkRun 0 (coins_string coins +:+ NL) "" [(rpc, QAccount addr)]
                  end
            end
        end
      else usage_error ("gnoquery: unknown command " +:+ quote is_print cmd +:+ NL +:+ usage +:+ NL)
  end.

Definition run (argv : list string) : run_result :=
  match parse_rpc defaultRPC argv with
  | Err e => usage_error (flag_complaint e)
  | Ok (rpc, args) => run_command rpc args
  end.

(** The read a command line stands for, [None] for one it cannot use. *)
Definition query_of (args : list string) : option query :=
  match args with
  | "status" :: _ | "height" :: _ => Some QStatus
  | "render" :: pkg :: more => Some (QRender pkg (default "" (head more)))
  | "eval" :: pkg :: expr :: _ => Some (QEval pkg expr)
  | "balance" :: a :: _ => match AddressFromBech32 a with Ok addr => Some (QAccount addr) | Err _ => None end
  | _ => None
  end.

(** What a query answers, as it is printed; [None] for an account the node does
    not know. *)
Definition answer (rpc : string) (args : list string) (q : query) : res string (option string) :=
  match q with
  | QStatus => (λ st, Some (if bool_decide (head args = Some "status") then print_status st else format_int (LatestBlockHeight st))) <$> status_of rpc
  | QRender pkg path => Some <$> render rpc pkg path
  | QEval pkg expr => Some <$> qeval rpc pkg expr
  | QAccount addr => option_map coins_string <$> QueryAccount rpc addr
  end.

(** A run on the command line [args] towards the node [rpc]. *)
Inductive ran (rpc : string) (args : list string) : run_result → Prop :=
  | RanUsage text : query_of args = None → ran rpc args (mkRun 2 "" text [])
  | RanUndialled q e : query_of args = Some q → NewHTTPClient rpc = Some e → ran rpc args (mkRun 1 "" ("gnoquery: " +:+ e +:+ NL) [])
  | RanFailed q e : query_of args = Some q → answer rpc args q = Err e → ran rpc args (mkRun 1 "" ("gnoquery: " +:+ e +:+ NL) [(rpc, q)])
  | RanUnknown q : query_of args = Some q → answer rpc args q = Ok None → ran rpc args (mkRun 1 ("(account not found)" +:+ NL) "" [(rpc, q)])
  | RanOk q out : query_of args = Some q → answer rpc args q = Ok (Some out) → ran rpc args (mkRun 0 (out +:+ NL) "" [(rpc, q)]).

Lemma emit_ran rpc args q r : query_of args = Some q → answer rpc args q = Some <$> r → ran rpc args (withClient rpc (emit r [(rpc, q)])).
Proof using Type.
  intros Hp Ha. unfold withClient. destruct (NewHTTPClient rpc) as [e|] eqn:Hd; [by eapply RanUndialled|].
  destruct r as [out|e]; cbn in *; [by eapply RanOk|by eapply RanFailed].
Qed.

Lemma query_of_other cmd rest : cmd ≠ "status" → cmd ≠ "height" → cmd ≠ "render" → cmd ≠ "eval" → cmd ≠ "balance" →
  query_of (cmd :: rest) = None.
Proof using Type. intros. unfold query_of. repeat case_match; congruence. Qed.

Lemma command_ran rpc args : ran rpc args (run_command rpc args).
Proof using Type.
  destruct args as [|cmd rest]; [by apply RanUsage|]. unfold run_command.
  case_bool_decide as E1; [subst; eapply emit_ran; [by destruct rest|]; cbn; by destruct (status_of rpc)|].
  case_bool_decide as E2; [subst; eapply emit_ran; [by destruct rest|]; cbn; by destruct (status_of rpc)|].
  case_bool_decide as E3; [subst; destruct rest as [|pkg more]; [by apply RanUsage|by eapply emit_ran]|].
  case_bool_decide as E4; [subst; destruct rest as [|pkg [|expr more]]; [by apply RanUsage..|by eapply emit_ran]|].
  case_bool_decide as E5; [subst|apply RanUsage; by apply query_of_other].
  destruct rest as [|a more]; [by apply RanUsage|]. destruct (AddressFromBech32 a) as [addr|e] eqn:Ha;
    [|apply RanUsage; cbn; by rewrite Ha].
  assert (Hq : query_of ("balance" :: a :: more) = Some (QAccount addr)) by (cbn; by rewrite Ha).
  unfold withClient. destruct (NewHTTPClient rpc) as [e|] eqn:Hd; [by eapply RanUndialled|].
  destruct (QueryAccount rpc addr) as [[c|]|e] eqn:Hc; [eapply RanOk|eapply RanUnknown|eapply RanFailed]; try exact Hq; cbn; by rewrite Hc.
Qed.

(** The documented exit codes: 2 exactly for words it cannot use, which ask
    nothing and print nothing to stdout; otherwise one read at most, the one the
    words stand for, of the node [-rpc] names, with code 0 exactly when it
    answered, and then stdout is that answer's line and stderr is empty. *)
Theorem gnoquery_codes argv :
  match parse_rpc defaultRPC argv with
  | Err e => run argv = mkRun 2 "" (flag_complaint e) []
  | Ok (rpc, args) => ran rpc args (run argv)
  end.
Proof using Type. unfold run. destruct (parse_rpc defaultRPC argv) as [[rpc args]|e]; [apply command_ran|done]. Qed.
End gnoquery.

Definition toy_run (argv : list string) : run_result :=
  run (λ _, true) (λ _, None) (λ rpc, Ok (mkStatusRes "test-9999" 7 0)) (λ rpc pkg path, Ok (pkg +:+ ":" +:+ path)) (λ _ _ _, Err "no realm")
    (λ _ a, Ok (if bool_decide (a = "g1known") then Some [mkCoin "ugnot" 5] else None)) (λ _, "5ugnot") (λ a, Ok a) (λ _, "flag") argv.

Example runs :
  (code (toy_run ["-rpc"; "http://n"; "status"]), asked (toy_run ["-rpc=http://n"; "height"])) = (0, [("http://n", QStatus)]) ∧
  (stdout (toy_run ["balance"; "g1known"]), code (toy_run ["balance"; "g1x"])) = ("5ugnot" +:+ NL, 1) ∧
  (code (toy_run []), code (toy_run ["-x"]), code (toy_run ["eval"; "r"]), code (toy_run ["eval"; "r"; "T()"])) = (2, 2, 2, 1).
Proof. by vm_compute. Qed.

End GnoQuery.

Module Simnet.

(** ** The node *)

Definition claPkgPath : string := "gno.land/r/sys/cla".

Record BootConfig := mkBoot { RealmsDir : string; BootChainID : string; RPCListen : string; CLAPkgDir : string; CLARequiredHash : string }.

(** The parts of gno's node configuration that are set. *)
Record NodeConfig {Tx : Type} := mkNodeCfg {
  PeerExchange : bool; ListenAddress : string; GenesisChainID : string; SkipGenesisSigVerification : bool; GenesisTxs : list Tx;
}.
Arguments NodeConfig : clear implicits.

Inductive boot_error :=
  | LoadCLA (dir e : string) | LoadRealms (dir e : string) | DeriveTest1 (e : string) | GenerateGenesis (e : string)
  | BuildActivation (e : string) | CreateNode (e : string) | StartNode (e : string) | NotReady.

(** [std.NewFee]: gas wanted and the fee's ugnot. *)
Definition genesis_fee : Z * Z := (500000, 1000000).

Section boot.
Context {Loader Key Tx Node : Type}.
Context (testing_config : NodeConfig Tx) (examplesRoot : string).
Context (NewPkgsLoader : Loader) (LoadPackage : Loader → string → string → string → res string Loader).
Context (LoadAllPackagesFromDir : Loader → string → res string Loader).
Context (GeneratePrivKeyFromMnemonic : string → res string Key) (GenerateTxs : Loader → Key → Z * Z → res string (list Tx)).
(** A genesis tx of one call, signed by the key for "tendermint_test". *)
Context (sign_call : Key → string → string → list string → Z * Z → res string Tx).
Context (NewInMemoryNode : NodeConfig Tx → res string Node) (Start : Node → option string).
(** [n.Ready()] within 15 seconds, and where the node listens. *)
Context (ready : Node → bool) (listen_of : Node → string).

Definition claActivationTx (key : Key) (hash : string) (fee : Z * Z) : res string Tx :=
  sign_call key claPkgPath "SetRequiredHash" [hash] fee.

Definition gate_on (c : BootConfig) : bool := negb (bool_decide (CLAPkgDir c = "")) && negb (bool_decide (CLARequiredHash c = "")).

Definition load_packages (c : BootConfig) : res boot_error Loader :=
  loader ← (if bool_decide (CLAPkgDir c = "") then Ok NewPkgsLoader
            else map_err (LoadCLA (CLAPkgDir c)) (LoadPackage NewPkgsLoader examplesRoot (CLAPkgDir c) ""));
  map_err (LoadRealms (RealmsDir c)) (LoadAllPackagesFromDir loader (RealmsDir c)).

Definition genesis_txs (c : BootConfig) : res boot_error (list Tx) :=
  loader ← load_packages c;
  key ← map_err DeriveTest1 (GeneratePrivKeyFromMnemonic Test1Mnemonic);
  txs ← map_err GenerateGenesis (GenerateTxs loader key genesis_fee);
  if gate_on c then
    act ← map_err BuildActivation (claActivationTx key (CLARequiredHash c) genesis_fee);
    mret (GenesisTxs testing_config ++ txs ++ [act])
  else mret (GenesisTxs testing_config ++ txs).

Definition node_config (c : BootConfig) (txs : list Tx) : NodeConfig Tx :=
  mkNodeCfg Tx false (RPCListen c) (BootChainID c) true txs.

(** The node that is stopped on the way out, if any, and the result. *)
Definition Boot (c : BootConfig) : option Node * res boot_error (Node * string) :=
  match genesis_txs c ≫= λ txs, map_err CreateNode (NewInMemoryNode (node_config c txs)) with
  | Err e => (None, Err e)
  | Ok n =>
      match Start n with
      | Some e => (None, Err (StartNode e))
      | None => if ready n then (None, Ok (n, listen_of n)) else (Some n, Err NotReady)
      end
  end.

(** A node that is handed out is ready, on the asked chain-id and address; its
    genesis deploys every package while the agreement gate is dormant, and the
    gate is armed by the last transaction exactly when a realm and a hash were
    given, with that hash. *)
Theorem Boot_genesis c n addr : (Boot c).2 = Ok (n, addr) →
  (Boot c).1 = None ∧ Start n = None ∧ ready n = true ∧ addr = listen_of n ∧
  ∃ loader key deploys, load_packages c = Ok loader ∧ GeneratePrivKeyFromMnemonic Test1Mnemonic = Ok key ∧
    GenerateTxs loader key genesis_fee = Ok deploys ∧
    ∃ txs, NewInMemoryNode (mkNodeCfg Tx false (RPCListen c) (BootChainID c) true txs) = Ok n ∧
      if gate_on c then ∃ act, txs = GenesisTxs testing_config ++ deploys ++ [act] ∧
           sign_call key claPkgPath "SetRequiredHash" [CLARequiredHash c] genesis_fee = Ok act
      else txs = GenesisTxs testing_config ++ deploys.
Proof using Type.
  unfold Boot. destruct (genesis_txs c ≫= _) as [n'|e] eqn:Hg; [|done]. destruct (Start n') as [e|] eqn:Hs; [done|].
  destruct (ready n') eqn:Hr; [|done]. cbn. intros [= <- <-]. split; [done|]. split; [done|]. split; [done|]. split; [done|].
  apply bind_Ok in Hg as (txs & Hg & Hn). apply map_err_Ok in Hn. unfold genesis_txs in Hg.
  apply bind_Ok in Hg as (loader & Hl & Hg). apply bind_Ok in Hg as (key & Hk & Hg). apply map_err_Ok in Hk.
  apply bind_Ok in Hg as (deploys & Hd & Hg). apply map_err_Ok in Hd. exists loader, key, deploys. split_and!; [done..|].
  exists txs. split; [exact Hn|]. destruct (gate_on c).
  - apply bind_Ok in Hg as (act & Ha & Hg). apply map_err_Ok in Ha. injection Hg as <-. by exists act.
  - by injection Hg as <-.
Qed.

(** A node that did not get ready is stopped. *)
Lemma Boot_not_ready c n : (Boot c).1 = Some n → (Boot c).2 = Err NotReady ∧ ready n = false.
Proof using Type.
  unfold Boot. destruct (genesis_txs c ≫= _) as [n'|e]; [|done]. destruct (Start n'); [done|].
  destruct (ready n') eqn:Hr; [done|]. by intros [= <-].
Qed.
End boot.

(** ** The faucet *)

Record FaucetConfig := mkFaucet { RPCAddr : string; FcChainID : string; FcListen : string; FcGrant : Z; FcPerAddrMax : Z }.

Inductive faucet_error := FeRpc (e : string) | FeSigner (e : string) | FeInfo (e : string) | FeListen (addr e : string).

Definition faucet_limits (cfg : FaucetConfig) : LimiterCfg := {|
  PerAddrWindow := 0; PerAddrMax := if FcPerAddrMax cfg =? 0 then 5 else FcPerAddrMax cfg;
  PerIPWindow := 0; PerIPMax := 100;
  DailyCapUgnot := 1000000000000; GrantUgnot := FcGrant cfg;
  DripBurstUgnot := 0; DripRateUgnotPerSec := 0;
|}.

Section faucet.
Context {Signer Addr : Type}.
Context (SignerFromBip39 : string → string → res string Signer) (Info : Signer → res string Addr) (NewHTTPClient : string → option string).
(** [net.Listen]: the address it got. *)
Context (net_Listen : string → res string string).

(** What is served, and where. *)
Definition StartFaucet (cfg : FaucetConfig) : res faucet_error (Faucet * LimiterCfg * gnoclientDispenser Addr * string) :=
  _ ← match NewHTTPClient (RPCAddr cfg) with Some e => Err (FeRpc e) | None => Ok tt end;
  signer ← map_err FeSigner (SignerFromBip39 Test1Mnemonic (FcChainID cfg));
  addr ← map_err FeInfo (Info signer);
  at_ ← map_err (FeListen (FcListen cfg)) (net_Listen (FcListen cfg));
  mret (New (FcChainID cfg) (FcGrant cfg) [], faucet_limits cfg, NewGnoclientDispenser addr DefaultGasWanted, at_).

(** The playground's faucet rations as configured: whatever it is asked, what it
    pays in a day stays within its million GNOT. *)
Theorem StartFaucet_rations {W} (parse : string → res string Addr) fmt (send : W → string → Z → W * res send_error string) paid
    cfg f lc disp at_ t0 w0 st :
  StartFaucet cfg = Ok (f, lc, disp, at_) → DispenserLaws paid (λ s, ∃ a, fmt a = s) send → 0 < t0 → 0 ≤ FcGrant cfg ≤ maxInt64 →
  rtc (sstep parse fmt send f) (service0 lc t0 w0) st →
  ∃ gs, outflow paid f lc t0 w0 st gs ∧ f_grantUgnot f = FcGrant cfg ∧ GrantUgnot lc = FcGrant cfg ∧ DailyCapUgnot lc = 1000000000000.
Proof using Type.
  intros H HD Ht Hg Hs. unfold StartFaucet in H. inv_res. unfold mret, res_ret in *. simplify_eq.
  destruct (faucet_daily_outflow parse fmt send paid (New (FcChainID cfg) (FcGrant cfg) []) (faucet_limits cfg) t0 w0 st HD Ht) as (gs & Ho); [exact Hg|cbn; unfold maxInt64; lia|exact Hs|].
  exists gs. split_and!; [exact Ho|done..].
Qed.
End faucet.

(** ** The web front *)

(** [rpcAddr[strings.LastIndex(rpcAddr, ":")+1:]] *)
Definition after_last_colon (s : string) : string := str_rev (fst (span (λ a, negb (is_char ":" a)) (str_rev s))).

(** What gnoweb's pages advertise: the alias, never the address it is bound to. *)
Definition advertised (hostname rpcAddr : string) : string := "http://" +:+ hostname +:+ ":" +:+ after_last_colon rpcAddr.

Record GnowebConfig := mkGnoweb { NodeRPC : string; AdvertisedRPC : string; WebChainID : string; WebListen : string }.
(** gnoweb's [AppConfig], as far as it is set. *)
Record AppConfig := mkApp { NodeRemote : string; RemoteHelp : string; AppChainID : string }.

Inductive web_error := WebRouter (e : string) | WebListenErr (addr e : string).

Definition StartGnoweb {Router} (NewRouter : AppConfig → res string Router) (net_Listen : string → res string string) (c : GnowebConfig)
    : res web_error (Router * string) :=
  router ← map_err WebRouter (NewRouter (mkApp (NodeRPC c) (AdvertisedRPC c) (WebChainID c)));
  at_ ← map_err (WebListenErr (WebListen c)) (net_Listen (WebListen c));
  mret (router, at_).

(** What gno_profile_add would refuse the front for does not happen: the
    advertised endpoint is no loopback as long as the alias is none. *)
Lemma advertised_usable fold_key runes url_parse ParseIP hostname rpcAddr page u : url_parse (advertised hostname rpcAddr) = Some u →
  Hostname u = hostname → equal_fold fold_key runes hostname "localhost" = false → ParseIP hostname = None →
  gnowebRPCUnusable fold_key runes url_parse ParseIP page (advertised hostname rpcAddr) = false.
Proof. intros Hu Hh Hl Hip. unfold gnowebRPCUnusable, hostIsLoopback. by rewrite Hu, Hh, Hl, Hip. Qed.

Example advertised_ex : advertised "testnet.gnomcp.sim" "tcp://127.0.0.1:26687" = "http://testnet.gnomcp.sim:26687".
Proof. reflexivity. Qed.

(** ** The process ([main]) *)

Inductive simnet_error := SimNode (e : boot_error) | SimFaucet (e : faucet_error) | SimWeb (e : web_error).

Record SimFlags := mkSim { sf_realms : string; sf_chain : string; sf_rpc : string; sf_faucet : string; sf_web : string; sf_host : string;
  sf_grant : Z; sf_per_addr : Z; sf_cla_dir : string; sf_cla_hash : string }.

Definition default_sim : SimFlags :=
  mkSim "/opt/e2e/realms" "test-9999" "tcp://127.0.0.1:26687" "127.0.0.1:8590" "127.0.0.1:8688" "testnet.gnomcp.sim" 1000000000 5 "" "".

Definition boot_config (fl : SimFlags) : BootConfig := mkBoot (sf_realms fl) (sf_chain fl) (sf_rpc fl) (sf_cla_dir fl) (sf_cla_hash fl).
Definition faucet_config (fl : SimFlags) (rpcAddr : string) : FaucetConfig := mkFaucet rpcAddr (sf_chain fl) (sf_faucet fl) (sf_grant fl) (sf_per_addr fl).
Definition web_config (fl : SimFlags) (rpcAddr : string) : GnowebConfig :=
  mkGnoweb rpcAddr (advertised (sf_host fl) rpcAddr) (sf_chain fl) (sf_web fl).

Section main.
Context {Node F Web : Type} (boot : BootConfig → res boot_error (Node * string)).
Context (start_faucet : FaucetConfig → res faucet_error F) (start_web : GnowebConfig → res web_error Web).

(** Everything runs until a signal, or the first part that fails ends it. *)
Definition main (fl : SimFlags) : res simnet_error (Node * F * Web) :=
  n ← map_err SimNode (boot (boot_config fl));
  f ← map_err SimFaucet (start_faucet (faucet_config fl n.2));
  w ← map_err SimWeb (start_web (web_config fl n.2));
  mret (n.1, f, w).

(** The three parts agree: one chain-id, and the faucet and the front on the
    very node that was booted. *)
Lemma main_wires fl n f w : main fl = Ok (n, f, w) → ∃ rpcAddr, boot (boot_config fl) = Ok (n, rpcAddr) ∧
  start_faucet (mkFaucet rpcAddr (sf_chain fl) (sf_faucet fl) (sf_grant fl) (sf_per_addr fl)) = Ok f ∧
  start_web (mkGnoweb rpcAddr (advertised (sf_host fl) rpcAddr) (sf_chain fl) (sf_web fl)) = Ok w.
Proof using Type. unfold main. intros H. inv_res. destruct x as [n rpcAddr]. unfold mret, res_ret in *. simplify_eq. by exists rpcAddr. Qed.
End main.

End Simnet.
